(** * WebGL capture transcoder: a shallow embedding of [webglDump] and [glb]

    The development follows the source modules of the transcoder: the
    capture decoder (pickMainDrawCall, buildStats, buildGltf, buildObj
    and the helpers below them), the binary container packer (buildGlb,
    padTo4) and the worker that runs them on request (gltfWorker).

    Conventions of the embedding.
    - A JavaScript [number] that the code uses as a byte offset, length,
      stride, identifier or enum is a [Z]; [Math.floor (a / b)] on such
      numbers is [Z.div] (floor division for either sign of [b]).
    - A JavaScript [number] that carries a decoded scalar is a binary64
      [float] (the kernel's primitive floats), so arithmetic on decoded
      values rounds as the engine does.
    - An optional field [f?: T] is an [option]; the flag [normalized] is
      only ever used for its truthiness and is a [bool].
    - A [throw] is the [Err] branch of [Result].
    - A number has one NaN.  The bit pattern that the engine writes
      when a NaN is stored into a [Float32Array] is not determined by
      the number; it is a parameter of the packing ([NanChoice]). *)

From Stdlib Require Import ZArith List Bool String Ascii Lia.
From Stdlib.Strings Require Import Byte.
From Stdlib Require Import Floats.
From stdpp Require Import base option list sorting gmap strings.

Local Open Scope Z_scope.

(** ** Errors and the result monad *)

(** The exceptions the two modules can raise.  The first five are the
    [new Error (...)] sites of the source, named after their messages;
    [RangeError] is the engine's own exception, raised by a [DataView]
    access outside the buffer and by an array constructor given an
    invalid length. *)
Inductive JsError : Type :=
  | MissingPositionAttribute
  | MissingPositionBuffer
  | MissingIndexBuffer
  | UnsupportedComponentType (typeEnum : Z)
  | UnsupportedScalarType (typeEnum : Z)
  | RangeError.

Inductive Result (A : Type) : Type :=
  | Ok (a : A)
  | Err (e : JsError).

Arguments Ok {A} a.
Arguments Err {A} e.

#[global] Instance Result_ret : MRet Result := fun A a => Ok a.
#[global] Instance Result_bind : MBind Result := fun A B f m =>
  match m with
  | Ok a => f a
  | Err e => Err e
  end.
#[global] Instance Result_fmap : FMap Result := fun A B f m =>
  match m with
  | Ok a => Ok (f a)
  | Err e => Err e
  end.

(** A [for (let i = 0; i < n; i++)] loop whose body may throw and whose
    iterations each produce one value: the values in order, or the first
    exception. *)
Fixpoint forEach {A B : Type} (body : A -> Result B) (l : list A) : Result (list B) :=
  match l with
  | [] => Ok []
  | i :: l' =>
      match body i with
      | Ok v =>
          match forEach body l' with
          | Ok vs => Ok (v :: vs)
          | Err e => Err e
          end
      | Err e => Err e
      end
  end.

(** The index range [0, n) of such a loop; empty when [n <= 0]. *)
Definition upTo (n : Z) : list Z := seqZ 0 n.

(** ** Bytes, ArrayBuffer and DataView *)

Definition byteVal (b : byte) : Z := Z.of_N (Byte.to_N b).

Definition byteOfZ (z : Z) : byte :=
  match Byte.of_N (Z.to_N (z mod 256)) with
  | Some b => b
  | None => x00
  end.

Definition lengthZ {A : Type} (l : list A) : Z := Z.of_nat (length l).

(** The unsigned value of a little-endian byte string. *)
Fixpoint leValue (bs : list byte) : Z :=
  match bs with
  | [] => 0
  | b :: bs' => byteVal b + 256 * leValue bs'
  end.

(** Two's complement reading of an unsigned [bits]-bit value. *)
Definition toSigned (bits : Z) (v : Z) : Z :=
  if v <? 2 ^ (bits - 1) then v else v - 2 ^ bits.

(** [DataView] access: the [width] bytes at [byteOffset], or a
    [RangeError] when the access does not lie inside the buffer. *)
Definition viewBytes (dv : list byte) (byteOffset : Z) (width : Z) : Result (list byte) :=
  if (0 <=? byteOffset) && (byteOffset + width <=? lengthZ dv)
  then Ok (take (Z.to_nat width) (drop (Z.to_nat byteOffset) dv))
  else Err RangeError.

(** ** JavaScript numbers *)

(** The number nearest to an integer (exact below 2^53). *)
Definition numberOfZ (z : Z) : float :=
  SF2Prim (binary_normalize prec emax z 0 false).

(** The value of an IEEE binary32 bit pattern, as read by
    [DataView.getFloat32]. *)
Definition float32OfBits (bits : Z) : float :=
  let s := Z.testbit bits 31 in
  let e := Z.land (Z.shiftr bits 23) 255 in
  let m := Z.land bits (2 ^ 23 - 1) in
  if (e =? 255)%Z then
    if (m =? 0)%Z then SF2Prim (S754_infinity s) else nan
  else if (e =? 0)%Z then
    match m with
    | Zpos p => SF2Prim (S754_finite s p (-149))
    | _ => SF2Prim (S754_zero s)
    end
  else
    match (2 ^ 23 + m)%Z with
    | Zpos p => SF2Prim (S754_finite s p (e - 150))
    | _ => nan
    end.

(** Storing a number into a [Float32Array] element rounds it to the
    nearest binary32 value, ties to even ([Math.fround]). *)
Definition fround (x : float) : float :=
  match Prim2SF x with
  | S754_finite s m e => SF2Prim (binary_round 24 128 s m e)
  | _ => x
  end.

(** Storing a number into a [Uint32Array] element applies [ToUint32]:
    truncate toward zero, wrap modulo 2^32; NaN and the infinities
    become 0. *)
Definition ToUint32 (x : float) : Z :=
  match Prim2SF x with
  | S754_finite s m e =>
      let mag := Z.shiftl (Zpos m) e in
      (if s then - mag else mag) mod 2 ^ 32
  | _ => 0
  end.

Definition isNegZero (x : float) : bool := is_zero x && get_sign x.

(** [Math.max] and [Math.min] of two numbers: NaN is contagious and
    [-0] sorts below [+0]. *)
Definition Math_max (a b : float) : float :=
  if is_nan a || is_nan b then nan
  else if (a <? b)%float then b
  else if (b <? a)%float then a
  else if isNegZero a then b else a.

Definition Math_min (a b : float) : float :=
  if is_nan a || is_nan b then nan
  else if (a <? b)%float then a
  else if (b <? a)%float then b
  else if isNegZero a then a else b.

(** ** Scalar codec (bytesPerComponent, readScalar, normalizeInt) *)

Definition bytesPerComponent (typeEnum : Z) : Result Z :=
  match typeEnum with
  | 5120 => Ok 1
  | 5121 => Ok 1
  | 5122 => Ok 2
  | 5123 => Ok 2
  | 5124 => Ok 4
  | 5125 => Ok 4
  | 5126 => Ok 4
  | _ => Err (UnsupportedComponentType typeEnum)
  end.

Definition getUint (dv : list byte) (byteOffset : Z) (width : Z) : Result Z :=
  bs ← viewBytes dv byteOffset width; Ok (leValue bs).

Definition getInt (dv : list byte) (byteOffset : Z) (width : Z) : Result Z :=
  bs ← viewBytes dv byteOffset width; Ok (toSigned (8 * width) (leValue bs)).

(** [readScalar] is only ever called with its default [littleEndian = true]. *)
Definition readScalar (dv : list byte) (byteOffset : Z) (typeEnum : Z) : Result float :=
  match typeEnum with
  | 5120 => numberOfZ <$> getInt dv byteOffset 1
  | 5121 => numberOfZ <$> getUint dv byteOffset 1
  | 5122 => numberOfZ <$> getInt dv byteOffset 2
  | 5123 => numberOfZ <$> getUint dv byteOffset 2
  | 5124 => numberOfZ <$> getInt dv byteOffset 4
  | 5125 => numberOfZ <$> getUint dv byteOffset 4
  | 5126 => float32OfBits <$> getUint dv byteOffset 4
  | _ => Err (UnsupportedScalarType typeEnum)
  end.

Definition normalizeInt (val : float) (typeEnum : Z) : float :=
  match typeEnum with
  | 5120 => Math_max (-1) (val / 127)
  | 5121 => (val / 255)%float
  | 5122 => Math_max (-1) (val / 32767)
  | 5123 => (val / 65535)%float
  | 5124 => Math_max (-1) (val / 2147483647)
  | 5125 => (val / 4294967295)%float
  | _ => val
  end.


(** ** Data model (the exported types of the decoder) *)

(** A [number] used as an element count: an integer, or one of the three
    non-finite numbers.  Counts with a fractional part are outside the
    model. *)
Inductive JsNumber : Type :=
  | JsNaN
  | JsNegInfinity
  | JsInt (z : Z)
  | JsInfinity.

(** [typeof v === 'number'] on a value of type [number]. *)
Definition typeofNumber (v : JsNumber) : bool :=
  match v with
  | JsNaN | JsNegInfinity | JsInt _ | JsInfinity => true
  end.

Definition isFinite (v : JsNumber) : bool :=
  match v with
  | JsInt _ => true
  | _ => false
  end.

(** The relational operator [a > b]. *)
Definition jsGt (a b : JsNumber) : bool :=
  match a, b with
  | JsNaN, _ => false
  | _, JsNaN => false
  | JsNegInfinity, _ => false
  | JsInt _, JsNegInfinity => true
  | JsInt x, JsInt y => y <? x
  | JsInt _, JsInfinity => false
  | JsInfinity, JsInfinity => false
  | JsInfinity, _ => true
  end.

Record BufferEntry : Type := {
  buf_id : Z;
  buf_binOffset : Z;
  buf_byteLength : Z
}.

Record Attribute : Type := {
  attr_index : Z;
  attr_size : Z;
  attr_typeEnum : Z;
  attr_normalized : bool;
  attr_stride : option Z;
  attr_offset : option Z;
  attr_bufferId : Z
}.

Record DrawCall : Type := {
  draw_kind : string;
  draw_mode : Z;
  draw_count : JsNumber;
  draw_indexTypeEnum : Z;
  draw_indexOffset : option Z;
  draw_elementArrayBufferId : option Z;
  draw_attribs : option (list Attribute)
}.

Record ContextEntry : Type := {
  ctx_draws : option (list DrawCall)
}.

Record CaptureJson : Type := {
  json_buffers : option (list BufferEntry);
  json_contexts : option (list ContextEntry)
}.

Record SelectedDraw : Type := {
  sel_draw : DrawCall;
  sel_buffersById : gmap Z BufferEntry
}.

Record DecodeOptions : Type := {
  scale : float;
  biasX : float;
  biasY : float;
  biasZ : float;
  swapYZ : bool;
  invertZ : bool
}.

(** [xs || []] *)
Definition orEmpty {A : Type} (xs : option (list A)) : list A := default [] xs.

(** [n || 0] and the truthiness of an optional number. *)
Definition orZero (n : option Z) : Z := default 0 n.

Definition truthy (n : option Z) : bool :=
  match n with
  | Some z => negb (z =? 0)
  | None => false
  end.

(** ** Draw-call selector (pickMainDrawCall) *)

(** The five tests of lines 64-68, a draw call passing none of the
    [continue]s. *)
Definition eligible (draw : DrawCall) : bool :=
  String.eqb (draw_kind draw) "drawElements"
  && (draw_mode draw =? 4)
  && typeofNumber (draw_count draw)
  && match draw_attribs draw with
     | Some (_ :: _) => true
     | _ => false
     end
  && truthy (draw_elementArrayBufferId draw).

(** One pass of the inner loop body over [draw], updating [best]. *)
Definition pickStep (best : option DrawCall) (draw : DrawCall) : option DrawCall :=
  if eligible draw then
    match best with
    | None => Some draw
    | Some b => if jsGt (draw_count draw) (draw_count b) then Some draw else best
    end
  else best.

Definition pickMainDrawCall (json : CaptureJson) : option SelectedDraw :=
  let buffersById :=
    foldl (fun m buffer => <[buf_id buffer := buffer]> m) ∅ (orEmpty (json_buffers json)) in
  let best :=
    foldl (fun best ctx => foldl pickStep best (orEmpty (ctx_draws ctx)))
          None (orEmpty (json_contexts json)) in
  match best with
  | None => None
  | Some b => Some {| sel_draw := b; sel_buffersById := buffersById |}
  end.

(** ** Attribute classifier *)

(** [attribs.slice().sort((a, b) => a.index - b.index)]: a stable sort,
    ascending by slot index. *)
Fixpoint insertByIndex (a : Attribute) (l : list Attribute) : list Attribute :=
  match l with
  | [] => [a]
  | b :: l' =>
      if attr_index a <=? attr_index b then a :: b :: l'
      else b :: insertByIndex a l'
  end.

Definition sortByIndex (l : list Attribute) : list Attribute :=
  foldr insertByIndex [] l.

Definition isPosition (a : Attribute) : bool :=
  (attr_size a =? 3)
  && ((attr_typeEnum a =? 5126) || ((attr_typeEnum a =? 5123) && negb (attr_normalized a))).

Definition isNormal (a : Attribute) : bool :=
  (attr_size a =? 3) && attr_normalized a
  && ((attr_typeEnum a =? 5120) || (attr_typeEnum a =? 5122)).

Definition isUv (a : Attribute) : bool :=
  (attr_size a =? 2) && attr_normalized a
  && ((attr_typeEnum a =? 5121) || (attr_typeEnum a =? 5123)).

Definition findPositionAttrib (attribs : list Attribute) : option Attribute :=
  List.find isPosition attribs.

Definition findNormalAttrib (attribs : list Attribute) : option Attribute :=
  List.find isNormal attribs.

Definition findUvAttrib (attribs : list Attribute) : option Attribute :=
  List.find isUv attribs.

Definition getStride (attrib : Attribute) : Result Z :=
  match attr_stride attrib with
  | Some s => if negb (s =? 0) then Ok s
              else w ← bytesPerComponent (attr_typeEnum attrib); Ok (attr_size attrib * w)
  | None => w ← bytesPerComponent (attr_typeEnum attrib); Ok (attr_size attrib * w)
  end.

(** ** Array constructors *)

(** [new Uint32Array (n)] and [new Float32Array (n)]: the length of the
    new array ([ToIndex n]), or a [RangeError].  The engine's allocation
    limit is not modelled. *)
Definition newTypedArray (n : JsNumber) : Result Z :=
  match n with
  | JsNaN => Ok 0
  | JsInt z => if z <? 0 then Err RangeError else Ok z
  | JsNegInfinity | JsInfinity => Err RangeError
  end.

(** [new Array (n)]: [n] must be an integer in [0, 2^32). *)
Definition newArray (n : JsNumber) : Result Z :=
  match n with
  | JsInt z => if (0 <=? z) && (z <? 2 ^ 32) then Ok z else Err RangeError
  | _ => Err RangeError
  end.

(** ** Vertex decoder, scene-description path (buildGltf) *)

Definition vec3 : Type := float * float * float.
Definition vec2 : Type := float * float.

(** The contents of a [Float32Array] filled from per-vertex values. *)
Definition storeVec3 (vs : list vec3) : list float :=
  flat_map (fun '(x, y, z) => [fround x; fround y; fround z]) vs.

Definition storeVec2 (vs : list vec2) : list float :=
  flat_map (fun '(u, v) => [fround u; fround v]) vs.

(** The part of [BuiltGltf] that the decode loops compute: the typed
    arrays and the running bounds.  The remainder of the function (lines
    266-403) packs exactly these arrays into [binU8] and describes them in
    the JSON object. *)
Record GltfGeometry : Type := {
  g_indices : list Z;
  g_vertexCount : Z;
  g_positions : list float;
  g_posMin : vec3;
  g_posMax : vec3;
  g_normals : option (list float);
  g_uvs : option (list float);
  g_uvMin : option vec2;
  g_uvMax : option vec2
}.

(** Body of the position loop (lines 171-188): the transformed vertex [i]. *)
Definition gltfPosVertex (dv : list byte) (posA : Attribute) (posBuf : BufferEntry)
    (posOffset posStride posCompBytes : Z) (options : DecodeOptions) (i : Z) : Result vec3 :=
  let base := buf_binOffset posBuf + posOffset + i * posStride in
  x ← readScalar dv (base + 0 * posCompBytes) (attr_typeEnum posA);
  y ← readScalar dv (base + 1 * posCompBytes) (attr_typeEnum posA);
  z ← readScalar dv (base + 2 * posCompBytes) (attr_typeEnum posA);
  let '(x, y, z) :=
    if attr_normalized posA
    then (normalizeInt x (attr_typeEnum posA),
          normalizeInt y (attr_typeEnum posA),
          normalizeInt z (attr_typeEnum posA))
    else (x, y, z) in
  let x := (x * scale options + biasX options)%float in
  let y := (y * scale options + biasY options)%float in
  let z := (z * scale options + biasZ options)%float in
  let '(y, z) := if swapYZ options then (z, y) else (y, z) in
  let z := if invertZ options then (- z)%float else z in
  Ok (x, y, z).

(** Body of the normal loop (lines 214-222). *)
Definition gltfNrmVertex (dv : list byte) (nrmA : Attribute) (nrmBuf : BufferEntry)
    (nrmOffset nrmStride nrmCompBytes : Z) (i : Z) : Result vec3 :=
  let base := buf_binOffset nrmBuf + nrmOffset + i * nrmStride in
  nx ← readScalar dv (base + 0 * nrmCompBytes) (attr_typeEnum nrmA);
  ny ← readScalar dv (base + 1 * nrmCompBytes) (attr_typeEnum nrmA);
  nz ← readScalar dv (base + 2 * nrmCompBytes) (attr_typeEnum nrmA);
  Ok (if attr_normalized nrmA
      then (normalizeInt nx (attr_typeEnum nrmA),
            normalizeInt ny (attr_typeEnum nrmA),
            normalizeInt nz (attr_typeEnum nrmA))
      else (nx, ny, nz)).

(** Body of the UV loop (lines 248-254). *)
Definition gltfUvVertex (dv : list byte) (uvA : Attribute) (uvBuf : BufferEntry)
    (uvOffset uvStride uvCompBytes : Z) (i : Z) : Result vec2 :=
  let base := buf_binOffset uvBuf + uvOffset + i * uvStride in
  u ← readScalar dv (base + 0 * uvCompBytes) (attr_typeEnum uvA);
  v ← readScalar dv (base + 1 * uvCompBytes) (attr_typeEnum uvA);
  Ok (if attr_normalized uvA
      then (normalizeInt u (attr_typeEnum uvA), normalizeInt v (attr_typeEnum uvA))
      else (u, v)).

(** Running bounds (lines 161-166 and 194-199; 242-245 and 257-260). *)
Definition min3 (vs : list vec3) : vec3 :=
  foldl (fun '(mx, my, mz) '(x, y, z) => (Math_min mx x, Math_min my y, Math_min mz z))
        (infinity, infinity, infinity) vs.

Definition max3 (vs : list vec3) : vec3 :=
  foldl (fun '(mx, my, mz) '(x, y, z) => (Math_max mx x, Math_max my y, Math_max mz z))
        (neg_infinity, neg_infinity, neg_infinity) vs.

Definition min2 (vs : list vec2) : vec2 :=
  foldl (fun '(mu, mv) '(u, v) => (Math_min mu u, Math_min mv v)) (infinity, infinity) vs.

Definition max2 (vs : list vec2) : vec2 :=
  foldl (fun '(mu, mv) '(u, v) => (Math_max mu u, Math_max mv v))
        (neg_infinity, neg_infinity) vs.

(** The element count of an optional channel (lines 207-209, 236-238). *)
Definition channelCount (vertexCount : Z) (buf : BufferEntry) (offset stride : Z) : Z :=
  Z.min vertexCount ((buf_byteLength buf - offset) / stride).

(** Lines 204-229: the normal channel, [None] when it stays [null]. *)
Definition gltfNormals (dv : list byte) (buffersById : gmap Z BufferEntry)
    (nrmA : option Attribute) (vertexCount : Z) : Result (option (list vec3)) :=
  match nrmA with
  | Some nrmA =>
      match buffersById !! attr_bufferId nrmA with
      | Some nrmBuf =>
          nrmStride ← getStride nrmA;
          let nrmOffset := orZero (attr_offset nrmA) in
          let nrmCount := channelCount vertexCount nrmBuf nrmOffset nrmStride in
          _ ← newTypedArray (JsInt (nrmCount * 3));
          nrmCompBytes ← bytesPerComponent (attr_typeEnum nrmA);
          vs ← forEach (gltfNrmVertex dv nrmA nrmBuf nrmOffset nrmStride nrmCompBytes)
                        (upTo nrmCount);
          Ok (Some vs)
      | None => Ok None
      end
  | None => Ok None
  end.

(** Lines 231-264: the UV channel. *)
Definition gltfUvs (dv : list byte) (buffersById : gmap Z BufferEntry)
    (uvA : option Attribute) (vertexCount : Z) : Result (option (list vec2)) :=
  match uvA with
  | Some uvA =>
      match buffersById !! attr_bufferId uvA with
      | Some uvBuf =>
          uvStride ← getStride uvA;
          let uvOffset := orZero (attr_offset uvA) in
          let uvCount := channelCount vertexCount uvBuf uvOffset uvStride in
          _ ← newTypedArray (JsInt (uvCount * 2));
          uvCompBytes ← bytesPerComponent (attr_typeEnum uvA);
          vs ← forEach (gltfUvVertex dv uvA uvBuf uvOffset uvStride uvCompBytes)
                        (upTo uvCount);
          Ok (Some vs)
      | None => Ok None
      end
  | None => Ok None
  end.

(** [draw.elementArrayBufferId ? buffersById.get (...) : null] *)
Definition indexBuffer (draw : DrawCall) (buffersById : gmap Z BufferEntry) : option BufferEntry :=
  if truthy (draw_elementArrayBufferId draw)
  then buffersById !! orZero (draw_elementArrayBufferId draw)
  else None.

Definition buildGltf (captureBin : list byte) (selected : SelectedDraw)
    (options : DecodeOptions) : Result GltfGeometry :=
  let draw := sel_draw selected in
  let buffersById := sel_buffersById selected in
  let dv := captureBin in
  let attribs := sortByIndex (orEmpty (draw_attribs draw)) in
  match findPositionAttrib attribs with
  | None => Err MissingPositionAttribute
  | Some posA =>
  let nrmA := findNormalAttrib attribs in
  let uvA := findUvAttrib attribs in
  match buffersById !! attr_bufferId posA with
  | None => Err MissingPositionBuffer
  | Some posBuf =>
  match indexBuffer draw buffersById with
  | None => Err MissingIndexBuffer
  | Some idxBuf =>
      posStride ← getStride posA;
      let posOffset := orZero (attr_offset posA) in
      let vertexCount := (buf_byteLength posBuf - posOffset) / posStride in
      let idxType := draw_indexTypeEnum draw in
      idxBpc ← bytesPerComponent idxType;
      let idxStart := buf_binOffset idxBuf + orZero (draw_indexOffset draw) in
      let indexCount := draw_count draw in
      indexLength ← newTypedArray indexCount;
      rawIndices ← forEach (fun i => readScalar dv (idxStart + i * idxBpc) idxType)
                           (upTo indexLength);
      _ ← newTypedArray (JsInt (vertexCount * 3));
      posCompBytes ← bytesPerComponent (attr_typeEnum posA);
      verts ← forEach (gltfPosVertex dv posA posBuf posOffset posStride posCompBytes options)
                      (upTo vertexCount);
      normals ← gltfNormals dv buffersById nrmA vertexCount;
      uvs ← gltfUvs dv buffersById uvA vertexCount;
      Ok {| g_indices := map ToUint32 rawIndices;
            g_vertexCount := vertexCount;
            g_positions := storeVec3 verts;
            g_posMin := min3 verts;
            g_posMax := max3 verts;
            g_normals := storeVec3 <$> normals;
            g_uvs := storeVec2 <$> uvs;
            g_uvMin := min2 <$> uvs;
            g_uvMax := max2 <$> uvs |}
  end end end.

(** ** Vertex decoder, plain-text path (buildObj) *)

(** The arrays [buildObj] decodes before it prints them (lines 405-507);
    the text of the file is their rendering, line by line. *)
Record ObjGeometry : Type := {
  o_vertices : list vec3;
  o_normals : option (list vec3);
  o_uvs : option (list vec2);
  o_indices : list float
}.

(** Body of the position loop (lines 435-454).  The component width is
    recomputed at every read. *)
Definition objPosVertex (dv : list byte) (posA : Attribute) (posBuf : BufferEntry)
    (posOffset posStride : Z) (options : DecodeOptions) (i : Z) : Result vec3 :=
  let base := buf_binOffset posBuf + posOffset + i * posStride in
  w0 ← bytesPerComponent (attr_typeEnum posA);
  x ← readScalar dv (base + 0 * w0) (attr_typeEnum posA);
  w1 ← bytesPerComponent (attr_typeEnum posA);
  y ← readScalar dv (base + 1 * w1) (attr_typeEnum posA);
  w2 ← bytesPerComponent (attr_typeEnum posA);
  z ← readScalar dv (base + 2 * w2) (attr_typeEnum posA);
  let '(x, y, z) :=
    if attr_normalized posA
    then (normalizeInt x (attr_typeEnum posA),
          normalizeInt y (attr_typeEnum posA),
          normalizeInt z (attr_typeEnum posA))
    else (x, y, z) in
  let x := (x * scale options + biasX options)%float in
  let y := (y * scale options + biasY options)%float in
  let z := (z * scale options + biasZ options)%float in
  let '(y, z) := if swapYZ options then (z, y) else (y, z) in
  let z := if invertZ options then (- z)%float else z in
  Ok (x, y, z).

(** Body of the normal loop (lines 467-476). *)
Definition objNrmVertex (dv : list byte) (nrmA : Attribute) (nrmBuf : BufferEntry)
    (nrmOffset nrmStride : Z) (i : Z) : Result vec3 :=
  let base := buf_binOffset nrmBuf + nrmOffset + i * nrmStride in
  w0 ← bytesPerComponent (attr_typeEnum nrmA);
  nx ← readScalar dv (base + 0 * w0) (attr_typeEnum nrmA);
  w1 ← bytesPerComponent (attr_typeEnum nrmA);
  ny ← readScalar dv (base + 1 * w1) (attr_typeEnum nrmA);
  w2 ← bytesPerComponent (attr_typeEnum nrmA);
  nz ← readScalar dv (base + 2 * w2) (attr_typeEnum nrmA);
  Ok (if attr_normalized nrmA
      then (normalizeInt nx (attr_typeEnum nrmA),
            normalizeInt ny (attr_typeEnum nrmA),
            normalizeInt nz (attr_typeEnum nrmA))
      else (nx, ny, nz)).

(** Body of the UV loop (lines 491-498). *)
Definition objUvVertex (dv : list byte) (uvA : Attribute) (uvBuf : BufferEntry)
    (uvOffset uvStride : Z) (i : Z) : Result vec2 :=
  let base := buf_binOffset uvBuf + uvOffset + i * uvStride in
  w0 ← bytesPerComponent (attr_typeEnum uvA);
  u ← readScalar dv (base + 0 * w0) (attr_typeEnum uvA);
  w1 ← bytesPerComponent (attr_typeEnum uvA);
  v ← readScalar dv (base + 1 * w1) (attr_typeEnum uvA);
  Ok (if attr_normalized uvA
      then (normalizeInt u (attr_typeEnum uvA), normalizeInt v (attr_typeEnum uvA))
      else (u, v)).

(** Lines 457-479. *)
Definition objNormals (dv : list byte) (buffersById : gmap Z BufferEntry)
    (nrmA : option Attribute) (posVertCount : Z) : Result (option (list vec3)) :=
  match nrmA with
  | Some nrmA =>
      match buffersById !! attr_bufferId nrmA with
      | Some nrmBuf =>
          nrmStride ← getStride nrmA;
          let nrmOffset := orZero (attr_offset nrmA) in
          let nrmVertCount := channelCount posVertCount nrmBuf nrmOffset nrmStride in
          _ ← newArray (JsInt nrmVertCount);
          vs ← forEach (objNrmVertex dv nrmA nrmBuf nrmOffset nrmStride) (upTo nrmVertCount);
          Ok (Some vs)
      | None => Ok None
      end
  | None => Ok None
  end.

(** Lines 481-501. *)
Definition objUvs (dv : list byte) (buffersById : gmap Z BufferEntry)
    (uvA : option Attribute) (posVertCount : Z) : Result (option (list vec2)) :=
  match uvA with
  | Some uvA =>
      match buffersById !! attr_bufferId uvA with
      | Some uvBuf =>
          uvStride ← getStride uvA;
          let uvOffset := orZero (attr_offset uvA) in
          let uvVertCount := channelCount posVertCount uvBuf uvOffset uvStride in
          _ ← newArray (JsInt uvVertCount);
          vs ← forEach (objUvVertex dv uvA uvBuf uvOffset uvStride) (upTo uvVertCount);
          Ok (Some vs)
      | None => Ok None
      end
  | None => Ok None
  end.

Definition buildObj (captureBin : list byte) (selected : SelectedDraw)
    (options : DecodeOptions) : Result ObjGeometry :=
  let draw := sel_draw selected in
  let buffersById := sel_buffersById selected in
  let dv := captureBin in
  let attribs := sortByIndex (orEmpty (draw_attribs draw)) in
  match findPositionAttrib attribs with
  | None => Err MissingPositionAttribute
  | Some posA =>
  let nrmA := findNormalAttrib attribs in
  let uvA := findUvAttrib attribs in
  match buffersById !! attr_bufferId posA with
  | None => Err MissingPositionBuffer
  | Some posBuf =>
  match indexBuffer draw buffersById with
  | None => Err MissingIndexBuffer
  | Some idxBuf =>
      let idxType := draw_indexTypeEnum draw in
      idxBpc ← bytesPerComponent idxType;
      let idxStart := buf_binOffset idxBuf + orZero (draw_indexOffset draw) in
      let idxCount := draw_count draw in
      posStride ← getStride posA;
      let posOffset := orZero (attr_offset posA) in
      let posVertCount := (buf_byteLength posBuf - posOffset) / posStride in
      _ ← newArray (JsInt posVertCount);
      vertices ← forEach (objPosVertex dv posA posBuf posOffset posStride options)
                         (upTo posVertCount);
      normals ← objNormals dv buffersById nrmA posVertCount;
      uvs ← objUvs dv buffersById uvA posVertCount;
      indexLength ← newArray idxCount;
      indices ← forEach (fun i => readScalar dv (idxStart + i * idxBpc) idxType)
                        (upTo indexLength);
      Ok {| o_vertices := vertices;
            o_normals := normals;
            o_uvs := uvs;
            o_indices := indices |}
  end end end.

(** ** Single-file binary container (buildGlb) *)

Definition padTo4 (bytes : list byte) (padByte : byte) : list byte :=
  let pad := (4 - lengthZ bytes mod 4) mod 4 in
  if pad =? 0 then bytes
  else bytes ++ replicate (Z.to_nat pad) padByte.

(** [glb.set (src, offset)]: copy [src] into the array at [offset]. *)
Definition setBytes (glb : list byte) (src : list byte) (offset : Z) : Result (list byte) :=
  if (0 <=? offset) && (offset + lengthZ src <=? lengthZ glb)
  then Ok (take (Z.to_nat offset) glb ++ src
           ++ drop (Z.to_nat offset + length src) glb)
  else Err RangeError.

(** The four bytes [view.setUint32 (_, value, true)] writes. *)
Definition u32le (value : Z) : list byte :=
  [byteOfZ value; byteOfZ (value / 256); byteOfZ (value / 65536); byteOfZ (value / 16777216)].

Definition setUint32 (glb : list byte) (offset : Z) (value : Z) : Result (list byte) :=
  setBytes glb (u32le value) offset.

(** [jsonBytes] is the UTF-8 text of the cloned scene description
    ([TextEncoder.encode (JSON.stringify gltf)]), [binU8] the packed
    buffer of [BuiltGltf]. *)
Definition buildGlb (jsonBytes : list byte) (binU8 : list byte) : Result (list byte) :=
  let jsonPadded := padTo4 jsonBytes x20 in
  let binPadded := padTo4 binU8 x00 in
  let totalLength := 12 + 8 + lengthZ jsonPadded + 8 + lengthZ binPadded in
  let glb := replicate (Z.to_nat totalLength) x00 in
  let offset := 0 in
  glb ← setUint32 glb offset 0x46546c67;
  let offset := offset + 4 in
  glb ← setUint32 glb offset 2;
  let offset := offset + 4 in
  glb ← setUint32 glb offset totalLength;
  let offset := offset + 4 in
  glb ← setUint32 glb offset (lengthZ jsonPadded);
  let offset := offset + 4 in
  glb ← setUint32 glb offset 0x4e4f534a;
  let offset := offset + 4 in
  glb ← setBytes glb jsonPadded offset;
  let offset := offset + lengthZ jsonPadded in
  glb ← setUint32 glb offset (lengthZ binPadded);
  let offset := offset + 4 in
  glb ← setUint32 glb offset 0x004e4942;
  let offset := offset + 4 in
  glb ← setBytes glb binPadded offset;
  Ok glb.

(** * Specification vocabulary

    The predicates and closed forms in which the properties below are
    stated, and the captures they are tried on. *)

(** The component types the scalar codec accepts (the enums 5120 to
    5126). *)
Definition supported (typeEnum : Z) : Prop := 5120 <= typeEnum <= 5126.

(** The [width] bytes at [byteOffset] lie inside the capture. *)
Definition inBounds (dv : list byte) (byteOffset width : Z) : Prop :=
  0 <= byteOffset /\ byteOffset + width <= lengthZ dv.

(** Byte width of a component type, as a total function (0 outside the
    supported set). *)
Definition componentWidth (t : Z) : Z :=
  if (t =? 5120) || (t =? 5121) then 1
  else if (t =? 5122) || (t =? 5123) then 2
  else if (t =? 5124) || (t =? 5125) || (t =? 5126) then 4
  else 0.

(** Stride of an attribute, as the data model states it: the [stride]
    field when it is present and non-zero, otherwise the component count
    times the component byte width. *)
Definition effectiveStride (a : Attribute) : Z :=
  match attr_stride a with
  | Some s => if s =? 0 then attr_size a * componentWidth (attr_typeEnum a) else s
  | None => attr_size a * componentWidth (attr_typeEnum a)
  end.

(** The value [readScalar] decodes from the bytes of an in-bounds access. *)
Definition decodeScalar (t : Z) (bs : list byte) : float :=
  if (t =? 5126) then float32OfBits (leValue bs)
  else if (t =? 5120) || (t =? 5122) || (t =? 5124)
       then numberOfZ (toSigned (8 * componentWidth t) (leValue bs))
       else numberOfZ (leValue bs).

(** Every draw call of every context, in trace order. *)
Definition allDraws (json : CaptureJson) : list DrawCall :=
  flat_map (fun ctx => orEmpty (ctx_draws ctx)) (orEmpty (json_contexts json)).

(** Ascending slot index. *)
Definition byIndex (a b : Attribute) : Prop := attr_index a <= attr_index b.

(** The three candidate tests, in the words of the classifier's rules. *)
Definition PositionCandidate (a : Attribute) : Prop :=
  attr_size a = 3 /\
  (attr_typeEnum a = 5126 \/ (attr_typeEnum a = 5123 /\ attr_normalized a = false)).

Definition NormalCandidate (a : Attribute) : Prop :=
  attr_size a = 3 /\ attr_normalized a = true /\
  (attr_typeEnum a = 5120 \/ attr_typeEnum a = 5122).

Definition UvCandidate (a : Attribute) : Prop :=
  attr_size a = 2 /\ attr_normalized a = true /\
  (attr_typeEnum a = 5121 \/ attr_typeEnum a = 5123).

(** The address of component [c] of vertex [i] of an attribute. *)
Definition componentAddress (buf : BufferEntry) (a : Attribute) (i c : Z) : Z :=
  buf_binOffset buf + orZero (attr_offset a) + i * effectiveStride a
  + c * componentWidth (attr_typeEnum a).

(** The scalar at an address, normalized when the attribute says so. *)
Definition scalarAt (dv : list byte) (a : Attribute) (address : Z) : float :=
  let t := attr_typeEnum a in
  let raw := decodeScalar t (take (Z.to_nat (componentWidth t)) (drop (Z.to_nat address) dv)) in
  if attr_normalized a then normalizeInt raw t else raw.

(** The position transform, in the order the decoder's contract gives:
    scale and bias, then the Y/Z exchange, then the negation of Z. *)
Definition transformPosition (options : DecodeOptions) (v : vec3) : vec3 :=
  let '(x, y, z) := v in
  let x1 := (x * scale options + biasX options)%float in
  let y1 := (y * scale options + biasY options)%float in
  let z1 := (z * scale options + biasZ options)%float in
  let y2 := if swapYZ options then z1 else y1 in
  let z2 := if swapYZ options then y1 else z1 in
  (x1, y2, if invertZ options then (- z2)%float else z2).

(** The decoded components of vertex [i] of a channel. *)
Definition vec3At (dv : list byte) (buf : BufferEntry) (a : Attribute) (i : Z) : vec3 :=
  (scalarAt dv a (componentAddress buf a i 0),
   scalarAt dv a (componentAddress buf a i 1),
   scalarAt dv a (componentAddress buf a i 2)).

Definition vec2At (dv : list byte) (buf : BufferEntry) (a : Attribute) (i : Z) : vec2 :=
  (scalarAt dv a (componentAddress buf a i 0),
   scalarAt dv a (componentAddress buf a i 1)).

(** All [comps] component reads of vertex [i] lie inside the capture. *)
Definition vertexInBounds (dv : list byte) (buf : BufferEntry) (a : Attribute)
    (comps : Z) (i : Z) : Prop :=
  forall c, 0 <= c < comps ->
            inBounds dv (componentAddress buf a i c) (componentWidth (attr_typeEnum a)).

(** Every read of the first [count] vertices of a channel is in bounds. *)
Definition readsInBounds (dv : list byte) (buf : BufferEntry) (a : Attribute)
    (count comps : Z) : Prop :=
  forall i, 0 <= i < count -> vertexInBounds dv buf a comps i.

(** The position vertex count of the decoder's contract. *)
Definition positionCount (posA : Attribute) (posBuf : BufferEntry) : Z :=
  (buf_byteLength posBuf - orZero (attr_offset posA)) / effectiveStride posA.

(** The element count of an optional channel: the smaller of the
    position count and what the channel's own buffer holds. *)
Definition optionalCount (vertexCount : Z) (a : Attribute) (buf : BufferEntry) : Z :=
  channelCount vertexCount buf (orZero (attr_offset a)) (effectiveStride a).

(** The draw count as a typed-array length and loop bound. *)
Definition indexCountOk (c : JsNumber) : Prop :=
  match c with
  | JsNaN => True
  | JsInt n => 0 <= n
  | JsNegInfinity | JsInfinity => False
  end.

Definition indexLength (c : JsNumber) : Z :=
  match c with
  | JsInt n => n
  | _ => 0
  end.

(** The address and the decoded value of index [i]. *)
Definition indexAddress (draw : DrawCall) (idxBuf : BufferEntry) (i : Z) : Z :=
  buf_binOffset idxBuf + orZero (draw_indexOffset draw)
  + i * componentWidth (draw_indexTypeEnum draw).

Definition indexAt (dv : list byte) (draw : DrawCall) (idxBuf : BufferEntry) (i : Z) : float :=
  let t := draw_indexTypeEnum draw in
  decodeScalar t (take (Z.to_nat (componentWidth t))
                       (drop (Z.to_nat (indexAddress draw idxBuf i)) dv)).

(** The index array can be allocated and every index read is in bounds;
    likewise for the position channel. *)
Definition indexReadsOk (dv : list byte) (draw : DrawCall) (idxBuf : BufferEntry) : Prop :=
  indexCountOk (draw_count draw) /\
  forall i, 0 <= i < indexLength (draw_count draw) ->
            inBounds dv (indexAddress draw idxBuf i) (componentWidth (draw_indexTypeEnum draw)).

Definition positionReadsOk (dv : list byte) (posA : Attribute) (posBuf : BufferEntry) : Prop :=
  0 <= positionCount posA posBuf /\
  readsInBounds dv posBuf posA (positionCount posA posBuf) 3.

(** An optional channel decodes without a [RangeError]: it is absent
    (no candidate attribute, or no descriptor for its buffer), or its
    element count is not negative and its reads are in bounds. *)
Definition channelOk (dv : list byte) (buffersById : gmap Z BufferEntry)
    (a : option Attribute) (vertexCount comps : Z) : Prop :=
  match a with
  | Some a =>
      match buffersById !! attr_bufferId a with
      | Some buf =>
          0 <= optionalCount vertexCount a buf /\
          readsInBounds dv buf a (optionalCount vertexCount a buf) comps
      | None => True
      end
  | None => True
  end.

(** What the optional channels decode to when they decode. *)
Definition normalsValue (dv : list byte) (buffersById : gmap Z BufferEntry)
    (a : option Attribute) (vertexCount : Z) : option (list vec3) :=
  a ← a; buf ← buffersById !! attr_bufferId a;
  Some (vec3At dv buf a <$> upTo (optionalCount vertexCount a buf)).

Definition uvsValue (dv : list byte) (buffersById : gmap Z BufferEntry)
    (a : option Attribute) (vertexCount : Z) : option (list vec2) :=
  a ← a; buf ← buffersById !! attr_bufferId a;
  Some (vec2At dv buf a <$> upTo (optionalCount vertexCount a buf)).

(** The attribute list both decoders classify. *)
Definition sortedAttribs (selected : SelectedDraw) : list Attribute :=
  sortByIndex (orEmpty (draw_attribs (sel_draw selected))).

(** The three lookups that precede the decode loops all succeed. *)
Definition Classified (selected : SelectedDraw)
    (posA : Attribute) (posBuf idxBuf : BufferEntry) : Prop :=
  findPositionAttrib (sortedAttribs selected) = Some posA /\
  sel_buffersById selected !! attr_bufferId posA = Some posBuf /\
  indexBuffer (sel_draw selected) (sel_buffersById selected) = Some idxBuf.

(** No constructor is given a negative length and no read leaves the
    capture. *)
Definition decodeOk (dv : list byte) (selected : SelectedDraw)
    (posA : Attribute) (posBuf idxBuf : BufferEntry) : Prop :=
  indexReadsOk dv (sel_draw selected) idxBuf /\
  positionReadsOk dv posA posBuf /\
  channelOk dv (sel_buffersById selected) (findNormalAttrib (sortedAttribs selected))
            (positionCount posA posBuf) 3 /\
  channelOk dv (sel_buffersById selected) (findUvAttrib (sortedAttribs selected))
            (positionCount posA posBuf) 2.

(** What [buildObj] decodes when [decodeOk] holds. *)
Definition objValue (dv : list byte) (selected : SelectedDraw) (options : DecodeOptions)
    (posA : Attribute) (posBuf idxBuf : BufferEntry) : ObjGeometry :=
  let n := positionCount posA posBuf in
  {| o_vertices := (fun i => transformPosition options (vec3At dv posBuf posA i)) <$> upTo n;
     o_normals := normalsValue dv (sel_buffersById selected)
                               (findNormalAttrib (sortedAttribs selected)) n;
     o_uvs := uvsValue dv (sel_buffersById selected)
                       (findUvAttrib (sortedAttribs selected)) n;
     o_indices := indexAt dv (sel_draw selected) idxBuf
                  <$> upTo (indexLength (draw_count (sel_draw selected))) |}.

(** What [buildGltf] decodes when [decodeOk] holds: the same values,
    converted to the element types of its typed arrays. *)
Definition gltfValue (dv : list byte) (selected : SelectedDraw) (options : DecodeOptions)
    (posA : Attribute) (posBuf idxBuf : BufferEntry) : GltfGeometry :=
  let o := objValue dv selected options posA posBuf idxBuf in
  {| g_indices := ToUint32 <$> o_indices o;
     g_vertexCount := positionCount posA posBuf;
     g_positions := storeVec3 (o_vertices o);
     g_posMin := min3 (o_vertices o);
     g_posMax := max3 (o_vertices o);
     g_normals := storeVec3 <$> o_normals o;
     g_uvs := storeVec2 <$> o_uvs o;
     g_uvMin := min2 <$> o_uvs o;
     g_uvMax := max2 <$> o_uvs o |}.

(** [new Array (n)] accepts fewer lengths than a typed-array
    constructor: it also refuses NaN and anything from 2^32 on. *)
Definition countWithinLimit (c : JsNumber) : bool :=
  match c with
  | JsInt n => n <? 2 ^ 32
  | _ => false
  end.

Definition withinArrayLimit (selected : SelectedDraw)
    (posA : Attribute) (posBuf : BufferEntry) : Prop :=
  positionCount posA posBuf < 2 ^ 32 /\
  countWithinLimit (draw_count (sel_draw selected)) = true.

Module Sample.
(** Two vertices with float32 positions, normalized 8-bit normals and
    normalized 16-bit UVs, each in its own buffer, and one triangle of
    16-bit indices. *)
Definition posAttr : Attribute :=
  {| attr_index := 0; attr_size := 3; attr_typeEnum := 5126; attr_normalized := false;
     attr_stride := Some 12; attr_offset := Some 0; attr_bufferId := 1 |}.

Definition uvAttr : Attribute :=
  {| attr_index := 1; attr_size := 2; attr_typeEnum := 5123; attr_normalized := true;
     attr_stride := None; attr_offset := None; attr_bufferId := 2 |}.

Definition nrmAttr : Attribute :=
  {| attr_index := 2; attr_size := 3; attr_typeEnum := 5120; attr_normalized := true;
     attr_stride := Some 0; attr_offset := None; attr_bufferId := 3 |}.

Definition draw : DrawCall :=
  {| draw_kind := "drawElements"; draw_mode := 4; draw_count := JsInt 3;
     draw_indexTypeEnum := 5123; draw_indexOffset := None;
     draw_elementArrayBufferId := Some 4;
     draw_attribs := Some [nrmAttr; posAttr; uvAttr] |}.

Definition buffers : list BufferEntry :=
  [ {| buf_id := 1; buf_binOffset := 0; buf_byteLength := 24 |};
    {| buf_id := 2; buf_binOffset := 24; buf_byteLength := 8 |};
    {| buf_id := 3; buf_binOffset := 32; buf_byteLength := 6 |};
    {| buf_id := 4; buf_binOffset := 38; buf_byteLength := 6 |} ].

Definition json : CaptureJson :=
  {| json_buffers := Some buffers;
     json_contexts := Some [ {| ctx_draws := Some [draw] |} ] |}.

(** An indexed draw of [n] indices, and a non-indexed draw. *)
Definition withCount (n : Z) (indexOffset : Z) : DrawCall :=
  {| draw_kind := "drawElements"; draw_mode := 4; draw_count := JsInt n;
     draw_indexTypeEnum := 5123; draw_indexOffset := Some indexOffset;
     draw_elementArrayBufferId := Some 4;
     draw_attribs := Some [posAttr] |}.

Definition arrays : DrawCall :=
  {| draw_kind := "drawArrays"; draw_mode := 4; draw_count := JsInt 100;
     draw_indexTypeEnum := 0; draw_indexOffset := None;
     draw_elementArrayBufferId := None;
     draw_attribs := Some [posAttr] |}.

(** A trace of three contexts: the non-indexed draw, which has the
    largest count, and [draw]; no draws; two indexed draws of equal,
    larger count. *)
Definition tieTrace : CaptureJson :=
  {| json_buffers := Some buffers;
     json_contexts :=
       Some [ {| ctx_draws := Some [arrays; draw] |};
              {| ctx_draws := None |};
              {| ctx_draws := Some [withCount 7 0; withCount 7 2] |} ] |}.

(** positions (1, 2, 3) and (-1, 0.5, 0); UVs (65535, 0) and (0, 32768);
    normals (127, -128, 0) and (0, 0, 127); indices 0, 1, 0. *)
Definition bin : list byte :=
  [ x00; x00; x80; x3f;  x00; x00; x00; x40;  x00; x00; x40; x40;
    x00; x00; x80; xbf;  x00; x00; x00; x3f;  x00; x00; x00; x00;
    xff; xff; x00; x00;  x00; x00; x00; x80;
    x7f; x80; x00;  x00; x00; x7f;
    x00; x00; x01; x00; x00; x00 ].

Definition buffersById : gmap Z BufferEntry :=
  foldl (fun m buffer => <[buf_id buffer := buffer]> m) ∅ buffers.

Definition selected : SelectedDraw :=
  {| sel_draw := draw; sel_buffersById := buffersById |}.

(** The same draw call with its position attribute only. *)
Definition positionOnly : SelectedDraw :=
  {| sel_draw :=
       {| draw_kind := "drawElements"; draw_mode := 4; draw_count := JsInt 3;
          draw_indexTypeEnum := 5123; draw_indexOffset := None;
          draw_elementArrayBufferId := Some 4;
          draw_attribs := Some [posAttr] |};
     sel_buffersById := buffersById |}.

Definition identity : DecodeOptions :=
  {| scale := 1; biasX := 0; biasY := 0; biasZ := 0; swapYZ := false; invertZ := false |}.

Definition tenth : DecodeOptions :=
  {| scale := 0x1.999999999999ap-4; biasX := 0; biasY := 0; biasZ := 0;
     swapYZ := true; invertZ := true |}.

(** The selection without the descriptor of the normal buffer, and
    without the descriptor of the index buffer. *)
Definition withoutNormalBuffer : SelectedDraw :=
  {| sel_draw := draw; sel_buffersById := delete 3 buffersById |}.

Definition withoutIndexBuffer : SelectedDraw :=
  {| sel_draw := draw; sel_buffersById := delete 4 buffersById |}.

(** What the two decoders return for this capture. *)
Definition noGltf : GltfGeometry :=
  {| g_indices := []; g_vertexCount := 0; g_positions := [];
     g_posMin := (infinity, infinity, infinity);
     g_posMax := (neg_infinity, neg_infinity, neg_infinity);
     g_normals := None; g_uvs := None; g_uvMin := None; g_uvMax := None |}.

Definition noObj : ObjGeometry :=
  {| o_vertices := []; o_normals := None; o_uvs := None; o_indices := [] |}.

Definition gltfTenth : GltfGeometry :=
  Eval vm_compute in
    match buildGltf bin selected tenth with Ok g => g | Err _ => noGltf end.

Definition gltfIdentity : GltfGeometry :=
  Eval vm_compute in
    match buildGltf bin selected identity with Ok g => g | Err _ => noGltf end.

Definition objIdentity : ObjGeometry :=
  Eval vm_compute in
    match buildObj bin selected identity with Ok o => o | Err _ => noObj end.
End Sample.

(** The seven component types, named after the [DataView] accessor
    [readScalar] uses for each. *)
Inductive ComponentType : Type :=
  | Int8 | Uint8 | Int16 | Uint16 | Int32 | Uint32 | Float32.

Definition typeEnumOf (c : ComponentType) : Z :=
  match c with
  | Int8 => 5120 | Uint8 => 5121
  | Int16 => 5122 | Uint16 => 5123
  | Int32 => 5124 | Uint32 => 5125
  | Float32 => 5126
  end.

Definition isSigned (c : ComponentType) : bool :=
  match c with
  | Int8 | Int16 | Int32 => true
  | _ => false
  end.

Definition bitsOf (c : ComponentType) : Z :=
  match c with
  | Int8 | Uint8 => 8
  | Int16 | Uint16 => 16
  | Int32 | Uint32 | Float32 => 32
  end.


(** Eligibility as C2 words it, with a count that must be finite. *)
Definition EligibleIfFinite (d : DrawCall) : Prop :=
  draw_kind d = "drawElements"%string /\
  draw_mode d = 4 /\
  isFinite (draw_count d) = true /\
  (exists a l, draw_attribs d = Some (a :: l)) /\
  (exists id, draw_elementArrayBufferId d = Some id /\ id <> 0).

(** A trace whose only draw call has the count [Infinity], as
    [JSON.parse] yields for the literal 1e999. *)
Definition infiniteTrace : CaptureJson :=
  {| json_buffers := Some Sample.buffers;
     json_contexts :=
       Some [ {| ctx_draws :=
                   Some [ {| draw_kind := "drawElements"; draw_mode := 4;
                             draw_count := JsInfinity;
                             draw_indexTypeEnum := 5123; draw_indexOffset := None;
                             draw_elementArrayBufferId := Some 4;
                             draw_attribs := Some [Sample.posAttr] |} ] |} ] |}.

(** The two errors the taxonomy calls a missing buffer descriptor. *)
Definition isMissingBufferDescriptor (e : JsError) : Prop :=
  e = MissingPositionBuffer \/ e = MissingIndexBuffer.

(** The reads of an optional channel, when it is decoded, lie inside
    the capture; and its element count is not negative. *)
Definition channelReads (dv : list byte) (buffersById : gmap Z BufferEntry)
    (a : option Attribute) (vertexCount comps : Z) : Prop :=
  match a with
  | Some a =>
      match buffersById !! attr_bufferId a with
      | Some buf => readsInBounds dv buf a (optionalCount vertexCount a buf) comps
      | None => True
      end
  | None => True
  end.

Definition channelCountOk (buffersById : gmap Z BufferEntry)
    (a : option Attribute) (vertexCount : Z) : Prop :=
  match a with
  | Some a =>
      match buffersById !! attr_bufferId a with
      | Some buf => 0 <= optionalCount vertexCount a buf
      | None => True
      end
  | None => True
  end.

(** Every byte address the decode dereferences lies within the capture:
    the index reads for [i < count] and, per channel, the reads of every
    decoded vertex and component. *)
Definition readsWithinCapture (dv : list byte) (selected : SelectedDraw)
    (posA : Attribute) (posBuf idxBuf : BufferEntry) : Prop :=
  (forall i, 0 <= i < indexLength (draw_count (sel_draw selected)) ->
     inBounds dv (indexAddress (sel_draw selected) idxBuf i)
              (componentWidth (draw_indexTypeEnum (sel_draw selected)))) /\
  readsInBounds dv posBuf posA (positionCount posA posBuf) 3 /\
  channelReads dv (sel_buffersById selected) (findNormalAttrib (sortedAttribs selected))
               (positionCount posA posBuf) 3 /\
  channelReads dv (sel_buffersById selected) (findUvAttrib (sortedAttribs selected))
               (positionCount posA posBuf) 2.

(** No array constructor is given a negative (or infinite) length. *)
Definition countsNonNegative (selected : SelectedDraw)
    (posA : Attribute) (posBuf : BufferEntry) : Prop :=
  indexCountOk (draw_count (sel_draw selected)) /\
  0 <= positionCount posA posBuf /\
  channelCountOk (sel_buffersById selected) (findNormalAttrib (sortedAttribs selected))
                 (positionCount posA posBuf) /\
  channelCountOk (sel_buffersById selected) (findUvAttrib (sortedAttribs selected))
                 (positionCount posA posBuf).

(** A capture of one float32 vertex whose normal attribute starts at
    byte 4 of an empty buffer; the draw call has no indices. *)
Definition shortNormalCapture : list byte * SelectedDraw :=
  ( [ x00; x00; x80; x3f;  x00; x00; x00; x40;  x00; x00; x40; x40 ],
    {| sel_draw :=
         {| draw_kind := "drawElements"; draw_mode := 4; draw_count := JsInt 0;
            draw_indexTypeEnum := 5123; draw_indexOffset := None;
            draw_elementArrayBufferId := Some 4;
            draw_attribs :=
              Some [ Sample.posAttr;
                     {| attr_index := 1; attr_size := 3; attr_typeEnum := 5120;
                        attr_normalized := true; attr_stride := None;
                        attr_offset := Some 4; attr_bufferId := 3 |} ] |};
       sel_buffersById :=
         <[1 := {| buf_id := 1; buf_binOffset := 0; buf_byteLength := 12 |}]>
         (<[3 := {| buf_id := 3; buf_binOffset := 12; buf_byteLength := 0 |}]>
          (<[4 := {| buf_id := 4; buf_binOffset := 12; buf_byteLength := 0 |}]> ∅)) |} ).



(** * The rest of the pipeline

    The second half of [buildGltf] (packing the arrays and describing
    them), the capture summary, the face lines of the text file, the
    front of [buildGlb] and the worker that drives them. *)

(** ** Scene-description path: packing and describing the arrays
       (buildGltf, lines 266-403) *)

(** What the whole pipeline can throw: the exceptions of the decode, and
    the [TypeError] of a property read on [undefined]. *)
Inductive Thrown : Type :=
  | Raised (e : JsError)
  | TypeError.

Inductive Outcome (A : Type) : Type :=
  | Returns (a : A)
  | Throws (t : Thrown).

Arguments Returns {A} a.
Arguments Throws {A} t.

#[global] Instance Outcome_ret : MRet Outcome := fun A a => Returns a.
#[global] Instance Outcome_bind : MBind Outcome := fun A B f m =>
  match m with
  | Returns a => f a
  | Throws t => Throws t
  end.
#[global] Instance Outcome_fmap : FMap Outcome := fun A B f m =>
  match m with
  | Returns a => Returns (f a)
  | Throws t => Throws t
  end.

Definition ofResult {A : Type} (r : Result A) : Outcome A :=
  match r with
  | Ok a => Returns a
  | Err e => Throws (Raised e)
  end.

(** The bit pattern of a NaN that is stored into a typed array is the
    engine's choice: the language fixes neither its sign nor its payload
    (NumericToRawBytes), and the engines keep those the NaN had when it
    was read.  A [float] has one NaN, so the pattern written is a
    parameter of the packing: a [NanChoice] gives, for the array being
    filled (named as its chunk is) and the element, the pattern that
    the engine writes if that element is NaN.  [nanPattern] makes any
    value of the choice a NaN pattern (exponent field 255, fraction not
    0) and leaves every NaN pattern as it is. *)
Definition NanChoice : Type := string -> nat -> Z.

Definition nanPattern (choice : Z) : Z :=
  let payload := Z.land choice (2 ^ 23 - 1) in
  (if Z.testbit choice 31 then 2 ^ 31 else 0) + 255 * 2 ^ 23
  + (if payload =? 0 then 2 ^ 22 else payload).

(** The IEEE binary32 bit pattern of a number held by a [Float32Array]
    (a value [fround] returns); [choice] is the engine's choice for a
    NaN. *)
Definition float32Bits (choice : Z) (x : float) : Z :=
  match Prim2SF x with
  | S754_zero s => if s then 2 ^ 31 else 0
  | S754_infinity s => (if s then 2 ^ 31 else 0) + 255 * 2 ^ 23
  | S754_nan => nanPattern choice
  | S754_finite s m e =>
      let top := Z.log2 (Zpos m) + e in
      (if s then 2 ^ 31 else 0)
      + (if top <? -126 then Z.shiftl (Zpos m) (e + 149)
         else (top + 127) * 2 ^ 23 + (Z.shiftl (Zpos m) (23 - Z.log2 (Zpos m)) - 2 ^ 23))
  end.

(** The bytes of a typed array, as [new Uint8Array (a.buffer,
    a.byteOffset, a.byteLength)] shows them: four per element, least
    significant first (the byte order of the hosts the engines run on). *)
Definition uint32Bytes (a : list Z) : list byte := flat_map u32le a.

Definition float32Bytes (choice : nat -> Z) (a : list float) : list byte :=
  concat (imap (fun i x => u32le (float32Bits (choice i) x)) a).

Record ChunkView : Type := {
  view_byteOffset : Z;
  view_byteLength : Z
}.

(** The three variables [pushChunk] closes over. *)
Record Packer : Type := {
  pk_chunks : list (list byte);
  pk_views : gmap string ChunkView;
  pk_byteOffset : Z
}.

Definition newPacker : Packer :=
  {| pk_chunks := []; pk_views := ∅; pk_byteOffset := 0 |}.

(** [pushChunk (name, typedArray)], on the bytes [u8] of the array. *)
Definition pushChunk (name : string) (u8 : list byte) (st : Packer) : Packer :=
  let align := 4 in
  let pad := Z.rem (align - Z.rem (pk_byteOffset st) align) align in
  let '(chunks, byteOffset) :=
    if negb (pad =? 0)
    then (pk_chunks st ++ [replicate (Z.to_nat pad) x00], pk_byteOffset st + pad)
    else (pk_chunks st, pk_byteOffset st) in
  {| pk_chunks := chunks ++ [u8];
     pk_views := <[name := {| view_byteOffset := byteOffset;
                              view_byteLength := lengthZ u8 |}]> (pk_views st);
     pk_byteOffset := byteOffset + lengthZ u8 |}.

Definition concatU8 (chunks : list (list byte)) : Result (list byte) :=
  let total := foldl (fun total c => total + lengthZ c) 0 chunks in
  let out := replicate (Z.to_nat total) x00 in
  fst <$> foldl (fun acc c =>
                   '(out, off) ← acc;
                   out ← setBytes out c off;
                   Ok (out, off + lengthZ c))
                (Ok (out, 0)) chunks.

Definition maxOfU32 (u32 : list Z) : Z :=
  foldl (fun m x => if m <? x then x else m) 0 u32.

Record BufferView : Type := {
  bv_buffer : Z;
  bv_byteOffset : Z;
  bv_byteLength : Z;
  bv_target : option Z
}.

Record Accessor : Type := {
  acc_bufferView : Z;
  acc_componentType : Z;
  acc_count : Z;
  acc_type : string;
  acc_min : option (list float);
  acc_max : option (list float);
  acc_normalized : option bool
}.

(** [addBufferView (name, target)] on the list built so far: the new
    list and the index of the added view. *)
Definition addBufferView (views : gmap string ChunkView) (name : string) (target : option Z)
    (bufferViews : list BufferView) : Outcome (list BufferView * Z) :=
  match views !! name with
  | None => Throws TypeError
  | Some view =>
      let idx := lengthZ bufferViews in
      Returns (bufferViews ++ [ {| bv_buffer := 0;
                                   bv_byteOffset := view_byteOffset view;
                                   bv_byteLength := view_byteLength view;
                                   bv_target := if truthy target then target else None |} ],
               idx)
  end.

(** [addAccessor (args)]: the optional fields are copied when truthy (an
    array always is). *)
Definition addAccessor (args : Accessor) (accessors : list Accessor) : list Accessor * Z :=
  let idx := lengthZ accessors in
  (accessors ++ [ {| acc_bufferView := acc_bufferView args;
                     acc_componentType := acc_componentType args;
                     acc_count := acc_count args;
                     acc_type := acc_type args;
                     acc_min := acc_min args;
                     acc_max := acc_max args;
                     acc_normalized := match acc_normalized args with
                                       | Some true => Some true
                                       | _ => None
                                       end |} ],
   idx).

Record GltfBuffer : Type := {
  gb_uri : option string;
  gb_byteLength : Z
}.

Record Primitive : Type := {
  prim_attributes : gmap string Z;
  prim_indices : Z;
  prim_mode : Z
}.

Record GltfDoc : Type := {
  doc_assetVersion : string;
  doc_assetGenerator : string;
  doc_scene : Z;
  doc_scenes : list (list Z);
  doc_nodes : list (Z * string);
  doc_meshes : list (list Primitive);
  doc_buffers : list GltfBuffer;
  doc_bufferViews : list BufferView;
  doc_accessors : list Accessor
}.

Record BuiltGltf : Type := {
  gltfJsonObj : GltfDoc;
  binU8 : list byte;
  filenames_gltf : string;
  filenames_bin : string
}.

(** [iso.replace (/[:.]/g, '-')] *)
Definition stampOf (iso : string) : string :=
  string_of_list_ascii
    (map (fun c => if (Ascii.eqb c ":" || Ascii.eqb c ".")%char then "-"%char else c)
         (list_ascii_of_string iso)).

(** Lines 283-286: the arrays are pushed in this order. *)
Definition packChunks (engine : NanChoice) (g : GltfGeometry) : Packer :=
  let st := pushChunk "indices" (uint32Bytes (g_indices g)) newPacker in
  let st := pushChunk "positions" (float32Bytes (engine "positions") (g_positions g)) st in
  let st := match g_normals g with
            | Some normals => pushChunk "normals" (float32Bytes (engine "normals") normals) st
            | None => st
            end in
  match g_uvs g with
  | Some uvs => pushChunk "uvs" (float32Bytes (engine "uvs") uvs) st
  | None => st
  end.

(** Lines 266-403 of [buildGltf], on the arrays and bounds the decode
    loops have computed; [iso] is the clock reading
    [new Date ().toISOString ()] and [engine] the engine's choice of NaN
    patterns.  The decode allocates three numbers
    per normal and two per UV, so the counts [normals.length / 3] and
    [uvs.length / 2] are exact divisions. *)
Definition packGltf (engine : NanChoice) (iso : string) (g : GltfGeometry)
    : Outcome BuiltGltf :=
  let indices := g_indices g in
  let normals := g_normals g in
  let uvs := g_uvs g in
  let nrmMinMax :=
    match normals with
    | Some _ => Some ([-1; -1; -1]%float, [1; 1; 1]%float)
    | None => None
    end in
  let st := packChunks engine g in
  let views := pk_views st in
  binU8 ← ofResult (concatU8 (pk_chunks st));
  let stamp := stampOf iso in
  let binName := ("mesh_" +:+ stamp +:+ ".bin")%string in
  let gltfName := ("mesh_" +:+ stamp +:+ ".gltf")%string in
  let bufferViews := [] in
  let accessors := [] in
  '(bufferViews, bvIndices) ← addBufferView views "indices" (Some 34963) bufferViews;
  '(bufferViews, bvPositions) ← addBufferView views "positions" (Some 34962) bufferViews;
  '(bufferViews, bvNormals) ←
      match normals with
      | Some _ => '(bvs, i) ← addBufferView views "normals" (Some 34962) bufferViews;
                  Returns (bvs, Some i)
      | None => Returns (bufferViews, None)
      end;
  '(bufferViews, bvUVs) ←
      match uvs with
      | Some _ => '(bvs, i) ← addBufferView views "uvs" (Some 34962) bufferViews;
                  Returns (bvs, Some i)
      | None => Returns (bufferViews, None)
      end;
  let '(accessors, accIndices) :=
    addAccessor {| acc_bufferView := bvIndices; acc_componentType := 5125;
                   acc_count := lengthZ indices; acc_type := "SCALAR";
                   acc_min := Some [0%float];
                   acc_max := Some [numberOfZ (maxOfU32 indices)];
                   acc_normalized := None |} accessors in
  let '(accessors, accPos) :=
    addAccessor {| acc_bufferView := bvPositions; acc_componentType := 5126;
                   acc_count := g_vertexCount g; acc_type := "VEC3";
                   acc_min := Some (let '(x, y, z) := g_posMin g in [x; y; z]);
                   acc_max := Some (let '(x, y, z) := g_posMax g in [x; y; z]);
                   acc_normalized := None |} accessors in
  let '(accessors, accNrm) :=
    match normals, bvNormals with
    | Some normals, Some bv =>
        let '(accs, i) :=
          addAccessor {| acc_bufferView := bv; acc_componentType := 5126;
                         acc_count := lengthZ normals / 3; acc_type := "VEC3";
                         acc_min := fst <$> nrmMinMax;
                         acc_max := snd <$> nrmMinMax;
                         acc_normalized := None |} accessors in
        (accs, Some i)
    | _, _ => (accessors, None)
    end in
  let '(accessors, accUV) :=
    match uvs, bvUVs with
    | Some uvs, Some bv =>
        let '(accs, i) :=
          addAccessor {| acc_bufferView := bv; acc_componentType := 5126;
                         acc_count := lengthZ uvs / 2; acc_type := "VEC2";
                         acc_min := (fun '(umin, vmin) => [umin; vmin]) <$> g_uvMin g;
                         acc_max := (fun '(umax, vmax) => [umax; vmax]) <$> g_uvMax g;
                         acc_normalized := None |} accessors in
        (accs, Some i)
    | _, _ => (accessors, None)
    end in
  let attributes : gmap string Z := {[ "POSITION"%string := accPos ]} in
  let attributes := match accNrm with
                    | Some i => <["NORMAL"%string := i]> attributes
                    | None => attributes
                    end in
  let attributes := match accUV with
                    | Some i => <["TEXCOORD_0"%string := i]> attributes
                    | None => attributes
                    end in
  let gltf :=
    {| doc_assetVersion := "2.0";
       doc_assetGenerator := "WebGLDumpToGLTF";
       doc_scene := 0;
       doc_scenes := [[0]];
       doc_nodes := [(0, "CapturedMesh"%string)];
       doc_meshes := [[ {| prim_attributes := attributes;
                           prim_indices := accIndices;
                           prim_mode := 4 |} ]];
       doc_buffers := [ {| gb_uri := Some binName; gb_byteLength := lengthZ binU8 |} ];
       doc_bufferViews := bufferViews;
       doc_accessors := accessors |} in
  Returns {| gltfJsonObj := gltf; binU8 := binU8;
             filenames_gltf := gltfName; filenames_bin := binName |}.

(** The whole of [buildGltf]: the decode, then the packing. *)
Definition buildGltfFile (engine : NanChoice) (iso : string) (captureBin : list byte)
    (selected : SelectedDraw) (options : DecodeOptions) : Outcome BuiltGltf :=
  g ← ofResult (buildGltf captureBin selected options);
  packGltf engine iso g.

(** ** Capture summary (buildStats) *)

Record ChosenDraw : Type := {
  cd_kind : string;
  cd_mode : Z;
  cd_count : JsNumber;
  cd_indexTypeEnum : Z;
  cd_indexOffset : option Z;
  cd_elementArrayBufferId : option Z
}.

Record PositionStats : Type := {
  ps_id : Z;
  ps_binOffset : Z;
  ps_byteLength : Z;
  ps_stride : option Z;
  ps_offset : option Z;
  ps_typeEnum : Z;
  ps_normalized : bool
}.

Record IndexStats : Type := {
  is_id : Z;
  is_binOffset : Z;
  is_byteLength : Z
}.

Record Stats : Type := {
  chosenDraw : ChosenDraw;
  positionAttribIndex : option Z;
  normalAttribIndex : option Z;
  uvAttribIndex : option Z;
  buffers_position : option PositionStats;
  buffers_index : option IndexStats
}.

(** The [indexType] string of the draw call, which the summary copies
    and nothing reads, is not part of [DrawCall] here. *)
Definition buildStats (selected : SelectedDraw) : Stats :=
  let draw := sel_draw selected in
  let buffersById := sel_buffersById selected in
  let attribs := sortByIndex (orEmpty (draw_attribs draw)) in
  let pos := findPositionAttrib attribs in
  let nrm := findNormalAttrib attribs in
  let uv := findUvAttrib attribs in
  let posBuf := match pos with
                | Some pos => buffersById !! attr_bufferId pos
                | None => None
                end in
  let idxBuf := indexBuffer draw buffersById in
  {| chosenDraw := {| cd_kind := draw_kind draw;
                      cd_mode := draw_mode draw;
                      cd_count := draw_count draw;
                      cd_indexTypeEnum := draw_indexTypeEnum draw;
                      cd_indexOffset := draw_indexOffset draw;
                      cd_elementArrayBufferId := draw_elementArrayBufferId draw |};
     positionAttribIndex := attr_index <$> pos;
     normalAttribIndex := attr_index <$> nrm;
     uvAttribIndex := attr_index <$> uv;
     buffers_position :=
       match posBuf, pos with
       | Some posBuf, Some pos =>
           Some {| ps_id := buf_id posBuf;
                   ps_binOffset := buf_binOffset posBuf;
                   ps_byteLength := buf_byteLength posBuf;
                   ps_stride := attr_stride pos;
                   ps_offset := attr_offset pos;
                   ps_typeEnum := attr_typeEnum pos;
                   ps_normalized := attr_normalized pos |}
       | _, _ => None
       end;
     buffers_index :=
       match idxBuf with
       | Some idxBuf => Some {| is_id := buf_id idxBuf;
                                is_binOffset := buf_binOffset idxBuf;
                                is_byteLength := buf_byteLength idxBuf |}
       | None => None
       end |}.

(** ** Plain-text path: the face lines (buildObj, lines 509-541) *)

Inductive FaceStyle : Type :=
  | FaceV        (* f A B C *)
  | FaceVT       (* f A/A B/B C/C *)
  | FaceVN       (* f A//A B//B C//C *)
  | FaceVTN.     (* f A/A/A B/B/B C/C/C *)

Record ObjFace : Type := {
  face_style : FaceStyle;
  face_A : float;
  face_B : float;
  face_C : float
}.

(** [indices[k] + 1], where a read past the end is [undefined] and the
    sum NaN. *)
Definition plusOne (x : option float) : float :=
  match x with
  | Some x => (x + 1)%float
  | None => nan
  end.

(** The loop [for (let i = 0; i < indices.length; i += 3)]: the three
    numbers [a], [b], [c] of each pass. *)
Fixpoint faceCorners (indices : list float) : list (float * float * float) :=
  match indices with
  | [] => []
  | a :: rest =>
      match rest with
      | b :: c :: rest' =>
          (plusOne (Some a), plusOne (Some b), plusOne (Some c)) :: faceCorners rest'
      | [b] => [(plusOne (Some a), plusOne (Some b), plusOne None)]
      | [] => [(plusOne (Some a), plusOne None, plusOne None)]
      end
  end.

(** [Math.max (1, Math.min (a, vertices.length))] *)
Definition clampCorner (a : float) (vertexCount : Z) : float :=
  Math_max 1 (Math_min a (numberOfZ vertexCount)).

Definition faceStyleOf (haveVT haveVN : bool) : FaceStyle :=
  if haveVT && haveVN then FaceVTN
  else if haveVT && negb haveVN then FaceVT
  else if negb haveVT && haveVN then FaceVN
  else FaceV.

(** The text of the file, line by line: the counts of the header, the
    [v], [vt] and [vn] lines in this order (the decoded numbers as they
    are), and the [f] lines.  The decimal rendering of the numbers is not
    modelled. *)
Record ObjText : Type := {
  ot_vertices : Z;
  ot_indices : Z;
  ot_triangles : Z;
  ot_v : list vec3;
  ot_vt : list vec2;
  ot_vn : list vec3;
  ot_f : list ObjFace
}.

Definition objText (o : ObjGeometry) : ObjText :=
  let vertices := o_vertices o in
  let indices := o_indices o in
  let haveVT := bool_decide (is_Some (o_uvs o)) in
  let haveVN := bool_decide (is_Some (o_normals o)) in
  {| ot_vertices := lengthZ vertices;
     ot_indices := lengthZ indices;
     ot_triangles := lengthZ indices / 3;
     ot_v := vertices;
     ot_vt := default [] (o_uvs o);
     ot_vn := default [] (o_normals o);
     ot_f := (fun '(a, b, c) =>
                {| face_style := faceStyleOf haveVT haveVN;
                   face_A := clampCorner a (lengthZ vertices);
                   face_B := clampCorner b (lengthZ vertices);
                   face_C := clampCorner c (lengthZ vertices) |})
             <$> faceCorners indices |}.

(** ** Binary container of a built scene (buildGlb, lines 4-16) *)

(** [cloneGltf] and the update of [buffers[0]].  The clone has the JSON
    text of the original, which is all that is used of it. *)
Definition glbJson (built : BuiltGltf) : GltfDoc :=
  let gltf := gltfJsonObj built in
  match doc_buffers gltf with
  | b0 :: rest =>
      {| doc_assetVersion := doc_assetVersion gltf;
         doc_assetGenerator := doc_assetGenerator gltf;
         doc_scene := doc_scene gltf;
         doc_scenes := doc_scenes gltf;
         doc_nodes := doc_nodes gltf;
         doc_meshes := doc_meshes gltf;
         doc_buffers := {| gb_uri := None; gb_byteLength := lengthZ (binU8 built) |} :: rest;
         doc_bufferViews := doc_bufferViews gltf;
         doc_accessors := doc_accessors gltf |}
  | [] => gltf
  end.

(** [buildGlb (built)]; [jsonText] stands for
    [new TextEncoder ().encode (JSON.stringify (gltf))]. *)
Definition buildGlbFrom (jsonText : GltfDoc -> list byte) (built : BuiltGltf)
    : Result (list byte) :=
  buildGlb (jsonText (glbJson built)) (binU8 built).

(** ** Worker (gltfWorker.ts) *)

Inductive IncomingMessage : Type :=
  | LoadMessage (json : CaptureJson) (bin : list byte) (options : DecodeOptions)
  | StoreMessage (json : CaptureJson) (bin : list byte)
  | RebuildMessage (options : DecodeOptions)
  | DownloadMessage (options : DecodeOptions).

Inductive Purpose : Type := Preview | Download | Stored.

(** [rm_reason] holds the byte length that the reason text reports. *)
Record ResultMessage : Type := {
  rm_purpose : Purpose;
  rm_stats : option Stats;
  rm_glb : option (list byte);
  rm_filename : option string;
  rm_previewSkipped : option bool;
  rm_reason : option Z
}.

(** The text of an error message: one of the worker's own two, or the
    message of a caught exception. *)
Inductive ErrorText : Type :=
  | NoSuitableDraw
  | MissingCaptureData
  | MessageOf (t : Thrown).

Inductive OutgoingMessage : Type :=
  | ResultOut (m : ResultMessage)
  | ErrorOut (e : ErrorText).

(** The three module variables. *)
Record WorkerState : Type := {
  w_captureJson : option CaptureJson;
  w_captureBin : option (list byte);
  w_selected : option SelectedDraw
}.

Definition initialWorker : WorkerState :=
  {| w_captureJson := None; w_captureBin := None; w_selected := None |}.

Definition MAX_PREVIEW_BYTES : Z := 200 * 1024 * 1024.

Definition asciiLower (c : ascii) : ascii :=
  let n := N_of_ascii c in
  if ((65 <=? n) && (n <=? 90))%N then ascii_of_N (n + 32) else c.

(** [name.replace (/\.gltf$/i, '.glb')] *)
Definition replaceGltfExt (name : string) : string :=
  let cs := list_ascii_of_string name in
  let n := (length cs - 5)%nat in
  if bool_decide (map asciiLower (drop n cs) = list_ascii_of_string ".gltf")
  then string_of_list_ascii (take n cs ++ list_ascii_of_string ".glb")
  else name.

Definition postError (e : ErrorText) : list OutgoingMessage := [ErrorOut e].

(** What a call finds when it runs: the reading of the clock and the
    engine's choice of NaN patterns. *)
Record Moment : Type := {
  clock : string;
  nanChoice : NanChoice
}.

Section Worker.
(** The serializer of the container, and the moment at which the
    message is handled. *)
Variable jsonText : GltfDoc -> list byte.
Variable now : Moment.

Definition buildAndPost (st : WorkerState) (options : DecodeOptions) (purpose : Purpose)
    : list OutgoingMessage :=
  match w_captureJson st, w_captureBin st, w_selected st with
  | Some _, Some captureBin, Some selected =>
      match (built ← buildGltfFile (nanChoice now) (clock now) captureBin selected options;
             glb ← ofResult (buildGlbFrom jsonText built);
             Returns (built, glb)) with
      | Returns (built, glb) =>
          let filename := replaceGltfExt (filenames_gltf built) in
          let stats := buildStats selected in
          [ResultOut {| rm_purpose := purpose;
                        rm_stats := Some stats;
                        rm_glb := Some glb;
                        rm_filename := Some filename;
                        rm_previewSkipped := None;
                        rm_reason := None |}]
      | Throws t => postError (MessageOf t)
      end
  | _, _, _ => []
  end.

Definition buildPreviewOrSkip (st : WorkerState) (options : DecodeOptions)
    : list OutgoingMessage :=
  match w_captureJson st, w_captureBin st, w_selected st with
  | Some _, Some captureBin, Some selected =>
      if MAX_PREVIEW_BYTES <? lengthZ captureBin then
        let stats := buildStats selected in
        [ResultOut {| rm_purpose := Preview;
                      rm_stats := Some stats;
                      rm_glb := None;
                      rm_filename := None;
                      rm_previewSkipped := Some true;
                      rm_reason := Some (lengthZ captureBin) |}]
      else buildAndPost st options Preview
  | _, _, _ => []
  end.

Definition missingCapture (st : WorkerState) : bool :=
  negb (bool_decide (is_Some (w_captureJson st)))
  || negb (bool_decide (is_Some (w_captureBin st)))
  || negb (bool_decide (is_Some (w_selected st))).

(** [self.onmessage]: the new state and the messages posted. *)
Definition onmessage (st : WorkerState) (data : IncomingMessage)
    : WorkerState * list OutgoingMessage :=
  match data with
  | LoadMessage json bin options =>
      let st := {| w_captureJson := Some json;
                   w_captureBin := Some bin;
                   w_selected := pickMainDrawCall json |} in
      match w_selected st with
      | None => (st, postError NoSuitableDraw)
      | Some _ => (st, buildPreviewOrSkip st options)
      end
  | StoreMessage json bin =>
      let st := {| w_captureJson := Some json;
                   w_captureBin := Some bin;
                   w_selected := pickMainDrawCall json |} in
      match w_selected st with
      | None => (st, postError NoSuitableDraw)
      | Some selected =>
          let stats := buildStats selected in
          (st, [ResultOut {| rm_purpose := Stored;
                             rm_stats := Some stats;
                             rm_glb := None;
                             rm_filename := None;
                             rm_previewSkipped := None;
                             rm_reason := None |}])
      end
  | RebuildMessage options =>
      if missingCapture st then (st, postError MissingCaptureData)
      else (st, buildPreviewOrSkip st options)
  | DownloadMessage options =>
      if missingCapture st then (st, postError MissingCaptureData)
      else (st, buildAndPost st options Download)
  end.
End Worker.

(** A run of the worker: the messages posted for each incoming message
    in turn, each handled at its own moment. *)
Fixpoint runWorker (jsonText : GltfDoc -> list byte) (st : WorkerState)
    (inbox : list (Moment * IncomingMessage)) : WorkerState * list (list OutgoingMessage) :=
  match inbox with
  | [] => (st, [])
  | (now, data) :: inbox' =>
      let '(st', out) := onmessage jsonText now st data in
      let '(st'', outs) := runWorker jsonText st' inbox' in
      (st'', out :: outs)
  end.

(** ** Vocabulary of the packed scene *)

(** The [byteLength] bytes of a buffer from [byteOffset] on: what a
    buffer view selects. *)
Definition sliceOf (bin : list byte) (byteOffset byteLength : Z) : list byte :=
  take (Z.to_nat byteLength) (drop (Z.to_nat byteOffset) bin).

(** The state of the packer is consistent: the running offset is the
    number of bytes pushed, and every recorded view lies inside them. *)
Definition PackerOk (st : Packer) : Prop :=
  pk_byteOffset st = lengthZ (concat (pk_chunks st)) /\
  forall name v, pk_views st !! name = Some v ->
    0 <= view_byteOffset v /\ 0 <= view_byteLength v /\
    view_byteOffset v + view_byteLength v <= pk_byteOffset st.

(** The buffer views and accessors of a scene, in closed form. *)
Definition bufferViewAt (byteOffset byteLength target : Z) : BufferView :=
  {| bv_buffer := 0; bv_byteOffset := byteOffset; bv_byteLength := byteLength;
     bv_target := Some target |}.

Definition optionList {A : Type} (x : option A) : list A :=
  match x with
  | Some a => [a]
  | None => []
  end.

Definition accessorOf (bufferView componentType count : Z) (type : string)
    (min max : option (list float)) : Accessor :=
  {| acc_bufferView := bufferView; acc_componentType := componentType;
     acc_count := count; acc_type := type; acc_min := min; acc_max := max;
     acc_normalized := None |}.

Definition vec3List (v : vec3) : list float := let '(x, y, z) := v in [x; y; z].

Definition vec2List (v : vec2) : list float := let '(x, y) := v in [x; y].

(** What a reader of the scene finds under accessor [i]: the accessor,
    its buffer view, and the bytes of the buffer that the view selects. *)
Definition accessorData (built : BuiltGltf) (i : Z)
    : option (Accessor * BufferView * list byte) :=
  acc ← doc_accessors (gltfJsonObj built) !! Z.to_nat i;
  bv ← doc_bufferViews (gltfJsonObj built) !! Z.to_nat (acc_bufferView acc);
  Some (acc, bv, sliceOf (binU8 built) (bv_byteOffset bv) (bv_byteLength bv)).

(** ** Vocabulary of the order of numbers *)

(** A key that orders the numbers other than NaN as [<=] does. *)
Definition sfKey (x : spec_float) : Z * Z * Z :=
  match x with
  | S754_nan => (0, 0, 0)
  | S754_infinity true => (-2, 0, 0)
  | S754_finite true m e => (-1, - e, - Zpos m)
  | S754_zero _ => (0, 0, 0)
  | S754_finite false m e => (1, e, Zpos m)
  | S754_infinity false => (2, 0, 0)
  end.

Definition keyCompare (k1 k2 : Z * Z * Z) : comparison :=
  let '(a1, b1, c1) := k1 in
  let '(a2, b2, c2) := k2 in
  match a1 ?= a2 with
  | Eq => match b1 ?= b2 with
          | Eq => c1 ?= c2
          | c => c
          end
  | c => c
  end.

Definition fle (x y : float) : Prop := (x <=? y)%float = true.

Definition notNaN (x : float) : Prop := is_nan x = false.

(** The components of a list of vectors, one list per component. *)
Definition columns3 (vs : list vec3) : list (list float) :=
  [(fun v => v.1.1) <$> vs; (fun v => v.1.2) <$> vs; (fun v => v.2) <$> vs].

Definition columns2 (vs : list vec2) : list (list float) :=
  [fst <$> vs; snd <$> vs].

(** [P] holds of the 2^bits integers from [base * 2^bits] on. *)
Fixpoint forallBelow (bits : nat) (P : Z -> bool) (base : Z) : bool :=
  match bits with
  | O => P base
  | S b => forallBelow b P (2 * base) && forallBelow b P (2 * base + 1)
  end.

Definition inUnit (lo x : float) : bool := ((lo <=? x) && (x <=? 1))%float.

(** The normalized value of the raw integer [z] of type [t], and its
    float32 rounding, both lie between [lo] and 1. *)
Definition normalizedInUnit (lo : float) (t : Z) (z : Z) : bool :=
  inUnit lo (normalizeInt (numberOfZ z) t)
  && inUnit lo (fround (normalizeInt (numberOfZ z) t)).

(** The unsigned integer component types. *)
Definition unsignedType (t : Z) : Prop := t = 5121 \/ t = 5123 \/ t = 5125.

(** ** Vocabulary of the worker *)

(** The capture of the most recent [load] or [store] message. *)
Definition lastCapture (inbox : list (Moment * IncomingMessage))
    : option (CaptureJson * list byte) :=
  foldl (fun acc m => match snd m with
                      | LoadMessage json bin _ => Some (json, bin)
                      | StoreMessage json bin => Some (json, bin)
                      | _ => acc
                      end) None inbox.

(** The worker state that holds a capture. *)
Definition holding (c : CaptureJson * list byte) : WorkerState :=
  {| w_captureJson := Some (fst c);
     w_captureBin := Some (snd c);
     w_selected := pickMainDrawCall (fst c) |}.

(** A reply that carries a container. *)
Definition builtReply (purpose : Purpose) (selected : SelectedDraw) (glb : list byte)
    (filename : string) : OutgoingMessage :=
  ResultOut {| rm_purpose := purpose;
               rm_stats := Some (buildStats selected);
               rm_glb := Some glb;
               rm_filename := Some filename;
               rm_previewSkipped := None;
               rm_reason := None |}.

(** The reply that reports a skipped preview. *)
Definition skippedReply (selected : SelectedDraw) (byteLength : Z) : OutgoingMessage :=
  ResultOut {| rm_purpose := Preview;
               rm_stats := Some (buildStats selected);
               rm_glb := None;
               rm_filename := None;
               rm_previewSkipped := Some true;
               rm_reason := Some byteLength |}.

Definition storedReply (selected : SelectedDraw) : OutgoingMessage :=
  ResultOut {| rm_purpose := Stored;
               rm_stats := Some (buildStats selected);
               rm_glb := None;
               rm_filename := None;
               rm_previewSkipped := None;
               rm_reason := None |}.

(** The selection made in the capture of the most recent [load] or
    [store] message, if there is such a message and a selection in its
    capture. *)
Definition lastSelection (inbox : list (Moment * IncomingMessage)) : option SelectedDraw :=
  c ← lastCapture inbox; pickMainDrawCall (fst c).

(** ** Vocabulary of the bytes of a scalar *)

(** The number that a binary32 bit pattern stands for, in the words of
    IEEE 754: bit 31 is the sign, bits 30 to 23 the biased exponent,
    bits 22 to 0 the fraction.  An exponent field of 255 is an infinity
    (fraction 0) or a NaN; an exponent field of 0 is the subnormal
    fraction * 2^-149; any other is (2^23 + fraction) * 2^(exponent -
    150).  Each of these products is a double, so the arithmetic is
    exact. *)
Definition binary32Value (bits : Z) : float :=
  let sign := bits / 2 ^ 31 in
  let exponent := (bits / 2 ^ 23) mod 2 ^ 8 in
  let fraction := bits mod 2 ^ 23 in
  let magnitude :=
    if exponent =? 255 then (if fraction =? 0 then infinity else nan)
    else if exponent =? 0 then Z.ldexp (numberOfZ fraction) (-149)
    else Z.ldexp (numberOfZ (2 ^ 23 + fraction)) (exponent - 150) in
  if sign =? 0 then magnitude else (- magnitude)%float.

(** Two's complement: the signed reading of an unsigned [bits]-bit
    value. *)
Definition twosComplement (bits : Z) (v : Z) : Z :=
  if v <? 2 ^ (bits - 1) then v else v - 2 ^ bits.

(** The scalar that a component of type [t] stands for, given its bytes
    in the order they lie in the buffer, least significant byte first.
    It is defined for exactly as many bytes as the type is wide. *)
Definition scalarOfBytes (t : Z) (bytes : list byte) : option float :=
  match t, bytes with
  | 5120, [b0] => Some (numberOfZ (twosComplement 8 (byteVal b0)))
  | 5121, [b0] => Some (numberOfZ (byteVal b0))
  | 5122, [b0; b1] => Some (numberOfZ (twosComplement 16 (byteVal b0 + 2 ^ 8 * byteVal b1)))
  | 5123, [b0; b1] => Some (numberOfZ (byteVal b0 + 2 ^ 8 * byteVal b1))
  | 5124, [b0; b1; b2; b3] =>
      Some (numberOfZ (twosComplement 32 (byteVal b0 + 2 ^ 8 * byteVal b1
                                          + 2 ^ 16 * byteVal b2 + 2 ^ 24 * byteVal b3)))
  | 5125, [b0; b1; b2; b3] =>
      Some (numberOfZ (byteVal b0 + 2 ^ 8 * byteVal b1
                       + 2 ^ 16 * byteVal b2 + 2 ^ 24 * byteVal b3))
  | 5126, [b0; b1; b2; b3] =>
      Some (binary32Value (byteVal b0 + 2 ^ 8 * byteVal b1
                           + 2 ^ 16 * byteVal b2 + 2 ^ 24 * byteVal b3))
  | _, _ => None
  end.

(** [bytes] holds the numbers of [a] as binary32, four bytes each, least
    significant byte first. *)
Definition float32Array (bytes : list byte) (a : list float) : Prop :=
  lengthZ bytes = 4 * lengthZ a /\
  forall (k : nat) (x : float),
    a !! k = Some x -> scalarOfBytes 5126 (sliceOf bytes (4 * Z.of_nat k) 4) = Some x.

(** A number that a [Float32Array] can hold. *)
Definition isFloat32 (x : float) : Prop := exists y, x = fround y.

(** ** A sample engine and a selection without position attribute *)

(** An engine that writes every NaN as the quiet NaN with no payload,
    and a moment with that engine. *)
Definition quietNaN : NanChoice := fun _ _ => 0.

Definition sampleMoment : Moment :=
  {| clock := "2024-01-02T03:04:05.678Z"; nanChoice := quietNaN |}.

(** The sample draw call with its UV and normal attributes only, in a
    selection without the descriptor of the index buffer. *)
Definition withoutPosition : SelectedDraw :=
  {| sel_draw :=
       {| draw_kind := "drawElements"; draw_mode := 4; draw_count := JsInt 3;
          draw_indexTypeEnum := 5123; draw_indexOffset := None;
          draw_elementArrayBufferId := Some 4;
          draw_attribs := Some [Sample.uvAttr; Sample.nrmAttr] |};
     sel_buffersById := delete 4 Sample.buffersById |}.

(** * Properties *)

(** ** Loops *)

Section ForEach.
Context {A B : Type}.
Implicit Types (f g : A -> Result B) (l : list A) (vs : list B).

Lemma forEach_cons_Ok f i l v vs :
  f i = Ok v -> forEach f l = Ok vs -> forEach f (i :: l) = Ok (v :: vs).
Proof. intros Hi Hl. simpl. rewrite Hi, Hl. reflexivity. Qed.

Lemma forEach_Ok_inv f i l ws :
  forEach f (i :: l) = Ok ws ->
  exists v vs, ws = v :: vs /\ f i = Ok v /\ forEach f l = Ok vs.
Proof.
  simpl. destruct (f i) as [v|e]; [|discriminate].
  destruct (forEach f l) as [vs|e]; [|discriminate].
  intros [= <-]. eauto.
Qed.

Lemma forEach_Forall2 f l vs :
  forEach f l = Ok vs <-> Forall2 (fun i v => f i = Ok v) l vs.
Proof.
  revert vs. induction l as [|i l IH]; intros vs; split.
  - intros [= <-]. constructor.
  - intros H. inversion H. reflexivity.
  - intros (v & ws & -> & Hv & Hws)%forEach_Ok_inv.
    constructor; [exact Hv|]. apply IH, Hws.
  - intros H. inversion H as [|? v ? ws Hv Hws]; subst.
    apply forEach_cons_Ok; [exact Hv|]. apply IH, Hws.
Qed.

Lemma forEach_lookup f l vs k i :
  forEach f l = Ok vs -> l !! k = Some i ->
  exists v, f i = Ok v /\ vs !! k = Some v.
Proof.
  intros H%forEach_Forall2 Hk.
  destruct (Forall2_lookup_l _ _ _ _ _ H Hk) as (v & Hv & Hf). eauto.
Qed.

Lemma forEach_Err f l e :
  forEach f l = Err e -> exists i, i ∈ l /\ f i = Err e.
Proof.
  induction l as [|i l IH]; simpl; [discriminate|].
  destruct (f i) as [v|e'] eqn:Hi.
  - destruct (forEach f l) as [vs|e'']; [discriminate|].
    intros [= ->]. destruct IH as (j & Hj & Hje); [reflexivity|].
    exists j. split; [right; exact Hj|exact Hje].
  - intros [= ->]. exists i. split; [left|exact Hi].
Qed.

Lemma forEach_ext f g l :
  (forall i, i ∈ l -> f i = g i) -> forEach f l = forEach g l.
Proof.
  induction l as [|i l IH]; intros H; [reflexivity|].
  simpl. rewrite (H i) by left. rewrite IH; [reflexivity|].
  intros j Hj. apply H. right. exact Hj.
Qed.
End ForEach.

Lemma elem_of_upTo (n i : Z) : i ∈ upTo n <-> 0 <= i < n.
Proof. unfold upTo. rewrite elem_of_seqZ. lia. Qed.

Lemma length_upTo (n : Z) : length (upTo n) = Z.to_nat n.
Proof. unfold upTo. apply length_seqZ. Qed.

Lemma lookup_upTo (n : Z) (k : nat) :
  Z.of_nat k < n -> upTo n !! k = Some (Z.of_nat k).
Proof. intros H. unfold upTo. rewrite lookup_seqZ_lt by lia. f_equal. Qed.

(** ** Scalar codec *)

Ltac split_enum t :=
  destruct t as [|t|t]; try reflexivity;
  do 13 (try (destruct t as [t|t|]; try reflexivity)).

Lemma bytesPerComponent_eq (t : Z) :
  bytesPerComponent t =
  if (t =? 5120) || (t =? 5121) then Ok 1
  else if (t =? 5122) || (t =? 5123) then Ok 2
  else if (t =? 5124) || (t =? 5125) || (t =? 5126) then Ok 4
  else Err (UnsupportedComponentType t).
Proof. split_enum t. Qed.

Lemma supported_cases (t : Z) :
  supported t ->
  t = 5120 \/ t = 5121 \/ t = 5122 \/ t = 5123 \/ t = 5124 \/ t = 5125 \/ t = 5126.
Proof. unfold supported. lia. Qed.

Lemma bytesPerComponent_supported (t : Z) :
  supported t -> bytesPerComponent t = Ok (componentWidth t).
Proof.
  intros H. destruct (supported_cases t H) as [->|[->|[->|[->|[->|[->| ->]]]]]];
    reflexivity.
Qed.

Lemma bytesPerComponent_unsupported (t : Z) :
  ~ supported t -> bytesPerComponent t = Err (UnsupportedComponentType t).
Proof.
  intros H. rewrite bytesPerComponent_eq.
  repeat match goal with
         | |- context [?a =? ?b] => destruct (Z.eqb_spec a b); simpl
         end; try reflexivity; exfalso; apply H; unfold supported; lia.
Qed.

Lemma getStride_supported (a : Attribute) :
  supported (attr_typeEnum a) -> getStride a = Ok (effectiveStride a).
Proof.
  intros H. unfold getStride, effectiveStride.
  rewrite (bytesPerComponent_supported _ H).
  destruct (attr_stride a) as [s|]; [|reflexivity].
  destruct (s =? 0); reflexivity.
Qed.

Lemma viewBytes_inBounds (dv : list byte) (off w : Z) :
  inBounds dv off w ->
  viewBytes dv off w = Ok (take (Z.to_nat w) (drop (Z.to_nat off) dv)).
Proof.
  intros [H1 H2]. unfold viewBytes.
  destruct (Z.leb_spec 0 off); [|lia].
  destruct (Z.leb_spec (off + w) (lengthZ dv)); [|lia]. reflexivity.
Qed.

Lemma viewBytes_outOfBounds (dv : list byte) (off w : Z) :
  ~ inBounds dv off w -> viewBytes dv off w = Err RangeError.
Proof.
  intros H. unfold viewBytes.
  destruct (Z.leb_spec 0 off); [|reflexivity].
  destruct (Z.leb_spec (off + w) (lengthZ dv)); [|reflexivity].
  exfalso. apply H. split; assumption.
Qed.

Ltac eval_width :=
  repeat match goal with
         | H : context [componentWidth ?t] |- _ =>
             let w := eval vm_compute in (componentWidth t) in
             change (componentWidth t) with w in H
         | |- context [componentWidth ?t] =>
             let w := eval vm_compute in (componentWidth t) in
             change (componentWidth t) with w
         end.

Lemma readScalar_inBounds (dv : list byte) (off t : Z) :
  supported t -> inBounds dv off (componentWidth t) ->
  readScalar dv off t =
  Ok (decodeScalar t (take (Z.to_nat (componentWidth t)) (drop (Z.to_nat off) dv))).
Proof.
  intros Hs Hb.
  destruct (supported_cases t Hs) as [->|[->|[->|[->|[->|[->| ->]]]]]];
    unfold readScalar, getInt, getUint;
    eval_width;
    rewrite (viewBytes_inBounds _ _ _ Hb); reflexivity.
Qed.

Lemma readScalar_outOfBounds (dv : list byte) (off t : Z) :
  supported t -> ~ inBounds dv off (componentWidth t) ->
  readScalar dv off t = Err RangeError.
Proof.
  intros Hs Hb.
  destruct (supported_cases t Hs) as [->|[->|[->|[->|[->|[->| ->]]]]]];
    unfold readScalar, getInt, getUint;
    eval_width;
    rewrite (viewBytes_outOfBounds _ _ _ Hb); reflexivity.
Qed.

Lemma readScalar_unsupported (dv : list byte) (off t : Z) :
  ~ supported t -> readScalar dv off t = Err (UnsupportedScalarType t).
Proof.
  intros H.
  assert (E : readScalar dv off t =
    if (t =? 5120) then numberOfZ <$> getInt dv off 1
    else if (t =? 5121) then numberOfZ <$> getUint dv off 1
    else if (t =? 5122) then numberOfZ <$> getInt dv off 2
    else if (t =? 5123) then numberOfZ <$> getUint dv off 2
    else if (t =? 5124) then numberOfZ <$> getInt dv off 4
    else if (t =? 5125) then numberOfZ <$> getUint dv off 4
    else if (t =? 5126) then float32OfBits <$> getUint dv off 4
    else Err (UnsupportedScalarType t)) by (split_enum t).
  rewrite E.
  repeat match goal with
         | |- context [?a =? ?b] => destruct (Z.eqb_spec a b); simpl
         end; try reflexivity; exfalso; apply H; unfold supported; lia.
Qed.

Lemma normalizeInt_unsupported (v : float) (t : Z) :
  ~ supported t -> normalizeInt v t = v.
Proof.
  intros H.
  assert (E : normalizeInt v t =
    if (t =? 5120) then Math_max (-1) (v / 127)
    else if (t =? 5121) then (v / 255)%float
    else if (t =? 5122) then Math_max (-1) (v / 32767)
    else if (t =? 5123) then (v / 65535)%float
    else if (t =? 5124) then Math_max (-1) (v / 2147483647)
    else if (t =? 5125) then (v / 4294967295)%float
    else v) by (split_enum t).
  rewrite E.
  repeat match goal with
         | |- context [?a =? ?b] => destruct (Z.eqb_spec a b); simpl
         end; try reflexivity; exfalso; apply H; unfold supported; lia.
Qed.

(** ** Draw-call selector *)

Lemma foldl_contexts (ctxs : list ContextEntry) (best : option DrawCall) :
  foldl (fun best ctx => foldl pickStep best (orEmpty (ctx_draws ctx))) best ctxs =
  foldl pickStep best (flat_map (fun ctx => orEmpty (ctx_draws ctx)) ctxs).
Proof.
  revert best. induction ctxs as [|c ctxs IH]; intros best; [reflexivity|].
  simpl. rewrite foldl_app. apply IH.
Qed.

Lemma pickMainDrawCall_best (json : CaptureJson) :
  sel_draw <$> pickMainDrawCall json = foldl pickStep None (allDraws json).
Proof.
  unfold pickMainDrawCall, allDraws. rewrite foldl_contexts.
  destruct (foldl pickStep None _); reflexivity.
Qed.

Lemma jsGt_trans (a b c : JsNumber) :
  jsGt a b = true -> jsGt b c = true -> jsGt a c = true.
Proof.
  destruct a, b, c; simpl; try congruence; try reflexivity.
  rewrite !Z.ltb_lt. lia.
Qed.

Lemma jsGt_le_trans (a b c : JsNumber) :
  a <> JsNaN -> c <> JsNaN ->
  jsGt a b = true -> jsGt c b = false -> jsGt a c = true.
Proof.
  destruct a, b, c; simpl; try congruence; try reflexivity.
  rewrite !Z.ltb_lt, Z.ltb_ge. lia.
Qed.

(** The state of the selection loop after the draws [l], started from
    [best]: either nothing replaced [best], or the result is the first
    draw of [l] whose count no later eligible draw exceeds. *)
Lemma foldl_pickStep_inv (l : list DrawCall) (best : option DrawCall) :
  (forall x, x ∈ l -> eligible x = true -> draw_count x <> JsNaN) ->
  (forall b, best = Some b -> draw_count b <> JsNaN) ->
  (foldl pickStep best l = best /\
   forall x, x ∈ l -> eligible x = true ->
             exists b, best = Some b /\ jsGt (draw_count x) (draw_count b) = false)
  \/
  (exists l1 d l2,
     l = l1 ++ d :: l2 /\ foldl pickStep best l = Some d /\ eligible d = true /\
     (forall b, best = Some b -> jsGt (draw_count d) (draw_count b) = true) /\
     (forall x, x ∈ l1 -> eligible x = true -> jsGt (draw_count d) (draw_count x) = true) /\
     (forall x, x ∈ l2 -> eligible x = true -> jsGt (draw_count x) (draw_count d) = false)).
Proof.
  revert best. induction l as [|d l IH]; intros best Hnan Hbest.
  - left. split; [reflexivity|]. intros x Hx. inversion Hx.
  - assert (Hnan' : forall x, x ∈ l -> eligible x = true -> draw_count x <> JsNaN)
      by (intros x Hx; apply Hnan; right; exact Hx).
    simpl.
    destruct (eligible d) eqn:Hd.
    + (* d is eligible *)
      assert (Hdn : draw_count d <> JsNaN) by (apply Hnan; [left|exact Hd]).
      destruct best as [b|].
      * destruct (jsGt (draw_count d) (draw_count b)) eqn:Hgt.
        -- (* d replaces b *)
           replace (pickStep (Some b) d) with (Some d)
             by (unfold pickStep; rewrite Hd, Hgt; reflexivity).
           right.
           destruct (IH (Some d) Hnan') as [[Hf Hall]|(l1 & d' & l2 & -> & Hf & Hd' & Hb' & H1 & H2)];
             [intros ? [= <-]; exact Hdn| |].
           ++ exists [], d, l. split_and!; try assumption; try reflexivity.
              ** intros b' [= <-]. exact Hgt.
              ** intros x Hx. inversion Hx.
              ** intros x Hx Hex. destruct (Hall x Hx Hex) as (b' & [= <-] & Hle). exact Hle.
           ++ exists (d :: l1), d', l2. split_and!; try assumption; try reflexivity.
              ** intros b' [= <-]. eapply jsGt_trans; [apply Hb'; reflexivity|exact Hgt].
              ** intros x [->|Hx]%elem_of_cons Hex; [apply Hb'; reflexivity|apply H1; assumption].
        -- (* b stays *)
           replace (pickStep (Some b) d) with (Some b)
             by (unfold pickStep; rewrite Hd, Hgt; reflexivity).
           assert (Hbn : draw_count b <> JsNaN) by (apply Hbest; reflexivity).
           destruct (IH (Some b) Hnan' Hbest) as [[Hf Hall]|(l1 & d' & l2 & -> & Hf & Hd' & Hb' & H1 & H2)].
           ++ left. split; [exact Hf|].
              intros x [->|Hx]%elem_of_cons Hex; [eauto|apply Hall; assumption].
           ++ right. exists (d :: l1), d', l2. split_and!; try assumption; try reflexivity.
              intros x [->|Hx]%elem_of_cons Hex; [|apply H1; assumption].
              eapply jsGt_le_trans; [| |apply Hb'; reflexivity|exact Hgt]; [|exact Hdn].
              apply Hnan; [|exact Hd']. right. apply elem_of_app. right. left.
      * (* no best yet: d is taken *)
        replace (pickStep None d) with (Some d)
          by (unfold pickStep; rewrite Hd; reflexivity).
        right.
        destruct (IH (Some d) Hnan') as [[Hf Hall]|(l1 & d' & l2 & -> & Hf & Hd' & Hb' & H1 & H2)];
          [intros ? [= <-]; exact Hdn| |].
        -- exists [], d, l. split_and!; try assumption; try reflexivity.
           ++ intros b' [=].
           ++ intros x Hx. inversion Hx.
           ++ intros x Hx Hex. destruct (Hall x Hx Hex) as (b' & [= <-] & Hle). exact Hle.
        -- exists (d :: l1), d', l2. split_and!; try assumption; try reflexivity.
           ++ intros b' [=].
           ++ intros x [->|Hx]%elem_of_cons Hex; [apply Hb'; reflexivity|apply H1; assumption].
    + (* d is skipped *)
      replace (pickStep best d) with best
        by (unfold pickStep; rewrite Hd; reflexivity).
      destruct (IH best Hnan' Hbest) as [[Hf Hall]|(l1 & d' & l2 & -> & Hf & Hd' & Hb' & H1 & H2)].
      * left. split; [exact Hf|].
        intros x [->|Hx]%elem_of_cons Hex; [congruence|apply Hall; assumption].
      * right. exists (d :: l1), d', l2. split_and!; try assumption; try reflexivity.
        intros x [->|Hx]%elem_of_cons Hex; [congruence|apply H1; assumption].
Qed.

Lemma foldl_pickStep_Some (l : list DrawCall) (b : DrawCall) :
  foldl pickStep (Some b) l <> None.
Proof.
  revert b. induction l as [|x l IH]; intros b; simpl; [discriminate|].
  unfold pickStep at 2. destruct (eligible x); [|apply IH].
  destruct (jsGt _ _); apply IH.
Qed.

Lemma foldl_pickStep_None (l : list DrawCall) :
  foldl pickStep None l = None <-> forall x, x ∈ l -> eligible x = false.
Proof.
  induction l as [|d l IH].
  - split; [intros _ x Hx; inversion Hx|reflexivity].
  - simpl. destruct (eligible d) eqn:Hd.
    + replace (pickStep None d) with (Some d)
        by (unfold pickStep; rewrite Hd; reflexivity).
      split.
      * intros H. exfalso. exact (foldl_pickStep_Some _ _ H).
      * intros H. specialize (H d). rewrite Hd in H. discriminate H. left.
    + replace (pickStep None d) with (@None DrawCall)
        by (unfold pickStep; rewrite Hd; reflexivity).
      rewrite IH. split.
      * intros H x [->|Hx]%elem_of_cons; [exact Hd|apply H, Hx].
      * intros H x Hx. apply H. right. exact Hx.
Qed.

Lemma eligible_iff (d : DrawCall) :
  eligible d = true <->
  draw_kind d = "drawElements"%string /\
  draw_mode d = 4 /\
  typeofNumber (draw_count d) = true /\
  (exists a l, draw_attribs d = Some (a :: l)) /\
  (exists id, draw_elementArrayBufferId d = Some id /\ id <> 0).
Proof.
  unfold eligible, truthy. rewrite !andb_true_iff, String.eqb_eq, Z.eqb_eq.
  split.
  - intros ((((Hk & Hm) & Ht) & Ha) & Hi). repeat split; try assumption.
    + destruct (draw_attribs d) as [[|a l]|]; try discriminate. eauto.
    + destruct (draw_elementArrayBufferId d) as [id|]; [|discriminate].
      exists id. split; [reflexivity|]. intros ->. discriminate.
  - intros (Hk & Hm & Ht & (a & l & Ha) & (id & Hi & Hn)).
    rewrite Ha, Hi. repeat split; try assumption.
    apply negb_true_iff, Z.eqb_neq, Hn.
Qed.

(** ** Attribute classifier *)

Lemma insertByIndex_Permutation (a : Attribute) (l : list Attribute) :
  insertByIndex a l ≡ₚ a :: l.
Proof.
  induction l as [|b l IH]; simpl; [reflexivity|].
  destruct (attr_index a <=? attr_index b); [reflexivity|].
  rewrite IH. apply Permutation_swap.
Qed.

Lemma sortByIndex_Permutation (l : list Attribute) : sortByIndex l ≡ₚ l.
Proof.
  induction l as [|a l IH]; simpl; [reflexivity|].
  rewrite insertByIndex_Permutation, IH. reflexivity.
Qed.

Lemma insertByIndex_sorted (a : Attribute) (l : list Attribute) :
  StronglySorted byIndex l -> StronglySorted byIndex (insertByIndex a l).
Proof.
  induction l as [|b l IH]; intros Hs; simpl.
  - constructor; constructor.
  - inversion Hs as [|? ? Hl Hb]; subst.
    destruct (Z.leb_spec (attr_index a) (attr_index b)) as [Hab|Hab].
    + constructor; [exact Hs|]. constructor; [exact Hab|].
      eapply Forall_impl; [exact Hb|]. unfold byIndex. intros c Hc. lia.
    + constructor; [apply IH, Hl|].
      rewrite insertByIndex_Permutation. constructor; [unfold byIndex; lia|exact Hb].
Qed.

Lemma sortByIndex_sorted (l : list Attribute) : StronglySorted byIndex (sortByIndex l).
Proof.
  induction l as [|a l IH]; simpl; [constructor|]. apply insertByIndex_sorted, IH.
Qed.

(** Attributes that share a slot index keep their relative order. *)
Lemma insertByIndex_stable (k : Z) (a : Attribute) (l : list Attribute) :
  filter (fun b => attr_index b = k) (insertByIndex a l) =
  filter (fun b => attr_index b = k) (a :: l).
Proof.
  induction l as [|b l IH]; simpl; [reflexivity|].
  destruct (Z.leb_spec (attr_index a) (attr_index b)) as [Hab|Hab]; [reflexivity|].
  rewrite filter_cons, IH, !filter_cons.
  destruct (decide (attr_index b = k)) as [Hb|Hb];
    destruct (decide (attr_index a = k)) as [Ha|Ha]; try reflexivity.
  lia.
Qed.

Lemma sortByIndex_stable (k : Z) (l : list Attribute) :
  filter (fun b => attr_index b = k) (sortByIndex l) =
  filter (fun b => attr_index b = k) l.
Proof.
  induction l as [|a l IH]; simpl; [reflexivity|].
  rewrite insertByIndex_stable, !filter_cons, IH. reflexivity.
Qed.

(** [Array.prototype.find]: the first element that satisfies the test. *)
Lemma find_first {A : Type} (f : A -> bool) (l : list A) (x : A) :
  List.find f l = Some x <->
  exists l1 l2, l = l1 ++ x :: l2 /\ f x = true /\ forall y, y ∈ l1 -> f y = false.
Proof.
  split.
  - induction l as [|a l IH]; simpl; [discriminate|].
    destruct (f a) eqn:Ha.
    + intros [= ->]. exists [], l. split_and!; [reflexivity|exact Ha|].
      intros y Hy. inversion Hy.
    + intros (l1 & l2 & -> & Hx & Hl1)%IH. exists (a :: l1), l2.
      split_and!; [reflexivity|exact Hx|].
      intros y [->|Hy]%elem_of_cons; [exact Ha|apply Hl1, Hy].
  - intros (l1 & l2 & -> & Hx & Hl1).
    induction l1 as [|a l1 IH]; simpl.
    + rewrite Hx. reflexivity.
    + rewrite (Hl1 a) by left. apply IH. intros y Hy. apply Hl1. right. exact Hy.
Qed.

Lemma find_absent {A : Type} (f : A -> bool) (l : list A) :
  List.find f l = None <-> forall y, y ∈ l -> f y = false.
Proof.
  induction l as [|a l IH]; simpl.
  - split; [intros _ y Hy; inversion Hy|reflexivity].
  - destruct (f a) eqn:Ha.
    + split; [discriminate|]. intros H. specialize (H a). rewrite Ha in H.
      discriminate H. left.
    + rewrite IH. split.
      * intros H y [->|Hy]%elem_of_cons; [exact Ha|apply H, Hy].
      * intros H y Hy. apply H. right. exact Hy.
Qed.

Lemma isPosition_iff (a : Attribute) : isPosition a = true <-> PositionCandidate a.
Proof.
  unfold isPosition, PositionCandidate.
  rewrite andb_true_iff, orb_true_iff, andb_true_iff, negb_true_iff, !Z.eqb_eq.
  reflexivity.
Qed.

Lemma isNormal_iff (a : Attribute) : isNormal a = true <-> NormalCandidate a.
Proof.
  unfold isNormal, NormalCandidate.
  rewrite !andb_true_iff, orb_true_iff, !Z.eqb_eq. tauto.
Qed.

Lemma isUv_iff (a : Attribute) : isUv a = true <-> UvCandidate a.
Proof.
  unfold isUv, UvCandidate.
  rewrite !andb_true_iff, orb_true_iff, !Z.eqb_eq. tauto.
Qed.

Lemma isPosition_supported (a : Attribute) :
  isPosition a = true -> supported (attr_typeEnum a) /\ effectiveStride a <> 0.
Proof.
  intros [Hs Ht]%isPosition_iff. unfold supported, effectiveStride.
  assert (Hw : 2 <= componentWidth (attr_typeEnum a))
    by (destruct Ht as [->|[-> _]]; vm_compute; discriminate).
  split; [lia|].
  destruct (attr_stride a) as [s|]; [destruct (Z.eqb_spec s 0)|]; nia.
Qed.

Lemma isNormal_supported (a : Attribute) :
  isNormal a = true -> supported (attr_typeEnum a) /\ effectiveStride a <> 0.
Proof.
  intros (Hs & _ & Ht)%isNormal_iff. unfold supported, effectiveStride.
  assert (Hw : 1 <= componentWidth (attr_typeEnum a))
    by (destruct Ht as [->| ->]; vm_compute; discriminate).
  split; [lia|].
  destruct (attr_stride a) as [s|]; [destruct (Z.eqb_spec s 0)|]; nia.
Qed.

Lemma isUv_supported (a : Attribute) :
  isUv a = true -> supported (attr_typeEnum a) /\ effectiveStride a <> 0.
Proof.
  intros (Hs & _ & Ht)%isUv_iff. unfold supported, effectiveStride.
  assert (Hw : 1 <= componentWidth (attr_typeEnum a))
    by (destruct Ht as [->| ->]; vm_compute; discriminate).
  split; [lia|].
  destruct (attr_stride a) as [s|]; [destruct (Z.eqb_spec s 0)|]; nia.
Qed.

(** ** Vertex decoder: closed forms of the loop bodies *)

#[global] Instance inBounds_dec (dv : list byte) (off w : Z) : Decision (inBounds dv off w).
Proof. unfold inBounds. apply _. Defined.

Lemma vertexInBounds_3 dv buf a i :
  vertexInBounds dv buf a 3 i <->
  inBounds dv (componentAddress buf a i 0) (componentWidth (attr_typeEnum a)) /\
  inBounds dv (componentAddress buf a i 1) (componentWidth (attr_typeEnum a)) /\
  inBounds dv (componentAddress buf a i 2) (componentWidth (attr_typeEnum a)).
Proof.
  unfold vertexInBounds. split.
  - intros H. split_and!; apply H; lia.
  - intros (H0 & H1 & H2) c Hc.
    assert (c = 0 \/ c = 1 \/ c = 2) as [->|[->| ->]] by lia; assumption.
Qed.

Lemma vertexInBounds_2 dv buf a i :
  vertexInBounds dv buf a 2 i <->
  inBounds dv (componentAddress buf a i 0) (componentWidth (attr_typeEnum a)) /\
  inBounds dv (componentAddress buf a i 1) (componentWidth (attr_typeEnum a)).
Proof.
  unfold vertexInBounds. split.
  - intros H. split_and!; apply H; lia.
  - intros (H0 & H1) c Hc.
    assert (c = 0 \/ c = 1) as [->| ->] by lia; assumption.
Qed.

#[global] Instance vertexInBounds_3_dec dv buf a i : Decision (vertexInBounds dv buf a 3 i).
Proof.
  refine (cast_if (decide (
    inBounds dv (componentAddress buf a i 0) (componentWidth (attr_typeEnum a)) /\
    inBounds dv (componentAddress buf a i 1) (componentWidth (attr_typeEnum a)) /\
    inBounds dv (componentAddress buf a i 2) (componentWidth (attr_typeEnum a)))));
    rewrite vertexInBounds_3; assumption.
Defined.

#[global] Instance vertexInBounds_2_dec dv buf a i : Decision (vertexInBounds dv buf a 2 i).
Proof.
  refine (cast_if (decide (
    inBounds dv (componentAddress buf a i 0) (componentWidth (attr_typeEnum a)) /\
    inBounds dv (componentAddress buf a i 1) (componentWidth (attr_typeEnum a)))));
    rewrite vertexInBounds_2; assumption.
Defined.

(** Rewrites the reads of a loop body, one component after the other:
    an in-bounds read yields its value, the first read out of bounds
    raises. *)
Ltac step_reads dv Hs :=
  repeat match goal with
         | |- context [readScalar dv ?addr ?t] =>
             destruct (decide (inBounds dv addr (componentWidth t))) as [?Hin|?Hout];
             [ rewrite (readScalar_inBounds dv addr t Hs) by assumption; simpl
             | rewrite (readScalar_outOfBounds dv addr t Hs) by assumption; simpl ]
         end.

Section VertexBodies.
Variables (dv : list byte) (a : Attribute) (buf : BufferEntry).
Hypothesis Hs : supported (attr_typeEnum a).

Let w := componentWidth (attr_typeEnum a).
Let off := orZero (attr_offset a).
Let stride := effectiveStride a.

Lemma gltfPosVertex_inBounds (options : DecodeOptions) (i : Z) :
  vertexInBounds dv buf a 3 i ->
  gltfPosVertex dv a buf off stride w options i
  = Ok (transformPosition options (vec3At dv buf a i)).
Proof.
  intros (H0 & H1 & H2)%vertexInBounds_3.
  unfold gltfPosVertex, vec3At, scalarAt, transformPosition, componentAddress in *.
  fold w off stride in H0, H1, H2 |- *.
  rewrite !(readScalar_inBounds dv _ _ Hs) by assumption. simpl.
  fold w. destruct (attr_normalized a), (swapYZ options), (invertZ options); reflexivity.
Qed.

Lemma gltfPosVertex_outOfBounds (options : DecodeOptions) (i : Z) :
  ~ vertexInBounds dv buf a 3 i ->
  gltfPosVertex dv a buf off stride w options i = Err RangeError.
Proof.
  intros H. rewrite vertexInBounds_3 in H.
  unfold gltfPosVertex, componentAddress in *. fold w off stride in H |- *.
  step_reads dv Hs; try reflexivity. exfalso. apply H. split_and!; assumption.
Qed.

Lemma gltfNrmVertex_inBounds (i : Z) :
  vertexInBounds dv buf a 3 i ->
  gltfNrmVertex dv a buf off stride w i = Ok (vec3At dv buf a i).
Proof.
  intros (H0 & H1 & H2)%vertexInBounds_3.
  unfold gltfNrmVertex, vec3At, scalarAt, componentAddress in *.
  fold w off stride in H0, H1, H2 |- *.
  rewrite !(readScalar_inBounds dv _ _ Hs) by assumption. simpl.
  fold w. destruct (attr_normalized a); reflexivity.
Qed.

Lemma gltfNrmVertex_outOfBounds (i : Z) :
  ~ vertexInBounds dv buf a 3 i ->
  gltfNrmVertex dv a buf off stride w i = Err RangeError.
Proof.
  intros H. rewrite vertexInBounds_3 in H.
  unfold gltfNrmVertex, componentAddress in *. fold w off stride in H |- *.
  step_reads dv Hs; try reflexivity. exfalso. apply H. split_and!; assumption.
Qed.

Lemma gltfUvVertex_inBounds (i : Z) :
  vertexInBounds dv buf a 2 i ->
  gltfUvVertex dv a buf off stride w i = Ok (vec2At dv buf a i).
Proof.
  intros (H0 & H1)%vertexInBounds_2.
  unfold gltfUvVertex, vec2At, scalarAt, componentAddress in *.
  fold w off stride in H0, H1 |- *.
  rewrite !(readScalar_inBounds dv _ _ Hs) by assumption. simpl.
  fold w. destruct (attr_normalized a); reflexivity.
Qed.

Lemma gltfUvVertex_outOfBounds (i : Z) :
  ~ vertexInBounds dv buf a 2 i ->
  gltfUvVertex dv a buf off stride w i = Err RangeError.
Proof.
  intros H. rewrite vertexInBounds_2 in H.
  unfold gltfUvVertex, componentAddress in *. fold w off stride in H |- *.
  step_reads dv Hs; try reflexivity. exfalso. apply H. split_and!; assumption.
Qed.

(** The plain-text path recomputes the component width at each read
    and otherwise runs the same loop bodies. *)
Lemma objPosVertex_eq (options : DecodeOptions) (i : Z) :
  objPosVertex dv a buf off stride options i
  = gltfPosVertex dv a buf off stride w options i.
Proof.
  unfold objPosVertex, gltfPosVertex.
  rewrite (bytesPerComponent_supported _ Hs). fold w. simpl.
  destruct (readScalar dv _ _); simpl; [|reflexivity].
  destruct (readScalar dv _ _); simpl; [|reflexivity].
  destruct (readScalar dv _ _); simpl; reflexivity.
Qed.

Lemma objNrmVertex_eq (i : Z) :
  objNrmVertex dv a buf off stride i = gltfNrmVertex dv a buf off stride w i.
Proof.
  unfold objNrmVertex, gltfNrmVertex.
  rewrite (bytesPerComponent_supported _ Hs). fold w. simpl.
  destruct (readScalar dv _ _); simpl; [|reflexivity].
  destruct (readScalar dv _ _); simpl; [|reflexivity].
  destruct (readScalar dv _ _); simpl; reflexivity.
Qed.

Lemma objUvVertex_eq (i : Z) :
  objUvVertex dv a buf off stride i = gltfUvVertex dv a buf off stride w i.
Proof.
  unfold objUvVertex, gltfUvVertex.
  rewrite (bytesPerComponent_supported _ Hs). fold w. simpl.
  destruct (readScalar dv _ _); simpl; [|reflexivity].
  destruct (readScalar dv _ _); simpl; reflexivity.
Qed.
End VertexBodies.

(** ** Vertex decoder: closed forms of the loops *)

Section RangeLoop.
Context {V : Type} (body : Z -> Result V) (n : Z) (P : Z -> Prop) (val : Z -> V).
Hypothesis body_in : forall i, 0 <= i < n -> P i -> body i = Ok (val i).
Hypothesis body_out : forall i, 0 <= i < n -> ~ P i -> body i = Err RangeError.
Hypothesis P_dec : forall i, Decision (P i).

Lemma forEach_range_Ok :
  (forall i, 0 <= i < n -> P i) -> forEach body (upTo n) = Ok (val <$> upTo n).
Proof.
  intros H. apply forEach_Forall2, Forall2_fmap_r, Forall2_same_length_lookup.
  split; [reflexivity|]. intros k i j Hi Hj. rewrite Hi in Hj. injection Hj as <-.
  apply list_elem_of_lookup_2, elem_of_upTo in Hi. apply body_in; [exact Hi|].
  apply H, Hi.
Qed.

Lemma forEach_range_Ok_inv (vs : list V) :
  forEach body (upTo n) = Ok vs ->
  (forall i, 0 <= i < n -> P i) /\ vs = val <$> upTo n.
Proof.
  intros Hvs.
  assert (HP : forall i, 0 <= i < n -> P i).
  { intros i Hi. destruct (decide (P i)) as [HPi|HPi]; [exact HPi|exfalso].
    assert (Hk : upTo n !! Z.to_nat i = Some i).
    { rewrite lookup_upTo by lia. f_equal. lia. }
    destruct (forEach_lookup _ _ _ _ _ Hvs Hk) as (v & Hv & _).
    rewrite (body_out i Hi HPi) in Hv. discriminate. }
  split; [exact HP|]. rewrite (forEach_range_Ok HP) in Hvs. congruence.
Qed.

Lemma forEach_range_Err (e : JsError) :
  forEach body (upTo n) = Err e ->
  e = RangeError /\ ~ (forall i, 0 <= i < n -> P i).
Proof.
  intros He. destruct (forEach_Err _ _ _ He) as (i & Hi%elem_of_upTo & Hie).
  destruct (decide (P i)) as [HPi|HPi].
  - rewrite (body_in i Hi HPi) in Hie. discriminate.
  - rewrite (body_out i Hi HPi) in Hie. split; [congruence|].
    intros H. apply HPi, H, Hi.
Qed.
End RangeLoop.

Lemma length_storeVec3 (vs : list vec3) : length (storeVec3 vs) = (3 * length vs)%nat.
Proof.
  induction vs as [|[[x y] z] vs IH]; [reflexivity|].
  change (storeVec3 ((x, y, z) :: vs))
    with (fround x :: fround y :: fround z :: storeVec3 vs).
  simpl. rewrite IH. lia.
Qed.

Lemma length_storeVec2 (vs : list vec2) : length (storeVec2 vs) = (2 * length vs)%nat.
Proof.
  induction vs as [|[u v] vs IH]; [reflexivity|].
  change (storeVec2 ((u, v) :: vs)) with (fround u :: fround v :: storeVec2 vs).
  simpl. rewrite IH. lia.
Qed.

Lemma lookup_storeVec3 (vs : list vec3) (k : nat) (x y z : float) :
  vs !! k = Some (x, y, z) ->
  storeVec3 vs !! (3 * k)%nat = Some (fround x) /\
  storeVec3 vs !! (3 * k + 1)%nat = Some (fround y) /\
  storeVec3 vs !! (3 * k + 2)%nat = Some (fround z).
Proof.
  revert k. induction vs as [|[[x' y'] z'] vs IH]; intros k Hk; [discriminate|].
  destruct k as [|k].
  - injection Hk as -> -> ->. split_and!; reflexivity.
  - simpl in Hk. destruct (IH k Hk) as (H0 & H1 & H2).
    replace (3 * S k)%nat with (S (S (S (3 * k)))) by lia.
    split_and!; assumption.
Qed.

Lemma optionalCount_min (vertexCount : Z) (a : Attribute) (buf : BufferEntry) :
  optionalCount vertexCount a buf =
  Z.min vertexCount ((buf_byteLength buf - orZero (attr_offset a)) / effectiveStride a).
Proof. reflexivity. Qed.

Lemma bind_Ok_l {A B : Type} (a : A) (f : A -> Result B) : Ok a ≫= f = f a.
Proof. reflexivity. Qed.

Lemma newTypedArray_int (z : Z) :
  newTypedArray (JsInt z) = if z <? 0 then Err RangeError else Ok z.
Proof. reflexivity. Qed.

Section Channels.
Variables (dv : list byte) (buffersById : gmap Z BufferEntry).

(** The outcome of an optional channel whose attribute [a] and buffer
    [buf] are both present. *)
Lemma gltfNormals_present (a : Attribute) (buf : BufferEntry) (vertexCount : Z) :
  supported (attr_typeEnum a) ->
  buffersById !! attr_bufferId a = Some buf ->
  let n := optionalCount vertexCount a buf in
  (0 <= n /\ readsInBounds dv buf a n 3 ->
   gltfNormals dv buffersById (Some a) vertexCount = Ok (Some (vec3At dv buf a <$> upTo n)))
  /\
  (~ (0 <= n /\ readsInBounds dv buf a n 3) ->
   gltfNormals dv buffersById (Some a) vertexCount = Err RangeError).
Proof.
  intros Hs Hbuf n.
  assert (E : gltfNormals dv buffersById (Some a) vertexCount =
              if n * 3 <? 0 then Err RangeError
              else forEach (gltfNrmVertex dv a buf (orZero (attr_offset a)) (effectiveStride a)
                              (componentWidth (attr_typeEnum a))) (upTo n)
                   ≫= fun vs => Ok (Some vs)).
  { unfold gltfNormals. rewrite Hbuf, (getStride_supported _ Hs), bind_Ok_l.
    fold (optionalCount vertexCount a buf). fold n. rewrite newTypedArray_int.
    destruct (n * 3 <? 0); [reflexivity|].
    rewrite bind_Ok_l, (bytesPerComponent_supported _ Hs), bind_Ok_l. reflexivity. }
  rewrite E. clear E.
  destruct (Z.ltb_spec (n * 3) 0) as [Hn|Hn].
  - split; [lia|reflexivity].
  - destruct (forEach _ (upTo n)) as [vs|e] eqn:Hloop; simpl.
    + apply (forEach_range_Ok_inv _ n (vertexInBounds dv buf a 3) (vec3At dv buf a)) in Hloop
        as [Hall ->]; try apply _.
      * split; [reflexivity|]. intros H. exfalso. apply H. split; [lia|exact Hall].
      * intros i _. apply gltfNrmVertex_inBounds, Hs.
      * intros i _. apply gltfNrmVertex_outOfBounds, Hs.
    + apply (forEach_range_Err _ n (vertexInBounds dv buf a 3) (vec3At dv buf a)) in Hloop
        as [-> Hnot]; try apply _.
      * split; [|reflexivity]. intros [_ H]. exfalso. apply Hnot, H.
      * intros i _. apply gltfNrmVertex_inBounds, Hs.
      * intros i _. apply gltfNrmVertex_outOfBounds, Hs.
Qed.

Lemma gltfUvs_present (a : Attribute) (buf : BufferEntry) (vertexCount : Z) :
  supported (attr_typeEnum a) ->
  buffersById !! attr_bufferId a = Some buf ->
  let n := optionalCount vertexCount a buf in
  (0 <= n /\ readsInBounds dv buf a n 2 ->
   gltfUvs dv buffersById (Some a) vertexCount = Ok (Some (vec2At dv buf a <$> upTo n)))
  /\
  (~ (0 <= n /\ readsInBounds dv buf a n 2) ->
   gltfUvs dv buffersById (Some a) vertexCount = Err RangeError).
Proof.
  intros Hs Hbuf n.
  assert (E : gltfUvs dv buffersById (Some a) vertexCount =
              if n * 2 <? 0 then Err RangeError
              else forEach (gltfUvVertex dv a buf (orZero (attr_offset a)) (effectiveStride a)
                              (componentWidth (attr_typeEnum a))) (upTo n)
                   ≫= fun vs => Ok (Some vs)).
  { unfold gltfUvs. rewrite Hbuf, (getStride_supported _ Hs), bind_Ok_l.
    fold (optionalCount vertexCount a buf). fold n. rewrite newTypedArray_int.
    destruct (n * 2 <? 0); [reflexivity|].
    rewrite bind_Ok_l, (bytesPerComponent_supported _ Hs), bind_Ok_l. reflexivity. }
  rewrite E. clear E.
  destruct (Z.ltb_spec (n * 2) 0) as [Hn|Hn].
  - split; [lia|reflexivity].
  - destruct (forEach _ (upTo n)) as [vs|e] eqn:Hloop; simpl.
    + apply (forEach_range_Ok_inv _ n (vertexInBounds dv buf a 2) (vec2At dv buf a)) in Hloop
        as [Hall ->]; try apply _.
      * split; [reflexivity|]. intros H. exfalso. apply H. split; [lia|exact Hall].
      * intros i _. apply gltfUvVertex_inBounds, Hs.
      * intros i _. apply gltfUvVertex_outOfBounds, Hs.
    + apply (forEach_range_Err _ n (vertexInBounds dv buf a 2) (vec2At dv buf a)) in Hloop
        as [-> Hnot]; try apply _.
      * split; [|reflexivity]. intros [_ H]. exfalso. apply Hnot, H.
      * intros i _. apply gltfUvVertex_inBounds, Hs.
      * intros i _. apply gltfUvVertex_outOfBounds, Hs.
Qed.
End Channels.

#[global] Instance range_forall_dec (n : Z) (Q : Z -> Prop) `{!forall i, Decision (Q i)} :
  Decision (forall i, 0 <= i < n -> Q i).
Proof.
  destruct (decide (Forall Q (upTo n))) as [Hall|Hnot]; [left|right].
  - intros i Hi. eapply Forall_forall in Hall; [exact Hall|]. apply elem_of_upTo, Hi.
  - intros Hq. apply Hnot, Forall_forall. intros i Hi%elem_of_upTo. apply Hq, Hi.
Defined.

#[global] Instance readsInBounds_3_dec dv buf a n : Decision (readsInBounds dv buf a n 3).
Proof. unfold readsInBounds. apply _. Defined.

#[global] Instance readsInBounds_2_dec dv buf a n : Decision (readsInBounds dv buf a n 2).
Proof. unfold readsInBounds. apply _. Defined.

(** ** Vertex decoder: when a decode succeeds and what it yields *)

#[global] Instance indexCountOk_dec c : Decision (indexCountOk c).
Proof. destruct c; simpl; apply _. Defined.

#[global] Instance indexReadsOk_dec dv draw idxBuf : Decision (indexReadsOk dv draw idxBuf).
Proof. unfold indexReadsOk. apply _. Defined.

#[global] Instance positionReadsOk_dec dv posA posBuf : Decision (positionReadsOk dv posA posBuf).
Proof. unfold positionReadsOk. apply _. Defined.

#[global] Instance channelOk_3_dec dv m a vc : Decision (channelOk dv m a vc 3).
Proof. unfold channelOk. destruct a as [a|]; [destruct (m !! attr_bufferId a)|]; apply _. Defined.

#[global] Instance channelOk_2_dec dv m a vc : Decision (channelOk dv m a vc 2).
Proof. unfold channelOk. destruct a as [a|]; [destruct (m !! attr_bufferId a)|]; apply _. Defined.

Section Stages.
Variables (dv : list byte) (buffersById : gmap Z BufferEntry).

Lemma normalsValue_present a buf vc :
  buffersById !! attr_bufferId a = Some buf ->
  normalsValue dv buffersById (Some a) vc
  = Some (vec3At dv buf a <$> upTo (optionalCount vc a buf)).
Proof. intros H. unfold normalsValue. simpl. rewrite H. reflexivity. Qed.

Lemma normalsValue_missing a vc :
  buffersById !! attr_bufferId a = None -> normalsValue dv buffersById (Some a) vc = None.
Proof. intros H. unfold normalsValue. simpl. rewrite H. reflexivity. Qed.

Lemma uvsValue_present a buf vc :
  buffersById !! attr_bufferId a = Some buf ->
  uvsValue dv buffersById (Some a) vc
  = Some (vec2At dv buf a <$> upTo (optionalCount vc a buf)).
Proof. intros H. unfold uvsValue. simpl. rewrite H. reflexivity. Qed.

Lemma uvsValue_missing a vc :
  buffersById !! attr_bufferId a = None -> uvsValue dv buffersById (Some a) vc = None.
Proof. intros H. unfold uvsValue. simpl. rewrite H. reflexivity. Qed.

Lemma gltfNormals_missing a vc :
  buffersById !! attr_bufferId a = None -> gltfNormals dv buffersById (Some a) vc = Ok None.
Proof. intros H. unfold gltfNormals. rewrite H. reflexivity. Qed.

Lemma gltfUvs_missing a vc :
  buffersById !! attr_bufferId a = None -> gltfUvs dv buffersById (Some a) vc = Ok None.
Proof. intros H. unfold gltfUvs. rewrite H. reflexivity. Qed.

Lemma indexStage (draw : DrawCall) (idxBuf : BufferEntry) :
  supported (draw_indexTypeEnum draw) ->
  let stage :=
    newTypedArray (draw_count draw) ≫= fun indexLength =>
    forEach (fun i => readScalar dv (buf_binOffset idxBuf + orZero (draw_indexOffset draw)
                                     + i * componentWidth (draw_indexTypeEnum draw))
                                 (draw_indexTypeEnum draw))
            (upTo indexLength) in
  (indexReadsOk dv draw idxBuf ->
   stage = Ok (indexAt dv draw idxBuf <$> upTo (indexLength (draw_count draw))))
  /\ (~ indexReadsOk dv draw idxBuf -> stage = Err RangeError).
Proof.
  intros Hs stage. subst stage. unfold indexReadsOk.
  assert (Hin : forall n i, 0 <= i < n ->
            inBounds dv (indexAddress draw idxBuf i) (componentWidth (draw_indexTypeEnum draw)) ->
            readScalar dv (buf_binOffset idxBuf + orZero (draw_indexOffset draw)
                           + i * componentWidth (draw_indexTypeEnum draw))
                       (draw_indexTypeEnum draw) = Ok (indexAt dv draw idxBuf i))
    by (intros n i _ Hb; apply readScalar_inBounds; assumption).
  assert (Hout : forall n i, 0 <= i < n ->
            ~ inBounds dv (indexAddress draw idxBuf i) (componentWidth (draw_indexTypeEnum draw)) ->
            readScalar dv (buf_binOffset idxBuf + orZero (draw_indexOffset draw)
                           + i * componentWidth (draw_indexTypeEnum draw))
                       (draw_indexTypeEnum draw) = Err RangeError)
    by (intros n i _ Hb; apply readScalar_outOfBounds; assumption).
  destruct (draw_count draw) as [| |n|]; simpl.
  - split; [reflexivity|]. intros H. exfalso. apply H. split; [exact I|]. lia.
  - split; [intros [[] _]|reflexivity].
  - destruct (Z.ltb_spec n 0) as [Hn|Hn]; simpl.
    + split; [lia|reflexivity].
    + destruct (forEach _ (upTo n)) as [vs|e] eqn:Hloop.
      * eapply forEach_range_Ok_inv in Hloop as [Hall ->];
          [|apply (Hin n)|apply (Hout n)|apply _].
        split; [reflexivity|]. intros H. exfalso. apply H. split; [lia|exact Hall].
      * eapply forEach_range_Err in Hloop as [-> Hnot];
          [|apply (Hin n)|apply (Hout n)|apply _].
        split; [|reflexivity]. intros [_ H]. exfalso. apply Hnot, H.
  - split; [intros [[] _]|reflexivity].
Qed.

Lemma positionStage (posA : Attribute) (posBuf : BufferEntry) (options : DecodeOptions) :
  supported (attr_typeEnum posA) ->
  let vertexCount := positionCount posA posBuf in
  let stage :=
    newTypedArray (JsInt (vertexCount * 3)) ≫= fun _ =>
    forEach (gltfPosVertex dv posA posBuf (orZero (attr_offset posA)) (effectiveStride posA)
                           (componentWidth (attr_typeEnum posA)) options)
            (upTo vertexCount) in
  (positionReadsOk dv posA posBuf ->
   stage = Ok ((fun i => transformPosition options (vec3At dv posBuf posA i)) <$> upTo vertexCount))
  /\ (~ positionReadsOk dv posA posBuf -> stage = Err RangeError).
Proof.
  intros Hs n stage. subst stage. unfold positionReadsOk. fold n.
  rewrite newTypedArray_int.
  destruct (Z.ltb_spec (n * 3) 0) as [Hn|Hn]; simpl.
  - split; [lia|reflexivity].
  - destruct (forEach _ (upTo n)) as [vs|e] eqn:Hloop.
    + eapply forEach_range_Ok_inv in Hloop as [Hall ->];
        [| intros i _; apply gltfPosVertex_inBounds, Hs
         | intros i _; apply gltfPosVertex_outOfBounds, Hs
         | apply _].
      split; [reflexivity|]. intros H. exfalso. apply H. split; [lia|exact Hall].
    + eapply forEach_range_Err in Hloop as [-> Hnot];
        [| intros i _; apply gltfPosVertex_inBounds, Hs
         | intros i _; apply gltfPosVertex_outOfBounds, Hs
         | apply _].
      split; [|reflexivity]. intros [_ H]. exfalso. apply Hnot, H.
Qed.

Lemma normalsStage (attribs : list Attribute) (vertexCount : Z) :
  let nrmA := findNormalAttrib attribs in
  (channelOk dv buffersById nrmA vertexCount 3 ->
   gltfNormals dv buffersById nrmA vertexCount
   = Ok (normalsValue dv buffersById nrmA vertexCount))
  /\ (~ channelOk dv buffersById nrmA vertexCount 3 ->
      gltfNormals dv buffersById nrmA vertexCount = Err RangeError).
Proof.
  intros nrmA. unfold channelOk.
  destruct nrmA as [a|] eqn:Ha; [|split; [reflexivity|tauto]].
  apply find_some in Ha as [_ [Hs _]%isNormal_supported].
  destruct (buffersById !! attr_bufferId a) as [buf|] eqn:Hbuf.
  - rewrite (normalsValue_present _ _ _ Hbuf). apply gltfNormals_present; assumption.
  - rewrite (normalsValue_missing _ _ Hbuf), (gltfNormals_missing _ _ Hbuf).
    split; [reflexivity|tauto].
Qed.

Lemma uvsStage (attribs : list Attribute) (vertexCount : Z) :
  let uvA := findUvAttrib attribs in
  (channelOk dv buffersById uvA vertexCount 2 ->
   gltfUvs dv buffersById uvA vertexCount
   = Ok (uvsValue dv buffersById uvA vertexCount))
  /\ (~ channelOk dv buffersById uvA vertexCount 2 ->
      gltfUvs dv buffersById uvA vertexCount = Err RangeError).
Proof.
  intros uvA. unfold channelOk.
  destruct uvA as [a|] eqn:Ha; [|split; [reflexivity|tauto]].
  apply find_some in Ha as [_ [Hs _]%isUv_supported].
  destruct (buffersById !! attr_bufferId a) as [buf|] eqn:Hbuf.
  - rewrite (uvsValue_present _ _ _ Hbuf). apply gltfUvs_present; assumption.
  - rewrite (uvsValue_missing _ _ Hbuf), (gltfUvs_missing _ _ Hbuf).
    split; [reflexivity|tauto].
Qed.
End Stages.

#[global] Instance decodeOk_dec dv selected posA posBuf idxBuf :
  Decision (decodeOk dv selected posA posBuf idxBuf).
Proof. unfold decodeOk. apply _. Defined.

Section Decode.
Variables (dv : list byte) (selected : SelectedDraw) (options : DecodeOptions).
Variables (posA : Attribute) (posBuf idxBuf : BufferEntry).
Hypothesis Hc : Classified selected posA posBuf idxBuf.

Let draw := sel_draw selected.
Let buffersById := sel_buffersById selected.

Lemma classified_position : isPosition posA = true.
Proof. destruct Hc as (Hf & _). apply find_some in Hf. apply Hf. Qed.

Lemma buildGltf_unsupported :
  ~ supported (draw_indexTypeEnum draw) ->
  buildGltf dv selected options = Err (UnsupportedComponentType (draw_indexTypeEnum draw)).
Proof.
  intros Hu. destruct Hc as (Hf & Hp & Hi).
  destruct (isPosition_supported _ classified_position) as [Hs _].
  unfold buildGltf. cbv zeta. unfold sortedAttribs in Hf. rewrite Hf, Hp, Hi.
  rewrite (getStride_supported _ Hs), bind_Ok_l.
  fold draw. rewrite (bytesPerComponent_unsupported _ Hu). reflexivity.
Qed.

Lemma buildObj_unsupported :
  ~ supported (draw_indexTypeEnum draw) ->
  buildObj dv selected options = Err (UnsupportedComponentType (draw_indexTypeEnum draw)).
Proof.
  intros Hu. destruct Hc as (Hf & Hp & Hi).
  unfold buildObj. cbv zeta. unfold sortedAttribs in Hf. rewrite Hf, Hp, Hi.
  fold draw. rewrite (bytesPerComponent_unsupported _ Hu). reflexivity.
Qed.

Hypothesis Hidx : supported (draw_indexTypeEnum draw).

Lemma buildGltf_stages :
  buildGltf dv selected options =
  (newTypedArray (draw_count draw) ≫= fun indexLength =>
   forEach (fun i => readScalar dv (buf_binOffset idxBuf + orZero (draw_indexOffset draw)
                                    + i * componentWidth (draw_indexTypeEnum draw))
                                (draw_indexTypeEnum draw))
           (upTo indexLength)) ≫= fun rawIndices =>
  (newTypedArray (JsInt (positionCount posA posBuf * 3)) ≫= fun _ =>
   forEach (gltfPosVertex dv posA posBuf (orZero (attr_offset posA)) (effectiveStride posA)
                          (componentWidth (attr_typeEnum posA)) options)
           (upTo (positionCount posA posBuf))) ≫= fun verts =>
  gltfNormals dv buffersById (findNormalAttrib (sortedAttribs selected))
              (positionCount posA posBuf) ≫= fun normals =>
  gltfUvs dv buffersById (findUvAttrib (sortedAttribs selected))
          (positionCount posA posBuf) ≫= fun uvs =>
  Ok {| g_indices := map ToUint32 rawIndices;
        g_vertexCount := positionCount posA posBuf;
        g_positions := storeVec3 verts;
        g_posMin := min3 verts;
        g_posMax := max3 verts;
        g_normals := storeVec3 <$> normals;
        g_uvs := storeVec2 <$> uvs;
        g_uvMin := min2 <$> uvs;
        g_uvMax := max2 <$> uvs |}.
Proof.
  destruct Hc as (Hf & Hp & Hi).
  destruct (isPosition_supported _ classified_position) as [Hs _].
  unfold buildGltf. cbv zeta. unfold sortedAttribs in *. rewrite Hf, Hp, Hi.
  rewrite (getStride_supported _ Hs), bind_Ok_l.
  fold draw buffersById. rewrite (bytesPerComponent_supported _ Hidx), bind_Ok_l.
  fold (positionCount posA posBuf).
  destruct (newTypedArray (draw_count draw)) as [len|e]; [|reflexivity].
  rewrite !bind_Ok_l.
  destruct (forEach _ (upTo len)) as [raw|e]; [|reflexivity].
  rewrite !bind_Ok_l.
  destruct (newTypedArray (JsInt _)) as [len'|e]; [|reflexivity].
  rewrite !bind_Ok_l, (bytesPerComponent_supported _ Hs), bind_Ok_l.
  reflexivity.
Qed.

(** The outcome of [buildGltf] once the lookups have succeeded and the
    index type is supported. *)
Lemma buildGltf_classified :
  (decodeOk dv selected posA posBuf idxBuf ->
   buildGltf dv selected options = Ok (gltfValue dv selected options posA posBuf idxBuf))
  /\ (~ decodeOk dv selected posA posBuf idxBuf ->
      buildGltf dv selected options = Err RangeError).
Proof.
  destruct (isPosition_supported _ classified_position) as [Hs _].
  rewrite buildGltf_stages. unfold decodeOk. fold draw buffersById.
  destruct (decide (indexReadsOk dv draw idxBuf)) as [H1|H1].
  2:{ rewrite (proj2 (indexStage dv draw idxBuf Hidx) H1).
      split; [tauto|reflexivity]. }
  rewrite (proj1 (indexStage dv draw idxBuf Hidx) H1), bind_Ok_l.
  destruct (decide (positionReadsOk dv posA posBuf)) as [H2|H2].
  2:{ rewrite (proj2 (positionStage dv posA posBuf options Hs) H2).
      split; [tauto|reflexivity]. }
  rewrite (proj1 (positionStage dv posA posBuf options Hs) H2), bind_Ok_l.
  destruct (decide (channelOk dv buffersById (findNormalAttrib (sortedAttribs selected))
                              (positionCount posA posBuf) 3)) as [H3|H3].
  2:{ rewrite (proj2 (normalsStage dv buffersById _ _) H3).
      split; [tauto|reflexivity]. }
  rewrite (proj1 (normalsStage dv buffersById _ _) H3), bind_Ok_l.
  destruct (decide (channelOk dv buffersById (findUvAttrib (sortedAttribs selected))
                              (positionCount posA posBuf) 2)) as [H4|H4].
  2:{ rewrite (proj2 (uvsStage dv buffersById _ _) H4).
      split; [tauto|reflexivity]. }
  rewrite (proj1 (uvsStage dv buffersById _ _) H4), bind_Ok_l.
  split; [reflexivity|tauto].
Qed.
End Decode.

(** ** The plain-text path against the scene-description path *)

Lemma bind_assoc {A B C : Type} (m : Result A) (f : A -> Result B) (g : B -> Result C) :
  (m ≫= f) ≫= g = m ≫= (fun a => f a ≫= g).
Proof. destruct m; reflexivity. Qed.

Lemma bind_ext {A B : Type} (m : Result A) (f g : A -> Result B) :
  (forall a, f a = g a) -> m ≫= f = m ≫= g.
Proof. intros H. destruct m; simpl; [apply H|reflexivity]. Qed.

#[global] Instance withinArrayLimit_dec selected posA posBuf :
  Decision (withinArrayLimit selected posA posBuf).
Proof. unfold withinArrayLimit. apply _. Defined.

Lemma newArray_newTypedArray (c : JsNumber) :
  newArray c = if countWithinLimit c then newTypedArray c else Err RangeError.
Proof.
  destruct c as [| |n|]; simpl; try reflexivity.
  destruct (Z.leb_spec 0 n), (Z.ltb_spec n (2 ^ 32)), (Z.ltb_spec n 0);
    simpl; try reflexivity; lia.
Qed.

Section ObjStages.
Variables (dv : list byte) (buffersById : gmap Z BufferEntry).

Lemma objPositionStage_eq (posA : Attribute) (posBuf : BufferEntry)
    (options : DecodeOptions) (n : Z) :
  supported (attr_typeEnum posA) -> n < 2 ^ 32 ->
  (newArray (JsInt n) ≫= fun _ =>
   forEach (objPosVertex dv posA posBuf (orZero (attr_offset posA)) (effectiveStride posA)
                         options) (upTo n))
  = (newTypedArray (JsInt (n * 3)) ≫= fun _ =>
     forEach (gltfPosVertex dv posA posBuf (orZero (attr_offset posA)) (effectiveStride posA)
                            (componentWidth (attr_typeEnum posA)) options) (upTo n)).
Proof.
  intros Hs Hn. unfold newArray. rewrite newTypedArray_int.
  destruct (Z.leb_spec 0 n), (Z.ltb_spec n (2 ^ 32)), (Z.ltb_spec (n * 3) 0);
    simpl; try reflexivity; try lia.
  apply forEach_ext. intros i _. apply objPosVertex_eq, Hs.
Qed.

Lemma objNormals_eq (attribs : list Attribute) (vertexCount : Z) :
  vertexCount < 2 ^ 32 ->
  objNormals dv buffersById (findNormalAttrib attribs) vertexCount
  = gltfNormals dv buffersById (findNormalAttrib attribs) vertexCount.
Proof.
  intros Hv. destruct (findNormalAttrib attribs) as [a|] eqn:Ha; [|reflexivity].
  apply find_some in Ha as [_ [Hs _]%isNormal_supported].
  unfold objNormals, gltfNormals.
  destruct (buffersById !! attr_bufferId a) as [buf|]; [|reflexivity].
  rewrite (getStride_supported _ Hs), !bind_Ok_l.
  fold (optionalCount vertexCount a buf).
  assert (Hle : optionalCount vertexCount a buf <= vertexCount)
    by (rewrite optionalCount_min; lia).
  unfold newArray. rewrite newTypedArray_int.
  destruct (Z.leb_spec 0 (optionalCount vertexCount a buf)),
           (Z.ltb_spec (optionalCount vertexCount a buf) (2 ^ 32)),
           (Z.ltb_spec (optionalCount vertexCount a buf * 3) 0);
    simpl; try reflexivity; try lia.
  rewrite (bytesPerComponent_supported _ Hs), bind_Ok_l.
  erewrite forEach_ext; [reflexivity|]. intros i _. apply objNrmVertex_eq, Hs.
Qed.

Lemma objUvs_eq (attribs : list Attribute) (vertexCount : Z) :
  vertexCount < 2 ^ 32 ->
  objUvs dv buffersById (findUvAttrib attribs) vertexCount
  = gltfUvs dv buffersById (findUvAttrib attribs) vertexCount.
Proof.
  intros Hv. destruct (findUvAttrib attribs) as [a|] eqn:Ha; [|reflexivity].
  apply find_some in Ha as [_ [Hs _]%isUv_supported].
  unfold objUvs, gltfUvs.
  destruct (buffersById !! attr_bufferId a) as [buf|]; [|reflexivity].
  rewrite (getStride_supported _ Hs), !bind_Ok_l.
  fold (optionalCount vertexCount a buf).
  assert (Hle : optionalCount vertexCount a buf <= vertexCount)
    by (rewrite optionalCount_min; lia).
  unfold newArray. rewrite newTypedArray_int.
  destruct (Z.leb_spec 0 (optionalCount vertexCount a buf)),
           (Z.ltb_spec (optionalCount vertexCount a buf) (2 ^ 32)),
           (Z.ltb_spec (optionalCount vertexCount a buf * 2) 0);
    simpl; try reflexivity; try lia.
  rewrite (bytesPerComponent_supported _ Hs), bind_Ok_l.
  erewrite forEach_ext; [reflexivity|]. intros i _. apply objUvVertex_eq, Hs.
Qed.
End ObjStages.

Section DecodeObj.
Variables (dv : list byte) (selected : SelectedDraw) (options : DecodeOptions).
Variables (posA : Attribute) (posBuf idxBuf : BufferEntry).
Hypothesis Hc : Classified selected posA posBuf idxBuf.

Let draw := sel_draw selected.
Let buffersById := sel_buffersById selected.

Hypothesis Hidx : supported (draw_indexTypeEnum draw).

Lemma buildObj_stages :
  buildObj dv selected options =
  (newArray (JsInt (positionCount posA posBuf)) ≫= fun _ =>
   forEach (objPosVertex dv posA posBuf (orZero (attr_offset posA)) (effectiveStride posA)
                         options)
           (upTo (positionCount posA posBuf))) ≫= fun vertices =>
  objNormals dv buffersById (findNormalAttrib (sortedAttribs selected))
             (positionCount posA posBuf) ≫= fun normals =>
  objUvs dv buffersById (findUvAttrib (sortedAttribs selected))
         (positionCount posA posBuf) ≫= fun uvs =>
  (newArray (draw_count draw) ≫= fun indexLength =>
   forEach (fun i => readScalar dv (buf_binOffset idxBuf + orZero (draw_indexOffset draw)
                                    + i * componentWidth (draw_indexTypeEnum draw))
                                (draw_indexTypeEnum draw))
           (upTo indexLength)) ≫= fun indices =>
  Ok {| o_vertices := vertices; o_normals := normals; o_uvs := uvs; o_indices := indices |}.
Proof.
  destruct Hc as (Hf & Hp & Hi).
  destruct (isPosition_supported _ (classified_position _ _ _ _ Hc)) as [Hs _].
  unfold buildObj. cbv zeta. unfold sortedAttribs in *. rewrite Hf, Hp, Hi.
  fold draw buffersById. rewrite (bytesPerComponent_supported _ Hidx), bind_Ok_l.
  rewrite (getStride_supported _ Hs), bind_Ok_l.
  fold (positionCount posA posBuf).
  rewrite bind_assoc. apply bind_ext. intros _.
  apply bind_ext. intros vertices. apply bind_ext. intros normals.
  apply bind_ext. intros uvs. rewrite bind_assoc. reflexivity.
Qed.

(** The outcome of [buildObj] once the lookups have succeeded and the
    index type is supported. *)
Lemma buildObj_classified :
  (decodeOk dv selected posA posBuf idxBuf /\ withinArrayLimit selected posA posBuf ->
   buildObj dv selected options = Ok (objValue dv selected options posA posBuf idxBuf))
  /\ (~ (decodeOk dv selected posA posBuf idxBuf /\ withinArrayLimit selected posA posBuf) ->
      buildObj dv selected options = Err RangeError).
Proof.
  destruct (isPosition_supported _ (classified_position _ _ _ _ Hc)) as [Hs _].
  rewrite buildObj_stages. unfold decodeOk, withinArrayLimit. fold draw buffersById.
  destruct (decide (positionCount posA posBuf < 2 ^ 32)) as [Hv|Hv].
  2:{ unfold newArray.
      destruct (Z.leb_spec 0 (positionCount posA posBuf)),
               (Z.ltb_spec (positionCount posA posBuf) (2 ^ 32));
        try lia; (split; [tauto|reflexivity]). }
  rewrite (objPositionStage_eq dv posA posBuf options _ Hs Hv).
  rewrite (objNormals_eq dv buffersById _ _ Hv), (objUvs_eq dv buffersById _ _ Hv).
  destruct (decide (positionReadsOk dv posA posBuf)) as [H2|H2].
  2:{ rewrite (proj2 (positionStage dv posA posBuf options Hs) H2).
      split; [tauto|reflexivity]. }
  rewrite (proj1 (positionStage dv posA posBuf options Hs) H2), bind_Ok_l.
  destruct (decide (channelOk dv buffersById (findNormalAttrib (sortedAttribs selected))
                              (positionCount posA posBuf) 3)) as [H3|H3].
  2:{ rewrite (proj2 (normalsStage dv buffersById _ _) H3).
      split; [tauto|reflexivity]. }
  rewrite (proj1 (normalsStage dv buffersById _ _) H3), bind_Ok_l.
  destruct (decide (channelOk dv buffersById (findUvAttrib (sortedAttribs selected))
                              (positionCount posA posBuf) 2)) as [H4|H4].
  2:{ rewrite (proj2 (uvsStage dv buffersById _ _) H4).
      split; [tauto|reflexivity]. }
  rewrite (proj1 (uvsStage dv buffersById _ _) H4), bind_Ok_l.
  rewrite newArray_newTypedArray.
  destruct (countWithinLimit (draw_count draw)) eqn:Hl.
  2:{ split; [intros [_ [_ [=]]]|reflexivity]. }
  destruct (decide (indexReadsOk dv draw idxBuf)) as [H1|H1].
  2:{ rewrite (proj2 (indexStage dv draw idxBuf Hidx) H1).
      split; [tauto|reflexivity]. }
  rewrite (proj1 (indexStage dv draw idxBuf Hidx) H1), bind_Ok_l.
  split; [reflexivity|tauto].
Qed.
End DecodeObj.

(** ** Outcomes of a decode *)

Lemma indexBuffer_missing (draw : DrawCall) (m : gmap Z BufferEntry) (id : Z) :
  draw_elementArrayBufferId draw = Some id -> m !! id = None -> indexBuffer draw m = None.
Proof.
  intros Hid Hm. unfold indexBuffer. rewrite Hid. simpl.
  destruct (negb (id =? 0)); [exact Hm|reflexivity].
Qed.

(** The three failures that precede the decode loops, in the order the
    source tests them. *)
Lemma buildGltf_missing_position dv selected options :
  findPositionAttrib (sortedAttribs selected) = None ->
  buildGltf dv selected options = Err MissingPositionAttribute.
Proof. intros H. unfold buildGltf, sortedAttribs in *. cbv zeta. rewrite H. reflexivity. Qed.

Lemma buildGltf_missing_position_buffer dv selected options posA :
  findPositionAttrib (sortedAttribs selected) = Some posA ->
  sel_buffersById selected !! attr_bufferId posA = None ->
  buildGltf dv selected options = Err MissingPositionBuffer.
Proof.
  intros H1 H2. unfold buildGltf, sortedAttribs in *. cbv zeta. rewrite H1, H2. reflexivity.
Qed.

Lemma buildGltf_missing_index_buffer dv selected options posA posBuf :
  findPositionAttrib (sortedAttribs selected) = Some posA ->
  sel_buffersById selected !! attr_bufferId posA = Some posBuf ->
  indexBuffer (sel_draw selected) (sel_buffersById selected) = None ->
  buildGltf dv selected options = Err MissingIndexBuffer.
Proof.
  intros H1 H2 H3. unfold buildGltf, sortedAttribs in *. cbv zeta.
  rewrite H1, H2, H3. reflexivity.
Qed.

Lemma buildObj_missing_position dv selected options :
  findPositionAttrib (sortedAttribs selected) = None ->
  buildObj dv selected options = Err MissingPositionAttribute.
Proof. intros H. unfold buildObj, sortedAttribs in *. cbv zeta. rewrite H. reflexivity. Qed.

Lemma buildObj_missing_position_buffer dv selected options posA :
  findPositionAttrib (sortedAttribs selected) = Some posA ->
  sel_buffersById selected !! attr_bufferId posA = None ->
  buildObj dv selected options = Err MissingPositionBuffer.
Proof.
  intros H1 H2. unfold buildObj, sortedAttribs in *. cbv zeta. rewrite H1, H2. reflexivity.
Qed.

Lemma buildObj_missing_index_buffer dv selected options posA posBuf :
  findPositionAttrib (sortedAttribs selected) = Some posA ->
  sel_buffersById selected !! attr_bufferId posA = Some posBuf ->
  indexBuffer (sel_draw selected) (sel_buffersById selected) = None ->
  buildObj dv selected options = Err MissingIndexBuffer.
Proof.
  intros H1 H2 H3. unfold buildObj, sortedAttribs in *. cbv zeta.
  rewrite H1, H2, H3. reflexivity.
Qed.

(** A decode that returns has passed the three lookups, has a supported
    index type, satisfies [decodeOk], and returns [gltfValue]. *)
Lemma buildGltf_Ok_inv dv selected options g :
  buildGltf dv selected options = Ok g ->
  exists posA posBuf idxBuf,
    Classified selected posA posBuf idxBuf /\
    supported (draw_indexTypeEnum (sel_draw selected)) /\
    decodeOk dv selected posA posBuf idxBuf /\
    g = gltfValue dv selected options posA posBuf idxBuf.
Proof.
  intros Hg.
  destruct (findPositionAttrib (sortedAttribs selected)) as [posA|] eqn:H1.
  2:{ rewrite buildGltf_missing_position in Hg by assumption. discriminate. }
  destruct (sel_buffersById selected !! attr_bufferId posA) as [posBuf|] eqn:H2.
  2:{ rewrite (buildGltf_missing_position_buffer _ _ _ posA) in Hg by assumption.
      discriminate. }
  destruct (indexBuffer (sel_draw selected) (sel_buffersById selected)) as [idxBuf|] eqn:H3.
  2:{ rewrite (buildGltf_missing_index_buffer _ _ _ posA posBuf) in Hg by assumption.
      discriminate. }
  assert (Hc : Classified selected posA posBuf idxBuf) by (split_and!; assumption).
  exists posA, posBuf, idxBuf.
  destruct (decide (5120 <= draw_indexTypeEnum (sel_draw selected) <= 5126)) as [Hs|Hs].
  2:{ rewrite (buildGltf_unsupported _ _ _ _ _ _ Hc Hs) in Hg. discriminate. }
  destruct (decide (decodeOk dv selected posA posBuf idxBuf)) as [Hok|Hok].
  2:{ rewrite (proj2 (buildGltf_classified dv _ options _ _ _ Hc Hs) Hok) in Hg.
      discriminate. }
  rewrite (proj1 (buildGltf_classified dv _ options _ _ _ Hc Hs) Hok) in Hg.
  split_and!; try assumption. congruence.
Qed.

Lemma buildObj_Ok_inv dv selected options o :
  buildObj dv selected options = Ok o ->
  exists posA posBuf idxBuf,
    Classified selected posA posBuf idxBuf /\
    supported (draw_indexTypeEnum (sel_draw selected)) /\
    decodeOk dv selected posA posBuf idxBuf /\
    withinArrayLimit selected posA posBuf /\
    o = objValue dv selected options posA posBuf idxBuf.
Proof.
  intros Ho.
  destruct (findPositionAttrib (sortedAttribs selected)) as [posA|] eqn:H1.
  2:{ rewrite buildObj_missing_position in Ho by assumption. discriminate. }
  destruct (sel_buffersById selected !! attr_bufferId posA) as [posBuf|] eqn:H2.
  2:{ rewrite (buildObj_missing_position_buffer _ _ _ posA) in Ho by assumption.
      discriminate. }
  destruct (indexBuffer (sel_draw selected) (sel_buffersById selected)) as [idxBuf|] eqn:H3.
  2:{ rewrite (buildObj_missing_index_buffer _ _ _ posA posBuf) in Ho by assumption.
      discriminate. }
  assert (Hc : Classified selected posA posBuf idxBuf) by (split_and!; assumption).
  exists posA, posBuf, idxBuf.
  destruct (decide (5120 <= draw_indexTypeEnum (sel_draw selected) <= 5126)) as [Hs|Hs].
  2:{ rewrite (buildObj_unsupported _ _ _ _ _ _ Hc Hs) in Ho. discriminate. }
  destruct (decide (decodeOk dv selected posA posBuf idxBuf
                    /\ withinArrayLimit selected posA posBuf)) as [Hok|Hok].
  2:{ rewrite (proj2 (buildObj_classified dv _ options _ _ _ Hc Hs) Hok) in Ho.
      discriminate. }
  rewrite (proj1 (buildObj_classified dv _ options _ _ _ Hc Hs) Hok) in Ho.
  destruct Hok. split_and!; try assumption. congruence.
Qed.

(** ** Scalar codec: the bytes of a scalar *)

Lemma byteVal_range (b : byte) : 0 <= byteVal b < 256.
Proof.
  unfold byteVal. pose proof (Byte.to_N_bounded b) as H. lia.
Qed.

Lemma componentWidth_range (t : Z) : 0 <= componentWidth t <= 4.
Proof.
  unfold componentWidth.
  repeat match goal with |- context [if ?b then _ else _] => destruct b end; lia.
Qed.

Lemma Prim2SF_of_Z_pos (p : positive) :
  Zpos p < 2 ^ 63 ->
  Prim2SF (of_uint63 (Uint63.of_Z (Zpos p))) = binary_normalize prec emax (Zpos p) 0 false.
Proof.
  intros Hp. rewrite of_uint63_spec, Uint63.of_Z_spec.
  rewrite Z.mod_small; [reflexivity|]. change Uint63.wB with (2 ^ 63). lia.
Qed.

Lemma bits_fields (sgn : bool) (E F : Z) :
  0 <= E < 256 -> 0 <= F < 2 ^ 23 ->
  let bits := (if sgn then 2 ^ 31 else 0) + E * 2 ^ 23 + F in
  Z.testbit bits 31 = sgn /\
  Z.land (Z.shiftr bits 23) 255 = E /\
  Z.land bits (2 ^ 23 - 1) = F.
Proof.
  intros HE HF bits.
  change (2 ^ 23) with 8388608 in *. change (2 ^ 31) with 2147483648 in *.
  split; [|split].
  - apply (f_equal Z.b2z) || idtac.
    assert (H : Z.b2z (Z.testbit bits 31) = Z.b2z sgn).
    { rewrite Z.testbit_spec' by lia. change (2 ^ 31) with 2147483648.
      subst bits. destruct sgn; simpl Z.b2z; Z.div_mod_to_equations; lia. }
    destruct (Z.testbit bits 31), sgn; simpl in H; congruence.
  - change 255 with (Z.ones 8). rewrite Z.land_ones, Z.shiftr_div_pow2 by lia.
    change (2 ^ 23) with 8388608. change (2 ^ 8) with 256.
    subst bits. destruct sgn; Z.div_mod_to_equations; lia.
  - change (8388608 - 1) with (Z.ones 23). rewrite Z.land_ones by lia.
    change (2 ^ 23) with 8388608.
    subst bits. destruct sgn; Z.div_mod_to_equations; lia.
Qed.

Lemma numberOfZ_of_uint63 (p : positive) :
  Zpos p < 2 ^ 63 -> numberOfZ (Zpos p) = of_uint63 (Uint63.of_Z (Zpos p)).
Proof.
  intros Hp. unfold numberOfZ. rewrite <- (Prim2SF_of_Z_pos p Hp). apply SF2Prim_Prim2SF.
Qed.

(** [DataView.getFloat32] returns the number the bit pattern stands
    for. *)
Lemma float32OfBits_binary32Value (bits : Z) :
  0 <= bits < 2 ^ 32 -> float32OfBits bits = binary32Value bits.
Proof.
  intros Hb.
  set (sgn := negb (bits / 2 ^ 31 =? 0)).
  set (E := (bits / 2 ^ 23) mod 2 ^ 8).
  set (F := bits mod 2 ^ 23).
  assert (HE : 0 <= E < 256) by (apply Z.mod_pos_bound; reflexivity).
  assert (HF : 0 <= F < 2 ^ 23) by (apply Z.mod_pos_bound; reflexivity).
  assert (Hbits : bits = (if sgn then 2 ^ 31 else 0) + E * 2 ^ 23 + F).
  { subst sgn E F. change (2 ^ 31) with 2147483648. change (2 ^ 23) with 8388608.
    change (2 ^ 8) with 256. change (2 ^ 32) with 4294967296 in Hb.
    destruct (Z.eqb_spec (bits / 2147483648) 0) as [H0|H0]; simpl negb; cbv iota;
      Z.div_mod_to_equations; lia. }
  destruct (bits_fields sgn E F HE HF) as (H1 & H2 & H3). cbv zeta in H1, H2, H3.
  rewrite <- Hbits in H1, H2, H3.
  unfold float32OfBits, binary32Value. cbv zeta. rewrite H1, H2, H3. fold E F.
  assert (Hs : (bits / 2 ^ 31 =? 0) = negb sgn) by (subst sgn; rewrite negb_involutive; reflexivity).
  rewrite Hs.
  destruct (Z.eqb_spec E 255) as [_|_].
  { destruct (Z.eqb_spec F 0) as [_|_]; destruct sgn; reflexivity. }
  destruct (Z.eqb_spec E 0) as [_|HE0].
  { destruct F as [|p|p] eqn:EF; [destruct sgn; reflexivity| |lia].
    cbn [SF2Prim]. rewrite numberOfZ_of_uint63.
    - destruct sgn; reflexivity.
    - assert (2 ^ 23 < 2 ^ 63) by reflexivity. lia. }
  destruct (2 ^ 23 + F) as [|p|p] eqn:EF; [lia| |lia].
  cbn [SF2Prim]. rewrite numberOfZ_of_uint63.
  - destruct sgn; reflexivity.
  - assert (2 ^ 23 + 2 ^ 23 < 2 ^ 63) by reflexivity. lia.
Qed.

Lemma leValue_1 (b0 : byte) : leValue [b0] = byteVal b0.
Proof. cbn [leValue]. lia. Qed.

Lemma leValue_2 (b0 b1 : byte) : leValue [b0; b1] = byteVal b0 + 2 ^ 8 * byteVal b1.
Proof. cbn [leValue]. change (2 ^ 8) with 256. lia. Qed.

Lemma leValue_4 (b0 b1 b2 b3 : byte) :
  leValue [b0; b1; b2; b3]
  = byteVal b0 + 2 ^ 8 * byteVal b1 + 2 ^ 16 * byteVal b2 + 2 ^ 24 * byteVal b3.
Proof.
  cbn [leValue]. change (2 ^ 8) with 256. change (2 ^ 16) with 65536.
  change (2 ^ 24) with 16777216. lia.
Qed.

Lemma leValue_4_range (b0 b1 b2 b3 : byte) : 0 <= leValue [b0; b1; b2; b3] < 2 ^ 32.
Proof.
  pose proof (byteVal_range b0). pose proof (byteVal_range b1).
  pose proof (byteVal_range b2). pose proof (byteVal_range b3).
  cbn [leValue]. change (2 ^ 32) with 4294967296. lia.
Qed.

Ltac exact_length Hlen bytes :=
  unfold lengthZ in Hlen;
  repeat (destruct bytes as [|? bytes]; cbn [length] in Hlen; try lia).

(** The scalar codec reads a component as [scalarOfBytes] says. *)
Lemma decodeScalar_scalarOfBytes (t : Z) (bytes : list byte) :
  supported t -> lengthZ bytes = componentWidth t ->
  scalarOfBytes t bytes = Some (decodeScalar t bytes).
Proof.
  intros Hs Hlen.
  destruct (supported_cases t Hs) as [->|[->|[->|[->|[->|[->| ->]]]]]].
  - change (componentWidth 5120) with 1 in Hlen. exact_length Hlen bytes.
    unfold scalarOfBytes, decodeScalar. cbv beta iota.
    change (5120 =? 5126) with false. change (5120 =? 5120) with true. cbv beta iota.
    cbn [orb]. rewrite leValue_1. reflexivity.
  - change (componentWidth 5121) with 1 in Hlen. exact_length Hlen bytes.
    unfold scalarOfBytes, decodeScalar. cbv beta iota.
    change (5121 =? 5126) with false. change (5121 =? 5120) with false.
    change (5121 =? 5122) with false. change (5121 =? 5124) with false.
    cbn [orb]. cbv beta iota. rewrite leValue_1. reflexivity.
  - change (componentWidth 5122) with 2 in Hlen. exact_length Hlen bytes.
    unfold scalarOfBytes, decodeScalar. cbv beta iota.
    change (5122 =? 5126) with false. change (5122 =? 5120) with false.
    change (5122 =? 5122) with true. cbn [orb]. cbv beta iota.
    rewrite leValue_2. reflexivity.
  - change (componentWidth 5123) with 2 in Hlen. exact_length Hlen bytes.
    unfold scalarOfBytes, decodeScalar. cbv beta iota.
    change (5123 =? 5126) with false. change (5123 =? 5120) with false.
    change (5123 =? 5122) with false. change (5123 =? 5124) with false.
    cbn [orb]. cbv beta iota. rewrite leValue_2. reflexivity.
  - change (componentWidth 5124) with 4 in Hlen. exact_length Hlen bytes.
    unfold scalarOfBytes, decodeScalar. cbv beta iota.
    change (5124 =? 5126) with false. change (5124 =? 5120) with false.
    change (5124 =? 5122) with false. change (5124 =? 5124) with true.
    cbn [orb]. cbv beta iota. rewrite leValue_4. reflexivity.
  - change (componentWidth 5125) with 4 in Hlen. exact_length Hlen bytes.
    unfold scalarOfBytes, decodeScalar. cbv beta iota.
    change (5125 =? 5126) with false. change (5125 =? 5120) with false.
    change (5125 =? 5122) with false. change (5125 =? 5124) with false.
    cbn [orb]. cbv beta iota. rewrite leValue_4. reflexivity.
  - change (componentWidth 5126) with 4 in Hlen. exact_length Hlen bytes.
    unfold scalarOfBytes, decodeScalar. cbv beta iota.
    change (5126 =? 5126) with true. cbv beta iota.
    rewrite float32OfBits_binary32Value by apply leValue_4_range.
    rewrite leValue_4. reflexivity.
Qed.

(** A read that is in bounds returns the scalar of the bytes at its
    address. *)
Lemma scalarAt_bytes (dv : list byte) (a : Attribute) (address : Z) :
  supported (attr_typeEnum a) ->
  inBounds dv address (componentWidth (attr_typeEnum a)) ->
  exists raw,
    readScalar dv address (attr_typeEnum a) = Ok raw /\
    scalarOfBytes (attr_typeEnum a)
      (sliceOf dv address (componentWidth (attr_typeEnum a))) = Some raw /\
    scalarAt dv a address
    = if attr_normalized a then normalizeInt raw (attr_typeEnum a) else raw.
Proof.
  intros Hs Hb. eexists. split; [apply readScalar_inBounds; assumption|].
  split; [|reflexivity].
  apply decodeScalar_scalarOfBytes; [exact Hs|].
  destruct Hb as [H0 H1]. pose proof (componentWidth_range (attr_typeEnum a)).
  unfold lengthZ in *. rewrite length_take, length_drop. lia.
Qed.

(** * The claims

    One theorem per claim of the specification, each stated over the
    embedding above. *)

(** ** Scalar codec: normalization and unsupported types *)

Lemma readScalar_format (dv : list byte) (off : Z) (c : ComponentType) :
  readScalar dv off (typeEnumOf c) =
  match c with
  | Float32 => float32OfBits <$> getUint dv off 4
  | _ => numberOfZ <$> (if isSigned c then getInt else getUint) dv off (bitsOf c / 8)
  end.
Proof. destruct c; reflexivity. Qed.

Lemma bytesPerComponent_format (c : ComponentType) :
  bytesPerComponent (typeEnumOf c) = Ok (bitsOf c / 8).
Proof. destruct c; reflexivity. Qed.





(** C7, as the code has it.  Outside the supported set the byte width
    and the scalar read raise their unsupported-type error, while
    [normalizeInt] returns its argument unchanged.  The classifier only
    picks attributes of supported types, so within a decode the index
    type is the one type that can be unsupported, and then the decode
    fails with that error on either path. *)
Theorem unsupported_component_type (t : Z) :
  ~ supported t ->
  bytesPerComponent t = Err (UnsupportedComponentType t) /\
  (forall dv off, readScalar dv off t = Err (UnsupportedScalarType t)) /\
  (forall v, normalizeInt v t = v) /\
  (forall a, isPosition a = true \/ isNormal a = true \/ isUv a = true ->
             attr_typeEnum a <> t) /\
  (forall dv selected options posA posBuf idxBuf,
     Classified selected posA posBuf idxBuf ->
     draw_indexTypeEnum (sel_draw selected) = t ->
     buildGltf dv selected options = Err (UnsupportedComponentType t) /\
     buildObj dv selected options = Err (UnsupportedComponentType t)).
Proof.
  intros Hu. split_and!.
  - apply bytesPerComponent_unsupported, Hu.
  - intros dv off. apply readScalar_unsupported, Hu.
  - intros v. apply normalizeInt_unsupported, Hu.
  - intros a H Ht. apply Hu. rewrite <- Ht. destruct H as [H|[H|H]].
    + apply isPosition_supported, H.
    + apply isNormal_supported, H.
    + apply isUv_supported, H.
  - intros dv selected options posA posBuf idxBuf Hc <-. split.
    + eapply buildGltf_unsupported; eassumption.
    + eapply buildObj_unsupported; eassumption.
Qed.

(** C7 at the type enum 5127. *)
Lemma unsupported_component_type_witness :
  bytesPerComponent 5127 = Err (UnsupportedComponentType 5127) /\
  (forall dv off, readScalar dv off 5127 = Err (UnsupportedScalarType 5127)) /\
  (forall v, normalizeInt v 5127 = v).
Proof.
  assert (Hu : ~ supported 5127) by (unfold supported; lia).
  destruct (unsupported_component_type 5127 Hu) as (H1 & H2 & H3 & _).
  split_and!; assumption.
Defined.

(** C7 as stated fails on [normalizeInt]: for the type enum 0, outside
    the supported set, it returns a number (its argument) and raises
    nothing. *)
Lemma normalizeInt_unsupported_returns :
  ~ supported 0 /\ normalizeInt 5 0 = 5%float.
Proof. split; [unfold supported; lia|reflexivity]. Qed.

(** ** Draw-call selector *)

Lemma foldl_pickStep_elem (l : list DrawCall) (best : option DrawCall) (d : DrawCall) :
  foldl pickStep best l = Some d ->
  best = Some d \/ (d ∈ l /\ eligible d = true).
Proof.
  revert best. induction l as [|x l IH]; intros best; simpl; [auto|].
  intros [H|[H1 H2]]%IH.
  - unfold pickStep in H. destruct (eligible x) eqn:Hx; [|auto].
    destruct best as [b|].
    + destruct (jsGt _ _); [|auto]. injection H as ->. right. split; [left|exact Hx].
    + injection H as ->. right. split; [left|exact Hx].
  - right. split; [right; exact H1|exact H2].
Qed.

(** C2, as the code has it.  A draw call is eligible when its kind is
    'drawElements', its mode is 4, its count is of type number (any
    number: the test is [typeof], which NaN and the infinities pass), its
    attribute list is a non-empty array and its index buffer id is
    present and non-zero.  The selector returns nothing exactly when no
    draw call of any context is eligible; what it returns is an eligible
    draw call of the trace; and when no eligible count is NaN it is the
    first draw call, in trace order, whose count no eligible draw call
    exceeds. *)
Theorem pickMainDrawCall_spec (json : CaptureJson) :
  (forall d, eligible d = true <->
     draw_kind d = "drawElements"%string /\
     draw_mode d = 4 /\
     typeofNumber (draw_count d) = true /\
     (exists a l, draw_attribs d = Some (a :: l)) /\
     (exists id, draw_elementArrayBufferId d = Some id /\ id <> 0)) /\
  (forall n, typeofNumber n = true) /\
  (pickMainDrawCall json = None <-> forall d, d ∈ allDraws json -> eligible d = false) /\
  (forall s, pickMainDrawCall json = Some s ->
     sel_draw s ∈ allDraws json /\ eligible (sel_draw s) = true) /\
  ((forall d, d ∈ allDraws json -> eligible d = true -> draw_count d <> JsNaN) ->
   forall s, pickMainDrawCall json = Some s ->
     exists before after,
       allDraws json = before ++ sel_draw s :: after /\
       (forall d, d ∈ before -> eligible d = true ->
                  jsGt (draw_count (sel_draw s)) (draw_count d) = true) /\
       (forall d, d ∈ after -> eligible d = true ->
                  jsGt (draw_count d) (draw_count (sel_draw s)) = false)).
Proof.
  pose proof (pickMainDrawCall_best json) as Hbest.
  split_and!.
  - apply eligible_iff.
  - intros n. destruct n; reflexivity.
  - rewrite <- foldl_pickStep_None, <- Hbest.
    destruct (pickMainDrawCall json); simpl; split; congruence.
  - intros s Hs. rewrite Hs in Hbest. simpl in Hbest. symmetry in Hbest.
    apply foldl_pickStep_elem in Hbest as [[=]|H]. exact H.
  - intros Hnan s Hs. rewrite Hs in Hbest. simpl in Hbest. symmetry in Hbest.
    destruct (foldl_pickStep_inv (allDraws json) None Hnan)
      as [[Hf _]|(l1 & d & l2 & Hl & Hf & _ & _ & H1 & H2)]; [discriminate| |].
    + rewrite Hf in Hbest. discriminate.
    + rewrite Hf in Hbest. injection Hbest as <-. exists l1, l2. auto.
Qed.

(** C2 on [Sample.tieTrace]: the first of the two draws of count 7 is
    selected, past the non-indexed draw of count 100. *)
Lemma pickMainDrawCall_spec_witness :
  pickMainDrawCall Sample.tieTrace
  = Some {| sel_draw := Sample.withCount 7 0; sel_buffersById := Sample.buffersById |} /\
  exists before after,
    allDraws Sample.tieTrace = before ++ Sample.withCount 7 0 :: after /\
    (forall d, d ∈ before -> eligible d = true ->
               jsGt (JsInt 7) (draw_count d) = true) /\
    (forall d, d ∈ after -> eligible d = true ->
               jsGt (draw_count d) (JsInt 7) = false).
Proof.
  split; [reflexivity|].
  destruct (pickMainDrawCall_spec Sample.tieTrace) as (_ & _ & _ & _ & H).
  apply (H ltac:(intros d Hd _;
                 repeat (apply elem_of_cons in Hd as [->|Hd]; [discriminate|]);
                 inversion Hd)
           {| sel_draw := Sample.withCount 7 0; sel_buffersById := Sample.buffersById |}).
  reflexivity.
Defined.

(** C2 as stated fails on a count that is a number but not finite: the
    only draw call of [infiniteTrace] has the count [Infinity], so no
    draw call is eligible in the claim's sense, and yet the selector
    returns that draw call. *)
Lemma pickMainDrawCall_selects_infinite_count :
  (forall d, d ∈ allDraws infiniteTrace -> ~ EligibleIfFinite d) /\
  exists s, pickMainDrawCall infiniteTrace = Some s /\ draw_count (sel_draw s) = JsInfinity.
Proof.
  split.
  - intros d [->|[]%not_elem_of_nil]%elem_of_cons (_ & _ & H & _). discriminate H.
  - eexists. split; reflexivity.
Qed.

(** ** Attribute classifier *)

Lemma find_absent_prop {A : Type} (f : A -> bool) (P : A -> Prop) (l : list A) :
  (forall a, f a = true <-> P a) ->
  List.find f l = None <-> forall a, a ∈ l -> ~ P a.
Proof.
  intros Hf. rewrite find_absent. split; intros H a Ha; specialize (H a Ha).
  - intros HP%Hf. congruence.
  - destruct (f a) eqn:E; [exfalso; apply H, Hf, E|reflexivity].
Qed.

(** C5.  Both decoders classify the draw call's attributes after a
    stable sort by ascending slot index.  The position attribute is the
    first of the sorted list with component count 3 and type float32, or
    type unsigned 16-bit and not normalized.  When no attribute
    qualifies the decode fails with the missing-position error; when no
    attribute qualifies as normal (or as UV), a decode whose other
    channels are in order succeeds with that channel absent. *)
Theorem classifier_spec (selected : SelectedDraw) :
  let attribs := sortedAttribs selected in
  (attribs ≡ₚ orEmpty (draw_attribs (sel_draw selected)) /\
   StronglySorted byIndex attribs /\
   forall k, filter (fun a => attr_index a = k) attribs
             = filter (fun a => attr_index a = k) (orEmpty (draw_attribs (sel_draw selected)))) /\
  (forall posA,
     findPositionAttrib attribs = Some posA <->
     exists before after,
       attribs = before ++ posA :: after /\
       PositionCandidate posA /\
       forall a, a ∈ before -> ~ PositionCandidate a) /\
  (findPositionAttrib attribs = None <-> forall a, a ∈ attribs -> ~ PositionCandidate a) /\
  (findPositionAttrib attribs = None ->
   forall dv options,
     buildGltf dv selected options = Err MissingPositionAttribute /\
     buildObj dv selected options = Err MissingPositionAttribute) /\
  (findNormalAttrib attribs = None <-> forall a, a ∈ attribs -> ~ NormalCandidate a) /\
  (findUvAttrib attribs = None <-> forall a, a ∈ attribs -> ~ UvCandidate a) /\
  (forall dv options posA posBuf idxBuf,
     Classified selected posA posBuf idxBuf ->
     supported (draw_indexTypeEnum (sel_draw selected)) ->
     decodeOk dv selected posA posBuf idxBuf ->
     exists g,
       buildGltf dv selected options = Ok g /\
       (findNormalAttrib attribs = None -> g_normals g = None) /\
       (findUvAttrib attribs = None -> g_uvs g = None /\ g_uvMin g = None /\ g_uvMax g = None)).
Proof.
  intros attribs. subst attribs. unfold sortedAttribs. split_and!.
  - apply sortByIndex_Permutation.
  - apply sortByIndex_sorted.
  - intros k. apply sortByIndex_stable.
  - intros posA. unfold findPositionAttrib. rewrite find_first.
    split; intros (l1 & l2 & Hl & Hp & H1); exists l1, l2; (split_and!; [exact Hl| |]).
    + apply isPosition_iff, Hp.
    + intros a Ha Hc%isPosition_iff. rewrite (H1 a Ha) in Hc. discriminate.
    + apply isPosition_iff, Hp.
    + intros a Ha. specialize (H1 a Ha). rewrite <- isPosition_iff in H1.
      destruct (isPosition a); [exfalso; auto|reflexivity].
  - apply find_absent_prop, isPosition_iff.
  - intros H dv options. split.
    + apply buildGltf_missing_position, H.
    + apply buildObj_missing_position, H.
  - apply find_absent_prop, isNormal_iff.
  - apply find_absent_prop, isUv_iff.
  - intros dv options posA posBuf idxBuf Hc Hs Hok.
    exists (gltfValue dv selected options posA posBuf idxBuf).
    split; [apply (buildGltf_classified dv _ options _ _ _ Hc Hs), Hok|].
    unfold gltfValue, objValue, sortedAttribs. simpl.
    split; [intros ->; reflexivity|intros ->; split_and!; reflexivity].
Qed.

Ltac by_decide := apply (bool_decide_unpack _); vm_compute; exact I.

(** C5 on a draw call with a position attribute only. *)
Lemma classifier_spec_witness :
  exists g,
    buildGltf Sample.bin Sample.positionOnly Sample.identity = Ok g /\
    g_normals g = None /\ g_uvs g = None.
Proof.
  destruct (classifier_spec Sample.positionOnly) as (_ & _ & _ & _ & _ & _ & H).
  destruct (H Sample.bin Sample.identity Sample.posAttr
              {| buf_id := 1; buf_binOffset := 0; buf_byteLength := 24 |}
              {| buf_id := 4; buf_binOffset := 38; buf_byteLength := 6 |})
    as (g & Hg & Hn & Hu).
  - split_and!; reflexivity.
  - unfold supported. simpl. lia.
  - by_decide.
  - exists g. split_and!; [exact Hg|apply Hn; reflexivity|apply Hu; reflexivity].
Defined.

(** ** Vertex decoder *)

Lemma lookup_fmap_upTo {V : Type} (f : Z -> V) (n i : Z) :
  0 <= i < n -> (f <$> upTo n) !! Z.to_nat i = Some (f i).
Proof.
  intros Hi. rewrite list_lookup_fmap, lookup_upTo by lia. simpl. do 2 f_equal. lia.
Qed.

Lemma scalarAt_read (dv : list byte) (a : Attribute) (address : Z) :
  supported (attr_typeEnum a) ->
  inBounds dv address (componentWidth (attr_typeEnum a)) ->
  exists raw,
    readScalar dv address (attr_typeEnum a) = Ok raw /\
    scalarAt dv a address
    = if attr_normalized a then normalizeInt raw (attr_typeEnum a) else raw.
Proof.
  intros Hs Hb. eexists. split; [apply readScalar_inBounds; assumption|reflexivity].
Qed.

(** [readScalar] reads least significant byte first: a 16-bit unsigned
    read of the bytes [b0; b1] is b0 + 256 b1. *)
Lemma readScalar_little_endian (dv : list byte) (off : Z) (b0 b1 : byte) :
  0 <= off ->
  dv !! Z.to_nat off = Some b0 -> dv !! Z.to_nat (off + 1) = Some b1 ->
  readScalar dv off 5123 = Ok (numberOfZ (byteVal b0 + 256 * byteVal b1)).
Proof.
  intros Hoff H0 H1.
  assert (Hlen : (Z.to_nat off + 1 < length dv)%nat).
  { apply lookup_lt_Some in H1. lia. }
  rewrite readScalar_inBounds; [|unfold supported; lia|split; [lia|]].
  2:{ change (componentWidth 5123) with 2. unfold lengthZ. lia. }
  unfold decodeScalar. simpl. do 2 f_equal.
  change (Z.to_nat (componentWidth 5123)) with 2%nat.
  replace (Z.to_nat (off + 1)) with (S (Z.to_nat off)) in H1 by lia.
  rewrite (take_S_r _ _ b1), (take_S_r _ _ b0).
  - simpl. lia.
  - rewrite lookup_drop. rewrite <- H0. f_equal. lia.
  - rewrite lookup_drop. rewrite <- H1. f_equal. lia.
Qed.

(** C1.  When [buildGltf] returns, the position accessor count is
    floor ((byteLength - offset) / stride) for the position attribute and
    its buffer, where the stride is the attribute's own when non-zero and
    otherwise component count times component width; the position array
    holds three floats per vertex; and vertex [i] is made of the three
    scalars read at binOffset + offset + i * stride + c * width, each
    the scalar that the bytes at that address stand for when taken least
    significant byte first (for a float32 component, the number its
    IEEE binary32 bit pattern stands for), normalized exactly when the
    attribute is flagged normalized, then scaled and biased, then
    exchanged in Y and Z when [swapYZ] is set, then negated in Z when
    [invertZ] is set, and finally stored as float32. *)
Theorem buildGltf_position_channel dv selected options g :
  buildGltf dv selected options = Ok g ->
  exists posA posBuf,
    findPositionAttrib (sortedAttribs selected) = Some posA /\
    sel_buffersById selected !! attr_bufferId posA = Some posBuf /\
    getStride posA = Ok (effectiveStride posA) /\
    bytesPerComponent (attr_typeEnum posA) = Ok (componentWidth (attr_typeEnum posA)) /\
    g_vertexCount g
    = (buf_byteLength posBuf - orZero (attr_offset posA)) / effectiveStride posA /\
    lengthZ (g_positions g) = 3 * g_vertexCount g /\
    forall i, 0 <= i < g_vertexCount g ->
      let t := attr_typeEnum posA in
      let address c := buf_binOffset posBuf + orZero (attr_offset posA)
                       + i * effectiveStride posA + c * componentWidth t in
      exists x y z,
        readScalar dv (address 0) t = Ok x /\
        readScalar dv (address 1) t = Ok y /\
        readScalar dv (address 2) t = Ok z /\
        scalarOfBytes t (sliceOf dv (address 0) (componentWidth t)) = Some x /\
        scalarOfBytes t (sliceOf dv (address 1) (componentWidth t)) = Some y /\
        scalarOfBytes t (sliceOf dv (address 2) (componentWidth t)) = Some z /\
        let norm v := if attr_normalized posA then normalizeInt v t else v in
        let v := transformPosition options (norm x, norm y, norm z) in
        g_positions g !! Z.to_nat (3 * i) = Some (fround v.1.1) /\
        g_positions g !! Z.to_nat (3 * i + 1) = Some (fround v.1.2) /\
        g_positions g !! Z.to_nat (3 * i + 2) = Some (fround v.2).
Proof.
  intros (posA & posBuf & idxBuf & Hc & Hidx & Hok & ->)%buildGltf_Ok_inv.
  destruct (isPosition_supported _ (classified_position _ _ _ _ Hc)) as [Hs _].
  destruct Hc as (Hf & Hp & _). destruct Hok as (_ & [Hn Hreads] & _).
  exists posA, posBuf. split_and!; try assumption.
  - apply getStride_supported, Hs.
  - apply bytesPerComponent_supported, Hs.
  - reflexivity.
  - simpl. unfold lengthZ. rewrite length_storeVec3, length_fmap, length_upTo. lia.
  - unfold gltfValue, objValue. cbn [g_positions g_vertexCount o_vertices].
    intros i Hi.
    destruct (proj1 (vertexInBounds_3 _ _ _ _) (Hreads i Hi)) as (H0 & H1 & H2).
    destruct (scalarAt_bytes dv posA _ Hs H0) as (x & Hx & Bx & Ex).
    destruct (scalarAt_bytes dv posA _ Hs H1) as (y & Hy & By & Ey).
    destruct (scalarAt_bytes dv posA _ Hs H2) as (z & Hz & Bz & Ez).
    exists x, y, z.
    split; [exact Hx|]. split; [exact Hy|]. split; [exact Hz|].
    split; [exact Bx|]. split; [exact By|]. split; [exact Bz|].
    cbv zeta. rewrite <- Ex, <- Ey, <- Ez. fold (vec3At dv posBuf posA i).
    pose proof (lookup_fmap_upTo
                  (fun i => transformPosition options (vec3At dv posBuf posA i)) _ i Hi) as Hl.
    destruct (transformPosition options (vec3At dv posBuf posA i)) as [[x' y'] z'].
    apply lookup_storeVec3 in Hl as (L0 & L1 & L2).
    replace (Z.to_nat (3 * i)) with (3 * Z.to_nat i)%nat by lia.
    replace (Z.to_nat (3 * i + 1)) with (3 * Z.to_nat i + 1)%nat by lia.
    replace (Z.to_nat (3 * i + 2)) with (3 * Z.to_nat i + 2)%nat by lia.
    split_and!; assumption.
Qed.

(** C1 on the sample capture: its position buffer starts with the bytes
    00 00 80 3f, 00 00 00 40, 00 00 40 40 and 00 00 80 bf, 00 00 00 3f,
    00 00 00 00, which are the two vertices (1, 2, 3) and (-1, 0.5, 0). *)
Lemma buildGltf_position_channel_witness :
  exists g,
    buildGltf Sample.bin Sample.selected Sample.identity = Ok g /\
    g_vertexCount g = 2 /\
    take 24 Sample.bin
    = [ x00; x00; x80; x3f;  x00; x00; x00; x40;  x00; x00; x40; x40;
        x00; x00; x80; xbf;  x00; x00; x00; x3f;  x00; x00; x00; x00 ] /\
    g_positions g !! 0%nat = Some 1%float /\
    g_positions g !! 1%nat = Some 2%float /\
    g_positions g !! 2%nat = Some 3%float /\
    g_positions g !! 3%nat = Some (-1)%float /\
    g_positions g !! 4%nat = Some 0.5%float /\
    g_positions g !! 5%nat = Some 0%float.
Proof.
  assert (H : exists g, buildGltf Sample.bin Sample.selected Sample.identity = Ok g)
    by (vm_compute; eexists; reflexivity).
  destruct H as [g H]. exists g. split; [exact H|].
  destruct (buildGltf_position_channel _ _ _ _ H)
    as (posA & posBuf & Hf & Hp & _ & _ & Hn & _ & Hv).
  assert (EA : posA = Sample.posAttr) by (vm_compute in Hf; injection Hf as <-; reflexivity).
  subst posA.
  assert (EB : posBuf = {| buf_id := 1; buf_binOffset := 0; buf_byteLength := 24 |})
    by (vm_compute in Hp; injection Hp as <-; reflexivity).
  subst posBuf.
  assert (Hn2 : g_vertexCount g = 2) by (rewrite Hn; reflexivity).
  split; [exact Hn2|]. split; [reflexivity|].
  destruct (Hv 0 ltac:(lia)) as (x0 & y0 & z0 & _ & _ & _ & Bx0 & By0 & Bz0 & L0 & L1 & L2).
  destruct (Hv 1 ltac:(lia)) as (x1 & y1 & z1 & _ & _ & _ & Bx1 & By1 & Bz1 & L3 & L4 & L5).
  vm_compute in Bx0, By0, Bz0, Bx1, By1, Bz1.
  apply (inj Some) in Bx0, By0, Bz0, Bx1, By1, Bz1. subst x0 y0 z0 x1 y1 z1.
  split_and!;
    (etransitivity;
     [first [exact L0|exact L1|exact L2|exact L3|exact L4|exact L5]|vm_compute; reflexivity]).
Defined.

(** C6, as amended.  When the selection's map lacks the descriptor of
    the position attribute's buffer, both decoders fail with the
    missing-position-buffer error.  When it lacks the descriptor of the
    draw call's index buffer, both decoders fail and return no geometry:
    with one of the two missing-buffer errors when a position attribute
    is classified, and with the missing-position-attribute error when
    none is, since that check comes first.  When the map lacks the
    descriptor of the normal (or UV) attribute's buffer, a decode whose
    other channels are in order succeeds, with that channel absent. *)
Theorem missing_buffer_descriptor dv selected options :
  (forall posA,
     findPositionAttrib (sortedAttribs selected) = Some posA ->
     sel_buffersById selected !! attr_bufferId posA = None ->
     buildGltf dv selected options = Err MissingPositionBuffer /\
     buildObj dv selected options = Err MissingPositionBuffer) /\
  (forall id,
     draw_elementArrayBufferId (sel_draw selected) = Some id ->
     sel_buffersById selected !! id = None ->
     exists e,
       buildGltf dv selected options = Err e /\
       buildObj dv selected options = Err e /\
       (findPositionAttrib (sortedAttribs selected) <> None ->
        isMissingBufferDescriptor e) /\
       (findPositionAttrib (sortedAttribs selected) = None ->
        e = MissingPositionAttribute)) /\
  (forall posA posBuf idxBuf,
     Classified selected posA posBuf idxBuf ->
     supported (draw_indexTypeEnum (sel_draw selected)) ->
     decodeOk dv selected posA posBuf idxBuf ->
     exists g,
       buildGltf dv selected options = Ok g /\
       (forall nrmA,
          findNormalAttrib (sortedAttribs selected) = Some nrmA ->
          sel_buffersById selected !! attr_bufferId nrmA = None ->
          g_normals g = None) /\
       (forall uvA,
          findUvAttrib (sortedAttribs selected) = Some uvA ->
          sel_buffersById selected !! attr_bufferId uvA = None ->
          g_uvs g = None)).
Proof.
  split_and!.
  - intros posA Hf Hp. split.
    + eapply buildGltf_missing_position_buffer; eassumption.
    + eapply buildObj_missing_position_buffer; eassumption.
  - intros id Hid Hm.
    pose proof (indexBuffer_missing _ _ _ Hid Hm) as Hi.
    destruct (findPositionAttrib (sortedAttribs selected)) as [posA|] eqn:Hf.
    2:{ exists MissingPositionAttribute. split_and!.
        - apply buildGltf_missing_position, Hf.
        - apply buildObj_missing_position, Hf.
        - intros H. contradiction.
        - reflexivity. }
    destruct (sel_buffersById selected !! attr_bufferId posA) as [posBuf|] eqn:Hp.
    + exists MissingIndexBuffer. split_and!.
      * eapply buildGltf_missing_index_buffer; eassumption.
      * eapply buildObj_missing_index_buffer; eassumption.
      * intros _. right. reflexivity.
      * discriminate.
    + exists MissingPositionBuffer. split_and!.
      * eapply buildGltf_missing_position_buffer; eassumption.
      * eapply buildObj_missing_position_buffer; eassumption.
      * intros _. left. reflexivity.
      * discriminate.
  - intros posA posBuf idxBuf Hc Hs Hok.
    exists (gltfValue dv selected options posA posBuf idxBuf).
    split; [apply (buildGltf_classified dv _ options _ _ _ Hc Hs), Hok|].
    unfold gltfValue, objValue. cbn [g_normals g_uvs o_normals o_uvs].
    split.
    + intros nrmA -> Hm. rewrite (normalsValue_missing _ _ _ _ Hm). reflexivity.
    + intros uvA -> Hm. rewrite (uvsValue_missing _ _ _ _ Hm). reflexivity.
Qed.

(** C6 on the sample capture, without the index buffer's descriptor and
    without the normal buffer's. *)
Lemma missing_buffer_descriptor_witness :
  (exists e,
     buildGltf Sample.bin Sample.withoutIndexBuffer Sample.identity = Err e /\
     buildObj Sample.bin Sample.withoutIndexBuffer Sample.identity = Err e /\
     isMissingBufferDescriptor e) /\
  (exists g,
     buildGltf Sample.bin Sample.withoutNormalBuffer Sample.identity = Ok g /\
     g_normals g = None).
Proof.
  split.
  - destruct (missing_buffer_descriptor Sample.bin Sample.withoutIndexBuffer Sample.identity)
      as (_ & H & _).
    destruct (H 4 eq_refl eq_refl) as (e & H1 & H2 & H3 & _).
    exists e. split_and!; [exact H1|exact H2|]. apply H3. discriminate.
  - destruct (missing_buffer_descriptor Sample.bin Sample.withoutNormalBuffer Sample.identity)
      as (_ & _ & H).
    destruct (H Sample.posAttr
                {| buf_id := 1; buf_binOffset := 0; buf_byteLength := 24 |}
                {| buf_id := 4; buf_binOffset := 38; buf_byteLength := 6 |})
      as (g & Hg & Hn & _).
    + split_and!; reflexivity.
    + unfold supported. simpl. lia.
    + by_decide.
    + exists g. split; [exact Hg|]. apply (Hn Sample.nrmAttr); reflexivity.
Defined.

(** C6 as stated fails when no position attribute is classified: the
    draw call of [withoutPosition] refers to index buffer 4, whose
    descriptor the map lacks, and both decoders fail with the
    missing-position-attribute error, which is not a missing buffer
    descriptor. *)
Lemma missing_index_descriptor_without_position :
  draw_elementArrayBufferId (sel_draw withoutPosition) = Some 4 /\
  sel_buffersById withoutPosition !! 4 = None /\
  buildGltf Sample.bin withoutPosition Sample.identity = Err MissingPositionAttribute /\
  buildObj Sample.bin withoutPosition Sample.identity = Err MissingPositionAttribute /\
  ~ isMissingBufferDescriptor MissingPositionAttribute.
Proof.
  split_and!; try reflexivity.
  intros [H|H]; discriminate H.
Qed.

(** C8.  When [buildGltf] returns with a normal (or UV) channel, the
    channel's element count is the smaller of the position vertex count
    and floor ((byteLength - offset) / stride) for the channel's own
    attribute and buffer; so it exceeds neither. *)
Theorem optional_channel_counts dv selected options g :
  buildGltf dv selected options = Ok g ->
  (forall normals,
     g_normals g = Some normals ->
     exists nrmA nrmBuf,
       findNormalAttrib (sortedAttribs selected) = Some nrmA /\
       sel_buffersById selected !! attr_bufferId nrmA = Some nrmBuf /\
       getStride nrmA = Ok (effectiveStride nrmA) /\
       let capacity :=
         (buf_byteLength nrmBuf - orZero (attr_offset nrmA)) / effectiveStride nrmA in
       let count := Z.min (g_vertexCount g) capacity in
       lengthZ normals = 3 * count /\ count <= capacity /\ count <= g_vertexCount g) /\
  (forall uvs,
     g_uvs g = Some uvs ->
     exists uvA uvBuf,
       findUvAttrib (sortedAttribs selected) = Some uvA /\
       sel_buffersById selected !! attr_bufferId uvA = Some uvBuf /\
       getStride uvA = Ok (effectiveStride uvA) /\
       let capacity :=
         (buf_byteLength uvBuf - orZero (attr_offset uvA)) / effectiveStride uvA in
       let count := Z.min (g_vertexCount g) capacity in
       lengthZ uvs = 2 * count /\ count <= capacity /\ count <= g_vertexCount g).
Proof.
  intros (posA & posBuf & idxBuf & Hc & Hidx & Hok & ->)%buildGltf_Ok_inv.
  destruct Hok as (_ & _ & Hn & Hu).
  unfold gltfValue, objValue. cbn [g_normals g_uvs g_vertexCount o_normals o_uvs].
  split.
  - intros normals Hnormals.
    destruct (findNormalAttrib (sortedAttribs selected)) as [a|] eqn:Ha; [|discriminate].
    pose proof Ha as [_ [Hs _]%isNormal_supported]%find_some.
    unfold channelOk in Hn.
    destruct (sel_buffersById selected !! attr_bufferId a) as [buf|] eqn:Hbuf.
    2:{ rewrite (normalsValue_missing _ _ _ _ Hbuf) in Hnormals. discriminate. }
    rewrite (normalsValue_present _ _ _ _ _ Hbuf) in Hnormals.
    injection Hnormals as <-. exists a, buf.
    split; [reflexivity|]. split; [exact Hbuf|].
    split; [apply getStride_supported, Hs|].
    cbv zeta. rewrite <- optionalCount_min. destruct Hn as [Hn _].
    split_and!; [|rewrite optionalCount_min; lia..].
    unfold lengthZ. rewrite length_storeVec3, length_fmap, length_upTo. lia.
  - intros uvs Huvs.
    destruct (findUvAttrib (sortedAttribs selected)) as [a|] eqn:Ha; [|discriminate].
    pose proof Ha as [_ [Hs _]%isUv_supported]%find_some.
    unfold channelOk in Hu.
    destruct (sel_buffersById selected !! attr_bufferId a) as [buf|] eqn:Hbuf.
    2:{ rewrite (uvsValue_missing _ _ _ _ Hbuf) in Huvs. discriminate. }
    rewrite (uvsValue_present _ _ _ _ _ Hbuf) in Huvs.
    injection Huvs as <-. exists a, buf.
    split; [reflexivity|]. split; [exact Hbuf|].
    split; [apply getStride_supported, Hs|].
    cbv zeta. rewrite <- optionalCount_min. destruct Hu as [Hu _].
    split_and!; [|rewrite optionalCount_min; lia..].
    unfold lengthZ. rewrite length_storeVec2, length_fmap, length_upTo. lia.
Qed.

(** C8 on the sample capture: two normals and two UVs. *)
Lemma optional_channel_counts_witness :
  buildGltf Sample.bin Sample.selected Sample.identity = Ok Sample.gltfIdentity /\
  (exists nrmA nrmBuf,
     findNormalAttrib (sortedAttribs Sample.selected) = Some nrmA /\
     sel_buffersById Sample.selected !! attr_bufferId nrmA = Some nrmBuf /\
     3 * Z.min (g_vertexCount Sample.gltfIdentity)
               ((buf_byteLength nrmBuf - orZero (attr_offset nrmA)) / effectiveStride nrmA)
     = 6) /\
  (exists uvA uvBuf,
     findUvAttrib (sortedAttribs Sample.selected) = Some uvA /\
     sel_buffersById Sample.selected !! attr_bufferId uvA = Some uvBuf /\
     2 * Z.min (g_vertexCount Sample.gltfIdentity)
               ((buf_byteLength uvBuf - orZero (attr_offset uvA)) / effectiveStride uvA)
     = 4).
Proof.
  assert (H : buildGltf Sample.bin Sample.selected Sample.identity = Ok Sample.gltfIdentity)
    by (vm_compute; reflexivity).
  split; [exact H|].
  destruct (optional_channel_counts _ _ _ _ H) as [Hn Hu]. split.
  - destruct (Hn _ eq_refl) as (a & buf & Ha & Hb & _ & Hl & _).
    exists a, buf. split_and!; [exact Ha|exact Hb|]. rewrite <- Hl. reflexivity.
  - destruct (Hu _ eq_refl) as (a & buf & Ha & Hb & _ & Hl & _).
    exists a, buf. split_and!; [exact Ha|exact Hb|]. rewrite <- Hl. reflexivity.
Defined.

(** ** Bounds of the reads *)

#[global] Instance channelReads_3_dec dv m a vc : Decision (channelReads dv m a vc 3).
Proof. unfold channelReads. destruct a as [a|]; [destruct (m !! attr_bufferId a)|]; apply _. Defined.

#[global] Instance channelReads_2_dec dv m a vc : Decision (channelReads dv m a vc 2).
Proof. unfold channelReads. destruct a as [a|]; [destruct (m !! attr_bufferId a)|]; apply _. Defined.

#[global] Instance channelCountOk_dec m a vc : Decision (channelCountOk m a vc).
Proof. unfold channelCountOk. destruct a as [a|]; [destruct (m !! attr_bufferId a)|]; apply _. Defined.

#[global] Instance countsNonNegative_dec selected posA posBuf :
  Decision (countsNonNegative selected posA posBuf).
Proof. unfold countsNonNegative. apply _. Defined.

#[global] Instance readsWithinCapture_dec dv selected posA posBuf idxBuf :
  Decision (readsWithinCapture dv selected posA posBuf idxBuf).
Proof. unfold readsWithinCapture. apply _. Defined.

Lemma channelOk_split dv m a vc comps :
  channelOk dv m a vc comps <-> channelReads dv m a vc comps /\ channelCountOk m a vc.
Proof.
  unfold channelOk, channelReads, channelCountOk.
  destruct a as [a|]; [destruct (m !! attr_bufferId a)|]; tauto.
Qed.

Lemma decodeOk_split dv selected posA posBuf idxBuf :
  decodeOk dv selected posA posBuf idxBuf <->
  readsWithinCapture dv selected posA posBuf idxBuf /\ countsNonNegative selected posA posBuf.
Proof.
  unfold decodeOk, readsWithinCapture, countsNonNegative, indexReadsOk, positionReadsOk.
  rewrite !channelOk_split. tauto.
Qed.

(** C10, as the code has it.  Once the three lookups have succeeded and
    the index type is supported, the decode performs no check of its own
    against the capture's length: it returns exactly when every address
    it dereferences lies within the capture and no element count it
    computes is negative (the draw count, the position vertex count and
    the count of each decoded optional channel); otherwise both decoders
    fail with the engine's [RangeError], never with an error of the
    taxonomy.  With a positive stride the position count is not negative
    exactly when the position buffer's byte length is at least the
    attribute offset. *)
Theorem decode_bounds dv selected options posA posBuf idxBuf :
  Classified selected posA posBuf idxBuf ->
  supported (draw_indexTypeEnum (sel_draw selected)) ->
  (readsWithinCapture dv selected posA posBuf idxBuf /\
   countsNonNegative selected posA posBuf ->
   exists g, buildGltf dv selected options = Ok g) /\
  (~ (readsWithinCapture dv selected posA posBuf idxBuf /\
      countsNonNegative selected posA posBuf) ->
   buildGltf dv selected options = Err RangeError /\
   buildObj dv selected options = Err RangeError) /\
  (0 < effectiveStride posA ->
   (0 <= positionCount posA posBuf <->
    buf_byteLength posBuf >= orZero (attr_offset posA))).
Proof.
  intros Hc Hs. rewrite <- decodeOk_split. split_and!.
  - intros Hok. eexists. apply (buildGltf_classified dv _ options _ _ _ Hc Hs), Hok.
  - intros Hnot. split.
    + apply (buildGltf_classified dv _ options _ _ _ Hc Hs), Hnot.
    + apply (buildObj_classified dv _ options _ _ _ Hc Hs). tauto.
  - intros Hpos. unfold positionCount. split.
    + intros H. apply Z.ge_le_iff.
      destruct (Z.le_gt_cases 0 (buf_byteLength posBuf - orZero (attr_offset posA)))
        as [Hle|Hgt]; [lia|].
      pose proof (Z.div_lt_upper_bound
                    (buf_byteLength posBuf - orZero (attr_offset posA))
                    (effectiveStride posA) 0 Hpos ltac:(lia)). lia.
    + intros H. apply Z.div_pos; lia.
Qed.

(** C10 on the sample capture, whole and cut one byte short. *)
Lemma decode_bounds_witness :
  (exists g, buildGltf Sample.bin Sample.selected Sample.identity = Ok g) /\
  buildGltf (take 43 Sample.bin) Sample.selected Sample.identity = Err RangeError /\
  buildObj (take 43 Sample.bin) Sample.selected Sample.identity = Err RangeError.
Proof.
  pose (posBuf := {| buf_id := 1; buf_binOffset := 0; buf_byteLength := 24 |}).
  pose (idxBuf := {| buf_id := 4; buf_binOffset := 38; buf_byteLength := 6 |}).
  assert (Hc : Classified Sample.selected Sample.posAttr posBuf idxBuf)
    by (split_and!; reflexivity).
  assert (Hs : supported (draw_indexTypeEnum (sel_draw Sample.selected)))
    by (unfold supported; simpl; lia).
  split.
  - apply (decode_bounds Sample.bin Sample.selected Sample.identity _ _ _ Hc Hs).
    split; by_decide.
  - apply (decode_bounds (take 43 Sample.bin) Sample.selected Sample.identity _ _ _ Hc Hs).
    intros [H _]. revert H. apply (bool_decide_unpack _). vm_compute. exact I.
Defined.

(** C10 as stated fails: in [shortNormalCapture] every address the
    decode dereferences lies within the capture (the normal channel
    decodes no vertex) and the position buffer is longer than the
    position offset, yet the decode fails with a [RangeError], because
    the normal channel's count is negative. *)
Lemma decode_fails_within_bounds :
  let dv := shortNormalCapture.1 in
  let selected := shortNormalCapture.2 in
  let posBuf := {| buf_id := 1; buf_binOffset := 0; buf_byteLength := 12 |} in
  let idxBuf := {| buf_id := 4; buf_binOffset := 12; buf_byteLength := 0 |} in
  Classified selected Sample.posAttr posBuf idxBuf /\
  supported (draw_indexTypeEnum (sel_draw selected)) /\
  readsWithinCapture dv selected Sample.posAttr posBuf idxBuf /\
  buf_byteLength posBuf >= orZero (attr_offset Sample.posAttr) /\
  buildGltf dv selected Sample.identity = Err RangeError.
Proof.
  cbv zeta. split_and!.
  - split_and!; reflexivity.
  - unfold supported. simpl. lia.
  - by_decide.
  - simpl. lia.
  - reflexivity.
Qed.

(** ** The plain-text path against the scene-description path *)





(** ** Single-file binary container *)

Lemma byteVal_byteOfZ (z : Z) : byteVal (byteOfZ z) = z mod 256.
Proof.
  unfold byteVal, byteOfZ.
  pose proof (Z.mod_pos_bound z 256 ltac:(lia)) as Hb.
  destruct (Byte.of_N (Z.to_N (z mod 256))) as [b|] eqn:Hof.
  - apply Byte.to_of_N in Hof. rewrite Hof. lia.
  - apply Byte.of_N_None_iff in Hof. lia.
Qed.

Lemma length_u32le (v : Z) : length (u32le v) = 4%nat.
Proof. reflexivity. Qed.

(** The four bytes written for [v] read back, little-endian, as [v]
    modulo 2^32. *)
Lemma leValue_u32le (v : Z) : leValue (u32le v) = v mod 2 ^ 32.
Proof.
  unfold u32le, leValue. rewrite !byteVal_byteOfZ.
  change (2 ^ 32) with 4294967296.
  pose proof (Z.div_mod v 256 ltac:(lia)).
  pose proof (Z.div_mod v 65536 ltac:(lia)).
  pose proof (Z.div_mod v 16777216 ltac:(lia)).
  pose proof (Z.div_mod v 4294967296 ltac:(lia)).
  pose proof (Z.div_mod (v / 256) 256 ltac:(lia)).
  pose proof (Z.div_mod (v / 65536) 256 ltac:(lia)).
  pose proof (Z.div_mod (v / 16777216) 256 ltac:(lia)).
  rewrite Z.div_div in * by lia.
  change (256 * 256) with 65536 in *.
  change (65536 * 256) with 16777216 in *.
  change (16777216 * 256) with 4294967296 in *.
  lia.
Qed.

Lemma padTo4_spec (bytes : list byte) (padByte : byte) :
  let pad := (4 - lengthZ bytes mod 4) mod 4 in
  0 <= pad < 4 /\
  padTo4 bytes padByte = bytes ++ replicate (Z.to_nat pad) padByte /\
  lengthZ (padTo4 bytes padByte) = lengthZ bytes + pad /\
  lengthZ (padTo4 bytes padByte) mod 4 = 0.
Proof.
  intros pad.
  assert (Hpad : 0 <= pad < 4) by (apply Z.mod_pos_bound; lia).
  assert (Heq : padTo4 bytes padByte = bytes ++ replicate (Z.to_nat pad) padByte).
  { unfold padTo4. fold pad. destruct (Z.eqb_spec pad 0) as [->|_]; [|reflexivity].
    simpl. rewrite app_nil_r. reflexivity. }
  assert (Hlen : lengthZ (padTo4 bytes padByte) = lengthZ bytes + pad).
  { rewrite Heq. unfold lengthZ. rewrite length_app, length_replicate. lia. }
  split; [exact Hpad|]. split; [exact Heq|]. split; [exact Hlen|].
  rewrite Hlen. subst pad.
  pose proof (Z.mod_pos_bound (lengthZ bytes) 4 ltac:(lia)).
  pose proof (Z.div_mod (lengthZ bytes) 4 ltac:(lia)).
  destruct (Z.eqb_spec (lengthZ bytes mod 4) 0) as [E|E].
  - rewrite E. change ((4 - 0) mod 4) with 0. rewrite Z.add_0_r. exact E.
  - rewrite (Z.mod_small (4 - lengthZ bytes mod 4) 4) by lia.
    replace (lengthZ bytes + (4 - lengthZ bytes mod 4))
      with ((lengthZ bytes / 4 + 1) * 4) by lia.
    apply Z.mod_mul. lia.
Qed.

(** Writing [src] right after the part already written, into the
    zero-filled remainder of a fresh array. *)
Lemma setBytes_next (written src : list byte) (rest : nat) (offset : Z) :
  offset = lengthZ written -> (length src <= rest)%nat ->
  setBytes (written ++ replicate rest x00) src offset
  = Ok ((written ++ src) ++ replicate (rest - length src) x00).
Proof.
  intros -> Hle. unfold setBytes, lengthZ.
  rewrite length_app, length_replicate.
  destruct (Z.leb_spec 0 (Z.of_nat (length written))); [|lia].
  destruct (Z.leb_spec (Z.of_nat (length written) + Z.of_nat (length src))
                       (Z.of_nat (length written + rest))); [|lia].
  simpl. f_equal. rewrite Nat2Z.id.
  rewrite take_app_length, drop_app_add', drop_replicate by reflexivity.
  rewrite <- app_assoc. reflexivity.
Qed.

Ltac glb_step :=
  rewrite setBytes_next;
  [ rewrite bind_Ok_l
  | unfold lengthZ; rewrite ?length_app, ?length_u32le; cbn [length]; lia
  | unfold lengthZ in *; rewrite ?length_u32le; lia ].

(** C4.  [buildGlb] returns the 12-byte header (the magic, version 2 and
    the total length), then the JSON chunk (its length, the tag, the
    JSON text padded with spaces) and the binary chunk (its length, the
    tag, the payload padded with zero bytes), every integer written as
    four little-endian bytes.  The container is exactly as long as its
    total-length field says, each chunk-length field is the length of
    the padded payload it precedes, and both are multiples of 4; each
    padding is shorter than 4 bytes.  A 32-bit field holds its value
    whenever the container is shorter than 2^32 bytes. *)
Theorem buildGlb_layout (jsonBytes binU8 : list byte) :
  let jsonPadded := padTo4 jsonBytes x20 in
  let binPadded := padTo4 binU8 x00 in
  let totalLength := 12 + 8 + lengthZ jsonPadded + 8 + lengthZ binPadded in
  (exists jsonPad binPad,
     0 <= jsonPad < 4 /\ 0 <= binPad < 4 /\
     jsonPadded = jsonBytes ++ replicate (Z.to_nat jsonPad) x20 /\
     binPadded = binU8 ++ replicate (Z.to_nat binPad) x00) /\
  lengthZ jsonPadded mod 4 = 0 /\
  lengthZ binPadded mod 4 = 0 /\
  (exists glb,
     buildGlb jsonBytes binU8 = Ok glb /\
     glb = u32le 0x46546C67 ++ u32le 2 ++ u32le totalLength
           ++ u32le (lengthZ jsonPadded) ++ u32le 0x4E4F534A ++ jsonPadded
           ++ u32le (lengthZ binPadded) ++ u32le 0x004E4942 ++ binPadded /\
     lengthZ glb = totalLength /\
     (totalLength < 2 ^ 32 ->
      leValue (u32le totalLength) = lengthZ glb /\
      leValue (u32le (lengthZ jsonPadded)) = lengthZ jsonPadded /\
      leValue (u32le (lengthZ binPadded)) = lengthZ binPadded)) /\
  (u32le 0x46546C67 = [x67; x6c; x54; x46] /\
   u32le 2 = [x02; x00; x00; x00] /\
   u32le 0x4E4F534A = [x4a; x53; x4f; x4e] /\
   u32le 0x004E4942 = [x42; x49; x4e; x00]).
Proof.
  intros jp bp total.
  destruct (padTo4_spec jsonBytes x20) as (Hj1 & Hj2 & Hj3 & Hj4).
  destruct (padTo4_spec binU8 x00) as (Hb1 & Hb2 & Hb3 & Hb4).
  fold jp in Hj2, Hj3, Hj4. fold bp in Hb2, Hb3, Hb4.
  split; [eauto 10|]. split; [exact Hj4|]. split; [exact Hb4|].
  split; [|split_and!; reflexivity].
  assert (Hjp : 0 <= lengthZ jp) by (unfold lengthZ; lia).
  assert (Hbp : 0 <= lengthZ bp) by (unfold lengthZ; lia).
  eexists. split; [|split; [reflexivity|split]].
  - unfold buildGlb. cbv zeta. fold jp bp.
    fold total.
    change (replicate (Z.to_nat total) x00) with ([] ++ replicate (Z.to_nat total) x00).
    unfold setUint32.
    assert (Htotal : Z.to_nat total = (28 + length jp + length bp)%nat)
      by (subst total; unfold lengthZ; lia).
    rewrite Htotal.
    do 9 glb_step.
    rewrite !length_u32le.
    match goal with
    | |- Ok (_ ++ replicate ?n _) = _ => replace n with 0%nat by (unfold lengthZ; lia)
    end.
    cbn [replicate]. rewrite app_nil_r, app_nil_l, <- !app_assoc. reflexivity.
  - subst total. unfold lengthZ in *. rewrite !length_app, !length_u32le. lia.
  - intros Hlt.
    assert (Hlen : lengthZ (u32le 1179937895 ++ u32le 2 ++ u32le total
                            ++ u32le (lengthZ jp) ++ u32le 1313821514 ++ jp
                            ++ u32le (lengthZ bp) ++ u32le 5130562 ++ bp) = total)
      by (subst total; unfold lengthZ in *; rewrite !length_app, !length_u32le; lia).
    rewrite Hlen, !leValue_u32le.
    rewrite !Z.mod_small by (subst total; lia). split_and!; reflexivity.
Qed.

(** C4 on a two-byte JSON text and a five-byte payload: 40 bytes. *)
Lemma buildGlb_layout_witness :
  buildGlb [x7b; x7d] [x01; x02; x03; x04; x05]
  = Ok ([x67; x6c; x54; x46] ++ [x02; x00; x00; x00] ++ [x28; x00; x00; x00]
        ++ [x04; x00; x00; x00] ++ [x4a; x53; x4f; x4e] ++ [x7b; x7d; x20; x20]
        ++ [x08; x00; x00; x00] ++ [x42; x49; x4e; x00]
        ++ [x01; x02; x03; x04; x05; x00; x00; x00]) /\
  leValue (u32le 40) = 40.
Proof.
  destruct (buildGlb_layout [x7b; x7d] [x01; x02; x03; x04; x05])
    as (_ & _ & _ & (glb & Hglb & -> & Hlen & Hfield) & _).
  split; [exact Hglb|].
  destruct Hfield as (H & _); [vm_compute; reflexivity|]. exact H.
Defined.

(** * Further properties

    Properties of the code beyond the claims of the specification. *)

(** ** Packing *)

Lemma lengthZ_app {A : Type} (l1 l2 : list A) : lengthZ (l1 ++ l2) = lengthZ l1 + lengthZ l2.
Proof. unfold lengthZ. rewrite length_app. lia. Qed.

Lemma lengthZ_nonneg {A : Type} (l : list A) : 0 <= lengthZ l.
Proof. unfold lengthZ. lia. Qed.

Lemma foldl_total (chunks : list (list byte)) (a : Z) :
  foldl (fun total c => total + lengthZ c) a chunks = a + lengthZ (concat chunks).
Proof.
  revert a. induction chunks as [|c cs IH]; intros a; simpl.
  - unfold lengthZ. simpl. lia.
  - rewrite IH, lengthZ_app. lia.
Qed.

Lemma concatU8_loop (chunks : list (list byte)) (written : list byte) (rest : nat) :
  (length (concat chunks) <= rest)%nat ->
  foldl (fun acc c =>
           '(out, off) ← acc;
           out ← setBytes out c off;
           Ok (out, off + lengthZ c))
        (Ok (written ++ replicate rest x00, lengthZ written)) chunks
  = Ok ((written ++ concat chunks) ++ replicate (rest - length (concat chunks)) x00,
        lengthZ written + lengthZ (concat chunks)).
Proof.
  revert written rest. induction chunks as [|c cs IH]; intros written rest Hle.
  - simpl. rewrite app_nil_r, Nat.sub_0_r. unfold lengthZ at 3. simpl.
    rewrite Z.add_0_r. reflexivity.
  - simpl in *. rewrite length_app in Hle.
    rewrite (setBytes_next written c rest (lengthZ written)); [|reflexivity|lia].
    simpl. rewrite <- lengthZ_app. rewrite IH by lia.
    rewrite !lengthZ_app, length_app, <- !app_assoc.
    replace (rest - length c - length (concat cs))%nat
      with (rest - (length c + length (concat cs)))%nat by lia.
    do 2 f_equal. lia.
Qed.

Lemma concatU8_Ok (chunks : list (list byte)) :
  concatU8 chunks = Ok (concat chunks).
Proof.
  pose proof (concatU8_loop chunks [] (Z.to_nat (lengthZ (concat chunks)))
                ltac:(unfold lengthZ; lia)) as H.
  unfold concatU8. cbv zeta. rewrite foldl_total, Z.add_0_l.
  etransitivity; [exact (f_equal (fmap fst) H)|].
  simpl. unfold lengthZ. rewrite Nat2Z.id, Nat.sub_diag. simpl.
  rewrite app_nil_r. reflexivity.
Qed.

Lemma pad_spec (off : Z) :
  0 <= off ->
  let pad := Z.rem (4 - Z.rem off 4) 4 in
  0 <= pad < 4 /\ (off + pad) mod 4 = 0 /\ (off mod 4 = 0 -> pad = 0).
Proof.
  intros Hoff pad. subst pad.
  rewrite (Z.rem_mod_nonneg off 4) by lia.
  pose proof (Z.mod_pos_bound off 4 ltac:(lia)) as Hb.
  rewrite Z.rem_mod_nonneg by lia.
  pose proof (Z.div_mod off 4 ltac:(lia)) as Hd.
  destruct (Z.eq_dec (off mod 4) 0) as [E|E].
  - rewrite E. change ((4 - 0) mod 4) with 0. rewrite Z.add_0_r. auto with zarith.
  - rewrite (Z.mod_small (4 - off mod 4) 4) by lia.
    split; [lia|]. split; [|lia].
    replace (off + (4 - off mod 4)) with ((off / 4 + 1) * 4) by lia.
    apply Z.mod_mul. lia.
Qed.

Lemma concat_snoc {A : Type} (ls : list (list A)) (l : list A) :
  concat (ls ++ [l]) = concat ls ++ l.
Proof. rewrite concat_app. simpl. rewrite app_nil_r. reflexivity. Qed.

Lemma sliceOf_app_l (bin more : list byte) (off len : Z) :
  0 <= off -> 0 <= len -> off + len <= lengthZ bin ->
  sliceOf (bin ++ more) off len = sliceOf bin off len.
Proof.
  intros H1 H2 H3. unfold sliceOf, lengthZ in *.
  rewrite drop_app_le by lia. rewrite take_app_le; [reflexivity|].
  rewrite length_drop. lia.
Qed.

Lemma sliceOf_app_r (bin u8 : list byte) :
  sliceOf (bin ++ u8) (lengthZ bin) (lengthZ u8) = u8.
Proof.
  unfold sliceOf, lengthZ. rewrite !Nat2Z.id.
  rewrite drop_app_length. apply firstn_all.
Qed.

(** X2.  [pushChunk] on a packer whose views lie inside the bytes
    pushed so far (as they do from the empty packer on).  The new bytes
    are the old ones, fewer than 4 zero bytes of padding, and the array.
    The view recorded under the name starts at a multiple of 4, has the
    length of the array and selects the array; every view recorded under
    another name is kept and selects the same bytes as before. *)
Theorem pushChunk_layout (name : string) (u8 : list byte) (st : Packer) :
  PackerOk st ->
  let st' := pushChunk name u8 st in
  let bin := concat (pk_chunks st) in
  let bin' := concat (pk_chunks st') in
  PackerOk st' /\
  (exists pad view,
     0 <= pad < 4 /\
     bin' = bin ++ replicate (Z.to_nat pad) x00 ++ u8 /\
     pk_views st' !! name = Some view /\
     view_byteOffset view = lengthZ bin + pad /\
     view_byteOffset view mod 4 = 0 /\
     view_byteLength view = lengthZ u8 /\
     sliceOf bin' (view_byteOffset view) (view_byteLength view) = u8) /\
  (forall other v,
     other <> name -> pk_views st !! other = Some v ->
     pk_views st' !! other = Some v /\
     sliceOf bin' (view_byteOffset v) (view_byteLength v)
     = sliceOf bin (view_byteOffset v) (view_byteLength v)).
Proof.
  intros [Hoff Hviews] st' bin bin'.
  assert (H0 : 0 <= pk_byteOffset st) by (rewrite Hoff; apply lengthZ_nonneg).
  destruct (pad_spec (pk_byteOffset st) H0) as (Hpad & Hal & _).
  set (pad := Z.rem (4 - Z.rem (pk_byteOffset st) 4) 4) in *.
  assert (Hbin : bin' = bin ++ replicate (Z.to_nat pad) x00 ++ u8).
  { subst bin' st'. unfold pushChunk. cbv zeta. fold pad.
    destruct (Z.eqb_spec pad 0) as [E|E]; simpl.
    - rewrite concat_snoc, E. reflexivity.
    - rewrite !concat_snoc, <- app_assoc. reflexivity. }
  assert (Hst' : pk_byteOffset st' = pk_byteOffset st + pad + lengthZ u8 /\
                 pk_views st' = <[name := {| view_byteOffset := pk_byteOffset st + pad;
                                             view_byteLength := lengthZ u8 |}]> (pk_views st)).
  { subst st'. unfold pushChunk. cbv zeta. fold pad.
    destruct (Z.eqb_spec pad 0) as [E|E]; simpl; [rewrite E, Z.add_0_r|]; auto. }
  destruct Hst' as [Hoff' Hviews'].
  assert (Hlen' : lengthZ bin' = pk_byteOffset st + pad + lengthZ u8).
  { rewrite Hbin, !lengthZ_app. fold bin in Hoff. rewrite Hoff.
    unfold lengthZ. rewrite length_replicate. lia. }
  split_and!.
  - split; [rewrite Hoff', <- Hlen'; reflexivity|].
    intros n v. rewrite Hviews'. destruct (decide (n = name)) as [->|Hn].
    + rewrite lookup_insert_eq. intros [= <-]. simpl.
      pose proof (lengthZ_nonneg u8). lia.
    + rewrite lookup_insert_ne by congruence. intros Hv.
      destruct (Hviews n v Hv) as (? & ? & ?). pose proof (lengthZ_nonneg u8). lia.
  - exists pad. eexists. split; [exact Hpad|]. split; [exact Hbin|].
    rewrite Hviews', lookup_insert_eq. split; [reflexivity|]. simpl.
    fold bin in Hoff. rewrite <- Hoff.
    split; [reflexivity|]. split; [exact Hal|]. split; [reflexivity|].
    rewrite Hbin, app_assoc.
    replace (pk_byteOffset st + pad) with (lengthZ (bin ++ replicate (Z.to_nat pad) x00)).
    + apply sliceOf_app_r.
    + rewrite lengthZ_app, <- Hoff. unfold lengthZ. rewrite length_replicate. lia.
  - intros other v Hne Hv. rewrite Hviews', lookup_insert_ne by congruence.
    split; [exact Hv|]. rewrite Hbin.
    destruct (Hviews other v Hv) as (? & ? & ?).
    apply sliceOf_app_l; try assumption. fold bin in Hoff. lia.
Qed.

Lemma PackerOk_new : PackerOk newPacker.
Proof. split; [reflexivity|]. intros name v. simpl. rewrite lookup_empty. discriminate. Qed.

(** X2 on two pushes: the second array is padded to offset 4. *)
Lemma pushChunk_layout_witness :
  exists view,
    pk_views (pushChunk "b" [x01] (pushChunk "a" [x07; x08] newPacker)) !! "b"%string = Some view /\
    view_byteOffset view = 4 /\
    concat (pk_chunks (pushChunk "b" [x01] (pushChunk "a" [x07; x08] newPacker)))
    = [x07; x08; x00; x00; x01].
Proof.
  assert (Hok : PackerOk (pushChunk "a" [x07; x08] newPacker))
    by apply (pushChunk_layout "a" [x07; x08] newPacker PackerOk_new).
  destruct (pushChunk_layout "b" [x01] _ Hok) as (_ & (pad & view & _ & Hbin & Hv & Ho & _) & _).
  exists view. split; [exact Hv|]. vm_compute in Hv. injection Hv as <-.
  split; reflexivity.
Defined.

Lemma lengthZ_uint32Bytes (a : list Z) : lengthZ (uint32Bytes a) = 4 * lengthZ a.
Proof.
  unfold uint32Bytes, lengthZ. induction a as [|x a IH]; [reflexivity|].
  change (flat_map u32le (x :: a)) with (u32le x ++ flat_map u32le a).
  rewrite length_app, length_u32le. simpl length. lia.
Qed.

Lemma float32Bytes_cons (choice : nat -> Z) (x : float) (a : list float) :
  float32Bytes choice (x :: a)
  = u32le (float32Bits (choice 0%nat) x) ++ float32Bytes (choice ∘ S) a.
Proof. reflexivity. Qed.

Lemma lengthZ_float32Bytes (choice : nat -> Z) (a : list float) :
  lengthZ (float32Bytes choice a) = 4 * lengthZ a.
Proof.
  unfold lengthZ. revert choice. induction a as [|x a IH]; intros choice; [reflexivity|].
  rewrite float32Bytes_cons, length_app, length_u32le. specialize (IH (choice ∘ S)).
  simpl length. lia.
Qed.

Lemma pushChunk_aligned (name : string) (u8 : list byte) (st : Packer) :
  0 <= pk_byteOffset st -> pk_byteOffset st mod 4 = 0 ->
  pushChunk name u8 st
  = {| pk_chunks := pk_chunks st ++ [u8];
       pk_views := <[name := {| view_byteOffset := pk_byteOffset st;
                                view_byteLength := lengthZ u8 |}]> (pk_views st);
       pk_byteOffset := pk_byteOffset st + lengthZ u8 |}.
Proof.
  intros H0 Hal. destruct (pad_spec _ H0) as (_ & _ & Hpad).
  unfold pushChunk. cbv zeta. rewrite (Hpad Hal). reflexivity.
Qed.

Lemma packChunks_eq (engine : NanChoice) (g : GltfGeometry) :
  let nI := 4 * lengthZ (g_indices g) in
  let nP := 4 * lengthZ (g_positions g) in
  let nN := 4 * lengthZ (default [] (g_normals g)) in
  let view off len := {| view_byteOffset := off; view_byteLength := len |} in
  let v0 : gmap string ChunkView :=
    <["positions"%string := view nI nP]> (<["indices"%string := view 0 nI]> ∅) in
  let v1 := match g_normals g with
            | Some n => <["normals"%string := view (nI + nP) (4 * lengthZ n)]> v0
            | None => v0
            end in
  let v2 := match g_uvs g with
            | Some u => <["uvs"%string := view (nI + nP + nN) (4 * lengthZ u)]> v1
            | None => v1
            end in
  pk_chunks (packChunks engine g)
  = [uint32Bytes (g_indices g); float32Bytes (engine "positions") (g_positions g)]
    ++ optionList (float32Bytes (engine "normals") <$> g_normals g)
    ++ optionList (float32Bytes (engine "uvs") <$> g_uvs g) /\
  pk_views (packChunks engine g) = v2.
Proof.
  intros nI nP nN view v0 v1 v2. unfold packChunks. cbv zeta.
  pose proof (lengthZ_nonneg (g_indices g)) as HI.
  pose proof (lengthZ_nonneg (g_positions g)) as HP.
  rewrite (pushChunk_aligned "indices") by (simpl; lia || reflexivity).
  rewrite (pushChunk_aligned "positions");
    [|simpl; rewrite lengthZ_uint32Bytes; lia
     |simpl; rewrite lengthZ_uint32Bytes, Z.mul_comm; apply Z.mod_mul; lia].
  cbn [pk_chunks pk_views pk_byteOffset newPacker].
  rewrite lengthZ_uint32Bytes, lengthZ_float32Bytes. fold nI nP. rewrite Z.add_0_l.
  assert (Hmod : forall a b, (4 * a + 4 * b) mod 4 = 0).
  { intros a b. replace (4 * a + 4 * b) with ((a + b) * 4) by lia. apply Z.mod_mul. lia. }
  destruct (g_normals g) as [n|]; destruct (g_uvs g) as [u|]; subst v2 v1 v0 nN; simpl.
  - pose proof (lengthZ_nonneg n).
    rewrite (pushChunk_aligned "normals"); [|simpl; lia|simpl; apply Hmod].
    rewrite (pushChunk_aligned "uvs"); cbn [pk_chunks pk_views pk_byteOffset];
      rewrite ?lengthZ_float32Bytes.
    + split; reflexivity.
    + lia.
    + subst nI nP. replace (4 * lengthZ (g_indices g) + 4 * lengthZ (g_positions g) + 4 * lengthZ n)
        with ((lengthZ (g_indices g) + lengthZ (g_positions g) + lengthZ n) * 4) by lia.
      apply Z.mod_mul. lia.
  - rewrite (pushChunk_aligned "normals"); [|simpl; lia|simpl; apply Hmod].
    cbn [pk_chunks pk_views pk_byteOffset]. rewrite lengthZ_float32Bytes. split; reflexivity.
  - rewrite (pushChunk_aligned "uvs"); [|simpl; lia|simpl; apply Hmod].
    cbn [pk_chunks pk_views pk_byteOffset]. rewrite lengthZ_float32Bytes.
    change (lengthZ []) with 0. rewrite Z.mul_0_r, Z.add_0_r. split; reflexivity.
  - split; reflexivity.
Qed.

Lemma concat_optionList (a b : list byte) (c d : option (list byte)) :
  concat ([a; b] ++ optionList c ++ optionList d)
  = a ++ b ++ default [] c ++ default [] d.
Proof. destruct c, d; simpl; rewrite ?app_nil_r; reflexivity. Qed.

Lemma packGltf_Returns (engine : NanChoice) (iso : string) (g : GltfGeometry) :
  let nI := 4 * lengthZ (g_indices g) in
  let nP := 4 * lengthZ (g_positions g) in
  let nN := 4 * lengthZ (default [] (g_normals g)) in
  let bin := uint32Bytes (g_indices g) ++ float32Bytes (engine "positions") (g_positions g)
             ++ default [] (float32Bytes (engine "normals") <$> g_normals g)
             ++ default [] (float32Bytes (engine "uvs") <$> g_uvs g) in
  let iN := 2 in
  let iU := match g_normals g with Some _ => 3 | None => 2 end in
  exists built,
    packGltf engine iso g = Returns built /\
    binU8 built = bin /\
    filenames_gltf built = ("mesh_" +:+ stampOf iso +:+ ".gltf")%string /\
    filenames_bin built = ("mesh_" +:+ stampOf iso +:+ ".bin")%string /\
    doc_buffers (gltfJsonObj built)
    = [ {| gb_uri := Some (filenames_bin built); gb_byteLength := lengthZ bin |} ] /\
    doc_bufferViews (gltfJsonObj built)
    = [bufferViewAt 0 nI 34963; bufferViewAt nI nP 34962]
      ++ optionList ((fun n => bufferViewAt (nI + nP) (4 * lengthZ n) 34962) <$> g_normals g)
      ++ optionList ((fun u => bufferViewAt (nI + nP + nN) (4 * lengthZ u) 34962) <$> g_uvs g) /\
    doc_accessors (gltfJsonObj built)
    = [accessorOf 0 5125 (lengthZ (g_indices g)) "SCALAR"
                  (Some [0%float]) (Some [numberOfZ (maxOfU32 (g_indices g))]);
       accessorOf 1 5126 (g_vertexCount g) "VEC3"
                  (Some (vec3List (g_posMin g))) (Some (vec3List (g_posMax g)))]
      ++ optionList ((fun n => accessorOf iN 5126 (lengthZ n / 3) "VEC3"
                                 (Some [-1; -1; -1]%float) (Some [1; 1; 1]%float))
                     <$> g_normals g)
      ++ optionList ((fun u => accessorOf iU 5126 (lengthZ u / 2) "VEC2"
                                 (vec2List <$> g_uvMin g) (vec2List <$> g_uvMax g))
                     <$> g_uvs g) /\
    exists prim,
      doc_meshes (gltfJsonObj built) = [[prim]] /\
      prim_indices prim = 0 /\ prim_mode prim = 4 /\
      prim_attributes prim !! "POSITION"%string = Some 1 /\
      prim_attributes prim !! "NORMAL"%string = (const iN <$> g_normals g) /\
      prim_attributes prim !! "TEXCOORD_0"%string = (const iU <$> g_uvs g).
Proof.
  intros nI nP nN bin iN iU.
  destruct (packChunks_eq engine g) as [Hchunks Hviews]. fold nI nP nN in Hviews.
  unfold packGltf. cbv zeta. rewrite Hchunks, Hviews.
  rewrite concatU8_Ok, concat_optionList. fold bin.
  cbn [ofResult mbind Outcome_bind].
  unfold addBufferView, addAccessor.
  destruct (g_normals g) as [n|], (g_uvs g) as [u|]; cbn [fmap option_fmap option_map];
    repeat (rewrite ?lookup_insert_eq; rewrite ?lookup_insert_ne by discriminate);
    cbn -[lengthZ Z.mul Z.add Z.div numberOfZ maxOfU32 stampOf lookup insert singletonM];
    (eexists; split; [reflexivity|]);
    cbn -[lengthZ Z.mul Z.add Z.div numberOfZ maxOfU32 stampOf lookup insert singletonM];
    (split_and!; try reflexivity).
  all: try (destruct (g_posMin g) as [[? ?] ?], (g_posMax g) as [[? ?] ?]; reflexivity).
  all: try (eexists; split_and!; try reflexivity).
  all: repeat (rewrite ?lookup_insert_eq; rewrite ?lookup_insert_ne by discriminate);
       rewrite ?lookup_singleton_eq, ?lookup_singleton_ne by discriminate; try reflexivity.
Qed.

Lemma sliceOf_mid (a b c : list byte) (off len : Z) :
  off = lengthZ a -> len = lengthZ b -> sliceOf (a ++ b ++ c) off len = b.
Proof.
  intros -> ->. rewrite app_assoc. rewrite sliceOf_app_l.
  - apply sliceOf_app_r.
  - apply lengthZ_nonneg.
  - apply lengthZ_nonneg.
  - rewrite lengthZ_app. lia.
Qed.

Lemma sliceOf_start (b c : list byte) (len : Z) :
  len = lengthZ b -> sliceOf (b ++ c) 0 len = b.
Proof. intros ->. apply (sliceOf_mid [] b c); reflexivity. Qed.

(** X1.  [concatU8] never fails.  It returns the chunks laid end to
    end: the result is as long as the chunks together, and each chunk
    is read back from it at the offset that is the total length of the
    chunks before it. *)
Theorem concatU8_concat (chunks : list (list byte)) :
  concatU8 chunks = Ok (concat chunks) /\
  lengthZ (concat chunks) = foldr (fun c n => lengthZ c + n) 0 chunks /\
  forall before c after,
    chunks = before ++ c :: after ->
    sliceOf (concat chunks) (lengthZ (concat before)) (lengthZ c) = c.
Proof.
  split; [apply concatU8_Ok|]. split.
  - induction chunks as [|c cs IH]; simpl; [reflexivity|].
    rewrite lengthZ_app, IH. reflexivity.
  - intros before c after ->. rewrite concat_app. simpl.
    apply sliceOf_mid; reflexivity.
Qed.

(** The array lengths of a geometry that [buildGltf] returns. *)
Lemma buildGltf_lengths dv selected options g :
  buildGltf dv selected options = Ok g ->
  0 <= g_vertexCount g /\
  lengthZ (g_positions g) = 3 * g_vertexCount g /\
  (forall normals, g_normals g = Some normals ->
     exists n, 0 <= n <= g_vertexCount g /\ lengthZ normals = 3 * n) /\
  (forall uvs, g_uvs g = Some uvs ->
     exists n, 0 <= n <= g_vertexCount g /\ lengthZ uvs = 2 * n).
Proof.
  intros (posA & posBuf & idxBuf & Hc & Hidx & Hok & ->)%buildGltf_Ok_inv.
  destruct Hok as (_ & [Hn _] & Hnrm & Huv).
  unfold gltfValue, objValue. cbn [g_vertexCount g_positions g_normals g_uvs o_vertices o_normals o_uvs].
  split; [exact Hn|]. split.
  { unfold lengthZ. rewrite length_storeVec3, length_fmap, length_upTo. lia. }
  split.
  - intros normals. unfold normalsValue, channelOk in *.
    destruct (findNormalAttrib _) as [a|]; [|discriminate]. simpl.
    destruct (sel_buffersById selected !! attr_bufferId a) as [buf|]; [|discriminate].
    simpl. intros [= <-]. exists (optionalCount (positionCount posA posBuf) a buf).
    destruct Hnrm as [H0 _]. split.
    + split; [exact H0|]. rewrite optionalCount_min. lia.
    + unfold lengthZ. rewrite length_storeVec3, length_fmap, length_upTo. lia.
  - intros uvs. unfold uvsValue, channelOk in *.
    destruct (findUvAttrib _) as [a|]; [|discriminate]. simpl.
    destruct (sel_buffersById selected !! attr_bufferId a) as [buf|]; [|discriminate].
    simpl. intros [= <-]. exists (optionalCount (positionCount posA posBuf) a buf).
    destruct Huv as [H0 _]. split.
    + split; [exact H0|]. rewrite optionalCount_min. lia.
    + unfold lengthZ. rewrite length_storeVec2, length_fmap, length_upTo. lia.
Qed.

Lemma buildGltfFile_Returns engine iso dv selected options built :
  buildGltfFile engine iso dv selected options = Returns built ->
  exists g, buildGltf dv selected options = Ok g /\ packGltf engine iso g = Returns built.
Proof.
  unfold buildGltfFile. destruct (buildGltf dv selected options) as [g|e]; simpl.
  - eauto.
  - discriminate.
Qed.

(** The bytes of the binary buffer. *)
Lemma buildGltfFile_bin_bytes engine iso dv selected options :
  match buildGltf dv selected options with
  | Err e => buildGltfFile engine iso dv selected options = Throws (Raised e)
  | Ok g =>
      exists built,
        buildGltfFile engine iso dv selected options = Returns built /\
        binU8 built = uint32Bytes (g_indices g) ++ float32Bytes (engine "positions") (g_positions g)
                      ++ default [] (float32Bytes (engine "normals") <$> g_normals g)
                      ++ default [] (float32Bytes (engine "uvs") <$> g_uvs g) /\
        lengthZ (binU8 built)
        = 4 * (lengthZ (g_indices g) + lengthZ (g_positions g)
               + lengthZ (default [] (g_normals g)) + lengthZ (default [] (g_uvs g))) /\
        doc_buffers (gltfJsonObj built)
        = [ {| gb_uri := Some (filenames_bin built);
               gb_byteLength := lengthZ (binU8 built) |} ]
  end.
Proof.
  unfold buildGltfFile. destruct (buildGltf dv selected options) as [g|e]; simpl; [|reflexivity].
  destruct (packGltf_Returns engine iso g) as (built & Hb & Hbin & _ & _ & Hbuf & _).
  exists built. split; [exact Hb|]. split; [exact Hbin|]. split.
  - rewrite Hbin, !lengthZ_app, lengthZ_uint32Bytes, lengthZ_float32Bytes.
    destruct (g_normals g), (g_uvs g); simpl; rewrite ?lengthZ_float32Bytes;
      change (lengthZ []) with 0; lia.
  - rewrite Hbuf, Hbin. reflexivity.
Qed.

(** The accessors of the scene, with their views and bytes. *)
Lemma buildGltfFile_accessor_data engine iso dv selected options built :
  buildGltfFile engine iso dv selected options = Returns built ->
  exists g prim,
    buildGltf dv selected options = Ok g /\
    doc_meshes (gltfJsonObj built) = [[prim]] /\
    prim_mode prim = 4 /\
    (exists acc bv,
       accessorData built (prim_indices prim) = Some (acc, bv, uint32Bytes (g_indices g)) /\
       acc_componentType acc = 5125 /\ acc_type acc = "SCALAR"%string /\
       acc_count acc = lengthZ (g_indices g) /\
       bv_target bv = Some 34963 /\ 0 <= bv_byteOffset bv /\ bv_byteOffset bv mod 4 = 0 /\
       bv_byteLength bv = 4 * acc_count acc) /\
    (exists i acc bv,
       prim_attributes prim !! "POSITION"%string = Some i /\
       accessorData built i = Some (acc, bv, float32Bytes (engine "positions") (g_positions g)) /\
       acc_componentType acc = 5126 /\ acc_type acc = "VEC3"%string /\
       acc_count acc = g_vertexCount g /\
       bv_target bv = Some 34962 /\ 0 <= bv_byteOffset bv /\ bv_byteOffset bv mod 4 = 0 /\
       bv_byteLength bv = 12 * acc_count acc) /\
    match g_normals g with
    | Some normals =>
        exists i acc bv,
          prim_attributes prim !! "NORMAL"%string = Some i /\
          accessorData built i = Some (acc, bv, float32Bytes (engine "normals") normals) /\
          acc_componentType acc = 5126 /\ acc_type acc = "VEC3"%string /\
          3 * acc_count acc = lengthZ normals /\
          bv_target bv = Some 34962 /\ 0 <= bv_byteOffset bv /\ bv_byteOffset bv mod 4 = 0 /\
          bv_byteLength bv = 12 * acc_count acc
    | None => prim_attributes prim !! "NORMAL"%string = None
    end /\
    match g_uvs g with
    | Some uvs =>
        exists i acc bv,
          prim_attributes prim !! "TEXCOORD_0"%string = Some i /\
          accessorData built i = Some (acc, bv, float32Bytes (engine "uvs") uvs) /\
          acc_componentType acc = 5126 /\ acc_type acc = "VEC2"%string /\
          2 * acc_count acc = lengthZ uvs /\
          bv_target bv = Some 34962 /\ 0 <= bv_byteOffset bv /\ bv_byteOffset bv mod 4 = 0 /\
          bv_byteLength bv = 8 * acc_count acc
    | None => prim_attributes prim !! "TEXCOORD_0"%string = None
    end.
Proof.
  intros (g & Hg & Hpack)%buildGltfFile_Returns.
  destruct (buildGltf_lengths _ _ _ _ Hg) as (Hvc & Hpos & Hnrm & Huv).
  destruct (packGltf_Returns engine iso g)
    as (built' & Hb & Hbin & _ & _ & _ & Hbvs & Haccs & prim & Hm & Hpi & Hpm & HaP & HaN & HaU).
  rewrite Hpack in Hb. injection Hb as <-.
  exists g, prim. split; [exact Hg|]. split; [exact Hm|]. split; [exact Hpm|].
  assert (Hmod : forall a, (4 * a) mod 4 = 0)
    by (intros a; rewrite Z.mul_comm; apply Z.mod_mul; lia).
  assert (Hmod2 : forall a b, (4 * a + 4 * b) mod 4 = 0).
  { intros a b. replace (4 * a + 4 * b) with ((a + b) * 4) by lia. apply Z.mod_mul. lia. }
  assert (Hmod3 : forall a b c, (4 * a + 4 * b + 4 * c) mod 4 = 0).
  { intros a b c. replace (4 * a + 4 * b + 4 * c) with ((a + b + c) * 4) by lia.
    apply Z.mod_mul. lia. }
  unfold accessorData. rewrite Hbvs, Haccs, Hbin, Hpi.
  split_and!.
  - do 2 eexists. split; [simpl; rewrite sliceOf_start; [reflexivity|]|].
    + rewrite lengthZ_uint32Bytes. reflexivity.
    + simpl. split_and!; try reflexivity; lia.
  - do 3 eexists. split; [exact HaP|].
    split; [simpl; rewrite sliceOf_mid; [reflexivity| |]|].
    + rewrite lengthZ_uint32Bytes. reflexivity.
    + rewrite lengthZ_float32Bytes. reflexivity.
    + simpl. split_and!; try reflexivity; try apply Hmod; unfold lengthZ in *; lia.
  - destruct (g_normals g) as [n|] eqn:En; [|exact HaN].
    destruct (Hnrm n eq_refl) as (k & Hk & Hlen).
    do 3 eexists. split; [exact HaN|].
    split; [simpl; rewrite app_assoc, sliceOf_mid; [reflexivity| |]|].
    + rewrite lengthZ_app, lengthZ_uint32Bytes, lengthZ_float32Bytes. reflexivity.
    + rewrite lengthZ_float32Bytes. reflexivity.
    + simpl. rewrite Hlen. replace (3 * k / 3) with k by (rewrite Z.mul_comm, Z.div_mul; lia).
      split_and!; try reflexivity; try apply Hmod2; unfold lengthZ in *; lia.
  - destruct (g_uvs g) as [u|] eqn:Eu; [|exact HaU].
    destruct (Huv u eq_refl) as (k & Hk & Hlen).
    destruct (g_normals g) as [n|] eqn:En.
    + do 3 eexists. split; [exact HaU|].
      split; [simpl; rewrite !app_assoc, <- (app_nil_r (float32Bytes (engine "uvs") u)) at 1;
              rewrite sliceOf_mid; [reflexivity| |]|].
      * rewrite !lengthZ_app, lengthZ_uint32Bytes, !lengthZ_float32Bytes. reflexivity.
      * rewrite lengthZ_float32Bytes. reflexivity.
      * simpl. rewrite Hlen. replace (2 * k / 2) with k by (rewrite Z.mul_comm, Z.div_mul; lia).
        split_and!; try reflexivity; try apply Hmod3; unfold lengthZ in *; lia.
    + do 3 eexists. split; [exact HaU|].
      split; [simpl; rewrite !app_assoc, <- (app_nil_r (float32Bytes (engine "uvs") u)) at 1;
              rewrite sliceOf_mid; [reflexivity| |]|].
      * rewrite !lengthZ_app, lengthZ_uint32Bytes, !lengthZ_float32Bytes.
        change (lengthZ []) with 0. lia.
      * rewrite lengthZ_float32Bytes. reflexivity.
      * simpl. rewrite Hlen. replace (2 * k / 2) with k by (rewrite Z.mul_comm, Z.div_mul; lia).
        change (lengthZ []) with 0.
        split_and!; try reflexivity; try (unfold lengthZ in *; lia).
        replace (4 * lengthZ (g_indices g) + 4 * lengthZ (g_positions g) + 4 * 0)
          with ((lengthZ (g_indices g) + lengthZ (g_positions g)) * 4) by lia.
        apply Z.mod_mul. lia.
Qed.

(** ** The index accessor *)

Lemma maxOfU32_foldl (l : list Z) (m : Z) :
  let r := foldl (fun m x => if m <? x then x else m) m l in
  m <= r /\ (forall x, x ∈ l -> x <= r) /\ (r = m \/ r ∈ l).
Proof.
  revert m. induction l as [|y l IH]; intros m; simpl.
  - split; [lia|]. split; [|auto]. intros x Hx. inversion Hx.
  - destruct (IH (if m <? y then y else m)) as (H1 & H2 & H3).
    destruct (Z.ltb_spec m y) as [Hlt|Hge].
    + split; [lia|]. split.
      * intros x [->|Hx]%elem_of_cons; [exact H1|apply H2, Hx].
      * right. destruct H3 as [->|H3]; [left|right; exact H3].
    + split; [exact H1|]. split.
      * intros x [->|Hx]%elem_of_cons; [lia|apply H2, Hx].
      * destruct H3 as [H3|H3]; [left; exact H3|right; right; exact H3].
Qed.

Lemma ToUint32_range (x : float) : 0 <= ToUint32 x < 2 ^ 32.
Proof.
  unfold ToUint32. destruct (Prim2SF x); try (split; [lia|reflexivity]).
  apply Z.mod_pos_bound. reflexivity.
Qed.

Lemma buildGltf_indices_range dv selected options g :
  buildGltf dv selected options = Ok g ->
  forall i, i ∈ g_indices g -> 0 <= i < 2 ^ 32.
Proof.
  intros (posA & posBuf & idxBuf & _ & _ & _ & ->)%buildGltf_Ok_inv i.
  unfold gltfValue. cbn [g_indices].
  intros (x & -> & _)%list_elem_of_fmap. apply ToUint32_range.
Qed.

(** X5.  The index accessor declares the minimum 0 and as maximum
    the greatest index of the array (0 when the array is empty): every
    index lies between the two, and the maximum is attained. *)
Theorem buildGltfFile_index_bounds engine iso dv selected options built :
  buildGltfFile engine iso dv selected options = Returns built ->
  exists g acc m,
    buildGltf dv selected options = Ok g /\
    doc_accessors (gltfJsonObj built) !! 0%nat = Some acc /\
    acc_min acc = Some [numberOfZ 0] /\
    acc_max acc = Some [numberOfZ m] /\
    m = maxOfU32 (g_indices g) /\
    (forall i, i ∈ g_indices g -> 0 <= i <= m) /\
    (g_indices g = [] -> m = 0) /\
    (g_indices g <> [] -> m ∈ g_indices g).
Proof.
  intros (g & Hg & Hpack)%buildGltfFile_Returns.
  destruct (packGltf_Returns engine iso g) as (built' & Hb & _ & _ & _ & _ & _ & Haccs & _).
  rewrite Hpack in Hb. injection Hb as <-.
  pose proof (buildGltf_indices_range _ _ _ _ Hg) as Hrange.
  destruct (maxOfU32_foldl (g_indices g) 0) as (H1 & H2 & H3).
  fold (maxOfU32 (g_indices g)) in H1, H2, H3.
  exists g, (accessorOf 0 5125 (lengthZ (g_indices g)) "SCALAR"
                        (Some [0%float]) (Some [numberOfZ (maxOfU32 (g_indices g))])),
         (maxOfU32 (g_indices g)).
  split; [exact Hg|]. rewrite Haccs. split; [reflexivity|].
  split; [reflexivity|]. split; [reflexivity|]. split; [reflexivity|].
  split_and!.
  - intros i Hi. split; [apply Hrange, Hi|apply H2, Hi].
  - intros E. rewrite E. reflexivity.
  - intros Hne. destruct H3 as [H3|H3]; [|exact H3].
    destruct (g_indices g) as [|i l] eqn:E; [congruence|].
    assert (Hi : i = 0).
    { specialize (H2 i ltac:(left)). specialize (Hrange i ltac:(left)). lia. }
    rewrite H3, <- Hi. left.
Qed.

(** X5 on the sample capture: the greatest index is 1. *)
Lemma buildGltfFile_index_bounds_witness :
  exists built acc,
    buildGltfFile quietNaN "2024-01-02T03:04:05.678Z" Sample.bin Sample.selected Sample.identity
    = Returns built /\
    doc_accessors (gltfJsonObj built) !! 0%nat = Some acc /\
    acc_max acc = Some [numberOfZ 1] /\
    (forall i, i ∈ g_indices Sample.gltfIdentity -> 0 <= i <= 1).
Proof.
  assert (H : exists built,
             buildGltfFile quietNaN "2024-01-02T03:04:05.678Z" Sample.bin Sample.selected Sample.identity
             = Returns built) by (vm_compute; eexists; reflexivity).
  destruct H as [built H].
  destruct (buildGltfFile_index_bounds _ _ _ _ _ _ H)
    as (g & acc & m & Hg & Ha & _ & Hmax & Hm & Hall & _).
  assert (Hg' : buildGltf Sample.bin Sample.selected Sample.identity = Ok Sample.gltfIdentity)
    by (vm_compute; reflexivity).
  rewrite Hg' in Hg. injection Hg as <-.
  assert (Hm1 : m = 1) by (rewrite Hm; reflexivity). rewrite Hm1 in *.
  exists built, acc. split_and!; assumption.
Defined.

(** ** Reading the index array back *)

Lemma take_drop_flat_map_u32le (l : list Z) (rest : list byte) (k : nat) (i : Z) :
  l !! k = Some i ->
  take 4 (drop (4 * k) (flat_map u32le l ++ rest)) = u32le i.
Proof.
  revert k. induction l as [|x l IH]; intros k Hk; [discriminate|].
  change (flat_map u32le (x :: l)) with (u32le x ++ flat_map u32le l).
  destruct k as [|k].
  - injection Hk as ->. reflexivity.
  - simpl in Hk. replace (4 * S k)%nat with (4 + 4 * k)%nat by lia.
    rewrite <- app_assoc. change (drop (4 + 4 * k) (u32le x ++ ?r)) with (drop (4 * k) r).
    apply IH, Hk.
Qed.

(** X6.  The indices survive the packing: reading the binary
    buffer of the built scene with [readScalar], at the offset of the
    index accessor's view plus four times [k] and with the accessor's
    component type, gives index [k] of the decoded array. *)
Theorem buildGltfFile_indices_read_back engine iso dv selected options built :
  buildGltfFile engine iso dv selected options = Returns built ->
  exists g acc bv,
    buildGltf dv selected options = Ok g /\
    accessorData built 0 = Some (acc, bv, uint32Bytes (g_indices g)) /\
    forall (k : nat) (i : Z),
      g_indices g !! k = Some i ->
      readScalar (binU8 built) (bv_byteOffset bv + 4 * Z.of_nat k) (acc_componentType acc)
      = Ok (numberOfZ i).
Proof.
  intros (g & Hg & Hpack)%buildGltfFile_Returns.
  destruct (packGltf_Returns engine iso g) as (built' & Hb & Hbin & _ & _ & _ & Hbvs & Haccs & _).
  rewrite Hpack in Hb. injection Hb as <-.
  exists g. do 2 eexists. split; [exact Hg|]. split.
  { unfold accessorData. rewrite Haccs, Hbvs, Hbin. simpl.
    rewrite sliceOf_start by (rewrite lengthZ_uint32Bytes; reflexivity). reflexivity. }
  intros k i Hk. cbn [bv_byteOffset acc_componentType bufferViewAt accessorOf].
  pose proof (buildGltf_indices_range _ _ _ _ Hg i (list_elem_of_lookup_2 _ _ _ Hk)) as Hi.
  assert (Hlt : (k < length (g_indices g))%nat) by (eapply lookup_lt_Some, Hk).
  rewrite readScalar_inBounds.
  - unfold decodeScalar. simpl. change (Z.to_nat (componentWidth 5125)) with 4%nat.
    replace (Z.to_nat (0 + 4 * Z.of_nat k)) with (4 * k)%nat by lia.
    rewrite Hbin. unfold uint32Bytes.
    rewrite (take_drop_flat_map_u32le _ _ _ _ Hk), leValue_u32le, Z.mod_small by lia.
    reflexivity.
  - unfold supported. lia.
  - change (componentWidth 5125) with 4. split; [lia|].
    rewrite Hbin, lengthZ_app, lengthZ_uint32Bytes.
    pose proof (lengthZ_nonneg (float32Bytes (engine "positions") (g_positions g) ++ default [] (float32Bytes (engine "normals") <$> g_normals g)
                                ++ default [] (float32Bytes (engine "uvs") <$> g_uvs g))).
    unfold lengthZ in *. lia.
Qed.

(** X6 on the sample capture: the second index is read back at offset 4. *)
Lemma buildGltfFile_indices_read_back_witness :
  exists built,
    buildGltfFile quietNaN "2024-01-02T03:04:05.678Z" Sample.bin Sample.selected Sample.identity
    = Returns built /\
    readScalar (binU8 built) 4 5125 = Ok (numberOfZ 1).
Proof.
  assert (H : exists built,
             buildGltfFile quietNaN "2024-01-02T03:04:05.678Z" Sample.bin Sample.selected Sample.identity
             = Returns built) by (vm_compute; eexists; reflexivity).
  destruct H as [built H]. exists built. split; [exact H|].
  destruct (buildGltfFile_indices_read_back _ _ _ _ _ _ H) as (g & acc & bv & Hg & Hd & Hread).
  assert (Hg' : buildGltf Sample.bin Sample.selected Sample.identity = Ok Sample.gltfIdentity)
    by (vm_compute; reflexivity).
  rewrite Hg' in Hg. injection Hg as <-.
  specialize (Hread 1%nat 1 eq_refl).
  assert (Hb : (acc, bv) = (accessorOf 0 5125 3 "SCALAR" (Some [0%float]) (Some [numberOfZ 1]),
                            bufferViewAt 0 12 34963)).
  { revert Hd. unfold accessorData.
    assert (E : gltfJsonObj built = gltfJsonObj built) by reflexivity.
    revert H. vm_compute. intros [= <-]. vm_compute. intros [= <- <-]. reflexivity. }
  injection Hb as -> ->. exact Hread.
Defined.

(** ** Order of numbers *)

Lemma SFcompare_key (x y : spec_float) :
  x <> S754_nan -> y <> S754_nan ->
  SFcompare x y = Some (keyCompare (sfKey x) (sfKey y)).
Proof.
  intros Hx Hy.
  destruct x as [sx|sx| |sx mx ex], y as [sy|sy| |sy my ey]; try congruence;
    try (destruct sx; reflexivity); try (destruct sy; reflexivity);
    try (destruct sx, sy; reflexivity).
  destruct sx, sy; try reflexivity; simpl.
  change (PosDef.Pos.compare_cont Eq mx my) with (Pos.compare mx my).
  rewrite Z.compare_opp, (Z.compare_antisym ex ey). destruct (ex ?= ey); reflexivity.
Qed.

Lemma is_nan_Prim2SF (x : float) : is_nan x = true <-> Prim2SF x = S754_nan.
Proof.
  unfold is_nan. rewrite FloatAxioms.eqb_spec. unfold SFeqb.
  destruct (Prim2SF x) as [s|s| |s m e] eqn:E; simpl.
  - split; [discriminate|discriminate].
  - destruct s; split; discriminate.
  - split; reflexivity.
  - change (PosDef.Pos.compare_cont Eq m m) with (Pos.compare m m).
    destruct s; rewrite Z.compare_refl, Pos.compare_refl; simpl; split; discriminate.
Qed.

Lemma notNaN_Prim2SF (x : float) : notNaN x <-> Prim2SF x <> S754_nan.
Proof.
  unfold notNaN. rewrite <- is_nan_Prim2SF. destruct (is_nan x); split; congruence.
Qed.

Ltac key_case :=
  split; intros ?Hc;
  first [ congruence | lia | (exfalso; lia) | (exfalso; congruence) | discriminate ].

Lemma keyCompare_le (k1 k2 : Z * Z * Z) :
  keyCompare k1 k2 <> Gt <->
  let '(a1, b1, c1) := k1 in
  let '(a2, b2, c2) := k2 in
  a1 < a2 \/ (a1 = a2 /\ (b1 < b2 \/ (b1 = b2 /\ c1 <= c2))).
Proof.
  destruct k1 as [[a1 b1] c1], k2 as [[a2 b2] c2]. unfold keyCompare.
  destruct (Z.compare_spec a1 a2); [|key_case|key_case].
  destruct (Z.compare_spec b1 b2); [|key_case|key_case].
  destruct (Z.compare_spec c1 c2); key_case.
Qed.

Lemma keyCompare_lt (k1 k2 : Z * Z * Z) :
  keyCompare k1 k2 = Lt <->
  let '(a1, b1, c1) := k1 in
  let '(a2, b2, c2) := k2 in
  a1 < a2 \/ (a1 = a2 /\ (b1 < b2 \/ (b1 = b2 /\ c1 < c2))).
Proof.
  destruct k1 as [[a1 b1] c1], k2 as [[a2 b2] c2]. unfold keyCompare.
  destruct (Z.compare_spec a1 a2); [|key_case|key_case].
  destruct (Z.compare_spec b1 b2); [|key_case|key_case].
  destruct (Z.compare_spec c1 c2); key_case.
Qed.

Lemma sf_nan_dec (s : spec_float) : {s = S754_nan} + {s <> S754_nan}.
Proof. destruct s; [right; discriminate|right; discriminate|left; reflexivity|right; discriminate]. Qed.

(** [x <= y] on numbers: neither is NaN and the keys are in order. *)
Lemma fle_key (x y : float) :
  fle x y <->
  notNaN x /\ notNaN y /\ keyCompare (sfKey (Prim2SF x)) (sfKey (Prim2SF y)) <> Gt.
Proof.
  unfold fle. rewrite FloatAxioms.leb_spec, !notNaN_Prim2SF. unfold SFleb.
  destruct (sf_nan_dec (Prim2SF x)) as [Ex|Ex].
  { rewrite Ex. simpl. split; [discriminate|tauto]. }
  destruct (sf_nan_dec (Prim2SF y)) as [Ey|Ey].
  { rewrite Ey. destruct (Prim2SF x); simpl; (split; [discriminate|tauto]). }
  rewrite (SFcompare_key _ _ Ex Ey).
  destruct (keyCompare _ _); split; try tauto; try discriminate; try congruence.
  - intros _. split_and!; try assumption. discriminate.
  - intros _. split_and!; try assumption. discriminate.
Qed.

Lemma flt_key (x y : float) :
  (x <? y)%float = true <->
  notNaN x /\ notNaN y /\ keyCompare (sfKey (Prim2SF x)) (sfKey (Prim2SF y)) = Lt.
Proof.
  rewrite FloatAxioms.ltb_spec, !notNaN_Prim2SF. unfold SFltb.
  destruct (sf_nan_dec (Prim2SF x)) as [Ex|Ex].
  { rewrite Ex. simpl. split; [discriminate|tauto]. }
  destruct (sf_nan_dec (Prim2SF y)) as [Ey|Ey].
  { rewrite Ey. destruct (Prim2SF x); simpl; (split; [discriminate|tauto]). }
  rewrite (SFcompare_key _ _ Ex Ey).
  destruct (keyCompare _ _); split; try tauto; try discriminate; try congruence.
  all: try (intros (_ & _ & H); discriminate).
Qed.

Lemma fle_notNaN (x y : float) : fle x y -> notNaN x /\ notNaN y.
Proof. rewrite fle_key. tauto. Qed.

Lemma fle_refl (x : float) : notNaN x -> fle x x.
Proof.
  intros H. apply fle_key. split_and!; try assumption.
  apply keyCompare_le. destruct (sfKey _) as [[a b] c]. lia.
Qed.

Lemma fle_trans (x y z : float) : fle x y -> fle y z -> fle x z.
Proof.
  rewrite !fle_key. intros (Hx & Hy & H1) (_ & Hz & H2). split_and!; try assumption.
  apply keyCompare_le in H1. apply keyCompare_le in H2. apply keyCompare_le.
  destruct (sfKey (Prim2SF x)) as [[a1 b1] c1], (sfKey (Prim2SF y)) as [[a2 b2] c2],
           (sfKey (Prim2SF z)) as [[a3 b3] c3]. lia.
Qed.

Lemma flt_fle (x y : float) : (x <? y)%float = true -> fle x y.
Proof.
  rewrite flt_key, fle_key. intros (Hx & Hy & H). split_and!; try assumption. congruence.
Qed.

(** Two numbers neither of which is below the other are equal as
    numbers ([-0] and [+0] included). *)
Lemma fle_of_not_flt (x y : float) :
  notNaN x -> notNaN y -> (y <? x)%float = false -> fle x y.
Proof.
  intros Hx Hy H. apply fle_key. split_and!; try assumption.
  intros Hgt. assert (Hlt : (y <? x)%float = true); [|congruence].
  apply flt_key. split_and!; try assumption.
  apply keyCompare_lt. 
  assert (Hn : ~ (keyCompare (sfKey (Prim2SF x)) (sfKey (Prim2SF y)) <> Gt)) by tauto.
  rewrite keyCompare_le in Hn.
  destruct (sfKey (Prim2SF x)) as [[a1 b1] c1], (sfKey (Prim2SF y)) as [[a2 b2] c2]. lia.
Qed.

Lemma notNaN_infinity : notNaN infinity /\ notNaN neg_infinity.
Proof. split; reflexivity. Qed.

Lemma fle_infinity (x : float) : notNaN x -> fle x infinity /\ fle neg_infinity x.
Proof.
  intros Hx. split; apply fle_key; (split_and!; [assumption || reflexivity..|]).
  - apply keyCompare_le. change (sfKey (Prim2SF infinity)) with (2, 0, 0).
    apply notNaN_Prim2SF in Hx.
    destruct (Prim2SF x) as [s|[]| |[] m e]; simpl; try lia; congruence.
  - apply keyCompare_le. change (sfKey (Prim2SF neg_infinity)) with (-2, 0, 0).
    apply notNaN_Prim2SF in Hx.
    destruct (Prim2SF x) as [s|[]| |[] m e]; simpl; try lia; congruence.
Qed.

(** ** Math.min and Math.max *)

Lemma Math_min_spec (a b : float) :
  (notNaN a -> notNaN b ->
   notNaN (Math_min a b) /\ fle (Math_min a b) a /\ fle (Math_min a b) b /\
   (Math_min a b = a \/ Math_min a b = b)) /\
  (is_nan a = true \/ is_nan b = true -> is_nan (Math_min a b) = true).
Proof.
  unfold Math_min, notNaN. split.
  - intros Ha Hb. rewrite Ha, Hb. simpl.
    destruct (a <? b)%float eqn:Hab.
    { split_and!; [exact Ha|apply fle_refl, Ha|apply flt_fle, Hab|left; reflexivity]. }
    destruct (b <? a)%float eqn:Hba.
    { split_and!; [exact Hb|apply flt_fle, Hba|apply fle_refl, Hb|right; reflexivity]. }
    destruct (isNegZero a).
    + split_and!; [exact Ha|apply fle_refl, Ha|apply fle_of_not_flt; assumption|left; reflexivity].
    + split_and!; [exact Hb|apply fle_of_not_flt; assumption|apply fle_refl, Hb|right; reflexivity].
  - intros [H|H]; rewrite H; [reflexivity|]. rewrite orb_true_r. reflexivity.
Qed.

Lemma Math_max_spec (a b : float) :
  (notNaN a -> notNaN b ->
   notNaN (Math_max a b) /\ fle a (Math_max a b) /\ fle b (Math_max a b) /\
   (Math_max a b = a \/ Math_max a b = b)) /\
  (is_nan a = true \/ is_nan b = true -> is_nan (Math_max a b) = true).
Proof.
  unfold Math_max, notNaN. split.
  - intros Ha Hb. rewrite Ha, Hb. simpl.
    destruct (a <? b)%float eqn:Hab.
    { split_and!; [exact Hb|apply flt_fle, Hab|apply fle_refl, Hb|right; reflexivity]. }
    destruct (b <? a)%float eqn:Hba.
    { split_and!; [exact Ha|apply fle_refl, Ha|apply flt_fle, Hba|left; reflexivity]. }
    destruct (isNegZero a).
    + split_and!; [exact Hb|apply fle_of_not_flt; assumption|apply fle_refl, Hb|right; reflexivity].
    + split_and!; [exact Ha|apply fle_refl, Ha|apply fle_of_not_flt; assumption|left; reflexivity].
  - intros [H|H]; rewrite H; [reflexivity|]. rewrite orb_true_r. reflexivity.
Qed.

(** ** Running bounds *)

Lemma is_nan_Math_min_l (a b : float) : is_nan a = true -> is_nan (Math_min a b) = true.
Proof. intros H. apply Math_min_spec. left. exact H. Qed.

Lemma is_nan_Math_max_l (a b : float) : is_nan a = true -> is_nan (Math_max a b) = true.
Proof. intros H. apply Math_max_spec. left. exact H. Qed.

Lemma notNaN_dec (x : float) : {notNaN x} + {is_nan x = true}.
Proof. unfold notNaN. destruct (is_nan x); [right|left]; reflexivity. Qed.

Lemma foldl_min_spec (l : list float) (m0 : float) :
  let m := foldl Math_min m0 l in
  (notNaN m0 -> Forall notNaN l ->
   notNaN m /\ fle m m0 /\ (forall x, x ∈ l -> fle m x) /\ (m = m0 \/ m ∈ l)) /\
  (is_nan m0 = true \/ (exists x, x ∈ l /\ is_nan x = true) -> is_nan m = true).
Proof.
  revert m0. induction l as [|y l IH]; intros m0; simpl.
  - split.
    + intros H0 _. split_and!; [exact H0|apply fle_refl, H0| |left; reflexivity].
      intros x Hx. inversion Hx.
    + intros [H|(x & Hx & _)]; [exact H|inversion Hx].
  - destruct (IH (Math_min m0 y)) as [IH1 IH2]. split.
    + intros H0 Hall. inversion Hall as [|? ? Hy Hl]; subst.
      destruct (proj1 (Math_min_spec m0 y) H0 Hy) as (Hn & Hle0 & Hley & Heq).
      destruct (IH1 Hn Hl) as (Hm & Hmle & Hmall & Hmeq).
      split_and!.
      * exact Hm.
      * eapply fle_trans; eassumption.
      * intros x [->|Hx]%elem_of_cons; [eapply fle_trans; eassumption|apply Hmall, Hx].
      * destruct Hmeq as [Hmeq|Hmeq]; [|right; right; exact Hmeq].
        destruct Heq as [Heq|Heq]; rewrite Hmeq, Heq; [left; reflexivity|right; left].
    + intros H. apply IH2. destruct H as [H|(x & [->|Hx]%elem_of_cons & Hnan)].
      * left. apply is_nan_Math_min_l, H.
      * left. apply Math_min_spec. right. exact Hnan.
      * right. eauto.
Qed.

Lemma foldl_max_spec (l : list float) (m0 : float) :
  let m := foldl Math_max m0 l in
  (notNaN m0 -> Forall notNaN l ->
   notNaN m /\ fle m0 m /\ (forall x, x ∈ l -> fle x m) /\ (m = m0 \/ m ∈ l)) /\
  (is_nan m0 = true \/ (exists x, x ∈ l /\ is_nan x = true) -> is_nan m = true).
Proof.
  revert m0. induction l as [|y l IH]; intros m0; simpl.
  - split.
    + intros H0 _. split_and!; [exact H0|apply fle_refl, H0| |left; reflexivity].
      intros x Hx. inversion Hx.
    + intros [H|(x & Hx & _)]; [exact H|inversion Hx].
  - destruct (IH (Math_max m0 y)) as [IH1 IH2]. split.
    + intros H0 Hall. inversion Hall as [|? ? Hy Hl]; subst.
      destruct (proj1 (Math_max_spec m0 y) H0 Hy) as (Hn & Hle0 & Hley & Heq).
      destruct (IH1 Hn Hl) as (Hm & Hmle & Hmall & Hmeq).
      split_and!.
      * exact Hm.
      * eapply fle_trans; eassumption.
      * intros x [->|Hx]%elem_of_cons; [eapply fle_trans; eassumption|apply Hmall, Hx].
      * destruct Hmeq as [Hmeq|Hmeq]; [|right; right; exact Hmeq].
        destruct Heq as [Heq|Heq]; rewrite Hmeq, Heq; [left; reflexivity|right; left].
    + intros H. apply IH2. destruct H as [H|(x & [->|Hx]%elem_of_cons & Hnan)].
      * left. apply is_nan_Math_max_l, H.
      * left. apply Math_max_spec. right. exact Hnan.
      * right. eauto.
Qed.

Lemma foldl_min3 (vs : list vec3) (a b c : float) :
  vec3List (foldl (fun '(mx, my, mz) '(x, y, z) =>
                     (Math_min mx x, Math_min my y, Math_min mz z)) (a, b, c) vs)
  = [foldl Math_min a ((fun v => v.1.1) <$> vs);
     foldl Math_min b ((fun v => v.1.2) <$> vs);
     foldl Math_min c ((fun v => v.2) <$> vs)].
Proof.
  revert a b c. induction vs as [|[[x y] z] vs IH]; intros a b c; [reflexivity|].
  simpl. apply IH.
Qed.

Lemma foldl_max3 (vs : list vec3) (a b c : float) :
  vec3List (foldl (fun '(mx, my, mz) '(x, y, z) =>
                     (Math_max mx x, Math_max my y, Math_max mz z)) (a, b, c) vs)
  = [foldl Math_max a ((fun v => v.1.1) <$> vs);
     foldl Math_max b ((fun v => v.1.2) <$> vs);
     foldl Math_max c ((fun v => v.2) <$> vs)].
Proof.
  revert a b c. induction vs as [|[[x y] z] vs IH]; intros a b c; [reflexivity|].
  simpl. apply IH.
Qed.

Lemma foldl_min2 (vs : list vec2) (a b : float) :
  vec2List (foldl (fun '(mu, mv) '(u, v) => (Math_min mu u, Math_min mv v)) (a, b) vs)
  = [foldl Math_min a (fst <$> vs); foldl Math_min b (snd <$> vs)].
Proof.
  revert a b. induction vs as [|[x y] vs IH]; intros a b; [reflexivity|].
  simpl. apply IH.
Qed.

Lemma foldl_max2 (vs : list vec2) (a b : float) :
  vec2List (foldl (fun '(mu, mv) '(u, v) => (Math_max mu u, Math_max mv v)) (a, b) vs)
  = [foldl Math_max a (fst <$> vs); foldl Math_max b (snd <$> vs)].
Proof.
  revert a b. induction vs as [|[x y] vs IH]; intros a b; [reflexivity|].
  simpl. apply IH.
Qed.

(** The bounds of column [k] of a list of vectors, given the lists of
    their components. *)
Lemma column_bounds (cols : list (list float)) (los his : list float) (k : nat) (lo hi : float) :
  los = (fun col => foldl Math_min infinity col) <$> cols ->
  his = (fun col => foldl Math_max neg_infinity col) <$> cols ->
  los !! k = Some lo -> his !! k = Some hi ->
  exists col : list float,
    cols !! k = Some col /\
    (Forall notNaN col -> forall x, x ∈ col -> fle lo x /\ fle x hi) /\
    ((exists x, x ∈ col /\ is_nan x = true) -> is_nan lo = true /\ is_nan hi = true) /\
    (col = [] -> lo = infinity /\ hi = neg_infinity).
Proof.
  intros -> -> Hlo Hhi. rewrite list_lookup_fmap in Hlo, Hhi.
  destruct (cols !! k) as [col|]; [|discriminate].
  injection Hlo as <-. injection Hhi as <-. exists col. split; [reflexivity|].
  destruct (foldl_min_spec col infinity) as [Hmin Hminnan].
  destruct (foldl_max_spec col neg_infinity) as [Hmax Hmaxnan].
  split_and!.
  - intros Hall x Hx.
    destruct (Hmin (proj1 notNaN_infinity) Hall) as (_ & _ & H1 & _).
    destruct (Hmax (proj2 notNaN_infinity) Hall) as (_ & _ & H2 & _).
    split; [apply H1, Hx|apply H2, Hx].
  - intros H. split; [apply Hminnan|apply Hmaxnan]; right; exact H.
  - intros ->. split; reflexivity.
Qed.

Lemma elem_of_columns3 (vs : list vec3) (k : nat) (col : list float) (x : float) :
  columns3 vs !! k = Some col ->
  x ∈ col <-> exists v, v ∈ vs /\ vec3List v !! k = Some x.
Proof.
  unfold columns3. intros Hk.
  destruct k as [|[|[|k]]]; simpl in Hk; try discriminate; injection Hk as <-;
    rewrite list_elem_of_fmap; split.
  all: try (intros ([[a b] c] & -> & Hv); exists (a, b, c); split; [exact Hv|reflexivity]).
  all: intros ([[a b] c] & Hv & [= <-]); exists (a, b, c); split; [reflexivity|exact Hv].
Qed.

Lemma elem_of_columns2 (vs : list vec2) (k : nat) (col : list float) (x : float) :
  columns2 vs !! k = Some col ->
  x ∈ col <-> exists v, v ∈ vs /\ vec2List v !! k = Some x.
Proof.
  unfold columns2. intros Hk.
  destruct k as [|[|k]]; simpl in Hk; try discriminate; injection Hk as <-;
    rewrite list_elem_of_fmap; split.
  all: try (intros ([a b] & -> & Hv); exists (a, b); split; [exact Hv|reflexivity]).
  all: intros ([a b] & Hv & [= <-]); exists (a, b); split; [reflexivity|exact Hv].
Qed.

Lemma columns3_nil (vs : list vec3) (k : nat) (col : list float) :
  columns3 vs !! k = Some col -> vs = [] -> col = [].
Proof.
  intros Hk ->. destruct k as [|[|[|k]]]; simpl in Hk; try discriminate; congruence.
Qed.

Lemma columns2_nil (vs : list vec2) (k : nat) (col : list float) :
  columns2 vs !! k = Some col -> vs = [] -> col = [].
Proof.
  intros Hk ->. destruct k as [|[|k]]; simpl in Hk; try discriminate; congruence.
Qed.

(** The bounds kept by the position loop and by the UV loop. *)
Lemma bounds3_spec (vs : list vec3) (k : nat) (lo hi : float) :
  vec3List (min3 vs) !! k = Some lo -> vec3List (max3 vs) !! k = Some hi ->
  ((forall v x, v ∈ vs -> vec3List v !! k = Some x -> is_nan x = false) ->
   forall v x, v ∈ vs -> vec3List v !! k = Some x ->
               (lo <=? x)%float = true /\ (x <=? hi)%float = true) /\
  ((exists v x, v ∈ vs /\ vec3List v !! k = Some x /\ is_nan x = true) ->
   is_nan lo = true /\ is_nan hi = true) /\
  (vs = [] -> lo = infinity /\ hi = neg_infinity).
Proof.
  intros Hlo Hhi.
  destruct (column_bounds (columns3 vs) _ _ k lo hi
              (foldl_min3 vs infinity infinity infinity)
              (foldl_max3 vs neg_infinity neg_infinity neg_infinity) Hlo Hhi)
    as (col & Hcol & H1 & H2 & H3).
  split_and!.
  - intros Hnan v x Hv Hx. apply H1.
    + apply Forall_forall. intros y (v' & Hv' & Hy)%(elem_of_columns3 _ _ _ _ Hcol).
      exact (Hnan v' y Hv' Hy).
    + apply (elem_of_columns3 _ _ _ _ Hcol). eauto.
  - intros (v & x & Hv & Hx & Hn). apply H2. exists x. split; [|exact Hn].
    apply (elem_of_columns3 _ _ _ _ Hcol). eauto.
  - intros E. apply H3. eapply columns3_nil; eassumption.
Qed.

Lemma bounds2_spec (vs : list vec2) (k : nat) (lo hi : float) :
  vec2List (min2 vs) !! k = Some lo -> vec2List (max2 vs) !! k = Some hi ->
  ((forall v x, v ∈ vs -> vec2List v !! k = Some x -> is_nan x = false) ->
   forall v x, v ∈ vs -> vec2List v !! k = Some x ->
               (lo <=? x)%float = true /\ (x <=? hi)%float = true) /\
  (vs = [] -> lo = infinity /\ hi = neg_infinity).
Proof.
  intros Hlo Hhi.
  destruct (column_bounds (columns2 vs) _ _ k lo hi
              (foldl_min2 vs infinity infinity)
              (foldl_max2 vs neg_infinity neg_infinity) Hlo Hhi)
    as (col & Hcol & H1 & H2 & H3).
  split.
  - intros Hnan v x Hv Hx. apply H1.
    + apply Forall_forall. intros y (v' & Hv' & Hy)%(elem_of_columns2 _ _ _ _ Hcol).
      exact (Hnan v' y Hv' Hy).
    + apply (elem_of_columns2 _ _ _ _ Hcol). eauto.
  - intros E. apply H3. eapply columns2_nil; eassumption.
Qed.

(** X7.  The [min] and [max] of the position accessor have three
    components each and bound the transformed positions as they are
    before the array rounds them to float32.  In each component: when no
    vertex has NaN there, every vertex lies between the minimum and the
    maximum; when some vertex has NaN there, both bounds are NaN; with
    no vertex at all the bounds are plus and minus infinity. *)
Theorem buildGltfFile_position_bounds engine iso dv selected options built :
  buildGltfFile engine iso dv selected options = Returns built ->
  exists g posA posBuf acc lo hi vs,
    buildGltf dv selected options = Ok g /\
    findPositionAttrib (sortedAttribs selected) = Some posA /\
    sel_buffersById selected !! attr_bufferId posA = Some posBuf /\
    vs = (fun i => transformPosition options (vec3At dv posBuf posA i))
         <$> upTo (g_vertexCount g) /\
    g_positions g = storeVec3 vs /\
    doc_accessors (gltfJsonObj built) !! 1%nat = Some acc /\
    acc_min acc = Some lo /\ acc_max acc = Some hi /\
    length lo = 3%nat /\ length hi = 3%nat /\
    forall k l h,
      lo !! k = Some l -> hi !! k = Some h ->
      ((forall v x, v ∈ vs -> vec3List v !! k = Some x -> is_nan x = false) ->
       forall v x, v ∈ vs -> vec3List v !! k = Some x ->
                   (l <=? x)%float = true /\ (x <=? h)%float = true) /\
      ((exists v x, v ∈ vs /\ vec3List v !! k = Some x /\ is_nan x = true) ->
       is_nan l = true /\ is_nan h = true) /\
      (vs = [] -> l = infinity /\ h = neg_infinity).
Proof.
  intros (g & Hg & Hpack)%buildGltfFile_Returns.
  destruct (packGltf_Returns engine iso g) as (built' & Hb & _ & _ & _ & _ & _ & Haccs & _).
  rewrite Hpack in Hb. injection Hb as <-.
  pose proof Hg as (posA & posBuf & idxBuf & Hc & _ & _ & Hval)%buildGltf_Ok_inv.
  destruct Hc as (Hf & Hp & _).
  exists g, posA, posBuf. do 3 eexists. exists (o_vertices (objValue dv selected options posA posBuf idxBuf)).
  split; [exact Hg|]. split; [exact Hf|]. split; [exact Hp|].
  split; [rewrite Hval; reflexivity|]. split; [rewrite Hval; reflexivity|].
  rewrite Haccs. split; [reflexivity|]. split; [reflexivity|]. split; [reflexivity|].
  split; [destruct (g_posMin g) as [[? ?] ?]; reflexivity|].
  split; [destruct (g_posMax g) as [[? ?] ?]; reflexivity|].
  intros k l h Hl Hh. rewrite Hval in Hl, Hh. cbn [g_posMin g_posMax gltfValue] in Hl, Hh.
  apply bounds3_spec; assumption.
Qed.

(** ** Normalized channels *)

Lemma forallBelow_spec (bits : nat) (P : Z -> bool) (base : Z) :
  forallBelow bits P base = true ->
  forall z, base * 2 ^ Z.of_nat bits <= z < (base + 1) * 2 ^ Z.of_nat bits -> P z = true.
Proof.
  revert base. induction bits as [|b IH]; intros base H z Hz.
  - simpl in *. replace z with base by lia. exact H.
  - simpl in H. apply andb_true_iff in H as [H0 H1].
    rewrite Nat2Z.inj_succ, Z.pow_succ_r in Hz by lia.
    destruct (Z_lt_le_dec z ((2 * base + 1) * 2 ^ Z.of_nat b)) as [Hlt|Hge].
    + apply (IH _ H0). lia.
    + apply (IH _ H1). lia.
Qed.

Lemma leValue_range (bs : list byte) : 0 <= leValue bs < 256 ^ Z.of_nat (length bs).
Proof.
  induction bs as [|b bs IH]; simpl leValue; [simpl; lia|].
  pose proof (byteVal_range b). 
  change (length (b :: bs)) with (S (length bs)).
  rewrite Nat2Z.inj_succ, Z.pow_succ_r by lia. lia.
Qed.

Lemma leValue_take (w : nat) (l : list byte) : 0 <= leValue (take w l) < 256 ^ Z.of_nat w.
Proof.
  pose proof (leValue_range (take w l)) as H.
  assert (Hle : (length (take w l) <= w)%nat) by (rewrite length_take; lia).
  assert (256 ^ Z.of_nat (length (take w l)) <= 256 ^ Z.of_nat w)
    by (apply Z.pow_le_mono_r; lia).
  lia.
Qed.

Lemma normals_int8 : forallBelow 8 (fun z => normalizedInUnit (-1) 5120 (toSigned 8 z)) 0 = true.
Proof. vm_compute. reflexivity. Qed.

Lemma normals_int16 : forallBelow 16 (fun z => normalizedInUnit (-1) 5122 (toSigned 16 z)) 0 = true.
Proof. vm_compute. reflexivity. Qed.

Lemma uvs_uint8 : forallBelow 8 (normalizedInUnit 0 5121) 0 = true.
Proof. vm_compute. reflexivity. Qed.

Lemma uvs_uint16 : forallBelow 16 (normalizedInUnit 0 5123) 0 = true.
Proof. vm_compute. reflexivity. Qed.

Lemma isNormal_scalarAt (dv : list byte) (a : Attribute) (address : Z) :
  isNormal a = true ->
  inUnit (-1) (scalarAt dv a address) = true /\
  inUnit (-1) (fround (scalarAt dv a address)) = true.
Proof.
  intros (_ & Hn & Ht)%isNormal_iff. unfold scalarAt. rewrite Hn.
  apply andb_true_iff.
  destruct Ht as [Ht|Ht]; rewrite Ht; unfold decodeScalar; simpl.
  - change (Z.to_nat (componentWidth 5120)) with 1%nat.
    apply (forallBelow_spec _ _ _ normals_int8 (leValue _)).
    pose proof (leValue_take 1 (drop (Z.to_nat address) dv)). simpl in *. lia.
  - change (Z.to_nat (componentWidth 5122)) with 2%nat.
    apply (forallBelow_spec _ _ _ normals_int16 (leValue _)).
    pose proof (leValue_take 2 (drop (Z.to_nat address) dv)). simpl in *. lia.
Qed.

Lemma isUv_scalarAt (dv : list byte) (a : Attribute) (address : Z) :
  isUv a = true ->
  inUnit 0 (scalarAt dv a address) = true /\
  inUnit 0 (fround (scalarAt dv a address)) = true.
Proof.
  intros (_ & Hn & Ht)%isUv_iff. unfold scalarAt. rewrite Hn.
  apply andb_true_iff.
  destruct Ht as [Ht|Ht]; rewrite Ht; unfold decodeScalar; simpl.
  - change (Z.to_nat (componentWidth 5121)) with 1%nat.
    apply (forallBelow_spec _ _ _ uvs_uint8 (leValue _)).
    pose proof (leValue_take 1 (drop (Z.to_nat address) dv)). simpl in *. lia.
  - change (Z.to_nat (componentWidth 5123)) with 2%nat.
    apply (forallBelow_spec _ _ _ uvs_uint16 (leValue _)).
    pose proof (leValue_take 2 (drop (Z.to_nat address) dv)). simpl in *. lia.
Qed.

Lemma elem_of_storeVec3 (vs : list vec3) (x : float) :
  x ∈ storeVec3 vs <-> exists v y, v ∈ vs /\ y ∈ vec3List v /\ x = fround y.
Proof.
  induction vs as [|[[a b] c] vs IH].
  - split; [intros H; inversion H|intros (v & y & H & _); inversion H].
  - change (storeVec3 ((a, b, c) :: vs))
      with (fround a :: fround b :: fround c :: storeVec3 vs).
    rewrite !elem_of_cons, IH. split.
    + intros [->|[->|[->|(v & y & Hv & Hy & ->)]]].
      * exists (a, b, c), a. split_and!; [left|left|reflexivity].
      * exists (a, b, c), b. split_and!; [left|right; left|reflexivity].
      * exists (a, b, c), c. split_and!; [left|right; right; left|reflexivity].
      * exists v, y. split_and!; [right; exact Hv|exact Hy|reflexivity].
    + intros (v & y & [->|Hv]%elem_of_cons & Hy & ->).
      * simpl in Hy. rewrite !elem_of_cons in Hy.
        destruct Hy as [->|[->|[->|Hy]]]; [auto..|inversion Hy].
      * right; right; right. eauto.
Qed.

Lemma elem_of_storeVec2 (vs : list vec2) (x : float) :
  x ∈ storeVec2 vs <-> exists v y, v ∈ vs /\ y ∈ vec2List v /\ x = fround y.
Proof.
  induction vs as [|[a b] vs IH].
  - split; [intros H; inversion H|intros (v & y & H & _); inversion H].
  - change (storeVec2 ((a, b) :: vs)) with (fround a :: fround b :: storeVec2 vs).
    rewrite !elem_of_cons, IH. split.
    + intros [->|[->|(v & y & Hv & Hy & ->)]].
      * exists (a, b), a. split_and!; [left|left|reflexivity].
      * exists (a, b), b. split_and!; [left|right; left|reflexivity].
      * exists v, y. split_and!; [right; exact Hv|exact Hy|reflexivity].
    + intros (v & y & [->|Hv]%elem_of_cons & Hy & ->).
      * simpl in Hy. rewrite !elem_of_cons in Hy.
        destruct Hy as [->|[->|Hy]]; [auto..|inversion Hy].
      * right; right. eauto.
Qed.

Lemma inUnit_iff (lo x : float) :
  inUnit lo x = true <-> (lo <=? x)%float = true /\ (x <=? 1)%float = true.
Proof. unfold inUnit. apply andb_true_iff. Qed.

Lemma leb_not_nan (x y : float) : (x <=? y)%float = true -> is_nan y = false.
Proof. intros H. apply (fle_notNaN x y H). Qed.

(** X8.  When normals are decoded, the normal accessor declares
    the bounds -1 and 1 in each component, and every number of the
    normal array does lie between -1 and 1 (the classifier only accepts
    normalized 8-bit and 16-bit signed integers for normals). *)
Theorem buildGltfFile_normal_bounds engine iso dv selected options built :
  buildGltfFile engine iso dv selected options = Returns built ->
  exists g,
    buildGltf dv selected options = Ok g /\
    forall normals, g_normals g = Some normals ->
      (exists prim i acc,
         doc_meshes (gltfJsonObj built) = [[prim]] /\
         prim_attributes prim !! "NORMAL"%string = Some i /\
         doc_accessors (gltfJsonObj built) !! Z.to_nat i = Some acc /\
         acc_min acc = Some [-1; -1; -1]%float /\
         acc_max acc = Some [1; 1; 1]%float) /\
      forall x, x ∈ normals -> (-1 <=? x)%float = true /\ (x <=? 1)%float = true.
Proof.
  intros (g & Hg & Hpack)%buildGltfFile_Returns.
  destruct (packGltf_Returns engine iso g)
    as (built' & Hb & _ & _ & _ & _ & _ & Haccs & prim & Hm & _ & _ & _ & HaN & _).
  rewrite Hpack in Hb. injection Hb as <-.
  exists g. split; [exact Hg|]. intros normals Hn. split.
  - exists prim. do 2 eexists. split; [exact Hm|]. rewrite HaN, Haccs, Hn.
    split; [reflexivity|]. simpl. split_and!; reflexivity.
  - apply buildGltf_Ok_inv in Hg as (posA & posBuf & idxBuf & _ & _ & _ & ->).
    revert Hn. unfold gltfValue, objValue. cbn [g_normals o_normals]. unfold normalsValue.
    destruct (findNormalAttrib (sortedAttribs selected)) as [a|] eqn:Ha; [|discriminate].
    simpl. destruct (sel_buffersById selected !! attr_bufferId a) as [buf|]; [|discriminate].
    simpl. intros [= <-] x (v & y & (i & -> & _)%list_elem_of_fmap & Hy & ->)%elem_of_storeVec3.
    apply find_some in Ha as [_ Ha]. apply inUnit_iff.
    unfold vec3At in Hy. simpl in Hy. rewrite !elem_of_cons in Hy.
    destruct Hy as [->|[->|[->|Hy]]]; [..|inversion Hy];
      apply (isNormal_scalarAt dv a _ Ha).
Qed.

(** X9.  When UVs are decoded, every number of the UV array lies
    between 0 and 1 (the classifier only accepts normalized 8-bit and
    16-bit unsigned integers), and the [min] and [max] of the UV
    accessor bound every decoded pair in each component; with no pair
    at all they are plus and minus infinity. *)
Theorem buildGltfFile_uv_bounds engine iso dv selected options built :
  buildGltfFile engine iso dv selected options = Returns built ->
  exists g,
    buildGltf dv selected options = Ok g /\
    forall uvs, g_uvs g = Some uvs ->
      (forall x, x ∈ uvs -> (0 <=? x)%float = true /\ (x <=? 1)%float = true) /\
      exists uvA uvBuf prim i acc lo hi vs,
        findUvAttrib (sortedAttribs selected) = Some uvA /\
        sel_buffersById selected !! attr_bufferId uvA = Some uvBuf /\
        doc_meshes (gltfJsonObj built) = [[prim]] /\
        prim_attributes prim !! "TEXCOORD_0"%string = Some i /\
        doc_accessors (gltfJsonObj built) !! Z.to_nat i = Some acc /\
        acc_min acc = Some lo /\ acc_max acc = Some hi /\
        vs = vec2At dv uvBuf uvA <$> upTo (acc_count acc) /\
        uvs = storeVec2 vs /\
        forall k l h,
          lo !! k = Some l -> hi !! k = Some h ->
          (forall v x, v ∈ vs -> vec2List v !! k = Some x ->
                       (l <=? x)%float = true /\ (x <=? h)%float = true /\
                       (0 <=? x)%float = true /\ (x <=? 1)%float = true) /\
          (vs = [] -> l = infinity /\ h = neg_infinity).
Proof.
  intros (g & Hg & Hpack)%buildGltfFile_Returns.
  destruct (packGltf_Returns engine iso g)
    as (built' & Hb & _ & _ & _ & _ & _ & Haccs & prim & Hm & _ & _ & _ & _ & HaU).
  rewrite Hpack in Hb. injection Hb as <-.
  exists g. split; [exact Hg|]. intros uvs Hu.
  destruct (buildGltf_lengths _ _ _ _ Hg) as (_ & _ & _ & Hlen).
  destruct (Hlen uvs Hu) as (cnt & Hcnt & Hlen').
  apply buildGltf_Ok_inv in Hg as (posA & posBuf & idxBuf & _ & _ & (_ & _ & _ & Hok) & Hval).
  pose proof Hu as Hu'. rewrite Hval in Hu'.
  unfold gltfValue, objValue in Hu'. cbn [g_uvs o_uvs] in Hu'. unfold uvsValue in Hu'.
  destruct (findUvAttrib (sortedAttribs selected)) as [a|] eqn:Ha; [|discriminate].
  simpl in Hu'.
  destruct (sel_buffersById selected !! attr_bufferId a) as [buf|] eqn:Hbuf; [|discriminate].
  simpl in Hu'. injection Hu' as Hu'.
  pose proof Ha as [_ HisUv]%find_some.
  assert (Hcount : lengthZ uvs / 2 = optionalCount (positionCount posA posBuf) a buf).
  { unfold channelOk in Hok. rewrite Hbuf in Hok. destruct Hok as [Hok _].
    rewrite <- Hu'. unfold lengthZ. rewrite length_storeVec2, length_fmap, length_upTo.
    rewrite <- Hu' in Hlen'. unfold lengthZ in Hlen'.
    rewrite length_storeVec2, length_fmap, length_upTo in Hlen'.
    replace (Z.of_nat (2 * Z.to_nat (optionalCount (positionCount posA posBuf) a buf)))
      with (optionalCount (positionCount posA posBuf) a buf * 2) by lia.
    apply Z.div_mul. lia. }
  split.
  - intros x Hx. rewrite <- Hu' in Hx.
    apply elem_of_storeVec2 in Hx as (v & y & (i & -> & _)%list_elem_of_fmap & Hy & ->).
    apply inUnit_iff. unfold vec2At in Hy. simpl in Hy. rewrite !elem_of_cons in Hy.
    destruct Hy as [->|[->|Hy]]; [..|inversion Hy]; apply (isUv_scalarAt dv a _ HisUv).
  - assert (Hmin : g_uvMin g = Some (min2 (vec2At dv buf a
                      <$> upTo (optionalCount (positionCount posA posBuf) a buf)))).
    { rewrite Hval. unfold gltfValue, objValue. cbn [g_uvMin o_uvs]. unfold uvsValue.
      rewrite Ha. simpl. rewrite Hbuf. reflexivity. }
    assert (Hmax : g_uvMax g = Some (max2 (vec2At dv buf a
                      <$> upTo (optionalCount (positionCount posA posBuf) a buf)))).
    { rewrite Hval. unfold gltfValue, objValue. cbn [g_uvMax o_uvs]. unfold uvsValue.
      rewrite Ha. simpl. rewrite Hbuf. reflexivity. }
    rewrite Hu, Hmin, Hmax in Haccs. rewrite Hu in HaU.
    destruct (g_normals g) as [nrm|]; simpl in Haccs, HaU; rewrite Hcount in Haccs;
      exists a, buf, prim; do 4 eexists;
      exists (vec2At dv buf a <$> upTo (optionalCount (positionCount posA posBuf) a buf));
      (split; [reflexivity|]); (split; [exact Hbuf|]); (split; [exact Hm|]);
      rewrite HaU, Haccs;
      (split; [reflexivity|]); (split; [reflexivity|]); (split; [reflexivity|]);
      (split; [reflexivity|]); (split; [reflexivity|]); (split; [symmetry; exact Hu'|]).
    all: intros k l h Hl Hh;
      destruct (bounds2_spec _ k l h Hl Hh) as [Hb He]; (split; [|exact He]);
      intros v x Hv Hx;
      assert (Hunit : inUnit 0 x = true)
        by (apply list_elem_of_fmap in Hv as (i & -> & _);
            unfold vec2At in Hx;
            destruct k as [|[|k]]; simpl in Hx; try discriminate;
            injection Hx as <-; apply (isUv_scalarAt dv a _ HisUv));
      apply inUnit_iff in Hunit as [H0 H1];
      destruct (Hb ltac:(intros v' x' Hv' Hx';
                         apply list_elem_of_fmap in Hv' as (i & -> & _);
                         unfold vec2At in Hx';
                         destruct k as [|[|k']]; simpl in Hx'; try discriminate;
                         injection Hx' as <-;
                         apply (leb_not_nan 0), inUnit_iff, (isUv_scalarAt dv a _ HisUv))
                   v x Hv Hx) as [Hlo Hhi];
      split_and!; assumption.
Qed.

(** ** Capture summary *)

(** The outcomes of a decode, by the stage that ends it. *)
Lemma buildGltf_outcomes dv selected options :
  match findPositionAttrib (sortedAttribs selected) with
  | None => buildGltf dv selected options = Err MissingPositionAttribute
  | Some posA =>
      match sel_buffersById selected !! attr_bufferId posA with
      | None => buildGltf dv selected options = Err MissingPositionBuffer
      | Some posBuf =>
          match indexBuffer (sel_draw selected) (sel_buffersById selected) with
          | None => buildGltf dv selected options = Err MissingIndexBuffer
          | Some idxBuf =>
              (exists t, buildGltf dv selected options = Err (UnsupportedComponentType t)) \/
              buildGltf dv selected options = Err RangeError \/
              exists g, buildGltf dv selected options = Ok g
          end
      end
  end.
Proof.
  destruct (findPositionAttrib (sortedAttribs selected)) as [posA|] eqn:H1.
  2:{ apply buildGltf_missing_position, H1. }
  destruct (sel_buffersById selected !! attr_bufferId posA) as [posBuf|] eqn:H2.
  2:{ eapply buildGltf_missing_position_buffer; eassumption. }
  destruct (indexBuffer (sel_draw selected) (sel_buffersById selected)) as [idxBuf|] eqn:H3.
  2:{ eapply buildGltf_missing_index_buffer; eassumption. }
  assert (Hc : Classified selected posA posBuf idxBuf) by (split_and!; assumption).
  destruct (decide (5120 <= draw_indexTypeEnum (sel_draw selected) <= 5126)) as [Hs|Hs].
  2:{ left. eexists. apply (buildGltf_unsupported _ _ _ _ _ _ Hc Hs). }
  destruct (decide (decodeOk dv selected posA posBuf idxBuf)) as [Hok|Hok].
  - right. right. eexists. apply (buildGltf_classified dv _ options _ _ _ Hc Hs), Hok.
  - right. left. apply (buildGltf_classified dv _ options _ _ _ Hc Hs), Hok.
Qed.

Lemma buildObj_outcomes dv selected options :
  match findPositionAttrib (sortedAttribs selected) with
  | None => buildObj dv selected options = Err MissingPositionAttribute
  | Some posA =>
      match sel_buffersById selected !! attr_bufferId posA with
      | None => buildObj dv selected options = Err MissingPositionBuffer
      | Some posBuf =>
          match indexBuffer (sel_draw selected) (sel_buffersById selected) with
          | None => buildObj dv selected options = Err MissingIndexBuffer
          | Some idxBuf =>
              (exists t, buildObj dv selected options = Err (UnsupportedComponentType t)) \/
              buildObj dv selected options = Err RangeError \/
              exists o, buildObj dv selected options = Ok o
          end
      end
  end.
Proof.
  destruct (findPositionAttrib (sortedAttribs selected)) as [posA|] eqn:H1.
  2:{ apply buildObj_missing_position, H1. }
  destruct (sel_buffersById selected !! attr_bufferId posA) as [posBuf|] eqn:H2.
  2:{ eapply buildObj_missing_position_buffer; eassumption. }
  destruct (indexBuffer (sel_draw selected) (sel_buffersById selected)) as [idxBuf|] eqn:H3.
  2:{ eapply buildObj_missing_index_buffer; eassumption. }
  assert (Hc : Classified selected posA posBuf idxBuf) by (split_and!; assumption).
  destruct (decide (5120 <= draw_indexTypeEnum (sel_draw selected) <= 5126)) as [Hs|Hs].
  2:{ left. eexists. apply (buildObj_unsupported _ _ _ _ _ _ Hc Hs). }
  destruct (decide (decodeOk dv selected posA posBuf idxBuf
                    /\ withinArrayLimit selected posA posBuf)) as [Hok|Hok].
  - right. right. eexists. apply (buildObj_classified dv _ options _ _ _ Hc Hs), Hok.
  - right. left. apply (buildObj_classified dv _ options _ _ _ Hc Hs), Hok.
Qed.

(** X10.  The summary of [buildStats] tells which descriptor
    check of the decode fails: no position attribute index exactly when
    the decode throws [MissingPositionAttribute]; a position attribute
    but no position buffer exactly when it throws
    [MissingPositionBuffer]; a position buffer but no index buffer
    exactly when it throws [MissingIndexBuffer]; and [buildObj] throws
    these three in the same cases.  On a selection that passes the three
    checks the summary reports the attribute and the two buffers that
    the decode uses. *)
Theorem buildStats_descriptor_checks dv selected options :
  let stats := buildStats selected in
  (positionAttribIndex stats = None <->
   buildGltf dv selected options = Err MissingPositionAttribute) /\
  (positionAttribIndex stats <> None /\ buffers_position stats = None <->
   buildGltf dv selected options = Err MissingPositionBuffer) /\
  (buffers_position stats <> None /\ buffers_index stats = None <->
   buildGltf dv selected options = Err MissingIndexBuffer) /\
  (forall e, e = MissingPositionAttribute \/ e = MissingPositionBuffer \/ e = MissingIndexBuffer ->
     (buildGltf dv selected options = Err e <-> buildObj dv selected options = Err e)) /\
  (forall posA posBuf idxBuf,
     Classified selected posA posBuf idxBuf ->
     positionAttribIndex stats = Some (attr_index posA) /\
     buffers_position stats
     = Some {| ps_id := buf_id posBuf; ps_binOffset := buf_binOffset posBuf;
               ps_byteLength := buf_byteLength posBuf;
               ps_stride := attr_stride posA; ps_offset := attr_offset posA;
               ps_typeEnum := attr_typeEnum posA;
               ps_normalized := attr_normalized posA |} /\
     buffers_index stats
     = Some {| is_id := buf_id idxBuf; is_binOffset := buf_binOffset idxBuf;
               is_byteLength := buf_byteLength idxBuf |}).
Proof.
  intros stats. subst stats.
  pose proof (buildGltf_outcomes dv selected options) as HG.
  pose proof (buildObj_outcomes dv selected options) as HO.
  unfold buildStats. cbv zeta. cbn [positionAttribIndex buffers_position buffers_index].
  unfold sortedAttribs in *.
  destruct (findPositionAttrib _) as [posA|] eqn:H1.
  2:{ simpl. rewrite HG, HO. split_and!.
      - split; reflexivity.
      - split; [intros [H _]; congruence|discriminate].
      - split; [intros [H _]; congruence|discriminate].
      - intros e _. split; congruence.
      - intros ? ? ? (Hf & _). unfold sortedAttribs in Hf. congruence. }
  destruct (sel_buffersById selected !! attr_bufferId posA) as [posBuf|] eqn:H2.
  2:{ simpl. rewrite HG, HO. split_and!.
      - split; discriminate.
      - split; [reflexivity|]. intros _. split; [discriminate|reflexivity].
      - split; [intros [H _]; congruence|discriminate].
      - intros e _. split; congruence.
      - intros ? ? ? (Hf & Hp & _). unfold sortedAttribs in Hf. congruence. }
  destruct (indexBuffer (sel_draw selected) (sel_buffersById selected)) as [idxBuf|] eqn:H3.
  2:{ simpl. rewrite HG, HO. split_and!.
      - split; discriminate.
      - split; [intros [_ [=]]|discriminate].
      - split; [reflexivity|]. intros _. split; [discriminate|reflexivity].
      - intros e _. split; congruence.
      - intros ? ? ? (Hf & Hp & Hi). congruence. }
  simpl.
  assert (HGn : forall e, e = MissingPositionAttribute \/ e = MissingPositionBuffer
                          \/ e = MissingIndexBuffer ->
                          buildGltf dv selected options <> Err e).
  { intros e He Hb. rewrite Hb in HG.
    destruct HG as [[t [= ->]]|[[= ->]|[g [=]]]]; destruct He as [[=]|[[=]|[=]]]. }
  assert (HOn : forall e, e = MissingPositionAttribute \/ e = MissingPositionBuffer
                          \/ e = MissingIndexBuffer ->
                          buildObj dv selected options <> Err e).
  { intros e He Hb. rewrite Hb in HO.
    destruct HO as [[t [= ->]]|[[= ->]|[g [=]]]]; destruct He as [[=]|[[=]|[=]]]. }
  split_and!.
  - split; [discriminate|]. intros H. exfalso. eapply HGn; [|exact H]. auto.
  - split; [intros [_ [=]]|]. intros H. exfalso. eapply HGn; [|exact H]. auto.
  - split; [intros [_ [=]]|]. intros H. exfalso. eapply HGn; [|exact H]. auto.
  - intros e He. split; intros H; exfalso; [eapply HGn|eapply HOn]; eassumption.
  - intros posA' posBuf' idxBuf' (Hf & Hp & Hi). unfold sortedAttribs in Hf.
    assert (posA' = posA) as -> by congruence.
    assert (posBuf' = posBuf) as -> by congruence.
    assert (idxBuf' = idxBuf) as -> by congruence.
    split_and!; reflexivity.
Qed.

(** ** The buffer map of a selection *)

Lemma foldl_insert_lookup (l : list BufferEntry) (m : gmap Z BufferEntry) (id : Z) :
  foldl (fun m buffer => <[buf_id buffer := buffer]> m) m l !! id
  = match last (filter (fun b => buf_id b = id) l) with
    | Some b => Some b
    | None => m !! id
    end.
Proof.
  revert m. induction l as [|b l IH]; intros m; [reflexivity|].
  simpl. rewrite IH, filter_cons.
  destruct (decide (buf_id b = id)) as [E|E].
  - destruct (filter _ l) as [|b' l'] eqn:Ef; simpl.
    + rewrite E, lookup_insert_eq. reflexivity.
    + rewrite last_cons. simpl.
      destruct (last l') eqn:El; reflexivity.
  - destruct (last (filter _ l)); [reflexivity|].
    apply lookup_insert_ne. exact E.
Qed.

(** X11.  The buffer map of the selection that
    [pickMainDrawCall] returns holds, under each id, the last buffer of
    the capture with that id (none when there is none); the selected
    draw call has a non-zero index buffer id, and its index buffer is
    looked up in that map. *)
Theorem pickMainDrawCall_buffersById (json : CaptureJson) (s : SelectedDraw) :
  pickMainDrawCall json = Some s ->
  (forall id,
     sel_buffersById s !! id
     = last (filter (fun b => buf_id b = id) (orEmpty (json_buffers json)))) /\
  exists id,
    draw_elementArrayBufferId (sel_draw s) = Some id /\ id <> 0 /\
    indexBuffer (sel_draw s) (sel_buffersById s)
    = last (filter (fun b => buf_id b = id) (orEmpty (json_buffers json))).
Proof.
  intros Hs.
  assert (Hmap : forall id,
            sel_buffersById s !! id
            = last (filter (fun b => buf_id b = id) (orEmpty (json_buffers json)))).
  { intros id. revert Hs. unfold pickMainDrawCall. cbv zeta.
    destruct (foldl (fun best ctx => foldl pickStep best (orEmpty (ctx_draws ctx))) None _);
      [|discriminate].
    intros [= <-]. simpl. rewrite foldl_insert_lookup, lookup_empty.
    destruct (last _); reflexivity. }
  split; [exact Hmap|].
  assert (He : eligible (sel_draw s) = true).
  { pose proof (pickMainDrawCall_best json) as Hb. rewrite Hs in Hb. simpl in Hb.
    symmetry in Hb. apply foldl_pickStep_elem in Hb as [[=]|[_ H]]. exact H. }
  apply eligible_iff in He as (_ & _ & _ & _ & id & Hid & Hne).
  exists id. split; [exact Hid|]. split; [exact Hne|].
  unfold indexBuffer, truthy. rewrite Hid. simpl.
  destruct (Z.eqb_spec id 0); [contradiction|]. simpl. apply Hmap.
Qed.

(** X11 on the sample capture. *)
Lemma pickMainDrawCall_buffersById_witness :
  exists s,
    pickMainDrawCall Sample.json = Some s /\
    sel_buffersById s !! 4 = Some {| buf_id := 4; buf_binOffset := 38; buf_byteLength := 6 |} /\
    sel_buffersById s !! 9 = None.
Proof.
  assert (H : exists s, pickMainDrawCall Sample.json = Some s) by (eexists; reflexivity).
  destruct H as [s H]. exists s. split; [exact H|].
  destruct (pickMainDrawCall_buffersById _ _ H) as [Hmap _].
  rewrite !Hmap. split; reflexivity.
Defined.

(** ** Strides *)

(** X12.  On an attribute that one of the three classifiers
    accepts, [getStride] does not fail and returns a non-zero stride:
    the [stride] field when it is present and not 0, otherwise the
    component count times the component width, which is positive. *)
Theorem getStride_classified (a : Attribute) :
  isPosition a = true \/ isNormal a = true \/ isUv a = true ->
  exists stride,
    getStride a = Ok stride /\ stride <> 0 /\
    match attr_stride a with
    | Some s => if s =? 0 then stride = attr_size a * componentWidth (attr_typeEnum a)
                else stride = s
    | None => stride = attr_size a * componentWidth (attr_typeEnum a)
    end /\
    0 < attr_size a * componentWidth (attr_typeEnum a).
Proof.
  intros H.
  assert (Hs : supported (attr_typeEnum a) /\ effectiveStride a <> 0 /\
               2 <= attr_size a <= 3 /\ 1 <= componentWidth (attr_typeEnum a)).
  { destruct H as [H|[H|H]].
    - destruct (isPosition_supported _ H) as [H1 H2].
      apply isPosition_iff in H as [Hsz Ht]. split_and!; try assumption; try lia.
      destruct Ht as [->|[-> _]]; vm_compute; discriminate.
    - destruct (isNormal_supported _ H) as [H1 H2].
      apply isNormal_iff in H as (Hsz & _ & Ht). split_and!; try assumption; try lia.
      destruct Ht as [->| ->]; vm_compute; discriminate.
    - destruct (isUv_supported _ H) as [H1 H2].
      apply isUv_iff in H as (Hsz & _ & Ht). split_and!; try assumption; try lia.
      destruct Ht as [->| ->]; vm_compute; discriminate. }
  destruct Hs as (Hsup & Hne & Hsz & Hw).
  exists (effectiveStride a). split; [apply getStride_supported, Hsup|].
  split; [exact Hne|]. split; [|nia].
  unfold effectiveStride. destruct (attr_stride a) as [s|]; [|reflexivity].
  destruct (s =? 0); reflexivity.
Qed.

(** X12 on the normal attribute of the sample capture: 3 bytes. *)
Lemma getStride_classified_witness :
  exists stride, getStride Sample.nrmAttr = Ok stride /\ stride = 3.
Proof.
  destruct (getStride_classified Sample.nrmAttr) as (stride & H & _ & Hs & _).
  - right. left. reflexivity.
  - exists stride. split; [exact H|]. exact Hs.
Defined.

(** ** Numbers made from integers are not NaN *)

Lemma shr_1_nonneg (mrs : shr_record) : 0 <= shr_m mrs -> 0 <= shr_m (shr_1 mrs).
Proof.
  destruct mrs as [m r s]. simpl. intros Hm.
  destruct m as [|[p|p|]|p]; simpl; lia.
Qed.

Lemma iter_pos_shr_1_nonneg (p : positive) (mrs : shr_record) :
  0 <= shr_m mrs -> 0 <= shr_m (SpecFloat.iter_pos shr_1 p mrs).
Proof.
  revert mrs. induction p as [p IH|p IH|]; intros mrs Hm; simpl.
  - apply IH, IH, shr_1_nonneg, Hm.
  - apply IH, IH, Hm.
  - apply shr_1_nonneg, Hm.
Qed.

Lemma shr_fexp_nonneg (prec emax m e : Z) (l : location) :
  0 <= m -> 0 <= shr_m (fst (shr_fexp prec emax m e l)).
Proof.
  intros Hm. unfold shr_fexp, shr.
  assert (H0 : 0 <= shr_m (shr_record_of_loc m l)) by (destruct l as [|[]]; exact Hm).
  destruct (fexp prec emax (Zdigits2 m + e) - e) as [|p|p]; simpl; try exact H0.
  apply iter_pos_shr_1_nonneg, H0.
Qed.

Lemma round_nearest_even_nonneg (m : Z) (l : location) :
  0 <= m -> 0 <= round_nearest_even m l.
Proof.
  intros Hm. destruct l as [|[]]; simpl; try lia. destruct (Z.even m); lia.
Qed.

Lemma binary_round_aux_not_nan (prec emax : Z) (sx : bool) (mx ex : Z) (lx : location) :
  0 <= mx -> binary_round_aux prec emax sx mx ex lx <> S754_nan.
Proof.
  intros Hm. unfold binary_round_aux.
  pose proof (shr_fexp_nonneg prec emax mx ex lx Hm) as H1.
  destruct (shr_fexp prec emax mx ex lx) as [mrs' e']. simpl in H1.
  pose proof (shr_fexp_nonneg prec emax _ e' loc_Exact
                (round_nearest_even_nonneg _ (loc_of_shr_record mrs') H1)) as H2.
  destruct (shr_fexp prec emax _ e' loc_Exact) as [mrs'' e'']. simpl in H2.
  destruct (shr_m mrs'') as [|p|p]; [discriminate| |lia].
  destruct (e'' <=? emax - prec); discriminate.
Qed.

Lemma binary_normalize_not_nan (prec emax : Z) (m e : Z) (szero : bool) :
  binary_normalize prec emax m e szero <> S754_nan.
Proof.
  unfold binary_normalize, binary_round.
  destruct m as [|p|p]; [discriminate| |];
    destruct (shl_align _ _ _) as [mz ez]; apply binary_round_aux_not_nan; lia.
Qed.

(** The sign of the rounded value is the sign given. *)
Lemma binary_round_aux_opp (prec emax : Z) (mx ex : Z) (lx : location) :
  binary_round_aux prec emax true mx ex lx
  = SFopp (binary_round_aux prec emax false mx ex lx).
Proof.
  unfold binary_round_aux.
  destruct (shr_fexp prec emax mx ex lx) as [mrs' e'].
  destruct (shr_fexp prec emax _ e' loc_Exact) as [mrs'' e''].
  destruct (shr_m mrs''); try reflexivity.
  destruct (e'' <=? emax - prec); reflexivity.
Qed.

Lemma Prim2SF_numberOfZ (z : Z) :
  - 2 ^ 63 < z < 2 ^ 63 ->
  Prim2SF (numberOfZ z) = binary_normalize prec emax z 0 false.
Proof.
  intros Hz. unfold numberOfZ.
  assert (Hpos : forall p, Zpos p < 2 ^ 63 ->
            binary_normalize prec emax (Zpos p) 0 false
            = Prim2SF (of_uint63 (Uint63.of_Z (Zpos p)))).
  { intros p Hp. rewrite of_uint63_spec, Uint63.of_Z_spec.
    rewrite Z.mod_small; [reflexivity|]. change Uint63.wB with (2 ^ 63). lia. }
  destruct z as [|p|p].
  - reflexivity.
  - rewrite Hpos by lia. rewrite SF2Prim_Prim2SF. reflexivity.
  - assert (E : binary_normalize prec emax (Zneg p) 0 false
                = SFopp (binary_normalize prec emax (Zpos p) 0 false)).
    { unfold binary_normalize, binary_round.
      destruct (shl_align _ _ _) as [mz ez]. apply binary_round_aux_opp. }
    rewrite E, Hpos by lia. rewrite <- opp_spec, SF2Prim_Prim2SF. reflexivity.
Qed.

Lemma numberOfZ_notNaN (z : Z) : - 2 ^ 63 < z < 2 ^ 63 -> is_nan (numberOfZ z) = false.
Proof.
  intros Hz. apply notNaN_Prim2SF. rewrite (Prim2SF_numberOfZ z Hz).
  apply binary_normalize_not_nan.
Qed.

(** Adding 1 to a number that is not NaN gives a number that is not NaN. *)
Lemma plus_one_notNaN (x : float) : is_nan x = false -> is_nan (x + 1)%float = false.
Proof.
  intros Hx. apply notNaN_Prim2SF. apply notNaN_Prim2SF in Hx.
  rewrite add_spec. unfold SF64add.
  change (Prim2SF 1) with (S754_finite false 4503599627370496 (-52)).
  destruct (Prim2SF x) as [s|s| |s m e]; simpl; try discriminate; try congruence.
  apply binary_normalize_not_nan.
Qed.

(** ** Plain-text path: the face lines *)

Lemma faceCorners_step (a b c : float) (rest : list float) :
  faceCorners (a :: b :: c :: rest)
  = (plusOne (Some a), plusOne (Some b), plusOne (Some c)) :: faceCorners rest.
Proof. reflexivity. Qed.

(** Induction three elements at a time. *)
Lemma list_ind3 {A : Type} (P : list A -> Prop) :
  P [] -> (forall a, P [a]) -> (forall a b, P [a; b]) ->
  (forall a b c l, P l -> P (a :: b :: c :: l)) ->
  forall l, P l.
Proof.
  intros H0 H1 H2 H3 l.
  assert (H : P l /\ (forall a, P (a :: l)) /\ (forall a b, P (a :: b :: l))).
  { induction l as [|x l (IH0 & IH1 & IH2)]; [auto|].
    split; [apply IH1|]. split; [intros a; apply IH2|]. intros a b. apply H3, IH0. }
  apply H.
Qed.

Lemma faceCorners_length (l : list float) :
  lengthZ (faceCorners l) = (lengthZ l + 2) / 3.
Proof.
  induction l as [|a|a b|a b c l IH] using list_ind3; try reflexivity.
  rewrite faceCorners_step. unfold lengthZ in *. cbn [length].
  rewrite !Nat2Z.inj_succ, IH.
  replace (Z.succ (Z.succ (Z.succ (Z.of_nat (length l)))) + 2)
    with (1 * 3 + (Z.of_nat (length l) + 2)) by lia.
  rewrite Z.div_add_l by lia. lia.
Qed.

(** The last pass of the loop over a list whose length is not a
    multiple of 3 reads past the end. *)
Lemma faceCorners_incomplete (l : list float) :
  lengthZ l mod 3 <> 0 ->
  exists a b, last (faceCorners l) = Some (a, b, nan).
Proof.
  induction l as [|a|a b|a b c l IH] using list_ind3; intros Hm.
  - exfalso. apply Hm. reflexivity.
  - do 2 eexists. reflexivity.
  - do 2 eexists. reflexivity.
  - rewrite faceCorners_step.
    assert (Hm' : lengthZ l mod 3 <> 0).
    { intros E. apply Hm. unfold lengthZ in *. cbn [length]. rewrite !Nat2Z.inj_succ.
      replace (Z.succ (Z.succ (Z.succ (Z.of_nat (length l)))))
        with (Z.of_nat (length l) + 1 * 3) by lia.
      rewrite Z.mod_add by lia. exact E. }
    destruct (IH Hm') as (x & y & Hl). exists x, y.
    destruct (faceCorners l) as [|f fs] eqn:Ef; [discriminate|].
    rewrite last_cons, Hl. reflexivity.
Qed.

Lemma faceCorners_complete (l : list float) :
  lengthZ l mod 3 = 0 ->
  forall a b c, (a, b, c) ∈ faceCorners l ->
    exists x y z, x ∈ l /\ y ∈ l /\ z ∈ l /\
      a = (x + 1)%float /\ b = (y + 1)%float /\ c = (z + 1)%float.
Proof.
  induction l as [|a|a b|a b c l IH] using list_ind3; intros Hm x y z Hin.
  - inversion Hin.
  - discriminate Hm.
  - discriminate Hm.
  - rewrite faceCorners_step in Hin. apply elem_of_cons in Hin as [[= -> -> ->]|Hin].
    + exists a, b, c. split_and!; try reflexivity; set_solver.
    + assert (Hm' : lengthZ l mod 3 = 0).
      { unfold lengthZ in *. cbn [length] in Hm. rewrite !Nat2Z.inj_succ in Hm.
        replace (Z.succ (Z.succ (Z.succ (Z.of_nat (length l)))))
          with (Z.of_nat (length l) + 1 * 3) in Hm by lia.
        rewrite Z.mod_add in Hm by lia. exact Hm. }
      destruct (IH Hm' x y z Hin) as (x' & y' & z' & ? & ? & ? & ? & ? & ?).
      exists x', y', z'. split_and!; try assumption; right; right; right; assumption.
Qed.

Lemma clampCorner_spec (a : float) (n : Z) :
  0 <= n < 2 ^ 63 ->
  (is_nan a = true -> is_nan (clampCorner a n) = true) /\
  (is_nan a = false ->
   (1 <=? clampCorner a n)%float = true /\
   (clampCorner a n <=? Math_max 1 (numberOfZ n))%float = true).
Proof.
  intros Hn. unfold clampCorner.
  assert (HV : notNaN (numberOfZ n)) by (apply numberOfZ_notNaN; lia).
  assert (H1 : notNaN 1) by reflexivity.
  split.
  - intros Ha. apply Math_max_spec. right. apply Math_min_spec. left. exact Ha.
  - intros Ha.
    destruct (proj1 (Math_min_spec a (numberOfZ n)) Ha HV) as (Hm & _ & HmV & _).
    destruct (proj1 (Math_max_spec 1 (Math_min a (numberOfZ n))) H1 Hm)
      as (HA & H1A & HmA & Heq).
    destruct (proj1 (Math_max_spec 1 (numberOfZ n)) H1 HV) as (_ & H1M & HVM & _).
    split; [exact H1A|].
    destruct Heq as [Heq|Heq]; rewrite Heq; [exact H1M|].
    exact (fle_trans _ _ _ HmV HVM).
Qed.

(** ** Integers below 2^53 are numbers *)

Lemma digits2_pos_spec (p : positive) :
  exists k, 0 <= k /\ Zpos (digits2_pos p) = k + 1 /\ 2 ^ k <= Zpos p < 2 ^ (k + 1).
Proof.
  induction p as [p (k & Hk & Hd & Hp)|p (k & Hk & Hd & Hp)|]; simpl digits2_pos.
  - exists (k + 1). rewrite Pos2Z.inj_succ, Hd.
    rewrite !(Z.pow_add_r 2 _ 1) in * by lia. change (2 ^ 1) with 2 in *. lia.
  - exists (k + 1). rewrite Pos2Z.inj_succ, Hd.
    rewrite !(Z.pow_add_r 2 _ 1) in * by lia. change (2 ^ 1) with 2 in *. lia.
  - exists 0. simpl. lia.
Qed.

Lemma digits2_pos_bounds (p : positive) :
  2 ^ (Zpos (digits2_pos p) - 1) <= Zpos p < 2 ^ Zpos (digits2_pos p).
Proof.
  destruct (digits2_pos_spec p) as (k & Hk & -> & Hp).
  replace (k + 1 - 1) with k by lia. exact Hp.
Qed.

Lemma iter_xO_spec (p k : positive) :
  Zpos (Pos.iter xO p k) = Zpos p * 2 ^ Zpos k /\
  digits2_pos (Pos.iter xO p k) = (digits2_pos p + k)%positive.
Proof.
  induction k as [|k IH] using Pos.peano_ind.
  - simpl. split; [lia|]. rewrite Pos.add_1_r. reflexivity.
  - rewrite Pos.iter_succ. destruct IH as [IH1 IH2]. split.
    + rewrite Pos2Z.inj_xO, IH1, Pos2Z.inj_succ, Z.pow_succ_r by lia. lia.
    + simpl. rewrite IH2. lia.
Qed.

Lemma binary_round_aux_exact (sx : bool) (m : positive) (e : Z) :
  Zpos (digits2_pos m) = 53 -> -1074 <= e <= 971 ->
  binary_round_aux prec emax sx (Zpos m) e loc_Exact = S754_finite sx m e.
Proof.
  intros Hd He. unfold binary_round_aux.
  assert (Hs : shr_fexp prec emax (Zpos m) e loc_Exact
               = ({| shr_m := Zpos m; shr_r := false; shr_s := false |}, e)).
  { unfold shr_fexp. simpl Zdigits2. rewrite Hd.
    replace (fexp prec emax (53 + e) - e) with 0; [reflexivity|].
    unfold fexp, emin, prec, emax. lia. }
  rewrite Hs. simpl. rewrite Hs. simpl.
  destruct (Z.leb_spec e (emax - prec)) as [_|H]; [reflexivity|].
  unfold emax, prec in H. lia.
Qed.

(** The number made from a positive integer below 2^53: the integer,
    shifted to a mantissa of 53 bits. *)
Lemma binary_normalize_exact (p : positive) :
  Zpos p < 2 ^ 53 ->
  exists m e,
    binary_normalize prec emax (Zpos p) 0 false = S754_finite false m e /\
    -52 <= e <= 0 /\ Zpos m = Zpos p * 2 ^ (- e).
Proof.
  intros Hp. pose proof (digits2_pos_bounds p) as Hd.
  set (d := Zpos (digits2_pos p)) in *.
  assert (Hd53 : 1 <= d <= 53).
  { split; [subst d; lia|]. destruct (Z_le_gt_dec d 53) as [H|H]; [exact H|exfalso].
    assert (2 ^ 53 <= 2 ^ (d - 1)) by (apply Z.pow_le_mono_r; lia). lia. }
  unfold binary_normalize, binary_round.
  replace (fexp prec emax (Zpos (digits2_pos p) + 0)) with (d - 53)
    by (fold d; unfold fexp, emin, prec, emax; lia).
  unfold shl_align.
  destruct (d - 53 - 0) as [|k|k] eqn:Ek; [| lia |].
  - exists p, 0. split; [|split; [lia|simpl; lia]].
    apply binary_round_aux_exact; [fold d; lia|lia].
  - destruct (iter_xO_spec p k) as [Hv Hdig].
    exists (Pos.iter xO p k), (d - 53). split; [|split; [lia|]].
    + apply binary_round_aux_exact; [|lia].
      rewrite Hdig, Pos2Z.inj_add. fold d. lia.
    + rewrite Hv. f_equal. f_equal. lia.
Qed.

Lemma ToUint32_numberOfZ (z : Z) :
  - 2 ^ 53 < z < 2 ^ 53 -> ToUint32 (numberOfZ z) = z mod 2 ^ 32.
Proof.
  intros Hz. unfold ToUint32.
  rewrite Prim2SF_numberOfZ by lia.
  assert (Hshift : forall (m p : positive) (e : Z),
            -52 <= e <= 0 -> Zpos m = Zpos p * 2 ^ (- e) -> Z.shiftl (Zpos m) e = Zpos p).
  { intros m p e He Hm. rewrite <- (Z.opp_involutive e) at 1.
    rewrite Z.shiftl_opp_r, Z.shiftr_div_pow2, Hm by lia.
    apply Z.div_mul. apply Z.pow_nonzero; lia. }
  destruct z as [|p|p].
  - reflexivity.
  - destruct (binary_normalize_exact p ltac:(lia)) as (m & e & -> & He & Hm).
    rewrite (Hshift m p e He Hm). reflexivity.
  - assert (E : binary_normalize prec emax (Zneg p) 0 false
                = SFopp (binary_normalize prec emax (Zpos p) 0 false)).
    { unfold binary_normalize, binary_round.
      destruct (shl_align _ _ _) as [mz ez]. apply binary_round_aux_opp. }
    rewrite E.
    destruct (binary_normalize_exact p ltac:(lia)) as (m & e & -> & He & Hm).
    simpl SFopp. cbv iota. rewrite (Hshift m p e He Hm). reflexivity.
Qed.

(** ** The index channel *)

Lemma decodeScalar_unsigned (t : Z) (bs : list byte) :
  unsignedType t -> decodeScalar t bs = numberOfZ (leValue bs).
Proof. intros [->|[->| ->]]; reflexivity. Qed.

(** X13.  When [buildGltf] decodes, the index array has as many
    elements as the draw call's count says (none for a count that is
    NaN), and element [i] is [ToUint32] of the scalar read at the index
    buffer's offset in the capture, plus the draw call's index offset,
    plus [i] times the width of the index type.  For an unsigned index
    type the element is the little-endian value of those bytes. *)
Theorem buildGltf_index_channel dv selected options g :
  buildGltf dv selected options = Ok g ->
  let draw := sel_draw selected in
  let t := draw_indexTypeEnum draw in
  let w := componentWidth t in
  exists idxBuf n,
    indexBuffer draw (sel_buffersById selected) = Some idxBuf /\
    (draw_count draw = JsInt n \/ (draw_count draw = JsNaN /\ n = 0)) /\
    0 <= n /\
    lengthZ (g_indices g) = n /\
    bytesPerComponent t = Ok w /\
    forall i, 0 <= i < n ->
      let address := buf_binOffset idxBuf + orZero (draw_indexOffset draw) + i * w in
      exists raw,
        readScalar dv address t = Ok raw /\
        g_indices g !! Z.to_nat i = Some (ToUint32 raw) /\
        (unsignedType t ->
         raw = numberOfZ (leValue (take (Z.to_nat w) (drop (Z.to_nat address) dv))) /\
         ToUint32 raw = leValue (take (Z.to_nat w) (drop (Z.to_nat address) dv))).
Proof.
  intros (posA & posBuf & idxBuf & Hc & Hidx & Hok & ->)%buildGltf_Ok_inv draw t w.
  destruct Hc as (_ & _ & Hi). destruct Hok as ([Hcount Hreads] & _).
  exists idxBuf, (indexLength (draw_count draw)).
  split; [exact Hi|].
  assert (Hn : 0 <= indexLength (draw_count draw)).
  { fold draw in Hcount. destruct (draw_count draw); simpl in *; try lia; contradiction. }
  split.
  { fold draw in Hcount. destruct (draw_count draw); simpl in *; try contradiction; auto. }
  split; [exact Hn|]. split.
  { unfold gltfValue, objValue. cbn [g_indices o_indices]. unfold lengthZ.
    rewrite !length_fmap, length_upTo. fold draw. lia. }
  split; [apply bytesPerComponent_supported, Hidx|].
  intros i Hi' address.
  specialize (Hreads i Hi'). fold draw t w in Hreads.
  unfold indexAddress in Hreads. fold draw t w address in Hreads.
  exists (indexAt dv draw idxBuf i). split; [apply readScalar_inBounds; assumption|]. split.
  { unfold gltfValue, objValue. cbn [g_indices o_indices]. fold draw.
    rewrite list_lookup_fmap, (lookup_fmap_upTo _ _ i Hi'). reflexivity. }
  intros Hu. unfold indexAt, indexAddress. fold draw t w address.
  rewrite (decodeScalar_unsigned _ _ Hu). split; [reflexivity|].
  pose proof (leValue_take (Z.to_nat w) (drop (Z.to_nat address) dv)) as Hr.
  pose proof (componentWidth_range t) as Hw. fold w in Hw.
  assert (256 ^ Z.of_nat (Z.to_nat w) <= 256 ^ 4) by (apply Z.pow_le_mono_r; lia).
  change (256 ^ 4) with (2 ^ 32) in *.
  rewrite ToUint32_numberOfZ by lia. apply Z.mod_small. lia.
Qed.

(** X13 on the sample capture. *)
Lemma buildGltf_index_channel_witness :
  exists raw,
    readScalar Sample.bin (38 + 0 + 1 * 2) 5123 = Ok raw /\
    g_indices Sample.gltfIdentity !! 1%nat = Some (ToUint32 raw) /\
    ToUint32 raw = 1.
Proof.
  assert (Hg : buildGltf Sample.bin Sample.selected Sample.identity = Ok Sample.gltfIdentity)
    by (vm_compute; reflexivity).
  destruct (buildGltf_index_channel _ _ _ _ Hg) as (idxBuf & n & Hi & Hn & _ & Hlen & _ & Hall).
  assert (E : idxBuf = {| buf_id := 4; buf_binOffset := 38; buf_byteLength := 6 |})
    by (vm_compute in Hi; congruence).
  assert (En : n = 3) by (rewrite <- Hlen; reflexivity).
  subst idxBuf n.
  destruct (Hall 1 ltac:(lia)) as (raw & Hr & Hl & Hu).
  exists raw. split; [exact Hr|]. split; [exact Hl|].
  destruct Hu as [_ Hu]; [right; left; reflexivity|]. rewrite Hu. reflexivity.
Defined.

(** ** Plain-text path: counts and corners of the face lines *)

(** An integer scalar is a number. *)
Lemma decodeScalar_integer_notNaN (t : Z) (bs : list byte) :
  supported t -> t <> 5126 -> (length bs <= 4)%nat -> is_nan (decodeScalar t bs) = false.
Proof.
  intros Hs Ht Hlen.
  pose proof (leValue_range bs) as Hr.
  assert (256 ^ Z.of_nat (length bs) <= 256 ^ 4) by (apply Z.pow_le_mono_r; lia).
  change (256 ^ 4) with 4294967296 in *.
  destruct (supported_cases t Hs) as [->|[->|[->|[->|[->|[->| ->]]]]]];
    try congruence; unfold decodeScalar; simpl; apply numberOfZ_notNaN;
    unfold toSigned;
    repeat match goal with |- context [if ?b then _ else _] => destruct b end;
    try change (componentWidth 5120) with 1; try change (componentWidth 5122) with 2;
    try change (componentWidth 5124) with 4;
    change (2 ^ 63) with 9223372036854775808; simpl; lia.
Qed.

Lemma buildObj_counts dv selected options o :
  buildObj dv selected options = Ok o ->
  exists n,
    draw_count (sel_draw selected) = JsInt n /\ 0 <= n < 2 ^ 32 /\
    lengthZ (o_indices o) = n /\
    0 <= lengthZ (o_vertices o) < 2 ^ 32 /\
    (draw_indexTypeEnum (sel_draw selected) <> 5126 ->
     forall x, x ∈ o_indices o -> is_nan x = false).
Proof.
  intros (posA & posBuf & idxBuf & Hc & Hidx & Hok & [Hv Hcnt] & ->)%buildObj_Ok_inv.
  destruct Hok as ([Hcount _] & [Hn _] & _).
  destruct (draw_count (sel_draw selected)) as [| |n|] eqn:Ec; try discriminate Hcnt.
  simpl in Hcount, Hcnt. apply Z.ltb_lt in Hcnt.
  exists n. split; [reflexivity|]. split; [lia|].
  unfold objValue. cbn [o_indices o_vertices]. rewrite Ec. simpl indexLength.
  unfold lengthZ. rewrite !length_fmap, !length_upTo. split; [lia|]. split; [lia|].
  intros Ht x (i & -> & _)%list_elem_of_fmap. unfold indexAt.
  apply decodeScalar_integer_notNaN; try assumption.
  rewrite length_take. pose proof (componentWidth_range (draw_indexTypeEnum (sel_draw selected))).
  lia.
Qed.

(** X14.  The text of [buildObj] has one [f] line for every
    started triple of indices, that is the index count plus 2, divided
    by 3, while its header reports the index count divided by 3: the two
    agree exactly when the index count is a multiple of 3.  Otherwise
    the last [f] line has a corner that is NaN.  Every [f] line has the
    form that the decoded channels call for. *)
Theorem buildObj_face_lines dv selected options o :
  buildObj dv selected options = Ok o ->
  let text := objText o in
  exists n,
    draw_count (sel_draw selected) = JsInt n /\ 0 <= n < 2 ^ 32 /\
    ot_indices text = n /\
    ot_triangles text = n / 3 /\
    lengthZ (ot_f text) = (n + 2) / 3 /\
    (lengthZ (ot_f text) = ot_triangles text <-> n mod 3 = 0) /\
    (n mod 3 <> 0 ->
     exists f, last (ot_f text) = Some f /\ is_nan (face_C f) = true) /\
    (forall f, f ∈ ot_f text ->
       face_style f = match o_uvs o, o_normals o with
                      | Some _, Some _ => FaceVTN
                      | Some _, None => FaceVT
                      | None, Some _ => FaceVN
                      | None, None => FaceV
                      end).
Proof.
  intros Ho text. destruct (buildObj_counts _ _ _ _ Ho) as (n & Hc & Hn & Hlen & Hv & _).
  exists n. split; [exact Hc|]. split; [exact Hn|].
  subst text. unfold objText. cbn [ot_indices ot_triangles ot_f].
  split; [exact Hlen|]. split; [rewrite Hlen; reflexivity|].
  assert (Hf : lengthZ ((fun '(a, b, c) =>
                  {| face_style := faceStyleOf (bool_decide (is_Some (o_uvs o)))
                                               (bool_decide (is_Some (o_normals o)));
                     face_A := clampCorner a (lengthZ (o_vertices o));
                     face_B := clampCorner b (lengthZ (o_vertices o));
                     face_C := clampCorner c (lengthZ (o_vertices o)) |})
                <$> faceCorners (o_indices o)) = (n + 2) / 3).
  { unfold lengthZ at 1. rewrite length_fmap. fold (lengthZ (faceCorners (o_indices o))).
    rewrite faceCorners_length, Hlen. reflexivity. }
  split; [exact Hf|]. split; [rewrite Hf, Hlen; Z.div_mod_to_equations; lia|]. split.
  - intros Hm. rewrite <- Hlen in Hm.
    destruct (faceCorners_incomplete _ Hm) as (a & b & Hl).
    eexists. rewrite fmap_last, Hl. split; [reflexivity|]. simpl.
    apply clampCorner_spec; [lia|reflexivity].
  - intros f ([[a b] c] & -> & _)%list_elem_of_fmap. simpl.
    destruct (o_uvs o), (o_normals o); reflexivity.
Qed.

(** X15.  Every corner of an [f] line is NaN or lies between 1
    and the greater of 1 and the vertex count.  With an integer index
    type and an index count that is a multiple of 3, no corner is NaN. *)
Theorem buildObj_face_corners dv selected options o :
  buildObj dv selected options = Ok o ->
  forall f c, f ∈ ot_f (objText o) -> c ∈ [face_A f; face_B f; face_C f] ->
    (is_nan c = true \/
     ((1 <=? c)%float = true /\
      (c <=? Math_max 1 (numberOfZ (lengthZ (o_vertices o))))%float = true)) /\
    (draw_indexTypeEnum (sel_draw selected) <> 5126 ->
     lengthZ (o_indices o) mod 3 = 0 ->
     is_nan c = false).
Proof.
  intros Ho f c Hf Hc. destruct (buildObj_counts _ _ _ _ Ho) as (n & _ & _ & _ & Hv & Hidx).
  unfold objText in Hf. cbn [ot_f] in Hf.
  apply list_elem_of_fmap in Hf as ([[a b] c'] & -> & Hin). cbn [face_A face_B face_C] in Hc.
  assert (Hclamp : forall x, (x = a \/ x = b \/ x = c') ->
            c = clampCorner x (lengthZ (o_vertices o)) ->
            (is_nan c = true \/
             ((1 <=? c)%float = true /\
              (c <=? Math_max 1 (numberOfZ (lengthZ (o_vertices o))))%float = true)) /\
            (is_nan x = false -> is_nan c = false)).
  { intros x _ ->.
    destruct (clampCorner_spec x (lengthZ (o_vertices o)) ltac:(lia)) as [H1 H2].
    destruct (is_nan x) eqn:Ex.
    - split; [left; apply H1; reflexivity|discriminate].
    - destruct (H2 eq_refl) as [Hlo Hhi]. split; [right; split; assumption|].
      intros _. apply (fle_notNaN _ _ Hlo). }
  assert (Hx : exists x, (x = a \/ x = b \/ x = c') /\
                         c = clampCorner x (lengthZ (o_vertices o))).
  { rewrite !elem_of_cons in Hc. destruct Hc as [->|[->|[->|Hc]]]; [eauto..|inversion Hc]. }
  destruct Hx as (x & Hx & Ec). destruct (Hclamp x Hx Ec) as [H1 H2].
  split; [exact H1|]. intros Ht Hm. apply H2.
  destruct (faceCorners_complete _ Hm a b c' Hin) as (x' & y' & z' & Hx' & Hy' & Hz' & -> & -> & ->).
  destruct Hx as [->|[->| ->]]; apply plus_one_notNaN, (Hidx Ht); assumption.
Qed.

(** X15 on the sample capture: no corner is NaN. *)
Lemma buildObj_face_corners_witness :
  Forall (fun f => is_nan (face_A f) = false /\ is_nan (face_B f) = false
                   /\ is_nan (face_C f) = false)
         (ot_f (objText Sample.objIdentity)).
Proof.
  assert (Ho : buildObj Sample.bin Sample.selected Sample.identity = Ok Sample.objIdentity)
    by (vm_compute; reflexivity).
  apply Forall_forall. intros f Hf.
  assert (H : forall c, c ∈ [face_A f; face_B f; face_C f] -> is_nan c = false).
  { intros c Hc.
    apply (buildObj_face_corners _ _ _ _ Ho f c Hf Hc); [discriminate|reflexivity]. }
  split_and!; apply H; rewrite !elem_of_cons; auto.
Defined.

(** X14 on the sample capture. *)
Lemma buildObj_face_lines_witness :
  exists n,
    draw_count (sel_draw Sample.selected) = JsInt n /\
    lengthZ (ot_f (objText Sample.objIdentity)) = (n + 2) / 3.
Proof.
  assert (Ho : buildObj Sample.bin Sample.selected Sample.identity = Ok Sample.objIdentity)
    by (vm_compute; reflexivity).
  destruct (buildObj_face_lines _ _ _ _ Ho) as (n & Hc & _ & _ & _ & Hf & _).
  exists n. split; assumption.
Defined.

(** ** The container of a built scene *)

Lemma buildGlb_Ok (jsonBytes bin : list byte) :
  let jsonPadded := padTo4 jsonBytes x20 in
  let binPadded := padTo4 bin x00 in
  buildGlb jsonBytes bin
  = Ok (u32le 0x46546C67 ++ u32le 2
        ++ u32le (12 + 8 + lengthZ jsonPadded + 8 + lengthZ binPadded)
        ++ u32le (lengthZ jsonPadded) ++ u32le 0x4E4F534A ++ jsonPadded
        ++ u32le (lengthZ binPadded) ++ u32le 0x004E4942 ++ binPadded).
Proof.
  intros jp bp.
  assert (Hjp : 0 <= lengthZ jp) by (unfold lengthZ; lia).
  assert (Hbp : 0 <= lengthZ bp) by (unfold lengthZ; lia).
  unfold buildGlb. cbv zeta. fold jp bp.
  set (total := 12 + 8 + lengthZ jp + 8 + lengthZ bp).
  change (replicate (Z.to_nat total) x00) with ([] ++ replicate (Z.to_nat total) x00).
  unfold setUint32.
  assert (Htotal : Z.to_nat total = (28 + length jp + length bp)%nat)
    by (subst total; unfold lengthZ; lia).
  rewrite Htotal.
  do 9 glb_step.
  rewrite !length_u32le.
  match goal with
  | |- Ok (_ ++ replicate ?n _) = _ => replace n with 0%nat by (unfold lengthZ; lia)
  end.
  cbn [replicate]. rewrite app_nil_r, app_nil_l, <- !app_assoc. reflexivity.
Qed.

Lemma padTo4_aligned (bytes : list byte) (padByte : byte) :
  lengthZ bytes mod 4 = 0 -> padTo4 bytes padByte = bytes.
Proof. intros H. unfold padTo4. rewrite H. reflexivity. Qed.

Lemma packGltf_bin_aligned (engine : NanChoice) (g : GltfGeometry) :
  lengthZ (uint32Bytes (g_indices g) ++ float32Bytes (engine "positions") (g_positions g)
           ++ default [] (float32Bytes (engine "normals") <$> g_normals g)
           ++ default [] (float32Bytes (engine "uvs") <$> g_uvs g)) mod 4 = 0.
Proof.
  rewrite !lengthZ_app, lengthZ_uint32Bytes, lengthZ_float32Bytes.
  destruct (g_normals g) as [n|], (g_uvs g) as [u|]; simpl; rewrite ?lengthZ_float32Bytes;
    change (lengthZ []) with 0.
  - replace (4 * lengthZ (g_indices g) + (4 * lengthZ (g_positions g)
                                           + (4 * lengthZ n + 4 * lengthZ u)))
      with ((lengthZ (g_indices g) + lengthZ (g_positions g) + lengthZ n + lengthZ u) * 4)
      by lia.
    apply Z.mod_mul; lia.
  - replace (4 * lengthZ (g_indices g) + (4 * lengthZ (g_positions g)
                                           + (4 * lengthZ n + 0)))
      with ((lengthZ (g_indices g) + lengthZ (g_positions g) + lengthZ n) * 4) by lia.
    apply Z.mod_mul; lia.
  - replace (4 * lengthZ (g_indices g) + (4 * lengthZ (g_positions g)
                                           + (0 + 4 * lengthZ u)))
      with ((lengthZ (g_indices g) + lengthZ (g_positions g) + lengthZ u) * 4) by lia.
    apply Z.mod_mul; lia.
  - replace (4 * lengthZ (g_indices g) + (4 * lengthZ (g_positions g) + (0 + 0)))
      with ((lengthZ (g_indices g) + lengthZ (g_positions g)) * 4) by lia.
    apply Z.mod_mul; lia.
Qed.

(** The container of a scene that [packGltf] returns. *)
Lemma buildGlbFrom_packed jsonText engine iso g built :
  packGltf engine iso g = Returns built ->
  let json := glbJson built in
  let jsonPadded := padTo4 (jsonText json) x20 in
  let bin := binU8 built in
  doc_buffers json = [ {| gb_uri := None; gb_byteLength := lengthZ bin |} ] /\
  doc_bufferViews json = doc_bufferViews (gltfJsonObj built) /\
  doc_accessors json = doc_accessors (gltfJsonObj built) /\
  doc_meshes json = doc_meshes (gltfJsonObj built) /\
  lengthZ bin mod 4 = 0 /\
  buildGlbFrom jsonText built
  = Ok (u32le 0x46546C67 ++ u32le 2
        ++ u32le (12 + 8 + lengthZ jsonPadded + 8 + lengthZ bin)
        ++ u32le (lengthZ jsonPadded) ++ u32le 0x4E4F534A ++ jsonPadded
        ++ u32le (lengthZ bin) ++ u32le 0x004E4942 ++ bin).
Proof.
  intros Hpack.
  destruct (packGltf_Returns engine iso g) as (built' & Hb & Hbin & _ & _ & Hbuf & _).
  rewrite Hpack in Hb. injection Hb as <-.
  assert (Hal : lengthZ (binU8 built) mod 4 = 0)
    by (rewrite Hbin; apply packGltf_bin_aligned).
  cbv zeta. unfold glbJson. rewrite Hbuf.
  cbn [doc_buffers doc_bufferViews doc_accessors doc_meshes].
  split; [reflexivity|]. split; [reflexivity|]. split; [reflexivity|].
  split; [reflexivity|]. split; [exact Hal|].
  unfold buildGlbFrom, glbJson. rewrite Hbuf, buildGlb_Ok.
  rewrite (padTo4_aligned (binU8 built) x00 Hal). reflexivity.
Qed.

(** X16.  [buildGlb] on a scene that [buildGltf] returned does
    not fail.  The JSON it serializes is the scene with the [uri] of its
    buffer removed and the buffer's [byteLength] set to the length of
    the binary buffer; the binary buffer is a multiple of 4 long, so the
    binary chunk is the buffer itself, without padding, and its length
    field is the [byteLength] that the JSON states. *)
Theorem buildGlbFrom_container jsonText engine iso dv selected options built :
  buildGltfFile engine iso dv selected options = Returns built ->
  let json := glbJson built in
  let jsonPadded := padTo4 (jsonText json) x20 in
  let bin := binU8 built in
  doc_buffers json = [ {| gb_uri := None; gb_byteLength := lengthZ bin |} ] /\
  doc_bufferViews json = doc_bufferViews (gltfJsonObj built) /\
  doc_accessors json = doc_accessors (gltfJsonObj built) /\
  doc_meshes json = doc_meshes (gltfJsonObj built) /\
  lengthZ bin mod 4 = 0 /\
  buildGlbFrom jsonText built
  = Ok (u32le 0x46546C67 ++ u32le 2
        ++ u32le (12 + 8 + lengthZ jsonPadded + 8 + lengthZ bin)
        ++ u32le (lengthZ jsonPadded) ++ u32le 0x4E4F534A ++ jsonPadded
        ++ u32le (lengthZ bin) ++ u32le 0x004E4942 ++ bin).
Proof.
  intros (g & _ & Hpack)%buildGltfFile_Returns.
  exact (buildGlbFrom_packed jsonText engine iso g built Hpack).
Qed.

(** X16 on the sample capture. *)
Lemma buildGlbFrom_container_witness :
  exists built,
    buildGltfFile quietNaN "2024-01-02T03:04:05.678Z" Sample.bin Sample.selected Sample.identity
    = Returns built /\
    lengthZ (binU8 built) mod 4 = 0 /\
    exists glb, buildGlbFrom (fun _ => [x7b; x7d]) built = Ok glb.
Proof.
  assert (H : exists built,
             buildGltfFile quietNaN "2024-01-02T03:04:05.678Z" Sample.bin Sample.selected Sample.identity
             = Returns built) by (vm_compute; eexists; reflexivity).
  destruct H as [built H]. exists built. split; [exact H|].
  destruct (buildGlbFrom_container (fun _ => [x7b; x7d]) _ _ _ _ _ _ H)
    as (_ & _ & _ & _ & Hal & Hglb).
  split; [exact Hal|]. eexists. exact Hglb.
Defined.

(** ** File names *)

Lemma list_ascii_of_string_app (a b : string) :
  list_ascii_of_string (a +:+ b) = list_ascii_of_string a ++ list_ascii_of_string b.
Proof. induction a as [|c a IH]; simpl; [reflexivity|]. rewrite IH. reflexivity. Qed.

Lemma string_of_list_ascii_app (a b : list ascii) :
  string_of_list_ascii (a ++ b) = string_of_list_ascii a +:+ string_of_list_ascii b.
Proof. induction a as [|c a IH]; simpl; [reflexivity|]. rewrite IH. reflexivity. Qed.

Lemma replaceGltfExt_gltf (base : string) :
  replaceGltfExt (base +:+ ".gltf") = base +:+ ".glb".
Proof.
  unfold replaceGltfExt. cbv zeta.
  rewrite list_ascii_of_string_app, length_app.
  change (length (list_ascii_of_string ".gltf")) with 5%nat.
  replace (length (list_ascii_of_string base) + 5 - 5)%nat
    with (length (list_ascii_of_string base) + 0)%nat by lia.
  rewrite drop_app_add, take_app_add. simpl drop. simpl take. rewrite app_nil_r.
  rewrite bool_decide_eq_true_2 by reflexivity.
  rewrite string_of_list_ascii_app, string_of_list_ascii_of_string. reflexivity.
Qed.

Lemma stampOf_chars (iso : string) :
  String.length (stampOf iso) = String.length iso /\
  Forall (fun c => c <> ":"%char /\ c <> "."%char) (list_ascii_of_string (stampOf iso)).
Proof.
  unfold stampOf. rewrite list_ascii_of_string_of_list_ascii.
  induction iso as [|c iso [IH1 IH2]]; simpl; [split; [reflexivity|constructor]|].
  split; [f_equal; exact IH1|]. constructor; [|exact IH2].
  destruct (Ascii.eqb_spec c ":") as [->|H1]; simpl; [split; discriminate|].
  destruct (Ascii.eqb_spec c ".") as [->|H2]; simpl; [split; discriminate|].
  split; assumption.
Qed.

(** X17.  The file names of a built scene are [mesh_], the time
    stamp and the extension ([.gltf], [.bin]); the buffer of the scene
    refers to the [.bin] name; the name the worker gives the container
    is the same with [.glb].  The stamp is as long as the clock reading
    and has neither a colon nor a full stop. *)
Theorem buildGltfFile_names engine iso dv selected options built :
  buildGltfFile engine iso dv selected options = Returns built ->
  let stamp := stampOf iso in
  filenames_gltf built = ("mesh_" +:+ stamp +:+ ".gltf")%string /\
  filenames_bin built = ("mesh_" +:+ stamp +:+ ".bin")%string /\
  (exists b, doc_buffers (gltfJsonObj built) = [b] /\ gb_uri b = Some (filenames_bin built)) /\
  replaceGltfExt (filenames_gltf built) = ("mesh_" +:+ stamp +:+ ".glb")%string /\
  String.length stamp = String.length iso /\
  Forall (fun c => c <> ":"%char /\ c <> "."%char) (list_ascii_of_string stamp).
Proof.
  intros (g & _ & Hpack)%buildGltfFile_Returns stamp.
  destruct (packGltf_Returns engine iso g) as (built' & Hb & _ & Hg & Hn & Hbuf & _).
  rewrite Hpack in Hb. injection Hb as <-.
  split; [exact Hg|]. split; [exact Hn|]. split; [eexists; split; [exact Hbuf|reflexivity]|].
  split.
  - rewrite Hg. apply (replaceGltfExt_gltf ("mesh_" +:+ stampOf iso)).
  - apply stampOf_chars.
Qed.

(** X17 on the sample capture. *)
Lemma buildGltfFile_names_witness :
  exists built,
    buildGltfFile quietNaN "2024-01-02T03:04:05.678Z" Sample.bin Sample.selected Sample.identity
    = Returns built /\
    replaceGltfExt (filenames_gltf built) = "mesh_2024-01-02T03-04-05-678Z.glb"%string.
Proof.
  assert (H : exists built,
             buildGltfFile quietNaN "2024-01-02T03:04:05.678Z" Sample.bin Sample.selected Sample.identity
             = Returns built) by (vm_compute; eexists; reflexivity).
  destruct H as [built H]. exists built. split; [exact H|].
  destruct (buildGltfFile_names _ _ _ _ _ _ H) as (_ & _ & _ & Hr & _). exact Hr.
Defined.

(** ** The worker *)

Lemma buildAndPost_reply jsonText now st json bin selected options purpose :
  w_captureJson st = Some json -> w_captureBin st = Some bin ->
  w_selected st = Some selected ->
  match buildGltf bin selected options with
  | Err e => buildAndPost jsonText now st options purpose = [ErrorOut (MessageOf (Raised e))]
  | Ok g =>
      exists built glb,
        buildGltfFile (nanChoice now) (clock now) bin selected options = Returns built /\
        buildGlbFrom jsonText built = Ok glb /\
        buildAndPost jsonText now st options purpose
        = [builtReply purpose selected glb ("mesh_" +:+ stampOf (clock now) +:+ ".glb")]
  end.
Proof.
  intros Hj Hb Hs. unfold buildAndPost. rewrite Hj, Hb, Hs.
  unfold buildGltfFile. destruct (buildGltf bin selected options) as [g|e]; [|reflexivity].
  cbn [ofResult mbind Outcome_bind].
  destruct (packGltf_Returns (nanChoice now) (clock now) g)
    as (built & Hpack & _ & Hname & _).
  destruct (buildGlbFrom_packed jsonText (nanChoice now) (clock now) g built Hpack)
    as (_ & _ & _ & _ & _ & Hglb).
  exists built. eexists. split; [exact Hpack|]. split; [exact Hglb|].
  rewrite Hpack. cbn [mbind Outcome_bind]. rewrite Hglb. cbn [ofResult mbind Outcome_bind].
  rewrite Hname.
  change (replaceGltfExt ("mesh_" +:+ stampOf (clock now) +:+ ".gltf"))
    with (replaceGltfExt (("mesh_" +:+ stampOf (clock now)) +:+ ".gltf")).
  rewrite replaceGltfExt_gltf. reflexivity.
Qed.

Lemma missingCapture_false st json bin selected :
  w_captureJson st = Some json -> w_captureBin st = Some bin ->
  w_selected st = Some selected -> missingCapture st = false.
Proof. intros Hj Hb Hs. unfold missingCapture. rewrite Hj, Hb, Hs. reflexivity. Qed.

Lemma missingCapture_inv st :
  missingCapture st = false ->
  exists json bin selected,
    w_captureJson st = Some json /\ w_captureBin st = Some bin /\
    w_selected st = Some selected.
Proof.
  unfold missingCapture.
  destruct (w_captureJson st) as [json|], (w_captureBin st) as [bin|],
           (w_selected st) as [selected|]; try discriminate.
  intros _. eauto 6.
Qed.

Lemma buildAndPost_one jsonText now st json bin selected options purpose :
  w_captureJson st = Some json -> w_captureBin st = Some bin ->
  w_selected st = Some selected ->
  exists m, buildAndPost jsonText now st options purpose = [m].
Proof.
  intros Hj Hb Hs.
  pose proof (buildAndPost_reply jsonText now st json bin selected options purpose Hj Hb Hs) as H.
  destruct (buildGltf bin selected options) as [g|e].
  - destruct H as (built & glb & _ & _ & ->). eauto.
  - rewrite H. eauto.
Qed.

Lemma buildPreviewOrSkip_eq jsonText now st json bin selected options :
  w_captureJson st = Some json -> w_captureBin st = Some bin ->
  w_selected st = Some selected ->
  buildPreviewOrSkip jsonText now st options
  = if MAX_PREVIEW_BYTES <? lengthZ bin then [skippedReply selected (lengthZ bin)]
    else buildAndPost jsonText now st options Preview.
Proof. intros Hj Hb Hs. unfold buildPreviewOrSkip. rewrite Hj, Hb, Hs. reflexivity. Qed.

Lemma onmessage_one jsonText now st data :
  exists m, snd (onmessage jsonText now st data) = [m].
Proof.
  assert (Hprev : forall st' options,
             missingCapture st' = false ->
             exists m, buildPreviewOrSkip jsonText now st' options = [m]).
  { intros st' options (json & bin & selected & Hj & Hb & Hs)%missingCapture_inv.
    rewrite (buildPreviewOrSkip_eq _ _ _ _ _ _ _ Hj Hb Hs).
    destruct (MAX_PREVIEW_BYTES <? lengthZ bin); [eauto|].
    exact (buildAndPost_one _ _ _ _ _ _ _ _ Hj Hb Hs). }
  destruct data as [json bin options|json bin|options|options]; cbn [onmessage w_selected].
  - destruct (pickMainDrawCall json) as [selected|] eqn:Hs; cbn [snd]; [|unfold postError; eauto].
    apply Hprev. reflexivity.
  - destruct (pickMainDrawCall json) as [selected|]; cbn [snd]; unfold postError; eauto.
  - destruct (missingCapture st) eqn:Hm; cbn [snd]; [unfold postError; eauto|].
    apply Hprev, Hm.
  - destruct (missingCapture st) eqn:Hm; cbn [snd]; [unfold postError; eauto|].
    apply missingCapture_inv in Hm as (json & bin & selected & Hj & Hb & Hs).
    exact (buildAndPost_one _ _ _ _ _ _ _ _ Hj Hb Hs).
Qed.

Lemma onmessage_state jsonText now st data :
  fst (onmessage jsonText now st data)
  = match data with
    | LoadMessage json bin _ => holding (json, bin)
    | StoreMessage json bin => holding (json, bin)
    | _ => st
    end.
Proof.
  destruct data as [json bin options|json bin|options|options]; cbn [onmessage w_selected].
  - unfold holding. cbn [fst snd]. destruct (pickMainDrawCall json); reflexivity.
  - unfold holding. cbn [fst snd]. destruct (pickMainDrawCall json); reflexivity.
  - destruct (missingCapture st); reflexivity.
  - destruct (missingCapture st); reflexivity.
Qed.

Lemma runWorker_cons jsonText st now data inbox :
  runWorker jsonText st ((now, data) :: inbox)
  = (fst (runWorker jsonText (fst (onmessage jsonText now st data)) inbox),
     snd (onmessage jsonText now st data)
     :: snd (runWorker jsonText (fst (onmessage jsonText now st data)) inbox)).
Proof.
  cbn [runWorker]. destruct (onmessage jsonText now st data) as [st' out].
  cbn [fst snd]. destruct (runWorker jsonText st' inbox) as [st'' outs]. reflexivity.
Qed.

Lemma runWorker_final jsonText inbox : forall st acc,
  st = match acc with Some c => holding c | None => initialWorker end ->
  fst (runWorker jsonText st inbox)
  = match foldl (fun acc m => match snd m with
                              | LoadMessage json bin _ => Some (json, bin)
                              | StoreMessage json bin => Some (json, bin)
                              | _ => acc
                              end) acc inbox with
    | Some c => holding c
    | None => initialWorker
    end.
Proof.
  induction inbox as [|[now data] inbox IH]; intros st acc Hst; [exact Hst|].
  rewrite runWorker_cons. cbn [fst foldl snd]. apply IH.
  rewrite onmessage_state. destruct data; try reflexivity; exact Hst.
Qed.

Lemma runWorker_replies jsonText inbox : forall st,
  length (snd (runWorker jsonText st inbox)) = length inbox /\
  Forall (fun out => exists m, out = [m]) (snd (runWorker jsonText st inbox)).
Proof.
  induction inbox as [|[now data] inbox IH]; intros st; [split; [reflexivity|constructor]|].
  rewrite runWorker_cons. cbn [snd length].
  destruct (IH (fst (onmessage jsonText now st data))) as [IH1 IH2].
  split; [f_equal; exact IH1|]. constructor; [apply onmessage_one|exact IH2].
Qed.

(** X18.  After any sequence of messages the worker holds the
    capture of the most recent [load] or [store] message, with the
    selection [pickMainDrawCall] makes in it (also when it makes none),
    and nothing when there was no such message.  The worker posts
    exactly one message for every message it receives. *)
Theorem runWorker_state jsonText inbox :
  let run := runWorker jsonText initialWorker inbox in
  fst run = match lastCapture inbox with
            | Some c => holding c
            | None => initialWorker
            end /\
  length (snd run) = length inbox /\
  Forall (fun out => exists m, out = [m]) (snd run).
Proof.
  split; [apply (runWorker_final jsonText inbox initialWorker None); reflexivity|].
  apply runWorker_replies.
Qed.

(** X19.  With a capture and a selection in place, [download]
    and [rebuild] leave the state as it is.  Both reply with the message
    of the exception when the decode throws, and otherwise with the
    container of the built scene, the summary and the [.glb] file name,
    the same for both apart from the purpose; except that [rebuild]
    replies with a skipped preview, carrying the summary only, when the
    capture is longer than 200 MiB.  [download] is never skipped. *)
Theorem onmessage_build_reply jsonText now st json bin selected options :
  w_captureJson st = Some json -> w_captureBin st = Some bin ->
  w_selected st = Some selected ->
  exists replyFor : Purpose -> OutgoingMessage,
    onmessage jsonText now st (DownloadMessage options) = (st, [replyFor Download]) /\
    onmessage jsonText now st (RebuildMessage options)
    = (st, [if MAX_PREVIEW_BYTES <? lengthZ bin
            then skippedReply selected (lengthZ bin)
            else replyFor Preview]) /\
    match buildGltf bin selected options with
    | Err e => forall p, replyFor p = ErrorOut (MessageOf (Raised e))
    | Ok g =>
        exists built glb,
          buildGltfFile (nanChoice now) (clock now) bin selected options = Returns built /\
          buildGlbFrom jsonText built = Ok glb /\
          forall p, replyFor p
                    = builtReply p selected glb ("mesh_" +:+ stampOf (clock now) +:+ ".glb")
    end.
Proof.
  intros Hj Hb Hs.
  pose proof (fun p => buildAndPost_reply jsonText now st json bin selected options p Hj Hb Hs)
    as Hreply.
  cbn [onmessage]. rewrite (missingCapture_false _ _ _ _ Hj Hb Hs).
  rewrite (buildPreviewOrSkip_eq _ _ _ _ _ _ _ Hj Hb Hs).
  destruct (buildGltf bin selected options) as [g|e].
  - destruct (Hreply Download) as (built & glb & Hbuilt & Hglb & _).
    exists (fun p => builtReply p selected glb ("mesh_" +:+ stampOf (clock now) +:+ ".glb")).
    assert (Hall : forall p, buildAndPost jsonText now st options p
                   = [builtReply p selected glb ("mesh_" +:+ stampOf (clock now) +:+ ".glb")]).
    { intros p. destruct (Hreply p) as (built' & glb' & Hbuilt' & Hglb' & ->).
      rewrite Hbuilt in Hbuilt'. injection Hbuilt' as <-.
      rewrite Hglb in Hglb'. injection Hglb' as <-. reflexivity. }
    rewrite !Hall. split; [reflexivity|].
    split; [destruct (MAX_PREVIEW_BYTES <? lengthZ bin); reflexivity|].
    exists built, glb. split; [exact Hbuilt|]. split; [exact Hglb|]. reflexivity.
  - exists (fun _ => ErrorOut (MessageOf (Raised e))). rewrite !Hreply.
    split; [reflexivity|].
    split; [destruct (MAX_PREVIEW_BYTES <? lengthZ bin); reflexivity|]. reflexivity.
Qed.

(** X19 on the sample capture: one reply to [download]. *)
Lemma onmessage_build_reply_witness :
  exists m,
    onmessage (fun _ => [x7b; x7d]) sampleMoment
              (holding (Sample.json, Sample.bin)) (DownloadMessage Sample.identity)
    = (holding (Sample.json, Sample.bin), [m]).
Proof.
  assert (Hs : exists selected,
             w_selected (holding (Sample.json, Sample.bin)) = Some selected)
    by (vm_compute; eexists; reflexivity).
  destruct Hs as [selected Hs].
  destruct (onmessage_build_reply (fun _ => [x7b; x7d]) sampleMoment
              (holding (Sample.json, Sample.bin)) Sample.json Sample.bin selected
              Sample.identity eq_refl eq_refl Hs) as (replyFor & Hd & _).
  exists (replyFor Download). exact Hd.
Defined.

Lemma runWorker_app jsonText st a b :
  runWorker jsonText st (a ++ b)
  = (fst (runWorker jsonText (fst (runWorker jsonText st a)) b),
     snd (runWorker jsonText st a)
     ++ snd (runWorker jsonText (fst (runWorker jsonText st a)) b)).
Proof.
  revert st. induction a as [|[now data] a IH]; intros st.
  - simpl. destruct (runWorker jsonText st b); reflexivity.
  - rewrite <- app_comm_cons, !runWorker_cons, IH. reflexivity.
Qed.

(** The reply to the message that follows [before]. *)
Lemma runWorker_reply jsonText before now data after :
  snd (runWorker jsonText initialWorker (before ++ (now, data) :: after)) !! length before
  = Some (snd (onmessage jsonText now
                 match lastCapture before with
                 | Some c => holding c
                 | None => initialWorker
                 end data)).
Proof.
  rewrite runWorker_app, runWorker_cons. cbn [snd].
  rewrite <- (proj1 (runWorker_replies jsonText before initialWorker)).
  rewrite list_lookup_middle by reflexivity.
  rewrite (runWorker_final jsonText before initialWorker None eq_refl). reflexivity.
Qed.

(** A reply of a build is neither of the worker's own two errors. *)
Lemma build_reply_not_own_error jsonText now st json bin selected options :
  w_captureJson st = Some json -> w_captureBin st = Some bin ->
  w_selected st = Some selected ->
  forall m,
    (buildPreviewOrSkip jsonText now st options = [m]
     \/ exists purpose, buildAndPost jsonText now st options purpose = [m]) ->
    m <> ErrorOut NoSuitableDraw /\ m <> ErrorOut MissingCaptureData.
Proof.
  intros Hj Hb Hs m Hm.
  assert (Hbuild : forall purpose, buildAndPost jsonText now st options purpose = [m] ->
            m <> ErrorOut NoSuitableDraw /\ m <> ErrorOut MissingCaptureData).
  { intros purpose H.
    pose proof (buildAndPost_reply jsonText now st json bin selected options purpose Hj Hb Hs)
      as Hr.
    destruct (buildGltf bin selected options) as [g|e].
    - destruct Hr as (built & glb & _ & _ & Hr). rewrite Hr in H.
      assert (E : m = builtReply purpose selected glb ("mesh_" +:+ stampOf (clock now) +:+ ".glb"))
        by congruence.
      rewrite E. unfold builtReply. split; discriminate.
    - rewrite Hr in H. assert (E : m = ErrorOut (MessageOf (Raised e))) by congruence.
      rewrite E. split; discriminate. }
  destruct Hm as [Hm|[purpose Hm]]; [|exact (Hbuild purpose Hm)].
  rewrite (buildPreviewOrSkip_eq _ _ _ _ _ _ _ Hj Hb Hs) in Hm.
  destruct (MAX_PREVIEW_BYTES <? lengthZ bin); [|exact (Hbuild Preview Hm)].
  assert (E : m = skippedReply selected (lengthZ bin)) by congruence.
  rewrite E. unfold skippedReply. split; discriminate.
Qed.

(** X20.  In any run of the worker from its initial state, the reply to
    a [load] or [store] message is the error of the missing draw call
    exactly when [pickMainDrawCall] finds no draw call in the capture of
    the message; the reply to a [rebuild] or [download] message is the
    error of the missing capture data exactly when no [load] or [store]
    message came before it, or the most recent one had a capture in
    which no draw call was found (even if an earlier capture had one).
    Neither error is posted in any other case. *)
Theorem runWorker_own_errors jsonText before now data after :
  exists m,
    snd (runWorker jsonText initialWorker (before ++ (now, data) :: after)) !! length before
    = Some [m] /\
    match data with
    | LoadMessage json _ _ | StoreMessage json _ =>
        (m = ErrorOut NoSuitableDraw <-> pickMainDrawCall json = None) /\
        m <> ErrorOut MissingCaptureData
    | RebuildMessage _ | DownloadMessage _ =>
        (m = ErrorOut MissingCaptureData <-> lastSelection before = None) /\
        m <> ErrorOut NoSuitableDraw
    end.
Proof.
  rewrite runWorker_reply.
  set (st := match lastCapture before with
             | Some c => holding c
             | None => initialWorker
             end).
  assert (Hst : w_selected st = lastSelection before /\
                (forall selected, w_selected st = Some selected ->
                   exists json bin, w_captureJson st = Some json /\ w_captureBin st = Some bin)).
  { subst st. unfold lastSelection. destruct (lastCapture before) as [[json bin]|]; simpl.
    - split; [reflexivity|]. eauto.
    - split; [reflexivity|]. discriminate. }
  destruct Hst as [Hsel Hheld].
  destruct (onmessage_one jsonText now st data) as [m Hm]. exists m. rewrite Hm.
  split; [reflexivity|].
  assert (Hrequest : forall out,
            (out = buildPreviewOrSkip jsonText now st
             \/ out = fun options => buildAndPost jsonText now st options Download) ->
            forall options,
              (if missingCapture st then postError MissingCaptureData else out options) = [m] ->
              (m = ErrorOut MissingCaptureData <-> lastSelection before = None) /\
              m <> ErrorOut NoSuitableDraw).
  { intros out Hout options H. rewrite <- Hsel.
    destruct (w_selected st) as [selected|] eqn:Hs.
    - destruct (Hheld selected eq_refl) as (json & bin & Hj & Hb).
      rewrite (missingCapture_false _ _ _ _ Hj Hb Hs) in H.
      destruct (build_reply_not_own_error jsonText now st json bin selected options Hj Hb Hs m)
        as [H1 H2].
      { destruct Hout as [-> | ->]; [left; exact H|right; exists Download; exact H]. }
      split; [|exact H1]. split; [contradiction|discriminate].
    - assert (Hmiss : missingCapture st = true).
      { unfold missingCapture. rewrite Hs.
        destruct (w_captureJson st), (w_captureBin st); reflexivity. }
      rewrite Hmiss in H. unfold postError in H.
      assert (E : m = ErrorOut MissingCaptureData) by congruence.
      rewrite E. split; [tauto|discriminate]. }
  destruct data as [json bin options|json bin|options|options]; cbn [onmessage w_selected] in Hm.
  - destruct (pickMainDrawCall json) as [selected|] eqn:Hs; cbn [snd] in Hm.
    + destruct (build_reply_not_own_error jsonText now
                  {| w_captureJson := Some json; w_captureBin := Some bin;
                     w_selected := Some selected |}
                  json bin selected options eq_refl eq_refl eq_refl m (or_introl Hm))
        as [H1 H2].
      split; [|exact H2]. split; [contradiction|discriminate].
    + unfold postError in Hm. assert (E : m = ErrorOut NoSuitableDraw) by congruence.
      rewrite E. split; [tauto|discriminate].
  - destruct (pickMainDrawCall json) as [selected|] eqn:Hs; cbn [snd] in Hm.
    + assert (E : m = storedReply selected) by (unfold storedReply; congruence).
      rewrite E. unfold storedReply. split; [|discriminate]. split; discriminate.
    + unfold postError in Hm. assert (E : m = ErrorOut NoSuitableDraw) by congruence.
      rewrite E. split; [tauto|discriminate].
  - apply (Hrequest (buildPreviewOrSkip jsonText now st) (or_introl eq_refl) options).
    destruct (missingCapture st); exact Hm.
  - apply (Hrequest (fun options => buildAndPost jsonText now st options Download)
                    (or_intror eq_refl) options).
    destruct (missingCapture st); exact Hm.
Qed.

(** ** Witnesses of the bounds theorems *)

(** X8 on the sample capture. *)
Lemma buildGltfFile_normal_bounds_witness :
  exists built g,
    buildGltfFile quietNaN "2024-01-02T03:04:05.678Z" Sample.bin Sample.selected Sample.identity
    = Returns built /\
    buildGltf Sample.bin Sample.selected Sample.identity = Ok g /\
    forall normals, g_normals g = Some normals ->
      forall x, x ∈ normals -> (-1 <=? x)%float = true /\ (x <=? 1)%float = true.
Proof.
  assert (H : exists built,
             buildGltfFile quietNaN "2024-01-02T03:04:05.678Z" Sample.bin Sample.selected Sample.identity
             = Returns built) by (vm_compute; eexists; reflexivity).
  destruct H as [built H].
  destruct (buildGltfFile_normal_bounds _ _ _ _ _ _ H) as (g & Hg & Hn).
  exists built, g. split; [exact H|]. split; [exact Hg|].
  intros normals Hnormals. apply (Hn normals Hnormals).
Defined.

(** X9 on the sample capture. *)
Lemma buildGltfFile_uv_bounds_witness :
  exists built g,
    buildGltfFile quietNaN "2024-01-02T03:04:05.678Z" Sample.bin Sample.selected Sample.identity
    = Returns built /\
    buildGltf Sample.bin Sample.selected Sample.identity = Ok g /\
    forall uvs, g_uvs g = Some uvs ->
      forall x, x ∈ uvs -> (0 <=? x)%float = true /\ (x <=? 1)%float = true.
Proof.
  assert (H : exists built,
             buildGltfFile quietNaN "2024-01-02T03:04:05.678Z" Sample.bin Sample.selected Sample.identity
             = Returns built) by (vm_compute; eexists; reflexivity).
  destruct H as [built H].
  destruct (buildGltfFile_uv_bounds _ _ _ _ _ _ H) as (g & Hg & Hu).
  exists built, g. split; [exact H|]. split; [exact Hg|].
  intros uvs Huvs. apply (Hu uvs Huvs).
Defined.

(** X7 on the sample capture. *)
Lemma buildGltfFile_position_bounds_witness :
  exists built acc lo hi,
    buildGltfFile quietNaN "2024-01-02T03:04:05.678Z" Sample.bin Sample.selected Sample.identity
    = Returns built /\
    doc_accessors (gltfJsonObj built) !! 1%nat = Some acc /\
    acc_min acc = Some lo /\ acc_max acc = Some hi /\
    length lo = 3%nat /\ length hi = 3%nat.
Proof.
  assert (H : exists built,
             buildGltfFile quietNaN "2024-01-02T03:04:05.678Z" Sample.bin Sample.selected Sample.identity
             = Returns built) by (vm_compute; eexists; reflexivity).
  destruct H as [built H].
  destruct (buildGltfFile_position_bounds _ _ _ _ _ _ H)
    as (g & posA & posBuf & acc & lo & hi & vs & _ & _ & _ & _ & _ & Ha & Hlo & Hhi & Hl & Hh & _).
  exists built, acc, lo, hi. split_and!; assumption.
Defined.

(** * The packed arrays, read back *)

(** ** Digits and shifts *)

Lemma Zdigits2_spec (M : Z) :
  0 <= M ->
  (M = 0 /\ Zdigits2 M = 0)
  \/ (0 < Zdigits2 M /\ 2 ^ (Zdigits2 M - 1) <= M < 2 ^ Zdigits2 M).
Proof.
  intros HM. destruct M as [|p|p]; [left; split; reflexivity| |lia].
  right. simpl. split; [lia|]. apply digits2_pos_bounds.
Qed.

Lemma Zdigits2_unique (M d : Z) :
  0 < d -> 2 ^ (d - 1) <= M < 2 ^ d -> Zdigits2 M = d.
Proof.
  intros Hd HM.
  assert (H0 : 0 < 2 ^ (d - 1)) by (apply Z.pow_pos_nonneg; lia).
  destruct (Zdigits2_spec M ltac:(lia)) as [[-> _]|[Hk Hb]]; [lia|].
  destruct (Z.lt_trichotomy (Zdigits2 M) d) as [H|[H|H]]; [exfalso|exact H|exfalso].
  - assert (2 ^ Zdigits2 M <= 2 ^ (d - 1)) by (apply Z.pow_le_mono_r; lia). lia.
  - assert (2 ^ d <= 2 ^ (Zdigits2 M - 1)) by (apply Z.pow_le_mono_r; lia). lia.
Qed.

Lemma Zdigits2_nonneg (M : Z) : 0 <= Zdigits2 M.
Proof. destruct M; simpl; lia. Qed.

Lemma Zdigits2_mono (a b : Z) : 0 <= a <= b -> Zdigits2 a <= Zdigits2 b.
Proof.
  intros Hab.
  destruct (Zdigits2_spec a ltac:(lia)) as [[-> _]|[Ha Hba]]; [apply Zdigits2_nonneg|].
  destruct (Zdigits2_spec b ltac:(lia)) as [[-> _]|[Hb Hbb]]; [lia|].
  destruct (Z_le_gt_dec (Zdigits2 a) (Zdigits2 b)) as [H|H]; [exact H|exfalso].
  assert (2 ^ Zdigits2 b <= 2 ^ (Zdigits2 a - 1)) by (apply Z.pow_le_mono_r; lia). lia.
Qed.

Lemma shr_1_m (r : shr_record) : 0 <= shr_m r -> shr_m (shr_1 r) = shr_m r / 2.
Proof.
  destruct r as [m r s]. simpl. intros Hm.
  destruct m as [|[p|p|]|p]; simpl shr_m; try reflexivity; try lia.
  - rewrite Pos2Z.inj_xI. Z.div_mod_to_equations. lia.
  - rewrite Pos2Z.inj_xO. Z.div_mod_to_equations. lia.
Qed.

Lemma iter_shr_1_m (p : positive) (r : shr_record) :
  0 <= shr_m r -> shr_m (SpecFloat.iter_pos shr_1 p r) = shr_m r / 2 ^ Zpos p.
Proof.
  revert r. induction p as [p IH|p IH|]; intros r Hm; simpl SpecFloat.iter_pos.
  - pose proof (Z.pow_pos_nonneg 2 (Zpos p) ltac:(lia) ltac:(lia)) as Hp.
    assert (E : 2 ^ Zpos p~1 = 2 * (2 ^ Zpos p * 2 ^ Zpos p)).
    { replace (Zpos p~1) with (Zpos p + Zpos p + 1) by lia.
      rewrite !Z.pow_add_r by lia. change (2 ^ 1) with 2. ring. }
    rewrite IH by (apply iter_pos_shr_1_nonneg, shr_1_nonneg, Hm).
    rewrite IH by (apply shr_1_nonneg, Hm). rewrite shr_1_m by exact Hm.
    rewrite !Z.div_div by lia. rewrite E. reflexivity.
  - pose proof (Z.pow_pos_nonneg 2 (Zpos p) ltac:(lia) ltac:(lia)) as Hp.
    assert (E : 2 ^ Zpos p~0 = 2 ^ Zpos p * 2 ^ Zpos p).
    { replace (Zpos p~0) with (Zpos p + Zpos p) by lia.
      rewrite !Z.pow_add_r by lia. reflexivity. }
    rewrite IH by (apply iter_pos_shr_1_nonneg, Hm).
    rewrite IH by exact Hm.
    rewrite !Z.div_div by lia. rewrite E. reflexivity.
  - rewrite shr_1_m by exact Hm. reflexivity.
Qed.

Lemma fexp32 (x : Z) : fexp 24 128 x = Z.max (x - 24) (-149).
Proof. reflexivity. Qed.

(** One normalizing shift of the binary32 rounding: the exponent becomes
    the one the format gives the number, and the mantissa loses as many
    digits as the exponent gained. *)
Lemma shr_fexp_digits (M e : Z) (l : location) :
  0 <= M ->
  let D := Zdigits2 M in
  let n := fexp 24 128 (D + e) - e in
  0 <= n ->
  exists r,
    shr_fexp 24 128 M e l = (r, fexp 24 128 (D + e)) /\
    0 <= shr_m r /\
    (n = 0 -> r = shr_record_of_loc M l) /\
    ((shr_m r = 0 /\ D <= n) \/ Zdigits2 (shr_m r) = D - n).
Proof.
  intros HM D n Hn. unfold shr_fexp, shr. fold D. fold n.
  assert (Hrec : shr_m (shr_record_of_loc M l) = M) by (destruct l as [|[]]; reflexivity).
  destruct n as [|p|p] eqn:En; [| |lia].
  - exists (shr_record_of_loc M l). rewrite Hrec.
    split; [f_equal; lia|]. split; [exact HM|]. split; [reflexivity|].
    right. fold D. lia.
  - exists (SpecFloat.iter_pos shr_1 p (shr_record_of_loc M l)).
    split; [f_equal; lia|].
    split; [apply iter_pos_shr_1_nonneg; rewrite Hrec; exact HM|].
    split; [discriminate|].
    rewrite iter_shr_1_m by (rewrite Hrec; exact HM). rewrite Hrec.
    destruct (Zdigits2_spec M HM) as [[E0 ED]|[HD HB]].
    { left. fold D in ED. split; [rewrite E0; reflexivity|lia]. }
    fold D in HD, HB.
    destruct (Z_le_gt_dec D (Zpos p)) as [Hle|Hgt].
    + left. split; [|exact Hle]. apply Z.div_small. split; [exact HM|].
      assert (2 ^ D <= 2 ^ Zpos p) by (apply Z.pow_le_mono_r; lia). lia.
    + right. apply Zdigits2_unique; [lia|].
      assert (Hp : 0 < 2 ^ Zpos p) by (apply Z.pow_pos_nonneg; lia).
      assert (E1 : 2 ^ (D - 1) = 2 ^ (D - Zpos p - 1) * 2 ^ Zpos p)
        by (rewrite <- Z.pow_add_r by lia; f_equal; lia).
      assert (E2 : 2 ^ D = 2 ^ (D - Zpos p) * 2 ^ Zpos p)
        by (rewrite <- Z.pow_add_r by lia; f_equal; lia).
      split.
      * apply Z.div_le_lower_bound; [exact Hp|]. rewrite Z.mul_comm, <- E1. lia.
      * apply Z.div_lt_upper_bound; [exact Hp|]. rewrite Z.mul_comm, <- E2. lia.
Qed.

Lemma round_nearest_even_cases (m : Z) (l : location) :
  round_nearest_even m l = m \/ round_nearest_even m l = m + 1.
Proof. destruct l as [|[]]; simpl; auto. destruct (Z.even m); auto. Qed.

(** ** Rounding to binary32 gives a binary32 value *)

Lemma binary_round_aux_canonical (s : bool) (mx : positive) (ex : Z) :
  ex <= fexp 24 128 (Zpos (digits2_pos mx) + ex) ->
  let r := binary_round_aux 24 128 s (Zpos mx) ex loc_Exact in
  r = S754_zero s \/ r = S754_infinity s \/
  exists m e,
    r = S754_finite s m e /\ fexp 24 128 (Zpos (digits2_pos m) + e) = e /\ e <= 104.
Proof.
  intros Hex r. subst r. unfold binary_round_aux.
  destruct (shr_fexp_digits (Zpos mx) ex loc_Exact ltac:(lia) ltac:(simpl Zdigits2; lia))
    as (r1 & E1 & Hr1 & _ & Hd1).
  rewrite E1. simpl Zdigits2 in *.
  set (d := Zpos (digits2_pos mx)) in *.
  set (e1 := fexp 24 128 (d + ex)) in *.
  set (M2 := round_nearest_even (shr_m r1) (loc_of_shr_record r1)).
  assert (HM2 : shr_m r1 <= M2)
    by (subst M2; destruct (round_nearest_even_cases (shr_m r1) (loc_of_shr_record r1)); lia).
  assert (Hn2 : 0 <= fexp 24 128 (Zdigits2 M2 + e1) - e1).
  { pose proof (Zdigits2_mono (shr_m r1) M2 ltac:(lia)) as Hmono.
    pose proof (Zdigits2_nonneg M2).
    subst e1. unfold fexp, emin in *.
    destruct Hd1 as [[H0 Hle]|Hd1]; lia. }
  destruct (shr_fexp_digits M2 e1 loc_Exact ltac:(lia) Hn2) as (r2 & E2 & Hr2 & _ & Hd2).
  rewrite E2.
  destruct (shr_m r2) as [|m|m] eqn:Em; [left; reflexivity| |lia].
  right. destruct (Z.leb_spec (fexp 24 128 (Zdigits2 M2 + e1)) (128 - 24)) as [Hle|Hgt];
    [right|left; reflexivity].
  exists m, (fexp 24 128 (Zdigits2 M2 + e1)). split; [reflexivity|]. split; [|lia].
  destruct Hd2 as [[H _]|Hd2]; [discriminate|]. simpl Zdigits2 in Hd2. rewrite Hd2.
  f_equal. lia.
Qed.

Lemma binary_round_canonical (s : bool) (mx : positive) (ex : Z) :
  let r := binary_round 24 128 s mx ex in
  r = S754_zero s \/ r = S754_infinity s \/
  exists m e,
    r = S754_finite s m e /\ fexp 24 128 (Zpos (digits2_pos m) + e) = e /\ e <= 104.
Proof.
  unfold binary_round, shl_align.
  destruct (fexp 24 128 (Zpos (digits2_pos mx) + ex) - ex) as [|k|k] eqn:Ek.
  - apply binary_round_aux_canonical. lia.
  - apply binary_round_aux_canonical. lia.
  - apply binary_round_aux_canonical.
    destruct (iter_xO_spec mx k) as [_ Hdig].
    change (PosDef.Pos.iter xO mx k) with (Pos.iter xO mx k).
    rewrite Hdig, Pos2Z.inj_add.
    replace (Zpos (digits2_pos mx) + Zpos k + fexp 24 128 (Zpos (digits2_pos mx) + ex))
      with (Zpos (digits2_pos mx) + ex) by lia.
    lia.
Qed.

(** ** The double that holds a binary32 value *)

Lemma binary_normalize_53 (p : positive) :
  Zpos p < 2 ^ 53 ->
  exists m,
    binary_normalize prec emax (Zpos p) 0 false
    = S754_finite false m (Zpos (digits2_pos p) - 53) /\
    Zpos (digits2_pos m) = 53 /\
    Zpos m = Zpos p * 2 ^ (53 - Zpos (digits2_pos p)).
Proof.
  intros Hp. pose proof (digits2_pos_bounds p) as Hd.
  set (d := Zpos (digits2_pos p)) in *.
  assert (Hd53 : 1 <= d <= 53).
  { split; [subst d; lia|]. destruct (Z_le_gt_dec d 53) as [H|H]; [exact H|exfalso].
    assert (2 ^ 53 <= 2 ^ (d - 1)) by (apply Z.pow_le_mono_r; lia). lia. }
  unfold binary_normalize, binary_round.
  replace (fexp prec emax (Zpos (digits2_pos p) + 0)) with (d - 53)
    by (fold d; unfold fexp, emin, prec, emax; lia).
  unfold shl_align.
  destruct (d - 53 - 0) as [|k|k] eqn:Ek; [| lia |].
  - exists p. replace (d - 53) with 0 by lia. split; [|split; [fold d; lia|]].
    + apply binary_round_aux_exact; [fold d; lia|lia].
    + replace (53 - d) with 0 by lia. simpl. lia.
  - destruct (iter_xO_spec p k) as [Hv Hdig].
    exists (Pos.iter xO p k). split; [|split].
    + apply binary_round_aux_exact; [|lia].
      rewrite Hdig, Pos2Z.inj_add. fold d. lia.
    + rewrite Hdig, Pos2Z.inj_add. fold d. lia.
    + rewrite Hv. f_equal. f_equal. lia.
Qed.

(** A binary32 value, held as a double: the same number with its
    mantissa brought to 53 digits. *)
Lemma Prim2SF_binary32 (s : bool) (m : positive) (e : Z) :
  fexp 24 128 (Zpos (digits2_pos m) + e) = e -> e <= 104 ->
  exists m1,
    Prim2SF (SF2Prim (S754_finite s m e))
    = S754_finite s m1 (e + Zpos (digits2_pos m) - 53) /\
    Zpos (digits2_pos m1) = 53 /\
    Zpos m1 = Zpos m * 2 ^ (53 - Zpos (digits2_pos m)) /\
    1 <= Zpos (digits2_pos m) <= 24 /\ -149 <= e /\
    (Zpos (digits2_pos m) < 24 -> e = -149).
Proof.
  intros Hc He. pose proof (digits2_pos_bounds m) as Hb.
  set (d := Zpos (digits2_pos m)) in *.
  assert (Hd : 1 <= d <= 24 /\ -149 <= e /\ (d < 24 -> e = -149)).
  { unfold fexp, emin in Hc. subst d. lia. }
  assert (Hm : Zpos m < 2 ^ 53).
  { assert (2 ^ d <= 2 ^ 53) by (apply Z.pow_le_mono_r; lia). lia. }
  destruct (binary_normalize_53 m Hm) as (m1 & Hn & Hd1 & Hv). fold d in Hn, Hv.
  exists m1.
  assert (Hf : Prim2SF (Z.ldexp (of_uint63 (Uint63.of_Z (Zpos m))) e)
               = S754_finite false m1 (e + d - 53)).
  { rewrite Z_ldexp_spec, Prim2SF_of_Z_pos, Hn.
    2:{ assert (2 ^ 53 < 2 ^ 63) by reflexivity. lia. }
    simpl SFldexp. unfold binary_round. rewrite Hd1.
    replace (fexp prec emax (53 + (d - 53 + e))) with (d - 53 + e)
      by (unfold fexp, emin, prec, emax; lia).
    unfold shl_align. rewrite Z.sub_diag.
    replace (d - 53 + e) with (e + d - 53) by lia.
    apply binary_round_aux_exact; [exact Hd1|lia]. }
  split; [|split; [exact Hd1|split; [exact Hv|exact Hd]]].
  cbn [SF2Prim]. destruct s.
  - rewrite opp_spec, Hf. reflexivity.
  - exact Hf.
Qed.

(** ** The pattern written for a NaN *)

Lemma nanPattern_fields (choice : Z) :
  exists (sgn : bool) (F : Z),
    0 < F < 2 ^ 23 /\
    nanPattern choice = (if sgn then 2 ^ 31 else 0) + 255 * 2 ^ 23 + F.
Proof.
  unfold nanPattern. cbv zeta.
  exists (Z.testbit choice 31).
  assert (H : 0 <= Z.land choice (2 ^ 23 - 1) < 2 ^ 23).
  { change (2 ^ 23 - 1) with (Z.ones 23). rewrite Z.land_ones by lia.
    apply Z.mod_pos_bound. reflexivity. }
  destruct (Z.eqb_spec (Z.land choice (2 ^ 23 - 1)) 0) as [E|E].
  - exists (2 ^ 22). split; [split; reflexivity|reflexivity].
  - exists (Z.land choice (2 ^ 23 - 1)). split; [lia|reflexivity].
Qed.

(** Every NaN pattern can be the engine's choice. *)
Lemma nanPattern_fixed (sgn : bool) (F : Z) :
  0 < F < 2 ^ 23 ->
  nanPattern ((if sgn then 2 ^ 31 else 0) + 255 * 2 ^ 23 + F)
  = (if sgn then 2 ^ 31 else 0) + 255 * 2 ^ 23 + F.
Proof.
  intros HF. unfold nanPattern. cbv zeta.
  destruct (bits_fields sgn 255 F ltac:(lia) ltac:(lia)) as (H1 & _ & H3).
  cbv zeta in H1, H3. rewrite H1, H3.
  destruct (Z.eqb_spec F 0); [lia|reflexivity].
Qed.

Lemma float32OfBits_nanPattern (choice : Z) : float32OfBits (nanPattern choice) = nan.
Proof.
  destruct (nanPattern_fields choice) as (sgn & F & HF & ->).
  destruct (bits_fields sgn 255 F ltac:(lia) ltac:(lia)) as (H1 & H2 & H3).
  cbv zeta in H1, H2, H3. unfold float32OfBits. cbv zeta. rewrite H2, H3.
  simpl (255 =? 255). cbv iota.
  destruct (Z.eqb_spec F 0); [lia|reflexivity].
Qed.

(** ** Writing a binary32 value and reading it back *)

(** The pattern written for a finite binary32 value: its sign, its
    exponent field and its fraction; and the value is read back from
    it. *)
Lemma float32Bits_binary32 (c : Z) (s : bool) (m : positive) (e : Z) :
  fexp 24 128 (Zpos (digits2_pos m) + e) = e -> e <= 104 ->
  exists E F,
    0 <= E < 255 /\ 0 <= F < 2 ^ 23 /\
    float32Bits c (SF2Prim (S754_finite s m e)) = (if s then 2 ^ 31 else 0) + E * 2 ^ 23 + F /\
    float32OfBits ((if s then 2 ^ 31 else 0) + E * 2 ^ 23 + F) = SF2Prim (S754_finite s m e).
Proof.
  intros Hc He.
  destruct (Prim2SF_binary32 s m e Hc He) as (m1 & HP & Hd1 & Hv & Hd & Hlo & Hsub).
  pose proof (digits2_pos_bounds m) as Hbm. pose proof (digits2_pos_bounds m1) as Hbm1.
  set (d := Zpos (digits2_pos m)) in *. rewrite Hd1 in Hbm1.
  assert (Hlog : Z.log2 (Zpos m1) = 52) by (apply Z.log2_unique; [lia|exact Hbm1]).
  assert (Hshift : Z.shiftl (Zpos m1) (d - 53) = Zpos m).
  { replace (d - 53) with (- (53 - d)) by lia.
    rewrite Z.shiftl_opp_r, Z.shiftr_div_pow2 by lia. rewrite Hv.
    apply Z.div_mul. apply Z.pow_nonzero; lia. }
  unfold float32Bits. rewrite HP. cbv zeta. rewrite Hlog.
  destruct (Z_lt_le_dec d 24) as [Hlt|Hge].
  - (* subnormal *)
    assert (E : e = -149) by (apply Hsub, Hlt). subst e.
    destruct (Z.ltb_spec (52 + (-149 + d - 53)) (-126)) as [_|H]; [|lia].
    replace (-149 + d - 53 + 149) with (d - 53) by lia. rewrite Hshift.
    assert (Hm23 : Zpos m < 2 ^ 23).
    { assert (2 ^ d <= 2 ^ 23) by (apply Z.pow_le_mono_r; lia). lia. }
    exists 0, (Zpos m). split; [lia|]. split; [lia|]. split; [lia|].
    destruct (bits_fields s 0 (Zpos m) ltac:(lia) ltac:(lia)) as (H1 & H2 & H3).
    cbv zeta in H1, H2, H3.
    unfold float32OfBits. cbv zeta. rewrite H1, H2, H3. reflexivity.
  - (* normal *)
    assert (Ed : d = 24) by lia. rewrite Ed in *.
    change (2 ^ (24 - 1)) with (2 ^ 23) in Hbm.
    destruct (Z.ltb_spec (52 + (e + 24 - 53)) (-126)) as [H|_]; [lia|].
    replace (23 - 52) with (24 - 53) by lia. rewrite Hshift.
    assert (Hm24 : Zpos m < 2 ^ 23 + 2 ^ 23) by (change (2 ^ 23 + 2 ^ 23) with (2 ^ 24); lia).
    exists (e + 150), (Zpos m - 2 ^ 23). split; [lia|]. split; [lia|]. split; [lia|].
    destruct (bits_fields s (e + 150) (Zpos m - 2 ^ 23) ltac:(lia) ltac:(lia))
      as (H1 & H2 & H3).
    cbv zeta in H1, H2, H3.
    unfold float32OfBits. cbv zeta. rewrite H1, H2, H3.
    destruct (Z.eqb_spec (e + 150) 255) as [H|_]; [lia|].
    destruct (Z.eqb_spec (e + 150) 0) as [H|_]; [lia|].
    replace (2 ^ 23 + (Zpos m - 2 ^ 23)) with (Zpos m) by lia.
    replace (e + 150 - 150) with e by lia. reflexivity.
Qed.

(** What a [Float32Array] element holds is written as a 32-bit pattern
    and read back from it: for every number [y], whatever NaN the
    engine chooses. *)
Lemma float32Bits_fround (c : Z) (y : float) :
  0 <= float32Bits c (fround y) < 2 ^ 32 /\
  float32OfBits (float32Bits c (fround y)) = fround y.
Proof.
  assert (Hfields : forall (s : bool) E F,
            0 <= E < 256 -> 0 <= F < 2 ^ 23 ->
            0 <= (if s then 2 ^ 31 else 0) + E * 2 ^ 23 + F < 2 ^ 32).
  { intros s E F HE HF. change (2 ^ 31) with 2147483648. change (2 ^ 23) with 8388608 in *.
    change (2 ^ 32) with 4294967296. destruct s; lia. }
  unfold fround. destruct (Prim2SF y) as [s|s| |s m e] eqn:Ey.
  - unfold float32Bits. rewrite Ey. split.
    + destruct s; split; discriminate || reflexivity.
    + rewrite <- (SF2Prim_Prim2SF y), Ey. destruct s; reflexivity.
  - unfold float32Bits. rewrite Ey. split.
    + destruct s; split; discriminate || reflexivity.
    + rewrite <- (SF2Prim_Prim2SF y), Ey. destruct s; reflexivity.
  - unfold float32Bits. rewrite Ey. split.
    + destruct (nanPattern_fields c) as (sgn & F & HF & ->). apply Hfields; lia.
    + rewrite <- (SF2Prim_Prim2SF y), Ey. apply float32OfBits_nanPattern.
  - destruct (binary_round_canonical s m e) as [H|[H|(m' & e' & H & Hc & He)]];
      cbv zeta in H; rewrite H.
    + destruct s; (split; [split; discriminate || reflexivity|reflexivity]).
    + destruct s; (split; [split; discriminate || reflexivity|reflexivity]).
    + destruct (float32Bits_binary32 c s m' e' Hc He) as (E & F & HE & HF & Hb & Hr).
      rewrite Hb. split; [apply Hfields; lia|exact Hr].
Qed.

(** The four bytes written for an element stand for the number it
    holds. *)
Lemma scalarOfBytes_float32Bits (c : Z) (x : float) :
  isFloat32 x -> scalarOfBytes 5126 (u32le (float32Bits c x)) = Some x.
Proof.
  intros [y ->]. destruct (float32Bits_fround c y) as [Hr Hx].
  rewrite (decodeScalar_scalarOfBytes 5126 (u32le (float32Bits c (fround y)))
             ltac:(unfold supported; lia) ltac:(reflexivity)).
  unfold decodeScalar. change (5126 =? 5126) with true. cbv iota.
  rewrite leValue_u32le, Z.mod_small by exact Hr. rewrite Hx. reflexivity.
Qed.

(** ** The float arrays of a built scene *)

Lemma sliceOf_app_skip (b rest : list byte) (off len : Z) :
  0 <= off -> sliceOf (b ++ rest) (lengthZ b + off) len = sliceOf rest off len.
Proof.
  intros Hoff. unfold sliceOf, lengthZ.
  replace (Z.to_nat (Z.of_nat (length b) + off)) with (length b + Z.to_nat off)%nat by lia.
  rewrite drop_app_add. reflexivity.
Qed.

Lemma float32Bytes_slice (choice : nat -> Z) (a : list float) (k : nat) (x : float) :
  a !! k = Some x ->
  sliceOf (float32Bytes choice a) (4 * Z.of_nat k) 4 = u32le (float32Bits (choice k) x).
Proof.
  revert choice k. induction a as [|x' a IH]; intros choice k Hk; [discriminate|].
  rewrite float32Bytes_cons. destruct k as [|k].
  - injection Hk as ->. apply sliceOf_start. reflexivity.
  - simpl in Hk.
    replace (4 * Z.of_nat (S k)) with (lengthZ (u32le (float32Bits (choice 0%nat) x'))
                                          + 4 * Z.of_nat k)
      by (unfold lengthZ; rewrite length_u32le; lia).
    rewrite sliceOf_app_skip by lia. apply (IH (choice ∘ S) k Hk).
Qed.

Lemma float32Array_float32Bytes (choice : nat -> Z) (a : list float) :
  Forall isFloat32 a -> float32Array (float32Bytes choice a) a.
Proof.
  intros Ha. split; [apply lengthZ_float32Bytes|].
  intros k x Hk. rewrite (float32Bytes_slice _ _ _ _ Hk).
  apply scalarOfBytes_float32Bits.
  rewrite Forall_forall in Ha. apply Ha. eapply list_elem_of_lookup_2, Hk.
Qed.

(** The arrays of a decoded geometry hold float32 values. *)
Lemma buildGltf_float32 dv selected options g :
  buildGltf dv selected options = Ok g ->
  Forall isFloat32 (g_positions g) /\
  Forall isFloat32 (default [] (g_normals g)) /\
  Forall isFloat32 (default [] (g_uvs g)).
Proof.
  intros (posA & posBuf & idxBuf & _ & _ & _ & ->)%buildGltf_Ok_inv.
  unfold gltfValue. cbn [g_positions g_normals g_uvs].
  split_and!.
  - apply Forall_forall. intros x (v & y & _ & _ & ->)%elem_of_storeVec3. exists y. reflexivity.
  - match goal with |- context [o_normals ?o] => destruct (o_normals o) as [n|] end;
      [|constructor]. simpl.
    apply Forall_forall. intros x (v & y & _ & _ & ->)%elem_of_storeVec3. exists y. reflexivity.
  - match goal with |- context [o_uvs ?o] => destruct (o_uvs o) as [u|] end;
      [|constructor]. simpl.
    apply Forall_forall. intros x (v & y & _ & _ & ->)%elem_of_storeVec2. exists y. reflexivity.
Qed.

(** A float that lies in a slice of a buffer is read from the buffer at
    the offset of the slice. *)
Lemma readScalar_float_slice (bin bytes : list byte) (off len : Z) (k : nat) (x : float) :
  0 <= off -> sliceOf bin off len = bytes -> lengthZ bytes = len ->
  4 * Z.of_nat k + 4 <= len ->
  scalarOfBytes 5126 (sliceOf bytes (4 * Z.of_nat k) 4) = Some x ->
  readScalar bin (off + 4 * Z.of_nat k) 5126 = Ok x.
Proof.
  intros Hoff Hs Hlen Hk Hx.
  assert (Hbin : (Z.to_nat off + Z.to_nat len <= length bin)%nat).
  { subst bytes. unfold sliceOf, lengthZ in Hlen.
    rewrite length_take, length_drop in Hlen. lia. }
  assert (Hslice : sliceOf bin (off + 4 * Z.of_nat k) 4 = sliceOf bytes (4 * Z.of_nat k) 4).
  { subst bytes. unfold sliceOf.
    rewrite skipn_firstn_comm, take_take, drop_drop.
    f_equal; [lia|]. f_equal. lia. }
  rewrite <- Hslice in Hx.
  assert (Hin : inBounds bin (off + 4 * Z.of_nat k) (componentWidth 5126)).
  { change (componentWidth 5126) with 4. unfold inBounds, lengthZ. lia. }
  rewrite (readScalar_inBounds bin _ 5126 ltac:(unfold supported; lia) Hin).
  rewrite (decodeScalar_scalarOfBytes 5126 _ ltac:(unfold supported; lia)) in Hx.
  - apply (inj Some) in Hx. unfold sliceOf in Hx. change (componentWidth 5126) with 4.
    rewrite Hx. reflexivity.
  - change (componentWidth 5126) with 4. unfold sliceOf, lengthZ.
    rewrite length_take, length_drop. lia.
Qed.

(** What a reader of the scene finds under an accessor of floats. *)
Lemma accessorData_read (built : BuiltGltf) (i : Z) (acc : Accessor) (bv : BufferView)
    (choice : nat -> Z) (a : list float) :
  accessorData built i = Some (acc, bv, float32Bytes choice a) ->
  0 <= bv_byteOffset bv -> bv_byteLength bv = 4 * lengthZ a ->
  Forall isFloat32 a ->
  forall (k : nat) (x : float),
    a !! k = Some x ->
    readScalar (binU8 built) (bv_byteOffset bv + 4 * Z.of_nat k) 5126 = Ok x.
Proof.
  intros Hd Hoff Hlen Ha k x Hk.
  assert (Hs : sliceOf (binU8 built) (bv_byteOffset bv) (bv_byteLength bv)
               = float32Bytes choice a).
  { unfold accessorData in Hd.
    destruct (doc_accessors (gltfJsonObj built) !! Z.to_nat i) as [acc'|]; [|discriminate].
    simpl in Hd.
    destruct (doc_bufferViews (gltfJsonObj built) !! Z.to_nat (acc_bufferView acc'))
      as [bv'|]; [|discriminate].
    simpl in Hd. congruence. }
  apply (readScalar_float_slice _ _ _ _ _ _ Hoff Hs).
  - rewrite lengthZ_float32Bytes. lia.
  - apply lookup_lt_Some in Hk. unfold lengthZ in Hlen. lia.
  - apply (float32Array_float32Bytes choice a Ha), Hk.
Qed.

Lemma float32Array_nil : float32Array [] [].
Proof. split; [reflexivity|]. intros k x Hk. discriminate Hk. Qed.

(** X3.  The whole of [buildGltf] throws exactly when its decode
    does, and then the same exception: the packing never fails.  When it
    returns, the binary buffer is the index array, the positions, the
    normals and the UVs (those that are present) in this order with
    nothing between them, four bytes per element.  The bytes of each
    float array stand for the numbers of the array, as binary32 with
    the least significant byte first; an element that is NaN is written
    as the NaN pattern the engine chooses for it.  The buffer entry of
    the scene has the length of that buffer and the name of the [.bin]
    file. *)
Theorem buildGltfFile_bin engine iso dv selected options :
  match buildGltf dv selected options with
  | Err e => buildGltfFile engine iso dv selected options = Throws (Raised e)
  | Ok g =>
      exists built positions normals uvs,
        buildGltfFile engine iso dv selected options = Returns built /\
        binU8 built = uint32Bytes (g_indices g) ++ positions ++ normals ++ uvs /\
        positions = float32Bytes (engine "positions"%string) (g_positions g) /\
        normals = default [] (float32Bytes (engine "normals"%string) <$> g_normals g) /\
        uvs = default [] (float32Bytes (engine "uvs"%string) <$> g_uvs g) /\
        float32Array positions (g_positions g) /\
        float32Array normals (default [] (g_normals g)) /\
        float32Array uvs (default [] (g_uvs g)) /\
        (forall k : nat,
           g_positions g !! k = Some nan ->
           sliceOf positions (4 * Z.of_nat k) 4
           = u32le (nanPattern (engine "positions"%string k))) /\
        lengthZ (binU8 built)
        = 4 * (lengthZ (g_indices g) + lengthZ (g_positions g)
               + lengthZ (default [] (g_normals g)) + lengthZ (default [] (g_uvs g))) /\
        doc_buffers (gltfJsonObj built)
        = [ {| gb_uri := Some (filenames_bin built);
               gb_byteLength := lengthZ (binU8 built) |} ]
  end.
Proof.
  pose proof (buildGltfFile_bin_bytes engine iso dv selected options) as H.
  destruct (buildGltf dv selected options) as [g|e] eqn:Hg; [|exact H].
  destruct H as (built & Hb & Hbin & Hlen & Hbuf).
  destruct (buildGltf_float32 _ _ _ _ Hg) as (FP & FN & FU).
  exists built. do 3 eexists. split; [exact Hb|]. split; [exact Hbin|].
  split; [reflexivity|]. split; [reflexivity|]. split; [reflexivity|].
  split; [apply float32Array_float32Bytes, FP|].
  split; [|split; [|split; [|split; [exact Hlen|exact Hbuf]]]].
  - destruct (g_normals g) as [n|]; simpl in *;
      [apply float32Array_float32Bytes, FN|apply float32Array_nil].
  - destruct (g_uvs g) as [u|]; simpl in *;
      [apply float32Array_float32Bytes, FU|apply float32Array_nil].
  - intros k Hk. apply (float32Bytes_slice _ _ _ _ Hk).
Qed.

(** The bytes of a NaN are those of the pattern the engine chooses: an
    engine that keeps the sign and the payload 1 of a NaN writes 01 00
    c0 ff, and one that writes the quiet NaN with no payload 00 00 c0
    7f. *)
Lemma float32Bytes_nan :
  float32Bytes (fun _ => 0xffc00001) [nan] = [x01; x00; xc0; xff] /\
  float32Bytes (quietNaN "positions"%string) [nan] = [x00; x00; xc0; x7f].
Proof. split; reflexivity. Qed.

(** X4.  The scene that [buildGltf] returns has one primitive, of
    mode 4 (triangles).  Its [indices] accessor and the accessor of each
    attribute ([POSITION], and [NORMAL] and [TEXCOORD_0] when the channel
    was decoded) lead, through their buffer view, to exactly the bytes
    of the matching array; the view starts at a multiple of 4 and is as
    long as the accessor's count times the element size (4, 12, 12 and 8
    bytes), with the component type, the element type and the target
    that the array needs.  Reading the binary buffer at the view of an
    attribute, with the component type of its accessor, gives back
    every number of the array.  A channel that was not decoded has no
    attribute. *)
Theorem buildGltfFile_accessors engine iso dv selected options built :
  buildGltfFile engine iso dv selected options = Returns built ->
  exists g prim,
    buildGltf dv selected options = Ok g /\
    doc_meshes (gltfJsonObj built) = [[prim]] /\
    prim_mode prim = 4 /\
    (exists acc bv,
       accessorData built (prim_indices prim) = Some (acc, bv, uint32Bytes (g_indices g)) /\
       acc_componentType acc = 5125 /\ acc_type acc = "SCALAR"%string /\
       acc_count acc = lengthZ (g_indices g) /\
       bv_target bv = Some 34963 /\
       0 <= bv_byteOffset bv /\ bv_byteOffset bv mod 4 = 0 /\
       bv_byteLength bv = 4 * acc_count acc) /\
    (exists i acc bv,
       prim_attributes prim !! "POSITION"%string = Some i /\
       accessorData built i
       = Some (acc, bv, float32Bytes (engine "positions"%string) (g_positions g)) /\
       acc_componentType acc = 5126 /\ acc_type acc = "VEC3"%string /\
       acc_count acc = g_vertexCount g /\
       bv_target bv = Some 34962 /\
       0 <= bv_byteOffset bv /\ bv_byteOffset bv mod 4 = 0 /\
       bv_byteLength bv = 12 * acc_count acc /\
       forall (k : nat) (x : float),
         g_positions g !! k = Some x ->
         readScalar (binU8 built) (bv_byteOffset bv + 4 * Z.of_nat k)
                    (acc_componentType acc) = Ok x) /\
    match g_normals g with
    | Some normals =>
        exists i acc bv,
          prim_attributes prim !! "NORMAL"%string = Some i /\
          accessorData built i
          = Some (acc, bv, float32Bytes (engine "normals"%string) normals) /\
          acc_componentType acc = 5126 /\ acc_type acc = "VEC3"%string /\
          3 * acc_count acc = lengthZ normals /\
          bv_target bv = Some 34962 /\
          0 <= bv_byteOffset bv /\ bv_byteOffset bv mod 4 = 0 /\
          bv_byteLength bv = 12 * acc_count acc /\
          forall (k : nat) (x : float),
            normals !! k = Some x ->
            readScalar (binU8 built) (bv_byteOffset bv + 4 * Z.of_nat k)
                       (acc_componentType acc) = Ok x
    | None => prim_attributes prim !! "NORMAL"%string = None
    end /\
    match g_uvs g with
    | Some uvs =>
        exists i acc bv,
          prim_attributes prim !! "TEXCOORD_0"%string = Some i /\
          accessorData built i = Some (acc, bv, float32Bytes (engine "uvs"%string) uvs) /\
          acc_componentType acc = 5126 /\ acc_type acc = "VEC2"%string /\
          2 * acc_count acc = lengthZ uvs /\
          bv_target bv = Some 34962 /\
          0 <= bv_byteOffset bv /\ bv_byteOffset bv mod 4 = 0 /\
          bv_byteLength bv = 8 * acc_count acc /\
          forall (k : nat) (x : float),
            uvs !! k = Some x ->
            readScalar (binU8 built) (bv_byteOffset bv + 4 * Z.of_nat k)
                       (acc_componentType acc) = Ok x
    | None => prim_attributes prim !! "TEXCOORD_0"%string = None
    end.
Proof.
  intros Hb.
  destruct (buildGltfFile_accessor_data _ _ _ _ _ _ Hb)
    as (g & prim & Hg & Hm & Hpm & HI & HP & HN & HU).
  destruct (buildGltf_float32 _ _ _ _ Hg) as (FP & FN & FU).
  destruct (buildGltf_lengths _ _ _ _ Hg) as (_ & Hpos & _ & _).
  exists g, prim. split; [exact Hg|]. split; [exact Hm|]. split; [exact Hpm|].
  split; [exact HI|]. split; [|split].
  - destruct HP as (i & acc & bv & Ha & Hd & Hct & Hty & Hcnt & Htg & Hoff & Hmod & Hlen).
    exists i, acc, bv. split_and!; try assumption.
    intros k x Hk. rewrite Hct.
    apply (accessorData_read _ _ _ _ _ _ Hd Hoff ltac:(lia) FP k x Hk).
  - destruct (g_normals g) as [normals|]; [|exact HN]. simpl in FN.
    destruct HN as (i & acc & bv & Ha & Hd & Hct & Hty & Hcnt & Htg & Hoff & Hmod & Hlen).
    exists i, acc, bv. split_and!; try assumption.
    intros k x Hk. rewrite Hct.
    apply (accessorData_read _ _ _ _ _ _ Hd Hoff ltac:(lia) FN k x Hk).
  - destruct (g_uvs g) as [uvs|]; [|exact HU]. simpl in FU.
    destruct HU as (i & acc & bv & Ha & Hd & Hct & Hty & Hcnt & Htg & Hoff & Hmod & Hlen).
    exists i, acc, bv. split_and!; try assumption.
    intros k x Hk. rewrite Hct.
    apply (accessorData_read _ _ _ _ _ _ Hd Hoff ltac:(lia) FU k x Hk).
Qed.

(** X4 on the sample capture: two positions in 24 bytes, and the second
    number of the first position read back from the buffer. *)
Lemma buildGltfFile_accessors_witness :
  exists built,
    buildGltfFile quietNaN "2024-01-02T03:04:05.678Z" Sample.bin Sample.selected Sample.identity
    = Returns built /\
    exists acc bv,
      acc_count acc = 2 /\ bv_byteLength bv = 24 /\
      readScalar (binU8 built) (bv_byteOffset bv + 4) 5126 = Ok 2%float.
Proof.
  assert (H : exists built,
             buildGltfFile quietNaN "2024-01-02T03:04:05.678Z" Sample.bin Sample.selected
                           Sample.identity
             = Returns built) by (vm_compute; eexists; reflexivity).
  destruct H as [built H]. exists built. split; [exact H|].
  destruct (buildGltfFile_accessors _ _ _ _ _ _ H)
    as (g & prim & Hg & _ & _ & _
        & (i & acc & bv & _ & Hd & Hct & _ & Hc & _ & _ & _ & Hl & Hread) & _).
  assert (Hg' : buildGltf Sample.bin Sample.selected Sample.identity = Ok Sample.gltfIdentity)
    by (vm_compute; reflexivity).
  rewrite Hg' in Hg. injection Hg as <-.
  exists acc, bv. rewrite Hl, Hc. split; [reflexivity|]. split; [reflexivity|].
  rewrite <- Hct. apply (Hread 1%nat 2%float). reflexivity.
Defined.
